(* ===== verification/_CoqProject ===== *)
-Q . S2P
Prelude.v
RightsSet.v
Caps.v
Thread.v
Sched.v
Memory.v
PageTable.v
Sv39.v
Paging.v
PagingHw.v
Capacity.v
Bytes.v
Ipc.v
Fault.v
Supervisor.v
Device.v
Loader.v
Network.v
Monitor.v
Kernel.v
Dispatch.v
DispatchLogic.v
DispatchInv.v
DispatchOps.v
DispatchSafe.v
DispatchSys.v
DispatchCtl.v
Trap.v
TrapSafe.v
System.v
IpcRt.v
SchedRt.v
Interrupts.v
UserText.v
UserProg.v
UserLib.v
SvcStorage.v
AppImage.v
SvcLoader.v
SvcNet.v
SvcDriver.v
SvcShell.v
Services.v
OsBoot.v
Authority.v
Events.v
Utf8.v
Host.v
Axiomctl.v
StudioView.v
Studio.v
StudioSafe.v
StudioServer.v
StudioNet.v
Machine.v
Demos.v
Isolation.v
DemoSim.v
DemoRun.v
DemoThms.v
