(* ===== verification/Prelude.v ===== *)
(** * AxiomRT: a verification library for the kernel and its services

    AxiomRT is a small capability-based kernel for RISC-V 64.  Its host-testable
    half (capabilities, threads, scheduler, memory, IPC, faults, devices,
    loader, network vocabulary, monitor) is a set of pure data models; its
    on-target half (Sv39 tables, address spaces, the dispatcher, the trap
    handler) runs them on hardware; and an operating system of sixteen user
    tasks (console, shell, application loader, file, storage, driver and
    network services) is booted on top; smaller builds boot demonstrations
    written in assembly instead.  On the host, [axiomctl] builds, runs and
    checks, and [studio] is a local dashboard; both read the kernel's event
    log.  The sources are under [src/]; below, paths are relative to
    [src/kernel/src] unless they say otherwise.

    ** Reading the model

    A Rust function is a Rocq function.  [Result] is [result], a panic is the
    [Panic] of the [outcome] monad, arrays are lists whose out-of-range access
    panics ([arr_get], [arr_set]), machine integers are [Z] with their wrap or
    check written out ([wrapping], [checked_add], ...).  The dispatcher keeps
    static state, so its functions live in the state monad [Kernel.M], whose
    runs return, stop for good, or crash.  The live trap frame, user memory,
    the serial port and device registers are fields of that state.

    A user task is a [UserProg.prog]: a tree of system calls whose branches
    are the kernel's possible answers.  A pointer is the list of bytes from it
    to the end of its object, [None] where nothing was written yet, so that a
    read or write out of bounds, or of an unwritten byte, is the visible
    outcome [PWild].  A service is a start sequence and the turn of its
    endless loop; [uwp] gives the traces of calls and answers a turn can have
    when the kernel keeps its contract ([answers]) and answers every call; a
    call that blocks is a run that waits ([uexec], [EWaiting]).  [runs] is a
    finished run, by which services are composed: an exchange of one is
    answered by a run of the other.

    A host program is a [Host.prog]: the same idea, with files, processes,
    the terminal, sockets and a lock as calls, run against an environment that
    may answer anything.  Demonstration tasks are lists of assembly lines
    executed on the kernel state by [Machine.instr], through the page tables
    the kernel built.

    ** Files, parts of the program and theorems

    - [Prelude], [RightsSet], [Bytes]: shared types, tactics and lemmas; the
      interface of a set of rights (an instance per rights type); byte strings.
    - [Caps] ([caps/]): rights, capabilities, the capability table.  A lookup
      succeeds only for a capability inserted there and not revoked; errors
      come in the documented order; derivation never amplifies.
    - [Thread] ([thread/]): the life cycle, and what it allows over time.
    - [Sched] ([sched/]): ring buffers per priority refine lists; selection
      is the head of the highest level; no thread is queued twice.
    - [Memory], [PageTable] ([memory/]): frames with one owner, the page table
      model, isolation over every history.
    - [Sv39], [Paging], [PagingHw] ([arch/riscv64/sv39.rs], [paging.rs],
      [paging_hw.rs]): entry encoding, three-level tables as a function from
      addresses to translations, and the exact view a service gets.
    - [Capacity]: the table budget: for every image of the linked size the
      sixteen pages of an arena suffice, so that no address space is refused.
    - [Ipc] ([ipc/]): rendezvous; messages are conserved, the capability gate
      stands in front.
    - [Fault], [Supervisor] ([fault/], [src/userland/supervisor]): events,
      containment, the wire format and its round trip, the path to the
      supervisor.
    - [Device], [Loader], [Network], [Monitor] ([device/], [loader/],
      [user/image.rs], [network.rs], [monitor/]): access checks and bounds,
      image admission, request vocabularies, bounded rendering of events.
    - [Kernel], [Dispatch], [Trap] ([arch/riscv64/dispatch.rs], [trap.rs],
      [timer.rs], [uart.rs], [syscall/]): the on-target kernel, whole:
      every system call, the scheduler, the watchdog, fault containment,
      the trap handler.
    - [DispatchLogic], [DispatchInv], [DispatchOps], [DispatchSafe],
      [DispatchSys], [DispatchCtl], [TrapSafe]: a weakest precondition for
      [Kernel.M], the invariant [KInv] and the change bound [Safe], and that
      every function preserves them.
    - [System]: boot sequences and runs; no run panics, no run forges a
      capability, no trap writes outside the data window.
    - [IpcRt], [SchedRt]: what the calls do: refusals change nothing, a
      message arrives intact, yield runs the most urgent task, the watchdog
      and kill; and two defects (the shared staging buffer, the zero-capacity
      waiter).
    - [Interrupts]: what raising an interrupt does on each branch, that an
      event kept for a busy driver is received once, and what a restart makes
      of a task.
    - [UserText], [UserProg], [UserLib] ([arch/riscv64/os_boot.rs], as the
      files below): the message constants, user programs and their logic, the
      byte helpers all services share.
    - [SvcStorage], [AppImage], [SvcLoader]: the storage and filesystem
      services answer by their protocols; the image validator
      accepts exactly the records of its grammar, and no single-byte change of
      one; the loader refines its protocol and, the legacy [run] line
      apart, runs only validated images; loading works through all three.
    - [SvcNet], [SvcDriver], [SvcShell]: the drivers, the network service
      (whose counters agree with its driver's as long as neither task is
      restarted alone), the driver manager (a turn makes a bounded number of
      calls and never commands a driver believed dead), the shell (a table of
      commands), the console (a line editor) and the small tasks.
    - [Services]: the sixteen tasks together; none leaves its memory.
    - [OsBoot]: the service table, the grants and [os_boot]; least privilege
      in every reachable state, and no device register is ever written.
    - [Authority]: the services against the grants: every call passes the
      kernel's check except the probes meant to be refused, which are all
      denied.
    - [Events] ([src/tools/axiomctl/src/events.rs]): the log parser, the JSON
      export and the summary; nothing is lost or counted twice, and the lines
      of [Monitor] are parsed back event for event.
    - [Utf8], [Host]: text as the host tools see it; host programs and their
      logic.
    - [Axiomctl] ([src/tools/axiomctl/src/main.rs], [lib.rs]): the command
      table and every command.  Each delegating command runs the programs of
      its row up to the first failure; whatever the machine answers, only the
      documented programs are started.
    - [StudioView], [Studio] ([src/studio/src/main.rs]): the views derived
      from a log and the JSON document, which a reader gets back exactly; the
      request handler, the job thread and start-up.
    - [StudioSafe], [StudioServer], [StudioNet]: what one request can read
      and start, and that it gets one well-framed response; connections and
      jobs interleaved around the lock refine a machine with one job at a
      time, and a job always can finish; the counters of the network service
      reach the dashboard.
    - [Machine], [Demos] ([arch/riscv64/multitask.rs], [preempt.rs],
      [watchdog_demo.rs], [ipc_demo.rs], [cap_demo.rs], [supervisor_demo.rs],
      [demo_full.rs], [user_entry.S], [user/mod.rs], [main.rs]): user code on
      the hart, the bodies and boot sequences of all demonstrations, and the
      kernel entry with its choice by features.
    - [Isolation]: the memory-isolation demonstration from the statics to its
      last line, for each of the three forbidden accesses.
    - [DemoSim], [DemoRun], [DemoThms]: scheduling does not depend on what is
      printed, on message contents, counters or link addresses (a relational
      logic for [Kernel.M]); a demonstration under any build is related to a
      computed machine whose states are all explored; what each of the seven
      demonstrations does, for every build and every schedule.

    ** How the parts interact

    [RightsSet] is the interface the three rights types implement and clients
    use.  The fault channel is an [Ipc] endpoint; the page table model and the
    Sv39 encoding are related in [Sv39]; [Dispatch] builds address spaces with
    [PagingHw], checks device bounds with [Device.access_in_bounds], and
    [Trap] falls back to [Caps.CapTable] through the boot-phase gate.
    [SvcLoader] calls [AppImage] and talks to [SvcStorage] by messages;
    [Services.Safe] is the class each service instantiates with its invariant;
    [OsBoot] proves of the boot table what [System] assumes of a table, and
    [Authority] joins [Services] and [OsBoot] through the kernel's own
    [cap_check], [device_cap_check] and [cap_find].  [Axiomctl] and
    [StudioView] call the parser of [Events]; [StudioNet] joins [SvcNet] to
    [StudioView] through the serial line.  [Machine] enters the kernel only
    by [Trap.trap_handler] and reads its permissions from the tables of
    [PagingHw]; [Demos.kernel_main] selects among [OsBoot] and the
    demonstrations.

    ** Bounds and fuel

    Loops over static arrays run over [seq 0 n] with the source's [n].
    The image limit of [Capacity] is the largest one sixteen tables
    allow: [image_limit_tight] shows an image one page past it that fails.
    [Paging.Arena.identity_loop] has fuel for one turn per page and the last
    test, and [identity_map_range_exact] shows it suffices.  Decimal and
    hexadecimal output has fuel 20 and 16, the digits of a 64-bit value.
    [UserLib.uwrite_loop] has one turn per byte (each turn writes at least
    one); the other loops of the services count their remaining bytes.
    [Services.run_service] takes a number of turns, and its theorems hold for
    all of them.  [Events.read_items] and [read_ndjson] are readers used in
    statements; their fuel is the length of the text.  The search of
    [axiomctl] for the repository root has one turn per parent directory;
    [Utf8.from_utf8] has one turn per byte.
    [DemoThms.explored] gives [DemoRun.explore] 2,000 turns, more than the
    pairs of state and event of any demonstration: running out would make
    the check fail, not succeed.  The schedules considered leave 16
    instructions (24 in the preemption demonstration) before an interrupt,
    where the timer leaves 100,000 cycles.

    ** Assumptions

    [Dispatch.Platform] holds what the build and the hardware decide: linker
    addresses ([PagingHw.Linker], with [linker_ok] for what the linker script
    guarantees), the value of [sstatus], device register contents and the
    [os_boot] feature.  Addresses a validated user buffer covers are assumed
    mapped: the kernel's byte accesses to user memory do not fault.  The
    linked image satisfies [Capacity.Fit.linker_fits], conditions on the
    section addresses only: in the order of [src/kernel/linker.ld], page
    aligned, within 20 MiB of the load address, the user region at most
    1984 KiB; [OsBoot.layout_ok] bounds the address of the stacks.  That
    the address spaces can then be built ([service_ok]) is proved.  Plain
    arithmetic of the kernel wraps, as in the release build; in user programs
    an overflow would be [PWild], and none occurs.
    The services assume of the kernel only [UserProg.answers]: a result
    received is at most the room offered, and its bytes are bytes.

    Host programs: the terminal accepts output and threads can be created (so
    that [println!] and [thread::spawn] do not panic), the bytes a client
    sends and a process prints are finite lists the environment chooses.
    Demonstrations: a body is its [asm!] block, lines have 1 to 8 bytes and
    an [ecall] four, interrupts come between lines and only where
    [timer::init] was called; traps reach the handler ([trap::init],
    [trap.S]).

    ** Not modelled

    [panic.rs] (a spin loop; a panic is the outcome [Crash]), [boot.S] and
    [trap.S], the CSR writes of [trap::init] and [timer::init], the wait for
    the serial transmitter, the page [studio] serves (static text, a
    parameter).  The text of the services' code is not part of the kernel
    model: [System] lets user code do anything, so the kernel theorems do not
    depend on [Services].

    ** Possible extensions

    The bounce page of the block device is not part of the change bound of
    [DispatchInv]; the relation of [DemoSim] forgets message contents, so the
    demonstration theorems speak of deliveries and not of their bytes. *)

From stdpp Require Import base decidable numbers option strings tactics list.
From Stdlib Require Import ZArith Lia ZifyNat.

Declare Scope axiomrt_scope.
Delimit Scope axiomrt_scope with axiomrt.
Open Scope Z_scope.

(** ** Results and panics *)

(** Rust's [Result<A, E>]. *)
Inductive result (A E : Type) : Type :=
| Ok (a : A)
| Err (e : E).
Arguments Ok {A E} a.
Arguments Err {A E} e.

(** A computation that returns a value or hits a Rust panic: an array
    index out of bounds, an [expect] on [None], a failed [assert!]. *)
Inductive outcome (A : Type) : Type :=
| Val (a : A)
| Panic.
Arguments Val {A} a.
Arguments Panic {A}.

#[export] Instance outcome_ret : MRet outcome := @Val.
#[export] Instance outcome_bind : MBind outcome := fun A B f m =>
  match m with Val a => f a | Panic => Panic end.

#[export] Instance result_eq_dec {A E} `{EqDecision A, EqDecision E} :
  EqDecision (result A E).
Proof. solve_decision. Defined.
#[export] Instance outcome_eq_dec {A} `{EqDecision A} : EqDecision (outcome A).
Proof. solve_decision. Defined.

(** [Result::is_ok] and [Result::map_err]. *)
Definition is_ok {A E} (r : result A E) : bool :=
  match r with Ok _ => true | Err _ => false end.
Definition map_err {A E F} (f : E -> F) (r : result A E) : result A F :=
  match r with Ok a => Ok a | Err e => Err (f e) end.

(** [Option::expect]: a panic on [None]. *)
Definition expect {A} (o : option A) : outcome A :=
  match o with Some a => Val a | None => Panic end.

(** [Result::expect]: a panic on [Err]. *)
Definition expect_ok {A E} (r : result A E) : outcome A :=
  match r with Ok a => Val a | Err _ => Panic end.

(** Indexing of a fixed-size array: out of bounds is a panic. *)
Definition arr_get {A} (l : list A) (i : nat) : outcome A := expect (l !! i).
Definition arr_set {A} (l : list A) (i : nat) (a : A) : outcome (list A) :=
  if decide (i < length l)%nat then Val (<[i:=a]> l) else Panic.

(** [Iterator::any] and a [for] loop, over a body that may panic. *)
Fixpoint any_m {A} (f : A -> outcome bool) (l : list A) : outcome bool :=
  match l with
  | [] => mret false
  | a :: l => b ← f a; if b : bool then mret true else any_m f l
  end.
Fixpoint for_m {S A} (f : S -> A -> outcome S) (s : S) (l : list A) : outcome S :=
  match l with
  | [] => mret s
  | a :: l => s' ← f s a; for_m f s' l
  end.

Lemma for_m_app {S A} (f : S -> A -> outcome S) s l l' :
  for_m f s (l ++ l') = (s' ← for_m f s l; for_m f s' l').
Proof.
  revert s; induction l as [|a l IH]; intros s; [done|]. cbn [app for_m].
  unfold mbind, outcome_bind. destruct (f s a); [apply IH|done].
Qed.

Lemma arr_get_lookup {A} (l : list A) i a : l !! i = Some a -> arr_get l i = Val a.
Proof. unfold arr_get. by intros ->. Qed.
Lemma arr_set_lt {A} (l : list A) i a : (i < length l)%nat -> arr_set l i a = Val (<[i:=a]> l).
Proof. unfold arr_set. intros. by rewrite decide_True. Qed.

Lemma insert_lookup_cases {A} (l : list A) k x k0 y :
  <[k := x]> l !! k0 = Some y -> (k0 = k /\ y = x) \/ (k0 <> k /\ l !! k0 = Some y).
Proof.
  rewrite list_lookup_insert. case_decide as E; [intros [= <-]; left; intuition congruence|].
  intros H. right. split; [|done]. intros ->. apply lookup_lt_Some in H. tauto.
Qed.

Lemma filter_all {A} (P : A -> Prop) `{!forall x, Decision (P x)} l :
  Forall P l -> filter P l = l.
Proof. induction 1; [done|]. rewrite filter_cons_True by done. by f_equal. Qed.
Lemma filter_none {A} (P : A -> Prop) `{!forall x, Decision (P x)} l :
  Forall (fun x => ~ P x) l -> filter P l = [].
Proof. induction 1; [done|]. by rewrite filter_cons_False by done. Qed.

(** ** Machine integers: a [w]-bit unsigned integer is a [Z] in range. *)

Definition uint (w x : Z) : Prop := 0 <= x < 2 ^ w.
#[export] Instance uint_dec w x : Decision (uint w x).
Proof. unfold uint. apply _. Defined.

Definition wrapping (w x : Z) : Z := x mod 2 ^ w.
Definition wrapping_add (w x y : Z) : Z := wrapping w (x + y).
Definition wrapping_mul (w x y : Z) : Z := wrapping w (x * y).
Definition checked_add (w x y : Z) : option Z :=
  if x + y <? 2 ^ w then Some (x + y) else None.
Definition checked_sub (x y : Z) : option Z :=
  if y <=? x then Some (x - y) else None.
Definition saturating_mul (w x y : Z) : Z := Z.min (x * y) (2 ^ w - 1).
(** [!x] on a [w]-bit integer. *)
Definition bitnot (w x : Z) : Z := Z.lxor x (Z.ones w).
(** [u64::is_multiple_of]: a zero divisor divides only zero. *)
Definition is_multiple_of (x y : Z) : bool :=
  if y =? 0 then x =? 0 else x mod y =? 0.
(** [v as u64] for an [i64]. *)
Definition u64_of_i64 (v : Z) : Z := wrapping 64 v.

Notation "x '∈ᵤ' w" := (uint w x) (at level 70) : axiomrt_scope.
Notation "x '.&' y" := (Z.land x y) (at level 40, left associativity) : axiomrt_scope.
Notation "x '.|' y" := (Z.lor x y) (at level 50, left associativity) : axiomrt_scope.
Notation "x '.<<' y" := (Z.shiftl x y) (at level 39, left associativity) : axiomrt_scope.
Notation "x '.>>' y" := (Z.shiftr x y) (at level 39, left associativity) : axiomrt_scope.
Notation "'.~' [ w ] x" := (bitnot w x) (at level 35, format ".~ [ w ]  x") : axiomrt_scope.
Open Scope axiomrt_scope.

(** ** Automation *)

#[global] Arguments Nat.modulo : simpl never.
#[global] Arguments Nat.div : simpl never.
#[global] Arguments Z.shiftl : simpl never.
#[global] Arguments Z.shiftr : simpl never.

Create HintDb axiomrt.
Create HintDb bits.

(** Split every conjunction, boolean test and [decide] in sight. *)
Ltac bool_facts :=
  repeat match goal with
  | H : _ /\ _ |- _ => destruct H
  | H : (_ && _)%bool = true |- _ => apply andb_true_iff in H
  | H : (_ || _)%bool = false |- _ => apply orb_false_iff in H
  | H : negb _ = true |- _ => apply negb_true_iff in H
  | H : negb _ = false |- _ => apply negb_false_iff in H
  | H : (_ <? _) = true |- _ => apply Z.ltb_lt in H
  | H : (_ <? _) = false |- _ => apply Z.ltb_ge in H
  | H : (_ <=? _) = true |- _ => apply Z.leb_le in H
  | H : (_ <=? _) = false |- _ => apply Z.leb_gt in H
  | H : (_ =? _) = true |- _ => apply Z.eqb_eq in H
  | H : (_ =? _) = false |- _ => apply Z.eqb_neq in H
  | H : bool_decide _ = true |- _ => apply bool_decide_eq_true in H
  | H : bool_decide _ = false |- _ => apply bool_decide_eq_false in H
  end.

(** [lia] over goals with a division or remainder by a constant. *)
Ltac divmod_lia := Z.to_euclidean_division_equations; lia.
Ltac natmod_lia :=
  zify; Z.to_euclidean_division_equations; lia.

(** Unfold the outcome monad down to its matches. *)
Ltac ounfold := unfold mbind, outcome_bind, mret, outcome_ret, arr_get, arr_set, expect in *.

(** Case split on the scrutinee of every match of the goal or context. *)
Ltac split_matches := repeat (case_match; simplify_eq/=).
