(* ===== verification/RightsSet.v ===== *)
(** * The interface of an explicit rights bitmask

    Three types of the kernel are a newtype over [u16] with the same four
    operations: [caps::Rights], [device::DeviceRights] and
    [network::NetworkRights].  [RightsSet] states what each promises in terms
    of the set of bits that are on; the clients (capability tables, the device
    table) are verified against it, and each module discharges it once. *)

From stdpp Require Import base decidable list numbers option tactics.
From S2P Require Import Prelude.
Local Open Scope Z_scope.
Local Open Scope axiomrt_scope.

(** The [i]-th right is on. *)
Definition has_bit (x i : Z) : Prop := Z.testbit x i = true.

Class RightsSet (R : Type) := {
  rs_bits : R -> Z;
  rs_union : R -> R -> R;
  rs_contains : R -> R -> bool;
  rs_diminish : R -> R -> R;
  rs_union_bit a b i :
    has_bit (rs_bits (rs_union a b)) i <-> has_bit (rs_bits a) i \/ has_bit (rs_bits b) i;
  rs_contains_bit a b :
    rs_contains a b = true <-> forall i, has_bit (rs_bits b) i -> has_bit (rs_bits a) i;
  rs_diminish_bit a b i : rs_bits a ∈ᵤ 16 -> rs_bits b ∈ᵤ 16 ->
    has_bit (rs_bits (rs_diminish a b)) i <-> has_bit (rs_bits a) i /\ ~ has_bit (rs_bits b) i
}.

(** The three [u16] masks implement the interface through these facts. *)
Lemma lor_has_bit x y i : has_bit (x .| y) i <-> has_bit x i \/ has_bit y i.
Proof. unfold has_bit. rewrite Z.lor_spec. apply orb_true_iff. Qed.

Lemma land_subset x y : ((x .& y) =? y) = true <-> forall i, has_bit y i -> has_bit x i.
Proof.
  rewrite Z.eqb_eq. unfold has_bit. split.
  - intros E i Hi. rewrite <- E, Z.land_spec in Hi. by apply andb_true_iff in Hi as [??].
  - intros H. apply Z.bits_inj'. intros i _. rewrite Z.land_spec.
    destruct (Z.testbit y i) eqn:Ey; [by rewrite H | apply andb_false_r].
Qed.

Lemma uint_testbit_high w x i : 0 <= w -> x ∈ᵤ w -> w <= i -> Z.testbit x i = false.
Proof.
  intros Hw [Hx Hx'] Hi. destruct (decide (x = 0)) as [->|]; [apply Z.testbit_0_l|].
  apply Z.bits_above_log2; [done|].
  apply Z.log2_lt_pow2; [lia|]. eapply Z.lt_le_trans; [done|].
  apply Z.pow_le_mono_r; lia.
Qed.

Lemma testbit_bitnot w x i : 0 <= i < w -> Z.testbit (bitnot w x) i = negb (Z.testbit x i).
Proof.
  intros Hi. unfold bitnot. rewrite Z.lxor_spec, Z.ones_spec_low by lia.
  by destruct (Z.testbit x i).
Qed.

Lemma ldiff_has_bit x y i : x ∈ᵤ 16 -> y ∈ᵤ 16 ->
  has_bit (x .& bitnot 16 y) i <-> has_bit x i /\ ~ has_bit y i.
Proof.
  intros Hx Hy. unfold has_bit. rewrite Z.land_spec, andb_true_iff.
  destruct (decide (0 <= i < 16)) as [Hi|Hi].
  - rewrite testbit_bitnot by done. destruct (Z.testbit y i); intuition (try discriminate).
  - assert (Z.testbit x i = false) as ->; [|split; intros [??]; discriminate].
    destruct (decide (i < 0)); [apply Z.testbit_neg_r; lia|].
    apply (uint_testbit_high 16); lia || done.
Qed.

(** Generic consequences, shared by every user of a rights mask. *)
Section rights.
Context {R} `{RS : RightsSet R}.
Implicit Types a b c : R.

Lemma rs_contains_refl a : rs_contains a a = true.
Proof. by apply rs_contains_bit. Qed.

Lemma rs_contains_trans a b c :
  rs_contains a b = true -> rs_contains b c = true -> rs_contains a c = true.
Proof. rewrite !rs_contains_bit. eauto. Qed.

Lemma rs_contains_union a b c :
  rs_contains a (rs_union b c) = true <->
  rs_contains a b = true /\ rs_contains a c = true.
Proof. rewrite !rs_contains_bit. setoid_rewrite rs_union_bit. naive_solver. Qed.

(** Rights only shrink: what the diminished set contains, the original did. *)
Lemma rs_diminish_sub a b c : rs_bits a ∈ᵤ 16 -> rs_bits b ∈ᵤ 16 ->
  rs_contains (rs_diminish a b) c = true -> rs_contains a c = true.
Proof.
  intros Ha Hb. rewrite !rs_contains_bit. intros H i Hi.
  specialize (H i Hi). rewrite rs_diminish_bit in H by done. tauto.
Qed.

(** Removal is exact: afterwards nothing that meets [b] is contained, and
    everything held that is disjoint from [b] still is. *)
Lemma rs_diminish_exact a b c : rs_bits a ∈ᵤ 16 -> rs_bits b ∈ᵤ 16 ->
  rs_contains (rs_diminish a b) c = true <->
  rs_contains a c = true /\
  (forall i, has_bit (rs_bits c) i -> ~ has_bit (rs_bits b) i).
Proof.
  intros Ha Hb. rewrite !rs_contains_bit.
  setoid_rewrite rs_diminish_bit; [|done..]. naive_solver.
Qed.
End rights.

#[export] Hint Resolve rs_contains_refl : axiomrt.
