(* ===== verification/Caps.v ===== *)
(** * Capabilities: rights, capability tokens and the per-task table

    Models [kernel/src/caps]: the rights bitmask, the capability token, and
    [CapTable] with its four operations.  The table's [lookup] is the single
    enforcement point of the access-control model. *)

From stdpp Require Import base decidable list numbers option sets tactics.
From S2P Require Import Prelude RightsSet.
Local Open Scope Z_scope.
Local Open Scope axiomrt_scope.

(** ** [caps::rights] *)
Module Rights.

(** [struct Rights(u16)] *)
Record t := Mk { bits : Z }.

Definition NONE : t := Mk 0.
Definition READ : t := Mk (1 .<< 0).
Definition WRITE : t := Mk (1 .<< 1).
Definition EXECUTE : t := Mk (1 .<< 2).
Definition SEND : t := Mk (1 .<< 3).
Definition RECEIVE : t := Mk (1 .<< 4).
Definition GRANT : t := Mk (1 .<< 5).
Definition MAP : t := Mk (1 .<< 6).
Definition CONTROL : t := Mk (1 .<< 7).

Definition union (self other : t) : t := Mk (self.(bits) .| other.(bits)).
Definition contains (self required : t) : bool :=
  (self.(bits) .& required.(bits)) =? required.(bits).
Definition diminish (self removed : t) : t :=
  Mk (self.(bits) .& bitnot 16 removed.(bits)).

#[global] Instance eq_dec : EqDecision t.
Proof. solve_decision. Defined.

#[global] Instance rights_set : RightsSet t := {|
  rs_bits := bits; rs_union := union; rs_contains := contains; rs_diminish := diminish;
  rs_union_bit a b i := lor_has_bit (bits a) (bits b) i;
  rs_contains_bit a b := land_subset (bits a) (bits b);
  rs_diminish_bit a b i := ldiff_has_bit (bits a) (bits b) i
|}.

End Rights.

(** ** [caps::capability] *)

Inductive ObjectType :=
| OThread | OEndpoint | OAddressSpace | OPhysicalFrame | OTimer
| OSchedulingContext | OFaultChannel.

#[export] Instance ObjectType_eq_dec : EqDecision ObjectType.
Proof. solve_decision. Defined.

Record ObjectRef := mkObjectRef { object_type : ObjectType; object_id : Z }.

#[export] Instance ObjectRef_eq_dec : EqDecision ObjectRef.
Proof. solve_decision. Defined.

Record Capability := Capability_new { object : ObjectRef; rights : Rights.t }.

#[export] Instance Capability_eq_dec : EqDecision Capability.
Proof. solve_decision. Defined.

Definition derive_diminished (self : Capability) (removed : Rights.t) : Capability :=
  Capability_new self.(object) (Rights.diminish self.(rights) removed).

(** ** [caps::table] *)

Definition CAP_TABLE_SLOTS : nat := 32.

Inductive CapError :=
| InvalidIndex | EmptySlot | WrongObjectType | InsufficientRights | SlotOccupied.

#[export] Instance CapError_eq_dec : EqDecision CapError.
Proof. solve_decision. Defined.

Module CapTable.

(** [struct CapTable]: one table per task. *)
Record t := Mk { slots : list (option Capability) }.

Definition new : t := Mk (replicate CAP_TABLE_SLOTS None).

Definition insert (self : t) (index : nat) (cap : Capability)
    : outcome (t * result unit CapError) :=
  if decide (CAP_TABLE_SLOTS <= index)%nat then mret (self, Err InvalidIndex)
  else
    slot ← arr_get self.(slots) index;
    match slot with
    | Some _ => mret (self, Err SlotOccupied)
    | None => s ← arr_set self.(slots) index (Some cap); mret (Mk s, Ok tt)
    end.

(** [slots[index].take()] writes [None] whether or not the slot was full. *)
Definition revoke (self : t) (index : nat) : outcome (t * result unit CapError) :=
  if decide (CAP_TABLE_SLOTS <= index)%nat then mret (self, Err InvalidIndex)
  else
    taken ← arr_get self.(slots) index;
    s ← arr_set self.(slots) index None;
    match taken with
    | None => mret (Mk s, Err EmptySlot)
    | Some _ => mret (Mk s, Ok tt)
    end.

Definition lookup (self : t) (index : nat) (expected_type : ObjectType)
    (required : Rights.t) : outcome (result ObjectRef CapError) :=
  if decide (CAP_TABLE_SLOTS <= index)%nat then mret (Err InvalidIndex)
  else
    slot ← arr_get self.(slots) index;
    match slot with
    | None => mret (Err EmptySlot)
    | Some cap =>
        if negb (bool_decide (cap.(object).(object_type) = expected_type))
        then mret (Err WrongObjectType)
        else if negb (Rights.contains cap.(rights) required)
        then mret (Err InsufficientRights)
        else mret (Ok cap.(object))
    end.

Definition query (self : t) (index : nat)
    : outcome (result (ObjectType * Rights.t) CapError) :=
  if decide (CAP_TABLE_SLOTS <= index)%nat then mret (Err InvalidIndex)
  else
    slot ← arr_get self.(slots) index;
    match slot with
    | Some cap => mret (Ok (cap.(object).(object_type), cap.(rights)))
    | None => mret (Err EmptySlot)
    end.

(** ** The abstract table

    What the table promises: a partial map from slot numbers below
    [CAP_TABLE_SLOTS] to capabilities. *)
Definition wf (self : t) : Prop := length self.(slots) = CAP_TABLE_SLOTS.
Definition view (self : t) (i : nat) : option Capability := mjoin (self.(slots) !! i).

(** The reference decision on a slot's content: occupancy, then type, then
    rights, the order of the access-control document. *)
Definition decide_access (slot : option Capability) (ty : ObjectType) (req : Rights.t)
    : result ObjectRef CapError :=
  match slot with
  | None => Err EmptySlot
  | Some c =>
      if negb (bool_decide (c.(object).(object_type) = ty)) then Err WrongObjectType
      else if Rights.contains c.(rights) req then Ok c.(object)
      else Err InsufficientRights
  end.

Lemma new_wf : wf new.
Proof. reflexivity. Qed.

Lemma view_new i : view new i = None.
Proof.
  unfold view. destruct (new.(slots) !! i) as [o|] eqn:E; [|done].
  by apply lookup_replicate in E as [-> _].
Qed.

Lemma slot_in_range self i : wf self -> (i < CAP_TABLE_SLOTS)%nat ->
  arr_get self.(slots) i = Val (view self i).
Proof.
  intros Hwf Hi. unfold arr_get, view.
  destruct (lookup_lt_is_Some_2 self.(slots) i) as [o E]; [by rewrite Hwf|].
  by rewrite E.
Qed.

Lemma set_in_range self i o : wf self -> (i < CAP_TABLE_SLOTS)%nat ->
  arr_set self.(slots) i o = Val (<[i:=o]> self.(slots)).
Proof. intros Hwf Hi. unfold arr_set. rewrite decide_True; [done|by rewrite Hwf]. Qed.

Lemma view_set self i o : wf self -> (i < CAP_TABLE_SLOTS)%nat ->
  wf (Mk (<[i:=o]> self.(slots))) /\
  forall j, view (Mk (<[i:=o]> self.(slots))) j = if decide (j = i) then o else view self j.
Proof.
  intros Hwf Hi. split; [unfold wf; simpl; by rewrite length_insert|].
  intros j. unfold view; simpl. case_decide as E; subst.
  - rewrite list_lookup_insert_eq; [done|by rewrite Hwf].
  - by rewrite list_lookup_insert_ne by congruence.
Qed.

Lemma view_out self i : wf self -> (CAP_TABLE_SLOTS <= i)%nat -> view self i = None.
Proof. intros Hwf Hi. unfold view. rewrite lookup_ge_None_2; [done|by rewrite Hwf]. Qed.

(** Each operation, as an action on the abstract table. *)
Lemma insert_view self i c : wf self ->
  exists self' r, insert self i c = Val (self', r) /\ wf self' /\
    r = (if decide (CAP_TABLE_SLOTS <= i)%nat then Err InvalidIndex
         else match view self i with Some _ => Err SlotOccupied | None => Ok tt end) /\
    forall j, view self' j =
      if decide (j = i) then match r with Ok _ => Some c | Err _ => view self i end
      else view self j.
Proof.
  intros Hwf. unfold insert.
  destruct (decide (CAP_TABLE_SLOTS <= i)%nat) as [Hi|Hi].
  { eexists _, _; repeat split; [done..|]. intros j. by case_decide; subst. }
  rewrite slot_in_range by (done || lia). simpl.
  destruct (view self i) as [c'|] eqn:Ev; simpl.
  { eexists _, _; repeat split; [done..|]. intros j. by case_decide; subst. }
  rewrite set_in_range by (done || lia). simpl.
  destruct (view_set self i (Some c)) as [Hw Hv]; [done|lia|].
  by eexists _, _.
Qed.

Lemma revoke_view self i : wf self ->
  exists self' r, revoke self i = Val (self', r) /\ wf self' /\
    r = (if decide (CAP_TABLE_SLOTS <= i)%nat then Err InvalidIndex
         else match view self i with Some _ => Ok tt | None => Err EmptySlot end) /\
    forall j, view self' j = if decide (j = i) then None else view self j.
Proof.
  intros Hwf. unfold revoke.
  destruct (decide (CAP_TABLE_SLOTS <= i)%nat) as [Hi|Hi].
  { eexists _, _; repeat split; [done..|]. intros j. case_decide; subst; [|done].
    by apply view_out. }
  rewrite slot_in_range by (done || lia). simpl.
  rewrite set_in_range by (done || lia). simpl.
  destruct (view_set self i None) as [Hw Hv]; [done|lia|].
  destruct (view self i); by eexists _, _.
Qed.

Lemma lookup_view self i ty req : wf self ->
  lookup self i ty req =
    Val (if decide (CAP_TABLE_SLOTS <= i)%nat then Err InvalidIndex
         else decide_access (view self i) ty req).
Proof.
  intros Hwf. unfold lookup. destruct (decide _) as [Hi|Hi]; [done|].
  rewrite slot_in_range by (done || lia). simpl.
  destruct (view self i) as [c|]; [|done]. unfold decide_access.
  destruct (negb (bool_decide _)); [done|].
  by destruct (Rights.contains _ _).
Qed.

Lemma decide_access_ok slot ty req o :
  decide_access slot ty req = Ok o <->
  exists c, slot = Some c /\ c.(object) = o /\ o.(object_type) = ty /\
            Rights.contains c.(rights) req = true.
Proof.
  unfold decide_access. split.
  - destruct slot as [c|]; [|done]. case_bool_decide; simpl; [|done].
    destruct (Rights.contains _ _) eqn:E; intros; simplify_eq. eauto 6.
  - intros (c & -> & <- & <- & E). rewrite bool_decide_true by done. simpl. by rewrite E.
Qed.

(** ** Traces of table operations *)

Inductive op :=
| OpInsert (index : nat) (cap : Capability)
| OpRevoke (index : nat).

Definition op_index (o : op) : nat :=
  match o with OpInsert i _ | OpRevoke i => i end.

Definition step (self : t) (o : op) : outcome t :=
  match o with
  | OpInsert i c => p ← insert self i c; mret p.1
  | OpRevoke i => p ← revoke self i; mret p.1
  end.

Fixpoint run (self : t) (ops : list op) : outcome t :=
  match ops with
  | [] => mret self
  | o :: ops => s ← step self o; run s ops
  end.

(** What one operation does to one slot. *)
Definition slot_after (before : option Capability) (i : nat) (o : op) : option Capability :=
  match o with
  | OpInsert j c =>
      if decide (j = i /\ (i < CAP_TABLE_SLOTS)%nat)
      then match before with Some c' => Some c' | None => Some c end else before
  | OpRevoke j => if decide (j = i) then None else before
  end.

Lemma step_view self o : wf self ->
  exists self', step self o = Val self' /\ wf self' /\
    forall i, view self' i = slot_after (view self i) i o.
Proof.
  intros Hwf. destruct o as [j c|j]; simpl.
  - destruct (insert_view self j c Hwf) as (s & r & -> & Hw & -> & Hv); simpl.
    exists s; repeat split; [done|]. intros i. rewrite Hv.
    destruct (decide (i = j)) as [->|];
      [|by rewrite (decide_False (P := j = i /\ _)) by intuition congruence].
    destruct (decide (CAP_TABLE_SLOTS <= j)%nat); simpl.
    + by rewrite decide_False by lia.
    + rewrite decide_True by (split; [done|lia]). by destruct (view self j).
  - destruct (revoke_view self j Hwf) as (s & r & -> & Hw & -> & Hv); simpl.
    exists s; repeat split; [done|]. intros i. rewrite Hv. repeat case_decide; congruence.
Qed.

Lemma run_view self ops : wf self ->
  exists self', run self ops = Val self' /\ wf self' /\
    forall i, view self' i = foldl (fun b o => slot_after b i o) (view self i) ops.
Proof.
  revert self; induction ops as [|o ops IH]; intros self Hwf; simpl.
  { by exists self. }
  destruct (step_view self o Hwf) as (s & -> & Hw & Hv); simpl.
  destruct (IH s Hw) as (s' & -> & Hw' & Hv'). exists s'; repeat split; [done..|].
  intros i. by rewrite Hv', Hv.
Qed.

(** A full slot was filled by an insertion that no revocation followed. *)
Lemma slot_origin ops i c :
  foldl (fun b o => slot_after b i o) None ops = Some c ->
  exists pre post, ops = pre ++ OpInsert i c :: post /\ (OpRevoke i ∉ post) /\
    foldl (fun b o => slot_after b i o) None pre = None.
Proof.
  induction ops as [|o ops IH] using rev_ind; [done|].
  rewrite foldl_app; simpl. set (b := foldl _ None ops) in *.
  intros H. destruct o as [j c'|j]; simpl in H; case_decide as E.
  - destruct E as [-> _]. destruct b as [c0|] eqn:Eb; simplify_eq.
    + destruct IH as (pre & post & -> & Hn & Hp); [done|].
      exists pre, (post ++ [OpInsert i c']). split; [by rewrite <- app_assoc|].
      split; [set_solver|done].
    + exists ops, []. split; [done|]. split; [apply not_elem_of_nil|done].
  - destruct IH as (pre & post & -> & Hn & Hp); [done|].
    exists pre, (post ++ [OpInsert j c']). split; [by rewrite <- app_assoc|].
    split; [set_solver|done].
  - done.
  - destruct IH as (pre & post & -> & Hn & Hp); [done|].
    exists pre, (post ++ [OpRevoke j]). split; [by rewrite <- app_assoc|].
    split; [set_solver|done].
Qed.

Lemma slot_kept ops i c : (OpRevoke i ∉ ops) ->
  foldl (fun b o => slot_after b i o) (Some c) ops = Some c.
Proof.
  induction ops as [|o ops IH] using rev_ind; [done|]. intros Hn.
  rewrite foldl_app; simpl. rewrite IH by set_solver.
  destruct o as [j c'|j]; simpl; case_decide; try done. set_solver.
Qed.

Lemma run_new_view ops : exists self', run new ops = Val self' /\ wf self' /\
  forall i, view self' i = foldl (fun b o => slot_after b i o) None ops.
Proof.
  destruct (run_view new ops new_wf) as (s & E & Hw & Hv).
  exists s; repeat split; [done..|]. intros i. by rewrite Hv, view_new.
Qed.

(** C35. Capability lookup is the enforcement point and it is exact: on a
    table built by any sequence of insertions and revocations, the operations
    never panic, and a lookup succeeds with an object exactly when the slot
    number is in the table and the history holds an insertion into that very
    slot, of a capability for that object, of the expected type and with
    every required right, that found the slot empty and that no revocation
    of the slot followed. *)
Theorem captable_lookup_provenance ops i ty req o :
  exists tbl, run new ops = Val tbl /\
    (lookup tbl i ty req = Val (Ok o) <->
       (i < CAP_TABLE_SLOTS)%nat /\
       exists pre c post, ops = pre ++ OpInsert i c :: post /\ (OpRevoke i ∉ post) /\
         (exists before, run new pre = Val before /\ view before i = None) /\
         c.(object) = o /\ o.(object_type) = ty /\
         (forall b, has_bit (Rights.bits req) b -> has_bit (Rights.bits c.(rights)) b)).
Proof.
  destruct (run_new_view ops) as (tbl & E & Hw & Hv). exists tbl; split; [done|].
  rewrite lookup_view by done. split.
  - case_decide; [done|]. intros [= H1]. split; [lia|].
    apply decide_access_ok in H1 as (c & Hs & Ho & Hty & Hr).
    rewrite Hv in Hs. apply slot_origin in Hs as (pre & post & -> & Hn & Hp).
    exists pre, c, post. repeat split; [done| |done..|by apply land_subset].
    destruct (run_new_view pre) as (b & Eb & _ & Hb). exists b. by rewrite Hb.
  - intros (Hi & pre & c & post & -> & Hn & (b & Eb & Hb) & Ho & Hty & Hr).
    rewrite decide_False by lia. f_equal. apply decide_access_ok.
    exists c; repeat split; [|done..|by apply land_subset].
    destruct (run_new_view pre) as (b' & Eb' & _ & Hb').
    rewrite Eb in Eb'; simplify_eq. rewrite Hb' in Hb. rewrite Hv, foldl_app; simpl.
    rewrite Hb, decide_True by done.
    by apply slot_kept.
Qed.

(** Every failing lookup reports the first failing check, in the fixed
    order bounds, occupancy, object type, rights; a lookup neither panics
    nor changes the table, and revoking a slot makes every later lookup of
    that slot fail and leaves all other slots as they were. *)
Theorem captable_lookup_total tbl i ty req : wf tbl ->
  lookup tbl i ty req =
    Val (if decide (CAP_TABLE_SLOTS <= i)%nat then Err InvalidIndex
         else decide_access (view tbl i) ty req) /\
  exists tbl' r, revoke tbl i = Val (tbl', r) /\ wf tbl' /\
    (forall ty' req', ~ exists o, lookup tbl' i ty' req' = Val (Ok o)) /\
    (forall j ty' req', j <> i -> lookup tbl' j ty' req' = lookup tbl j ty' req').
Proof.
  intros Hwf. split; [by apply lookup_view|].
  destruct (revoke_view tbl i Hwf) as (tbl' & r & E & Hw & _ & Hv).
  exists tbl', r. split; [done|]. split; [done|]. split.
  - intros ty' req' [o Ho]. rewrite lookup_view, Hv, (decide_True (P := i = i)) in Ho by done.
    case_decide; simplify_eq/=.
  - intros j ty' req' Hj. by rewrite !lookup_view, Hv, (decide_False (P := j = i)) by done.
Qed.

Lemma captable_lookup_total_witness :
  lookup new 40 OEndpoint Rights.SEND = Val (Err InvalidIndex) /\
  lookup new 3 OEndpoint Rights.SEND = Val (Err EmptySlot).
Proof.
  split; [exact (proj1 (captable_lookup_total new 40 OEndpoint Rights.SEND new_wf))
         |exact (proj1 (captable_lookup_total new 3 OEndpoint Rights.SEND new_wf))].
Defined.

End CapTable.

(** Derivation never amplifies and removes exactly what it names: the
    derived capability refers to the same object, and it passes a rights
    check exactly when the original passes it and the check asks for none
    of the removed rights. *)
Theorem derive_diminished_exact cap removed required :
  Rights.bits cap.(rights) ∈ᵤ 16 -> Rights.bits removed ∈ᵤ 16 ->
  (derive_diminished cap removed).(object) = cap.(object) /\
  (Rights.contains (derive_diminished cap removed).(rights) required = true <->
   Rights.contains cap.(rights) required = true /\
   forall i, has_bit (Rights.bits required) i -> ~ has_bit (Rights.bits removed) i).
Proof. intros Hc Hr. split; [done|]. exact (rs_diminish_exact _ _ required Hc Hr). Qed.

Lemma derive_diminished_exact_witness :
  let c := Capability_new (mkObjectRef OEndpoint 1) (Rights.union Rights.SEND Rights.GRANT) in
  Rights.contains (derive_diminished c Rights.GRANT).(rights) Rights.GRANT = false.
Proof.
  intros c. apply not_true_is_false. intros H.
  apply (derive_diminished_exact c Rights.GRANT Rights.GRANT) in H as [_ H];
    [|by vm_compute..].
  by apply (H 5).
Defined.
