(* ===== verification/Thread.v ===== *)
(** * Threads: identity, lifecycle state machine and saved context

    Models [kernel/src/thread] and the callee-saved context of
    [kernel/src/arch/riscv64/context.rs]. *)

From stdpp Require Import base decidable list numbers option relations tactics.
From S2P Require Import Prelude.
Local Open Scope Z_scope.

(** [struct ThreadId(pub u32)] and [struct AddressSpaceId(pub u32)]. *)
Record ThreadId := mkThreadId { as_u32 : Z }.
Record AddressSpaceId := mkAddressSpaceId { as_id : Z }.

#[export] Instance ThreadId_eq_dec : EqDecision ThreadId.
Proof. solve_decision. Defined.
#[export] Instance AddressSpaceId_eq_dec : EqDecision AddressSpaceId.
Proof. solve_decision. Defined.

(** ** [thread::state] *)

Inductive ThreadState := Ready | Running | Blocked | Faulted | Killed | Suspended.

#[export] Instance ThreadState_eq_dec : EqDecision ThreadState.
Proof. solve_decision. Defined.

Definition is_legal_transition (from to : ThreadState) : bool :=
  match from, to with
  | Ready, Running | Running, Ready
  | Running, Blocked | Blocked, Ready
  | Ready, Faulted | Running, Faulted | Blocked, Faulted
  | Ready, Killed | Running, Killed | Blocked, Killed | Faulted, Killed | Suspended, Killed
  | Ready, Suspended | Running, Suspended | Blocked, Suspended | Faulted, Suspended
  | Suspended, Ready => true
  | _, _ => false
  end.

(** ** [thread::Thread] *)

Record IllegalTransition := mkIllegal { it_from : ThreadState; it_to : ThreadState }.

Record Thread := mkThread {
  th_id : ThreadId; th_state : ThreadState; th_address_space : AddressSpaceId
}.

Definition Thread_new (id : ThreadId) (address_space : AddressSpaceId) : Thread :=
  mkThread id Ready address_space.

Definition transition (self : Thread) (to : ThreadState)
    : Thread * result unit IllegalTransition :=
  if is_legal_transition self.(th_state) to
  then (mkThread self.(th_id) to self.(th_address_space), Ok tt)
  else (self, Err (mkIllegal self.(th_state) to)).

(** ** [thread::context] over the RISC-V callee-saved registers *)

Record ArchContext := mkArchContext { ra : Z; sp : Z; s_regs : list Z }.

Definition ArchContext_zeroed : ArchContext := mkArchContext 0 0 (replicate 12 0).

Record ThreadContext := mkThreadContext { arch : ArchContext }.

Definition ThreadContext_new (resume_at stack_top : Z) : option ThreadContext :=
  if ((resume_at =? 0) || (stack_top =? 0))%bool then None
  else Some (mkThreadContext (mkArchContext resume_at stack_top (s_regs ArchContext_zeroed))).

Definition is_runnable (self : ThreadContext) : bool :=
  (negb (ra (arch self) =? 0) && negb (sp (arch self) =? 0))%bool.

(** ** Runs of the state machine *)

(** One accepted transition request. *)
Inductive tstep : ThreadState -> ThreadState -> Prop :=
| tstep_legal from to : is_legal_transition from to = true -> tstep from to.

(** A thread and the requests made on it; refused requests are skipped. *)
Definition run_requests : Thread -> list ThreadState -> Thread :=
  foldl (fun th to => (transition th to).1).

Lemma transition_spec th to :
  let '(th', r) := transition th to in
  th_id th' = th_id th /\ th_address_space th' = th_address_space th /\
  ((r = Ok tt /\ th_state th' = to /\ tstep (th_state th) to) \/
   (r = Err (mkIllegal (th_state th) to) /\ th' = th /\ ~ tstep (th_state th) to)).
Proof.
  unfold transition. destruct (is_legal_transition _ _) eqn:E; repeat split; auto.
  - left; repeat split; auto.
  - right; repeat split; auto. inversion 1; congruence.
Qed.

Lemma run_requests_steps th tos :
  rtc tstep (th_state th) (th_state (run_requests th tos)) /\
  th_id (run_requests th tos) = th_id th /\
  th_address_space (run_requests th tos) = th_address_space th.
Proof.
  revert th. induction tos as [|to tos IH]; intros th; simpl; [done|].
  pose proof (transition_spec th to) as H.
  destruct (transition th to) as [th' r]; simpl in *.
  destruct H as (Hid & Has & H). destruct (IH th') as (Hr & Hi & Ha).
  repeat split; [|congruence..].
  destruct H as [(_ & <- & Hs)|(_ & -> & _)]; [by eapply rtc_l|done].
Qed.

Lemma tstep_alive from to : tstep from to -> from <> Killed.
Proof. inversion 1; subst. by destruct from. Qed.

Lemma rtc_killed s : rtc tstep Killed s -> s = Killed.
Proof. inversion 1 as [|? y ? H1]; subst; [done|]. by apply tstep_alive in H1. Qed.

(** Every live state reaches [Ready]; from there all states are reachable. *)
Lemma live_to_ready s : s <> Killed -> rtc tstep s Ready.
Proof.
  intros Hs. destruct s; try done.
  1,2,4: apply rtc_once; by constructor.
  apply (rtc_l _ _ Suspended); [by constructor|apply rtc_once; by constructor].
Qed.

Lemma ready_to_any s : rtc tstep Ready s.
Proof.
  destruct s; try (apply rtc_once; by constructor).
  - apply rtc_refl.
  - apply (rtc_l _ _ Running); [by constructor|apply rtc_once; by constructor].
Qed.

(** A thread lives through any sequence of transition requests with its
    identity and address space unchanged; [Killed] is terminal, and a thread
    that is [Running] at the end was [Ready] right before or never moved;
    every refused request leaves the thread as it was and reports the pair
    of states it refused. *)
Theorem thread_lifecycle th tos to :
  let th' := run_requests th tos in
  th_id th' = th_id th /\ th_address_space th' = th_address_space th /\
  (th_state th = Killed -> th' = th) /\
  (th_state (transition th' to).1 = Running -> th_state th' = Ready \/ th_state th' = Running) /\
  ((transition th' to).2 <> Ok tt ->
     transition th' to = (th', Err (mkIllegal (th_state th') to))).
Proof.
  destruct (run_requests_steps th tos) as (Hr & Hi & Ha). simpl.
  repeat split; [done..| | |].
  - intros HK. rewrite HK in Hr. apply rtc_killed in Hr.
    destruct (run_requests th tos), th. simpl in *. congruence.
  - unfold transition. destruct (is_legal_transition _ _) eqn:E; simpl; [|auto].
    intros ->. left. by destruct (th_state (run_requests th tos)).
  - unfold transition. by destruct (is_legal_transition _ _).
Qed.

(** What the legal relation really allows over several steps: from every
    state but [Killed] all six states are reachable.  In particular a
    faulted thread is not excluded from execution: the relation admits
    [Faulted], [Suspended], [Ready], [Running]. *)
Theorem thread_reachability from to : rtc tstep from to <-> from <> Killed \/ to = from.
Proof.
  split.
  - intros H. destruct (decide (from = Killed)) as [->|]; [|by left].
    right. by apply rtc_killed.
  - intros [H| ->]; [|done]. etrans; [by apply live_to_ready|apply ready_to_any].
Qed.

(** A context that can be built can be switched to, and the default cannot. *)
Lemma context_new_runnable resume_at stack_top c :
  ThreadContext_new resume_at stack_top = Some c ->
  is_runnable c = true /\ ra (arch c) = resume_at /\ sp (arch c) = stack_top.
Proof.
  unfold ThreadContext_new, is_runnable. intros H.
  destruct (resume_at =? 0) eqn:E1, (stack_top =? 0) eqn:E2; simplify_eq/=.
  by rewrite E1, E2.
Qed.
