(* ===== verification/Sched.v ===== *)
(** * The fixed-priority scheduler

    Models [kernel/src/sched]: the validated priority, the per-level FIFO
    ring, the ready queue made of eight rings, and the scheduler on top.
    [PriorityQueue] is the interface between the last two: an ordered list
    of entries, highest priority first and oldest first within a priority.
    The ring buffers refine it, and the scheduler is verified against it. *)

From stdpp Require Import sorting base decidable numbers option tactics list.
From S2P Require Import Prelude Thread.
Local Open Scope nat_scope.

(** ** [sched::priority] *)

Definition PRIORITY_LEVELS : nat := 8.

(** [struct Priority(u8)] *)
Record Priority := mkPriority { level : nat }.

Definition Priority_MIN : Priority := mkPriority 0.
Definition Priority_MAX : Priority := mkPriority (PRIORITY_LEVELS - 1).
Definition Priority_new (l : nat) : option Priority :=
  if decide (l < PRIORITY_LEVELS) then Some (mkPriority l) else None.

#[export] Instance Priority_eq_dec : EqDecision Priority.
Proof. solve_decision. Defined.

(** ** [sched::queue] *)

Definition QUEUE_CAPACITY : nat := 16.

#[global] Arguments QUEUE_CAPACITY : simpl never.
#[global] Arguments PRIORITY_LEVELS : simpl never.

Inductive QueueError := Full | AlreadyQueued.

#[export] Instance QueueError_eq_dec : EqDecision QueueError.
Proof. solve_decision. Defined.

Module Fifo.

Record t := Mk { slots : list (option ThreadId); head : nat; len : nat }.

Definition new : t := Mk (replicate QUEUE_CAPACITY None) 0 0.

Definition push_back (self : t) (tid : ThreadId) : outcome (t * result unit QueueError) :=
  if decide (self.(len) = QUEUE_CAPACITY) then mret (self, Err Full)
  else
    let tail := (self.(head) + self.(len)) mod QUEUE_CAPACITY in
    s ← arr_set self.(slots) tail (Some tid);
    mret (Mk s self.(head) (self.(len) + 1), Ok tt).

Definition pop_front (self : t) : outcome (t * option ThreadId) :=
  if decide (self.(len) = 0) then mret (self, None)
  else
    tid ← arr_get self.(slots) self.(head);
    s ← arr_set self.(slots) self.(head) None;
    mret (Mk s ((self.(head) + 1) mod QUEUE_CAPACITY) (self.(len) - 1), tid).

Definition contains (self : t) (tid : ThreadId) : outcome bool :=
  any_m (fun i => slot ← arr_get self.(slots) ((self.(head) + i) mod QUEUE_CAPACITY);
                  mret (bool_decide (slot = Some tid)))
        (seq 0 self.(len)).

(** One turn of [remove]'s loop over (found, kept, kept_len). *)
Definition remove_step (self : t) (tid : ThreadId)
    (acc : bool * list (option ThreadId) * nat) (i : nat)
    : outcome (bool * list (option ThreadId) * nat) :=
  let '(found, kept, kept_len) := acc in
  slot ← arr_get self.(slots) ((self.(head) + i) mod QUEUE_CAPACITY);
  if (bool_decide (slot = Some tid) && negb found)%bool then mret (true, kept, kept_len)
  else kept' ← arr_set kept kept_len slot; mret (found, kept', kept_len + 1).

Definition remove (self : t) (tid : ThreadId) : outcome (t * bool) :=
  acc ← for_m (remove_step self tid) (false, replicate QUEUE_CAPACITY None, 0)
              (seq 0 self.(len));
  let '((found, kept), kept_len) := (acc : bool * list (option ThreadId) * nat) in
  mret (if found then Mk kept 0 kept_len else self, found).

(** *** The ring refines a list

    [rep self l]: the ring holds exactly the threads [l], oldest first. *)
Definition rep (self : t) (l : list ThreadId) : Prop :=
  length self.(slots) = QUEUE_CAPACITY /\ self.(head) < QUEUE_CAPACITY /\
  self.(len) = length l /\ length l <= QUEUE_CAPACITY /\
  forall i tid, l !! i = Some tid ->
    self.(slots) !! ((self.(head) + i) mod QUEUE_CAPACITY) = Some (Some tid).

(** Distinct logical positions below the capacity are distinct slots. *)
Lemma ring_inj h i j :
  i < QUEUE_CAPACITY -> j < QUEUE_CAPACITY ->
  (h + i) mod QUEUE_CAPACITY = (h + j) mod QUEUE_CAPACITY -> i = j.
Proof. unfold QUEUE_CAPACITY. natmod_lia. Qed.

Lemma ring_bound x : x mod QUEUE_CAPACITY < QUEUE_CAPACITY.
Proof. apply Nat.mod_upper_bound. done. Qed.

Lemma rep_slot self l i tid : rep self l -> l !! i = Some tid ->
  arr_get self.(slots) ((self.(head) + i) mod QUEUE_CAPACITY) = Val (Some tid).
Proof. intros (_ & _ & _ & _ & H) Hi. by apply arr_get_lookup, H. Qed.

Lemma new_rep : rep new [].
Proof.
  unfold new, rep, QUEUE_CAPACITY; simpl. repeat split; try lia. by intros i tid; rewrite lookup_nil.
Qed.

Lemma push_back_rep self l tid : rep self l ->
  (length l = QUEUE_CAPACITY /\ push_back self tid = Val (self, Err Full)) \/
  (length l < QUEUE_CAPACITY /\
   exists self', push_back self tid = Val (self', Ok tt) /\ rep self' (l ++ [tid])).
Proof.
  intros (Hs & Hh & Hl & Hc & H). unfold push_back. case_decide as E; [left; split; [lia|done]|].
  right; split; [lia|]. rewrite arr_set_lt by (rewrite Hs; apply ring_bound). simpl.
  eexists; split; [done|]. unfold rep; simpl. rewrite length_insert, length_app; simpl.
  repeat split; try lia. intros i t Hi.
  apply lookup_app_Some in Hi as [Hi|[Hi Ht]].
  - rewrite list_lookup_insert_ne; [by apply H|]. intros Eq. apply lookup_lt_Some in Hi.
    apply ring_inj in Eq; lia.
  - apply list_lookup_singleton_Some in Ht as [Hz ->]. replace i with (len self) by lia.
    apply list_lookup_insert_eq. rewrite Hs. apply ring_bound.
Qed.

Lemma pop_front_rep self l : rep self l ->
  match l with
  | [] => pop_front self = Val (self, None)
  | tid :: l' => exists self', pop_front self = Val (self', Some tid) /\ rep self' l'
  end.
Proof.
  intros Hrep. pose proof Hrep as (Hs & Hh & Hl & Hc & H). unfold pop_front.
  destruct l as [|tid l]; [by rewrite decide_True|].
  simpl length in *. rewrite decide_False by lia. pose proof (H 0 tid eq_refl) as H0.
  rewrite Nat.add_0_r, Nat.mod_small in H0 by done.
  rewrite (arr_get_lookup _ _ _ H0); simpl. rewrite arr_set_lt by lia. simpl.
  eexists; split; [done|]. unfold rep; simpl. rewrite length_insert.
  repeat split; [lia|apply ring_bound|lia|lia|]. intros i t Hi.
  replace (((head self + 1) mod QUEUE_CAPACITY + i) mod QUEUE_CAPACITY)
    with ((head self + S i) mod QUEUE_CAPACITY)
    by (rewrite Nat.Div0.add_mod_idemp_l; f_equal; lia).
  rewrite list_lookup_insert_ne; [by apply (H (S i))|].
  apply lookup_lt_Some in Hi. intros Eq.
  assert (S i = 0); [|lia]. apply (ring_inj (head self)); [lia|lia|].
  rewrite <- Eq, Nat.add_0_r, Nat.mod_small; done.
Qed.

Lemma contains_rep self l tid : rep self l -> contains self tid = Val (bool_decide (tid ∈ l)).
Proof.
  intros Hrep. pose proof Hrep as (_ & _ & Hl & _ & _). unfold contains. rewrite Hl.
  assert (forall pre suf, l = pre ++ suf ->
    any_m (fun i => slot ← arr_get (slots self) ((head self + i) mod QUEUE_CAPACITY);
                    mret (bool_decide (slot = Some tid))) (seq (length pre) (length suf))
    = Val (bool_decide (tid ∈ suf))) as Hgen; [|by apply (Hgen [])].
  intros pre suf; revert pre. induction suf as [|t suf IH]; intros pre El; simpl.
  { done. }
  rewrite (rep_slot self l _ t Hrep) by (subst l; by rewrite lookup_app_r, Nat.sub_diag).
  simpl. destruct (bool_decide_reflect (Some t = Some tid)) as [E|E]; simplify_eq.
  - by rewrite bool_decide_true by (apply elem_of_cons; auto).
  - specialize (IH (pre ++ [t])). rewrite length_app, Nat.add_1_r in IH.
    rewrite IH by (by rewrite <- app_assoc). f_equal. apply bool_decide_ext.
    rewrite elem_of_cons. naive_solver.
Qed.

(** [l] without its first occurrence of [tid]. *)
Fixpoint remove1 (tid : ThreadId) (l : list ThreadId) : option (list ThreadId) :=
  match l with
  | [] => None
  | x :: l => if decide (x = tid) then Some l else cons x <$> remove1 tid l
  end.

Lemma remove1_None tid l : remove1 tid l = None <-> (tid ∉ l).
Proof.
  induction l as [|x l IH]; simpl; [split; [intros _; apply not_elem_of_nil|done]|].
  rewrite not_elem_of_cons. case_decide as E; [naive_solver|].
  destruct (remove1 tid l); naive_solver.
Qed.

Lemma remove1_filter tid l l' : NoDup l -> remove1 tid l = Some l' ->
  l' = filter (fun x => x <> tid) l.
Proof.
  revert l'. induction l as [|x l IH]; intros l' Hnd H; simpl in *; [done|].
  apply NoDup_cons in Hnd as [Hx Hnd]. rewrite filter_cons. case_decide as E; subst.
  - simplify_eq. rewrite decide_False by tauto. symmetry. apply filter_all.
    apply Forall_forall. intros y Hy ->. done.
  - rewrite decide_True by done. destruct (remove1 tid l) eqn:Er; simplify_eq/=.
    f_equal. by apply IH.
Qed.

(** The compacted array under construction holds the threads [kl]. *)
Definition holds (kept : list (option ThreadId)) (kl : list ThreadId) : Prop :=
  length kept = QUEUE_CAPACITY /\
  forall i tid, kl !! i = Some tid -> kept !! i = Some (Some tid).

Lemma holds_snoc kept kl t : holds kept kl -> length kl < QUEUE_CAPACITY ->
  holds (<[length kl := Some t]> kept) (kl ++ [t]).
Proof.
  intros [Hk H] Hl. split; [by rewrite length_insert|]. intros i t' Hi.
  apply lookup_app_Some in Hi as [Hi|[Hi Ht]].
  - apply lookup_lt_Some in Hi as Hlt. rewrite list_lookup_insert_ne by lia. by apply H.
  - apply list_lookup_singleton_Some in Ht as [Hz ->]. replace i with (length kl) by lia.
    apply list_lookup_insert_eq. lia.
Qed.

Definition removed (found : bool) (tid : ThreadId) (suf : list ThreadId) : bool * list ThreadId :=
  if found then (true, suf)
  else match remove1 tid suf with Some s => (true, s) | None => (false, suf) end.

Lemma remove_loop self l tid suf : rep self l -> forall pre found kept kl,
  l = pre ++ suf -> holds kept kl -> length kl <= length pre ->
  exists kept', holds kept' (kl ++ (removed found tid suf).2) /\
    for_m (remove_step self tid) (found, kept, length kl) (seq (length pre) (length suf)) =
    Val ((removed found tid suf).1, kept', length (kl ++ (removed found tid suf).2)).
Proof.
  intros Hrep. pose proof Hrep as (_ & _ & _ & Hc & _).
  induction suf as [|t suf IH]; intros pre found kept kl El Hk Hkl; simpl.
  { exists kept. destruct found; simpl; by rewrite app_nil_r. }
  assert (length pre < length l) as Hpre by (subst l; rewrite length_app; simpl; lia).
  rewrite (rep_slot self l _ t Hrep) by (subst l; by rewrite lookup_app_r, Nat.sub_diag).
  simpl. specialize (IH (pre ++ [t])).
  rewrite length_app, Nat.add_1_r, <- app_assoc in IH; simpl in IH.
  destruct (bool_decide (Some t = Some tid) && negb found)%bool eqn:E; simpl.
  - bool_facts. destruct found; [done|]. simplify_eq. unfold removed; simpl.
    rewrite decide_True by done. by apply (IH true kept kl); [|done|lia].
  - rewrite arr_set_lt by (destruct Hk; lia); simpl.
    destruct (IH found (<[length kl:=Some t]> kept) (kl ++ [t]))
      as (kept' & Hh & Hf); [done|apply holds_snoc; [done|lia]|rewrite length_app; simpl; lia|].
    exists kept'. rewrite length_app in Hf; simpl in Hf.
    assert (removed found tid (t :: suf) =
            ((removed found tid suf).1, t :: (removed found tid suf).2)) as ->.
    { unfold removed; simpl. destruct found; [done|]. rewrite decide_False.
      - by destruct (remove1 tid suf).
      - intros ->. by rewrite bool_decide_true in E. }
    simpl. rewrite Hf, <- app_assoc in *. done.
Qed.

Lemma remove_rep self l tid : rep self l ->
  match remove1 tid l with
  | Some l' => exists self', remove self tid = Val (self', true) /\ rep self' l'
  | None => remove self tid = Val (self, false)
  end.
Proof.
  intros Hrep. pose proof Hrep as (_ & _ & Hl & Hc & _). unfold remove. rewrite Hl.
  destruct (remove_loop self l tid l Hrep [] false (replicate QUEUE_CAPACITY None) [])
    as (kept & [Hlen Hk] & Hf); [done| |done|].
  { split; [apply length_replicate|]. intros i t. by rewrite lookup_nil. }
  simpl in *. rewrite Hf. unfold removed in *. destruct (remove1 tid l) as [l'|] eqn:E; [|done].
  simpl in *. eexists; split; [done|].
  assert (length l' <= length l) as Hle.
  { clear -E. revert l' E. induction l as [|x l IH]; intros l' E; simpl in *; [done|].
    case_decide; simplify_eq; [lia|]. destruct (remove1 tid l); simplify_eq/=.
    specialize (IH _ eq_refl). lia. }
  unfold rep; simpl. repeat split; try lia; [unfold QUEUE_CAPACITY; lia|].
  intros i t Hi. rewrite Nat.mod_small; [by apply Hk|]. apply lookup_lt_Some in Hi. lia.
Qed.

End Fifo.

Module ReadyQueue.

Record t := Mk { levels : list Fifo.t }.

Definition new : t := Mk (replicate PRIORITY_LEVELS Fifo.new).

Definition contains (self : t) (tid : ThreadId) : outcome bool :=
  any_m (fun f => Fifo.contains f tid) self.(levels).

Definition enqueue (self : t) (tid : ThreadId) (prio : Priority)
    : outcome (t * result unit QueueError) :=
  c ← contains self tid;
  if c : bool then mret (self, Err AlreadyQueued)
  else
    f ← arr_get self.(levels) (level prio);
    p ← Fifo.push_back f tid;
    ls ← arr_set self.(levels) (level prio) p.1;
    mret (Mk ls, p.2).

(** The [for level in (0..n).rev()] loop of [pop_highest]. *)
Fixpoint pop_loop (self : t) (n : nat) : outcome (t * option (ThreadId * Priority)) :=
  match n with
  | 0 => mret (self, None)
  | S lv =>
      f ← arr_get self.(levels) lv;
      p ← Fifo.pop_front f;
      ls ← arr_set self.(levels) lv p.1;
      match p.2 with
      | Some tid => prio ← expect (Priority_new lv); mret (Mk ls, Some (tid, prio))
      | None => pop_loop (Mk ls) lv
      end
  end.

Definition pop_highest (self : t) : outcome (t * option (ThreadId * Priority)) :=
  pop_loop self PRIORITY_LEVELS.

(** [levels.iter_mut().any(|f| f.remove(tid))] *)
Fixpoint remove_any (ls : list Fifo.t) (tid : ThreadId) : outcome (list Fifo.t * bool) :=
  match ls with
  | [] => mret ([], false)
  | f :: ls =>
      p ← Fifo.remove f tid;
      if (p.2 : bool) then mret (p.1 :: ls, true)
      else q ← remove_any ls tid; mret (p.1 :: q.1, q.2)
  end.

Definition remove (self : t) (tid : ThreadId) : outcome (t * bool) :=
  p ← remove_any self.(levels) tid; mret (Mk p.1, p.2).

Definition is_empty (self : t) : bool :=
  forallb (fun f => bool_decide (Fifo.len f = 0)) self.(levels).

End ReadyQueue.

(** ** What the ready queue promises

    An abstract queue is the list of its entries in selection order. *)

Abbreviation entry := (ThreadId * Priority)%type.

Definition above (a b : entry) : Prop := level b.2 <= level a.2.

Definition spec_enqueue (l : list entry) (tid : ThreadId) (p : Priority)
    : list entry * result unit QueueError :=
  if decide (tid ∈ l.*1) then (l, Err AlreadyQueued)
  else if decide (length (filter (fun e => e.2 = p) l) = QUEUE_CAPACITY) then (l, Err Full)
  else (filter (fun e => level p <= level e.2) l ++
        (tid, p) :: filter (fun e => level e.2 < level p) l, Ok tt).

Definition spec_pop (l : list entry) : list entry * option entry :=
  match l with [] => ([], None) | e :: l => (l, Some e) end.

Definition spec_remove (l : list entry) (tid : ThreadId) : list entry * bool :=
  (filter (fun e => e.1 <> tid) l, bool_decide (tid ∈ l.*1)).

Class PriorityQueue (Q : Type) := {
  pq_new : Q;
  pq_enqueue : Q -> ThreadId -> Priority -> outcome (Q * result unit QueueError);
  pq_pop : Q -> outcome (Q * option entry);
  pq_remove : Q -> ThreadId -> outcome (Q * bool);
  pq_is_empty : Q -> bool;
  pq_rep : Q -> list entry -> Prop;
  pq_new_rep : pq_rep pq_new [];
  pq_enqueue_rep q l tid p : pq_rep q l -> level p < PRIORITY_LEVELS ->
    exists q', pq_enqueue q tid p = Val (q', (spec_enqueue l tid p).2) /\
               pq_rep q' (spec_enqueue l tid p).1;
  pq_pop_rep q l : pq_rep q l ->
    exists q', pq_pop q = Val (q', (spec_pop l).2) /\ pq_rep q' (spec_pop l).1;
  pq_remove_rep q l tid : pq_rep q l ->
    exists q', pq_remove q tid = Val (q', (spec_remove l tid).2) /\
               pq_rep q' (spec_remove l tid).1;
  pq_is_empty_rep q l : pq_rep q l -> pq_is_empty q = bool_decide (l = []);
  pq_rep_wf q l : pq_rep q l ->
    NoDup l.*1 /\ StronglySorted above l /\ length l <= PRIORITY_LEVELS * QUEUE_CAPACITY
}.

(** *** The eight rings implement it *)

(** The entries of levels [k], [k+1], ... in selection order. *)
Fixpoint lv_view (k : nat) (ls : list (list ThreadId)) : list entry :=
  match ls with
  | [] => []
  | l :: ls => lv_view (S k) ls ++ map (fun t => (t, mkPriority k)) l
  end.

Lemma lv_view_level k ls : Forall (fun e => k <= level e.2 < k + length ls) (lv_view k ls).
Proof.
  revert k; induction ls as [|l ls IH]; intros k; simpl; [constructor|].
  apply Forall_app; split.
  - eapply Forall_impl; [apply IH|]. simpl; lia.
  - apply Forall_map, Forall_true. simpl; lia.
Qed.

(** Level bounds of the entries of a view. *)
Ltac lv_levels :=
  first [ apply Forall_map, Forall_true; simpl; lia
        | eapply Forall_impl; [apply lv_view_level|simpl; lia] ].

Lemma lv_view_snoc k ls l :
  lv_view k (ls ++ [l]) = map (fun t => (t, mkPriority (k + length ls))) l ++ lv_view k ls.
Proof.
  revert k; induction ls as [|l' ls IH]; intros k; simpl.
  - by rewrite Nat.add_0_r, app_nil_r.
  - by rewrite IH, <- app_assoc, Nat.add_succ_r.
Qed.

Lemma elem_of_lv_view k ls tid : tid ∈ (lv_view k ls).*1 <-> exists l, l ∈ ls /\ tid ∈ l.
Proof.
  revert k; induction ls as [|l ls IH]; intros k; simpl.
  { split; [by intros ?%elem_of_nil|by intros (l & ?%elem_of_nil & _)]. }
  rewrite fmap_app, elem_of_app, IH. setoid_rewrite elem_of_cons.
  rewrite <- list_fmap_compose; unfold compose; simpl. rewrite list_fmap_id. naive_solver.
Qed.

Lemma lv_view_count k ls j l : ls !! j = Some l ->
  length (filter (fun e => e.2 = mkPriority (k + j)) (lv_view k ls)) = length l.
Proof.
  revert k j; induction ls as [|l' ls IH]; intros k j Hj; [done|]. cbn [lv_view].
  rewrite filter_app, length_app. destruct j as [|j]; [simpl in Hj; simplify_eq|].
  - rewrite Nat.add_0_r, filter_none, filter_all, length_map; [done|..].
    + by apply Forall_map, Forall_true.
    + eapply Forall_impl; [apply lv_view_level|]. simpl. intros [t [p]] ? [=]. simpl in *. lia.
  - replace (k + S j) with (S k + j) by lia. rewrite (IH (S k) j Hj), filter_none; [simpl; lia|].
    apply Forall_map, Forall_true. intros t [=]. lia.
Qed.

Lemma lv_view_insert k ls j l tid : ls !! j = Some l ->
  lv_view k (<[j := l ++ [tid]]> ls) =
    filter (fun e => k + j <= level e.2) (lv_view k ls) ++
    (tid, mkPriority (k + j)) :: filter (fun e => level e.2 < k + j) (lv_view k ls).
Proof.
  revert k j; induction ls as [|l' ls IH]; intros k j Hj; simpl; [done|].
  destruct j as [|j]; simplify_eq/=; rewrite !filter_app.
  - rewrite Nat.add_0_r, map_app. simpl.
    rewrite !(filter_all (fun e => k <= level e.2)), !(filter_none (fun e => level e.2 < k))
      by lv_levels.
    by rewrite app_assoc.
  - rewrite (IH (S k) j Hj), <- !app_assoc, !Nat.add_succ_r. simpl. f_equal.
    by rewrite (filter_none (fun e => S (k + j) <= level e.2)),
      (filter_all _ (map _ l')) by lv_levels.
Qed.

Lemma lv_view_sorted k ls : StronglySorted above (lv_view k ls).
Proof.
  revert k; induction ls as [|l ls IH]; intros k; simpl; [constructor|].
  apply StronglySorted_app_2; [|apply IH|].
  - intros x1 x2 H1 [t [-> _]]%list_elem_of_fmap. unfold above; simpl.
    pose proof (lv_view_level (S k) ls) as HF. rewrite Forall_forall in HF.
    specialize (HF x1 H1). lia.
  - clear IH. induction l as [|t l IH]; simpl; [constructor|]. constructor; [done|].
    apply Forall_map, Forall_true. unfold above; simpl; lia.
Qed.

Lemma lv_view_length k ls n : Forall (fun l => length l <= n) ls ->
  length (lv_view k ls) <= length ls * n.
Proof.
  intros H; revert k; induction H as [|l ls Hl _ IH]; intros k; simpl; [lia|].
  rewrite length_app, length_map. specialize (IH (S k)). lia.
Qed.

Lemma lv_view_filter k ls tid :
  lv_view k (map (filter (fun x => x <> tid)) ls) = filter (fun e => e.1 <> tid) (lv_view k ls).
Proof.
  revert k; induction ls as [|l ls IH]; intros k; simpl; [done|].
  rewrite filter_app, IH. f_equal. clear IH.
  induction l as [|t l IH]; simpl; [done|]. rewrite !filter_cons; simpl.
  case_decide; simpl; by rewrite IH.
Qed.

Lemma lv_view_empty k ls : Forall (fun l => l = []) ls -> lv_view k ls = [].
Proof. intros H; revert k; induction H as [|l ls -> _ IH]; intros k; simpl; [done|]. by rewrite IH. Qed.

Module ReadyQueueRep.
Import ReadyQueue.

Definition rep (self : t) (ls : list (list ThreadId)) : Prop :=
  length ls = PRIORITY_LEVELS /\ Forall2 Fifo.rep self.(levels) ls /\
  NoDup (lv_view 0 ls).*1.

(** [pq_rep] for the rings: the entries of the represented levels. *)
Definition queue_rep (self : t) (l : list entry) : Prop :=
  exists ls, rep self ls /\ l = lv_view 0 ls.

Lemma new_queue_rep : queue_rep new [].
Proof.
  exists (replicate PRIORITY_LEVELS []). split; [|done]. split; [done|]. split; [|constructor].
  repeat constructor; try (simpl; lia); intros i tid; by rewrite lookup_nil.
Qed.

Lemma queue_contains_rep self ls tid : Forall2 Fifo.rep self.(levels) ls ->
  contains self tid = Val (bool_decide (tid ∈ (lv_view 0 ls).*1)).
Proof.
  intros H. transitivity (Val (existsb (fun l => bool_decide (tid ∈ l)) ls)).
  - unfold contains. induction H as [|f l fs ls Hf _ IH]; [done|]. simpl any_m.
    rewrite (Fifo.contains_rep f l tid Hf); simpl. rewrite IH. by case_bool_decide.
  - f_equal. apply eq_true_iff_eq. rewrite existsb_exists, bool_decide_eq_true, elem_of_lv_view.
    setoid_rewrite bool_decide_eq_true. by setoid_rewrite list_elem_of_In.
Qed.

(** Inserting one entry at its place only permutes the rest. *)
Lemma spec_insert_perm (l : list entry) e n :
  filter (fun e => n <= level e.2) l ++ e :: filter (fun e => level e.2 < n) l ≡ₚ e :: l.
Proof.
  rewrite <- Permutation_middle. f_equiv. induction l as [|x l IH]; [done|].
  rewrite !filter_cons. destruct (decide (n <= level x.2)), (decide (level x.2 < n));
    try lia; simpl.
  - by rewrite IH.
  - by rewrite <- Permutation_middle, IH.
Qed.

Lemma enqueue_queue_rep self l tid p : queue_rep self l -> level p < PRIORITY_LEVELS ->
  exists self', enqueue self tid p = Val (self', (spec_enqueue l tid p).2) /\
                queue_rep self' (spec_enqueue l tid p).1.
Proof.
  intros (ls & (Hlen & HF & Hnd) & ->) Hp. unfold enqueue. rewrite (queue_contains_rep self ls) by done.
  unfold spec_enqueue. destruct (decide (tid ∈ (lv_view 0 ls).*1)) as [Hin|Hin]; simpl.
  { rewrite bool_decide_true by done. eexists; split; [done|]. by exists ls. }
  rewrite bool_decide_false by done. simpl.
  destruct (lookup_lt_is_Some_2 ls (level p)) as [l El]; [lia|].
  destruct (Forall2_lookup_r _ _ _ _ _ HF El) as (f & Ef & Hf).
  rewrite (arr_get_lookup _ _ _ Ef); simpl. apply lookup_lt_Some in Ef as Hlt.
  pose proof (lv_view_count 0 ls (level p) l El) as Hc.
  pose proof (lv_view_insert 0 ls (level p) l tid El) as Hi.
  replace (mkPriority (0 + level p)) with p in Hc, Hi by by destruct p.
  destruct (Fifo.push_back_rep f l tid Hf) as [[Hl ->]|(Hl & f' & -> & Hf')]; simpl;
    rewrite arr_set_lt by done; simpl.
  - rewrite decide_True by congruence. eexists; split; [done|]. exists ls.
    rewrite list_insert_id by done. by destruct self.
  - rewrite decide_False by lia. eexists; split; [done|]. simpl.
    exists (<[level p := l ++ [tid]]> ls). split; [|done].
    split; [by rewrite length_insert|]. split; [by apply Forall2_insert|].
    rewrite Hi, spec_insert_perm. simpl. by constructor.
Qed.

Lemma pop_loop_rep fs ls n : Forall2 Fifo.rep fs ls -> n <= length ls -> n <= PRIORITY_LEVELS ->
  exists fs' ls', Forall2 Fifo.rep fs' ls' /\ length ls' = length ls /\ drop n ls' = drop n ls /\
    lv_view 0 (take n ls') = (spec_pop (lv_view 0 (take n ls))).1 /\
    pop_loop (Mk fs) n = Val (Mk fs', (spec_pop (lv_view 0 (take n ls))).2).
Proof.
  intros HF. induction n as [|n IH]; intros Hn HP.
  { exists fs, ls. by rewrite !take_0. }
  destruct (lookup_lt_is_Some_2 ls n) as [l El]; [lia|].
  destruct (Forall2_lookup_r _ _ _ _ _ HF El) as (f & Ef & Hf).
  simpl pop_loop. rewrite (arr_get_lookup _ _ _ Ef); simpl.
  apply lookup_lt_Some in Ef as Hlt. pose proof (Fifo.pop_front_rep f l Hf) as Hpop.
  rewrite (take_S_r ls n l El), lv_view_snoc, length_take, Nat.min_l by lia.
  destruct l as [|tid l]; simpl.
  - rewrite Hpop; simpl. rewrite arr_set_lt, list_insert_id by done. simpl.
    destruct IH as (fs' & ls' & HF' & Hl' & Hd & Hv & ->); [lia..|].
    assert (ls' !! n = Some []) as El'.
    { rewrite <- (Nat.add_0_r n), <- lookup_drop, Hd, lookup_drop. by rewrite Nat.add_0_r. }
    exists fs', ls'. repeat split; [done..| |].
    + apply (f_equal (drop 1)) in Hd. by rewrite !drop_drop, !Nat.add_1_r in Hd.
    + rewrite (take_S_r ls' n [] El'), lv_view_snoc, Hv. done.
  - destruct Hpop as (f' & -> & Hf'). simpl. rewrite arr_set_lt by done. simpl.
    unfold Priority_new. rewrite decide_True by lia. simpl.
    exists (<[n:=f']> fs), (<[n:=l]> ls). repeat split.
    + by apply Forall2_insert.
    + apply length_insert.
    + by rewrite drop_insert_lt by lia.
    + rewrite (take_S_r _ n l) by (apply list_lookup_insert_eq; lia).
      rewrite take_insert_ge by lia. rewrite lv_view_snoc, length_take, Nat.min_l by lia. done.
Qed.

Lemma NoDup_app_fst {A B} (l1 l2 : list (A * B)) :
  NoDup (l1 ++ l2).*1 -> NoDup l1.*1 /\ NoDup l2.*1 /\ (forall x, x ∈ l1.*1 -> x ∉ l2.*1).
Proof. rewrite fmap_app, NoDup_app. tauto. Qed.

Lemma fst_level (l : list ThreadId) k : (map (fun t => (t, mkPriority k)) l).*1 = l.
Proof. induction l as [|t l IH]; [done|]. cbn. by f_equal. Qed.

Lemma remove_any_rep fs ls k tid : Forall2 Fifo.rep fs ls -> NoDup (lv_view k ls).*1 ->
  exists fs', Forall2 Fifo.rep fs' (map (filter (fun x => x <> tid)) ls) /\
    remove_any fs tid = Val (fs', bool_decide (tid ∈ (lv_view k ls).*1)).
Proof.
  intros H; revert k. induction H as [|f l fs ls Hf HF IH]; intros k Hnd.
  { by exists []. }
  simpl lv_view in Hnd. apply NoDup_app_fst in Hnd as (Hnd & Hndl & Hdis).
  rewrite fst_level in *. pose proof (Fifo.remove_rep f l tid Hf) as Hr. simpl remove_any.
  rewrite (bool_decide_ext _ (tid ∈ (lv_view (S k) ls).*1 \/ tid ∈ l))
    by (simpl; by rewrite fmap_app, elem_of_app, fst_level).
  destruct (Fifo.remove1 tid l) as [l'|] eqn:E.
  - assert (tid ∈ l) as Hin.
    { destruct (decide (tid ∈ l)); [done|]. apply Fifo.remove1_None in n. congruence. }
    destruct Hr as (f' & -> & Hf'). simpl. rewrite bool_decide_true by auto.
    eexists; split; [|done]. apply Fifo.remove1_filter in E as ->; [|done].
    constructor; [done|]. rewrite <- (map_id ls) in HF.
    replace (map (filter (fun x => x <> tid)) ls) with (map id ls); [done|].
    apply map_ext_in. intros l'' Hl. symmetry. apply filter_all, Forall_forall.
    intros x Hx ->. apply (Hdis tid); [|done]. apply elem_of_lv_view. exists l''.
    by rewrite list_elem_of_In.
  - rewrite Hr; simpl. destruct (IH (S k) Hnd) as (fs' & HF' & ->). simpl.
    apply Fifo.remove1_None in E. eexists; split.
    + constructor; [|done]. rewrite filter_all; [done|]. apply Forall_forall. by intros x Hx ->.
    + f_equal. f_equal. apply bool_decide_ext. tauto.
Qed.

Lemma pop_queue_rep self l : queue_rep self l ->
  exists self', pop_highest self = Val (self', (spec_pop l).2) /\ queue_rep self' (spec_pop l).1.
Proof.
  intros (ls & (Hlen & HF & Hnd) & ->). destruct self as [fs]. unfold pop_highest.
  destruct (pop_loop_rep fs ls PRIORITY_LEVELS HF) as (fs' & ls' & HF' & Hl' & _ & Hv & ->); [lia..|].
  rewrite !take_ge in * by lia. eexists; split; [done|]. exists ls'. split; [|done].
  split; [lia|]. split; [done|]. rewrite Hv. destruct (lv_view 0 ls); [done|].
  by apply NoDup_cons in Hnd as [_ ?].
Qed.

Lemma remove_queue_rep self l tid : queue_rep self l ->
  exists self', remove self tid = Val (self', (spec_remove l tid).2) /\
                queue_rep self' (spec_remove l tid).1.
Proof.
  intros (ls & (Hlen & HF & Hnd) & ->). unfold remove.
  destruct (remove_any_rep _ ls 0 tid HF Hnd) as (fs' & HF' & ->). simpl.
  eexists; split; [done|]. exists (map (filter (fun x => x <> tid)) ls).
  split; [|by rewrite lv_view_filter]. split; [by rewrite length_map|]. split; [done|].
  rewrite lv_view_filter. eapply sublist_NoDup; [exact Hnd|].
  apply fmap_sublist, sublist_filter.
Qed.

Lemma is_empty_queue_rep self l : queue_rep self l -> is_empty self = bool_decide (l = []).
Proof.
  intros (ls & (_ & HF & _) & ->). unfold is_empty.
  enough (forall k, forallb (fun f => bool_decide (Fifo.len f = 0)) (levels self) =
                    bool_decide (lv_view k ls = [])) as H by apply H.
  induction HF as [|f l fs ls Hf _ IH]; intros k; [done|]. simpl. rewrite (IH (S k)).
  destruct Hf as (_ & _ & -> & _). apply eq_true_iff_eq.
  rewrite andb_true_iff, !bool_decide_eq_true, length_zero_iff_nil.
  rewrite app_nil. destruct l; simpl; naive_solver.
Qed.

Lemma queue_rep_wf self l : queue_rep self l ->
  NoDup l.*1 /\ StronglySorted above l /\ length l <= PRIORITY_LEVELS * QUEUE_CAPACITY.
Proof.
  intros (ls & (Hlen & HF & Hnd) & ->). split; [done|]. split; [apply lv_view_sorted|].
  rewrite <- Hlen. apply lv_view_length. clear -HF.
  induction HF as [|f l fs ls (_ & _ & _ & Hc & _) _ IH]; by constructor.
Qed.

#[global] Instance ready_queue_pq : PriorityQueue t := {|
  pq_new := new; pq_enqueue := enqueue; pq_pop := pop_highest; pq_remove := remove;
  pq_is_empty := is_empty; pq_rep := queue_rep;
  pq_new_rep := new_queue_rep; pq_enqueue_rep := enqueue_queue_rep;
  pq_pop_rep := pop_queue_rep; pq_remove_rep := remove_queue_rep;
  pq_is_empty_rep := is_empty_queue_rep; pq_rep_wf := queue_rep_wf
|}.

End ReadyQueueRep.

(** ** [sched::FixedPriorityScheduler], over any priority queue *)

Section scheduler.
Context {Q : Type} `{PQ : PriorityQueue Q}.

Record FixedPriorityScheduler := mkScheduler { ready : Q }.

Definition scheduler_new : FixedPriorityScheduler := mkScheduler pq_new.

Definition mark_ready (self : FixedPriorityScheduler) (tid : ThreadId) (prio : Priority)
    : outcome (FixedPriorityScheduler * result unit QueueError) :=
  p ← pq_enqueue self.(ready) tid prio; mret (mkScheduler p.1, p.2).

Definition mark_not_ready (self : FixedPriorityScheduler) (tid : ThreadId)
    : outcome (FixedPriorityScheduler * bool) :=
  p ← pq_remove self.(ready) tid; mret (mkScheduler p.1, p.2).

(** The [while let] loop of [select_next].  The fuel counts turns; a run
    that exhausts it is reported as [Panic]. *)
Fixpoint select_loop (fuel : nat) (self : FixedPriorityScheduler) (is_ready : ThreadId -> bool)
    : outcome (FixedPriorityScheduler * option entry) :=
  match fuel with
  | 0 => Panic
  | S fuel =>
      p ← pq_pop self.(ready);
      match p.2 with
      | Some (tid, prio) =>
          if is_ready tid then mret (mkScheduler p.1, Some (tid, prio))
          else select_loop fuel (mkScheduler p.1) is_ready
      | None => mret (mkScheduler p.1, None)
      end
  end.

(** Each turn pops one of at most 128 entries. *)
Definition select_next (self : FixedPriorityScheduler) (is_ready : ThreadId -> bool)
    : outcome (FixedPriorityScheduler * option entry) :=
  select_loop (S (PRIORITY_LEVELS * QUEUE_CAPACITY)) self is_ready.

Definition is_idle (self : FixedPriorityScheduler) : bool := pq_is_empty self.(ready).

(** The specification: drop entries up to the first ready one. *)
Fixpoint spec_select (is_ready : ThreadId -> bool) (l : list entry) : list entry * option entry :=
  match l with
  | [] => ([], None)
  | e :: l => if is_ready e.1 then (l, Some e) else spec_select is_ready l
  end.

Definition sched_rep (self : FixedPriorityScheduler) (l : list entry) : Prop :=
  pq_rep self.(ready) l.

Lemma select_loop_rep fuel self is_ready l : length l < fuel -> sched_rep self l ->
  exists self', select_loop fuel self is_ready = Val (self', (spec_select is_ready l).2) /\
                sched_rep self' (spec_select is_ready l).1.
Proof.
  revert self l; induction fuel as [|fuel IH]; intros self l Hf Hr; [lia|]. simpl.
  destruct (pq_pop_rep _ _ Hr) as (q & -> & Hq). simpl.
  destruct l as [|[tid prio] l]; simpl in *; [by eexists|].
  destruct (is_ready tid); [by eexists|]. apply IH; [lia|done].
Qed.

Lemma select_next_rep self is_ready l : sched_rep self l ->
  exists self', select_next self is_ready = Val (self', (spec_select is_ready l).2) /\
                sched_rep self' (spec_select is_ready l).1.
Proof.
  intros Hr. apply select_loop_rep; [|done]. apply pq_rep_wf in Hr as (_ & _ & Hl). lia.
Qed.

Lemma spec_select_split is_ready l :
  match (spec_select is_ready l).2 with
  | Some e => exists stale, l = stale ++ e :: (spec_select is_ready l).1 /\
                is_ready e.1 = true /\ Forall (fun e' => is_ready e'.1 = false) stale
  | None => (spec_select is_ready l).1 = [] /\ Forall (fun e' => is_ready e'.1 = false) l
  end.
Proof.
  induction l as [|e l IH]; simpl; [done|].
  destruct (is_ready e.1) eqn:E; simpl; [by exists []|].
  destruct (spec_select is_ready l) as [l' [e'|]]; simpl in *.
  - destruct IH as (stale & -> & Hr & HF). exists (e :: stale). auto.
  - destruct IH as [-> HF]. auto.
Qed.

(** Scheduler histories: the three operations the kernel calls. *)
Inductive sched_op :=
| SReady (tid : ThreadId) (prio : Priority)
| SNotReady (tid : ThreadId)
| SSelect (is_ready : ThreadId -> bool).

Definition op_valid (o : sched_op) : Prop :=
  match o with SReady _ p => level p < PRIORITY_LEVELS | _ => True end.

(** What each operation answers its caller. *)
Inductive sched_answer :=
| AReady (r : result unit QueueError)
| ANotReady (removed : bool)
| ASelect (pick : option entry).

Definition sched_call (self : FixedPriorityScheduler) (o : sched_op)
    : outcome (FixedPriorityScheduler * sched_answer) :=
  match o with
  | SReady tid p => r ← mark_ready self tid p; mret (r.1, AReady r.2)
  | SNotReady tid => r ← mark_not_ready self tid; mret (r.1, ANotReady r.2)
  | SSelect is_ready => r ← select_next self is_ready; mret (r.1, ASelect r.2)
  end.
Definition sched_step (self : FixedPriorityScheduler) (o : sched_op) : outcome FixedPriorityScheduler :=
  r ← sched_call self o; mret r.1.

(** A history with its answers. *)
Fixpoint sched_run (self : FixedPriorityScheduler) (ops : list sched_op)
    : outcome (FixedPriorityScheduler * list sched_answer) :=
  match ops with
  | [] => mret (self, [])
  | o :: ops => r ← sched_call self o; r' ← sched_run r.1 ops; mret (r'.1, r.2 :: r'.2)
  end.

Definition spec_call (l : list entry) (o : sched_op) : list entry * sched_answer :=
  match o with
  | SReady tid p => let r := spec_enqueue l tid p in (r.1, AReady r.2)
  | SNotReady tid => let r := spec_remove l tid in (r.1, ANotReady r.2)
  | SSelect is_ready => let r := spec_select is_ready l in (r.1, ASelect r.2)
  end.
Definition spec_step (l : list entry) (o : sched_op) : list entry := (spec_call l o).1.
Fixpoint spec_answers (l : list entry) (ops : list sched_op) : list sched_answer :=
  match ops with
  | [] => []
  | o :: ops => (spec_call l o).2 :: spec_answers (spec_step l o) ops
  end.

Lemma sched_call_rep self l o : op_valid o -> sched_rep self l ->
  exists self', sched_call self o = Val (self', (spec_call l o).2) /\ sched_rep self' (spec_step l o).
Proof.
  intros Hv Hr. destruct o as [tid p|tid|is_ready]; simpl in *.
  - unfold mark_ready. destruct (pq_enqueue_rep _ _ tid p Hr Hv) as (q & -> & Hq). by eexists.
  - unfold mark_not_ready. destruct (pq_remove_rep _ _ tid Hr) as (q & -> & Hq). by eexists.
  - destruct (select_next_rep self is_ready l Hr) as (s & -> & Hs). by eexists.
Qed.

Lemma sched_answers_rep ops self l : Forall op_valid ops -> sched_rep self l ->
  exists self', sched_run self ops = Val (self', spec_answers l ops) /\
    for_m sched_step self ops = Val self' /\ sched_rep self' (foldl spec_step l ops).
Proof.
  revert self l. induction ops as [|o ops IH]; intros self l Hv Hr; simpl; [by exists self|].
  apply Forall_cons in Hv as [Ho Hv]. destruct (sched_call_rep self l o Ho Hr) as (s1 & Ec & Hs).
  assert (sched_step self o = Val s1) as -> by (unfold sched_step; by rewrite Ec). rewrite Ec. simpl.
  destruct (IH s1 _ Hv Hs) as (s2 & -> & E & Hs2). by exists s2.
Qed.

Lemma sched_run_rep ops : Forall op_valid ops ->
  exists self, for_m sched_step scheduler_new ops = Val self /\
               sched_rep self (foldl spec_step [] ops).
Proof.
  intros Hv. destruct (sched_answers_rep ops scheduler_new [] Hv) as (self & _ & E & Hr); [apply pq_new_rep|].
  by exists self.
Qed.

End scheduler.
Arguments FixedPriorityScheduler : clear implicits.

(** ** The kernel's scheduler: the rings under the scheduler *)

Abbreviation KernelScheduler := (FixedPriorityScheduler ReadyQueue.t).

(** C37. The ring-buffer scheduler implements the list specification: over
    any history of enqueues (at a valid priority), removals and selections,
    nothing panics, every operation answers what the specification answers
    (the thread selected and its priority, whether a thread was removed, why
    an enqueue was refused), and the rings end up holding exactly the entries
    of the abstract queue; [is_idle] tells whether that queue is empty.  In
    the specification a queued thread and a full level are refused, an entry
    goes behind every entry of its own or a higher level, and selection takes
    the first entry whose thread is ready. *)
Theorem scheduler_refines_list ops :
  Forall op_valid ops ->
  let queued := foldl spec_step [] ops in
  exists self : KernelScheduler,
    sched_run scheduler_new ops = Val (self, spec_answers [] ops) /\ sched_rep self queued /\
    is_idle self = bool_decide (queued = []).
Proof.
  intros Hv queued.
  destruct (sched_answers_rep (Q := ReadyQueue.t) ops scheduler_new [] Hv) as (self & E & _ & Hr); [apply pq_new_rep|].
  exists self. split; [done|]. split; [done|]. by apply pq_is_empty_rep.
Qed.

Lemma scheduler_refines_list_witness :
  let ops := [SReady (mkThreadId 1) (mkPriority 2); SReady (mkThreadId 2) (mkPriority 7);
              SReady (mkThreadId 1) (mkPriority 0); SSelect (fun _ => true); SNotReady (mkThreadId 9)] in
  exists self : KernelScheduler, sched_run scheduler_new ops = Val (self,
    [AReady (Ok tt); AReady (Ok tt); AReady (Err AlreadyQueued); ASelect (Some (mkThreadId 2, mkPriority 7)); ANotReady false]) /\
    sched_rep self [(mkThreadId 1, mkPriority 2)].
Proof.
  intros ops. destruct (scheduler_refines_list ops) as (self & E & Hr & _).
  - repeat constructor; simpl; unfold PRIORITY_LEVELS; lia.
  - exists self. split; [exact E|]. exact Hr.
Defined.

(** Selection is right and total: after any history, [select_next]
    returns (its loop terminates and nothing panics).  If it picks an entry,
    the entry was queued, its thread is ready, no ready entry has a higher
    priority, and every entry ahead of it in the queue was stale; only it
    and the stale entries ahead leave the queue.  If it picks nothing, no
    queued thread was ready and the queue is now empty. *)
Theorem select_next_highest_ready ops is_ready :
  Forall op_valid ops ->
  let queued := foldl spec_step [] ops in
  exists self self' pick, for_m sched_step scheduler_new ops = Val (self : KernelScheduler) /\
    select_next self is_ready = Val (self', pick) /\
    match pick with
    | Some (tid, prio) =>
        is_ready tid = true /\
        (forall tid' prio', (tid', prio') ∈ queued -> is_ready tid' = true ->
           level prio' <= level prio) /\
        exists stale rest, queued = stale ++ (tid, prio) :: rest /\
          Forall (fun e => is_ready e.1 = false) stale /\ sched_rep self' rest
    | None => Forall (fun e => is_ready e.1 = false) queued /\ sched_rep self' []
    end.
Proof.
  intros Hv queued. destruct (sched_run_rep (Q := ReadyQueue.t) ops Hv) as (self & E & Hr).
  destruct (select_next_rep self is_ready _ Hr) as (self' & Es & Hs).
  exists self, self', (spec_select is_ready queued).2. split; [done|]. split; [done|].
  pose proof (spec_select_split is_ready queued) as H. fold queued in Hs, Hr.
  apply pq_rep_wf in Hr as (_ & Hsort & _).
  destruct (spec_select is_ready queued) as [rest [[tid prio]|]]; simpl in *.
  - destruct H as (stale & Eq & Ht & HF). split; [done|]. split; [|by eauto].
    intros tid' prio' Hin Hr'. rewrite Eq in Hin, Hsort.
    apply elem_of_app in Hin as [Hin|[Hin|Hin]%elem_of_cons]; simplify_eq; [|done|].
    + rewrite Forall_forall in HF. apply HF in Hin. simpl in *. congruence.
    + apply StronglySorted_app in Hsort as (_ & _ & Hsort).
      apply StronglySorted_inv in Hsort as [_ HF']. rewrite Forall_forall in HF'.
      by apply (HF' _ Hin).
  - by destruct H as [-> HF].
Qed.

Lemma select_next_highest_ready_witness :
  let ops := [SReady (mkThreadId 1) (mkPriority 7); SReady (mkThreadId 2) (mkPriority 1)] in
  exists self self' pick, for_m sched_step scheduler_new ops = Val (self : KernelScheduler) /\
    select_next self (fun t => bool_decide (t <> mkThreadId 1)) = Val (self', pick) /\
    (pick = None -> False).
Proof.
  intros ops.
  destruct (select_next_highest_ready ops (fun t => bool_decide (t <> mkThreadId 1)))
    as (self & self' & pick & E & Es & H).
  - repeat constructor; simpl; unfold PRIORITY_LEVELS; lia.
  - exists self, self', pick. split; [exact E|]. split; [exact Es|]. intros ->.
    destruct H as [H _]. vm_compute in H. inversion H as [|? ? ? H2]. inversion H2. discriminate.
Defined.

(** A thread is queued at most once and the static capacity is never
    exceeded, whatever the history; entries stay ordered by priority. *)
Theorem scheduler_queue_invariant ops :
  Forall op_valid ops ->
  let queued := foldl spec_step [] ops in
  exists self : KernelScheduler, for_m sched_step scheduler_new ops = Val self /\
    sched_rep self queued /\ NoDup queued.*1 /\ StronglySorted above queued /\
    length queued <= PRIORITY_LEVELS * QUEUE_CAPACITY /\
    forall tid p, level p < PRIORITY_LEVELS ->
      exists self' r, mark_ready self tid p = Val (self', r) /\
        (r = Err AlreadyQueued <-> tid ∈ queued.*1) /\
        (r = Ok tt -> sched_rep self' (spec_enqueue queued tid p).1 /\
                      tid ∈ (spec_enqueue queued tid p).1.*1).
Proof.
  intros Hv queued. destruct (sched_run_rep (Q := ReadyQueue.t) ops Hv) as (self & E & Hr).
  fold queued in Hr; clearbody queued. exists self. split; [done|]. split; [done|].
  pose proof (pq_rep_wf _ _ Hr) as (Hnd & Hs & Hl). split; [done|]. split; [done|]. split; [done|].
  intros tid p Hp. unfold mark_ready.
  destruct (pq_enqueue_rep _ _ tid p Hr Hp) as (q & -> & Hq). simpl.
  eexists _, _; split; [done|]. unfold spec_enqueue in *.
  destruct (decide (tid ∈ queued.*1)) as [Hin|Hin]; simpl in *.
  { split; [split; [intros _; exact Hin|done]|discriminate]. }
  destruct (decide _); simpl in *; (split; [split; [discriminate|intros H'; by destruct Hin]|]); [discriminate|].
  intros _. split; [done|]. rewrite fmap_app, elem_of_app, fmap_cons, elem_of_cons. auto.
Qed.

Lemma scheduler_queue_invariant_witness :
  exists self : KernelScheduler,
    for_m sched_step scheduler_new [SReady (mkThreadId 1) (mkPriority 3)] = Val self /\
    exists self', mark_ready self (mkThreadId 1) (mkPriority 5) = Val (self', Err AlreadyQueued).
Proof.
  destruct (scheduler_queue_invariant [SReady (mkThreadId 1) (mkPriority 3)])
    as (self & E & _ & _ & _ & _ & H).
  - repeat constructor; simpl; unfold PRIORITY_LEVELS; lia.
  - exists self. split; [exact E|].
    destruct (H (mkThreadId 1) (mkPriority 5)) as (self' & r & Em & Hr & _).
    + simpl; unfold PRIORITY_LEVELS; lia.
    + exists self'. rewrite Em. destruct Hr as [_ Hr]. rewrite Hr; [reflexivity|].
      vm_compute. constructor.
Defined.
