(* ===== verification/Memory.v ===== *)
(** * Memory: typed addresses and the physical frame life cycle

    Models [kernel/src/memory/address.rs] and [kernel/src/memory/frame.rs]. *)

From stdpp Require Import base decidable numbers option relations tactics list.
From S2P Require Import Prelude Thread.
Local Open Scope Z_scope.

(** ** [memory::address] *)

Definition PAGE_SIZE : Z := 4096.
Definition KERNEL_RANGE_START : Z := 0x80200000.
Definition KERNEL_RANGE_END : Z := 0x88000000.
Definition USER_RANGE_START : Z := 0x1000.
Definition USER_RANGE_END : Z := 0x40000000.

(** [struct VirtAddr(u64)], [struct PhysAddr(u64)]: distinct wrappers. *)
Record VirtAddr := mkVirt { va_u64 : Z }.
Record PhysAddr := mkPhys { pa_u64 : Z }.

#[export] Instance VirtAddr_eq_dec : EqDecision VirtAddr.
Proof. solve_decision. Defined.
#[export] Instance PhysAddr_eq_dec : EqDecision PhysAddr.
Proof. solve_decision. Defined.

Definition va_is_page_aligned (a : VirtAddr) : bool := is_multiple_of (va_u64 a) PAGE_SIZE.
Definition page_base (a : VirtAddr) : VirtAddr := mkVirt (va_u64 a - va_u64 a mod PAGE_SIZE).
Definition va_is_user (a : VirtAddr) : bool :=
  (USER_RANGE_START <=? va_u64 a) && (va_u64 a <? USER_RANGE_END).

Definition pa_is_page_aligned (a : PhysAddr) : bool := is_multiple_of (pa_u64 a) PAGE_SIZE.
Definition frame_base (a : PhysAddr) : PhysAddr := mkPhys (pa_u64 a - pa_u64 a mod PAGE_SIZE).
Definition is_kernel (a : PhysAddr) : bool :=
  (KERNEL_RANGE_START <=? pa_u64 a) && (pa_u64 a <? KERNEL_RANGE_END).

Lemma is_page_aligned_iff x : is_multiple_of x PAGE_SIZE = true <-> x mod PAGE_SIZE = 0.
Proof. unfold is_multiple_of. simpl. by rewrite Z.eqb_eq. Qed.

Lemma page_base_aligned a : va_is_page_aligned a = true -> page_base a = a.
Proof.
  unfold va_is_page_aligned, page_base. rewrite is_page_aligned_iff. intros ->.
  destruct a; simpl. f_equal. lia.
Qed.

(** The compile-time assertion of the source: the windows are disjoint. *)
Lemma user_kernel_disjoint x : va_is_user (mkVirt x) = true -> is_kernel (mkPhys x) = false.
Proof.
  unfold va_is_user, is_kernel, USER_RANGE_START, USER_RANGE_END, KERNEL_RANGE_START,
    KERNEL_RANGE_END; simpl. intros H. bool_facts. apply andb_false_iff. left. lia.
Qed.

(** ** [memory::frame] *)

Inductive FrameOwner := FreePool | Kernel | AddressSpace (id : AddressSpaceId).
Inductive FrameState := FFree | FAllocated | FMapped | FQuarantined.
Inductive FrameError :=
| NotFree | NotAllocated | FNotMapped | InvalidOwner | EQuarantined | StillMapped.

#[export] Instance FrameOwner_eq_dec : EqDecision FrameOwner.
Proof. solve_decision. Defined.
#[export] Instance FrameState_eq_dec : EqDecision FrameState.
Proof. solve_decision. Defined.
#[export] Instance FrameError_eq_dec : EqDecision FrameError.
Proof. solve_decision. Defined.

Record PhysicalFrame := mkFrame { base : PhysAddr; fstate : FrameState; owner : FrameOwner }.

Definition new_free (b : PhysAddr) : PhysicalFrame := mkFrame b FFree FreePool.

Definition set_state (self : PhysicalFrame) (s : FrameState) : PhysicalFrame :=
  mkFrame self.(base) s self.(owner).

Definition allocate (self : PhysicalFrame) (o : FrameOwner)
    : PhysicalFrame * result unit FrameError :=
  if decide (o = FreePool) then (self, Err InvalidOwner)
  else match self.(fstate) with
       | FFree => (mkFrame self.(base) FAllocated o, Ok tt)
       | FQuarantined => (self, Err EQuarantined)
       | _ => (self, Err NotFree)
       end.

Definition mark_mapped (self : PhysicalFrame) : PhysicalFrame * result unit FrameError :=
  match self.(fstate) with
  | FAllocated => (set_state self FMapped, Ok tt)
  | FQuarantined => (self, Err EQuarantined)
  | _ => (self, Err NotAllocated)
  end.

Definition mark_unmapped (self : PhysicalFrame) : PhysicalFrame * result unit FrameError :=
  match self.(fstate) with
  | FMapped => (set_state self FAllocated, Ok tt)
  | FQuarantined => (self, Err EQuarantined)
  | _ => (self, Err FNotMapped)
  end.

Definition free (self : PhysicalFrame) : PhysicalFrame * result unit FrameError :=
  match self.(fstate) with
  | FAllocated => (mkFrame self.(base) FFree FreePool, Ok tt)
  | FMapped => (self, Err StillMapped)
  | FQuarantined => (self, Err EQuarantined)
  | FFree => (self, Err NotAllocated)
  end.

Definition quarantine (self : PhysicalFrame) : PhysicalFrame * result unit FrameError :=
  match self.(fstate) with
  | FAllocated | FMapped => (set_state self FQuarantined, Ok tt)
  | FQuarantined => (self, Err EQuarantined)
  | FFree => (self, Err NotAllocated)
  end.

(** *** The life cycle as a state machine *)

Inductive frame_op := FAlloc (o : FrameOwner) | FMap | FUnmap | FFreeOp | FQuar.

Definition frame_step (f : PhysicalFrame) (o : frame_op) : PhysicalFrame * result unit FrameError :=
  match o with
  | FAlloc ow => allocate f ow
  | FMap => mark_mapped f
  | FUnmap => mark_unmapped f
  | FFreeOp => free f
  | FQuar => quarantine f
  end.

Definition frame_run : PhysicalFrame -> list frame_op -> PhysicalFrame :=
  foldl (fun f o => (frame_step f o).1).

(** A frame belongs to the free pool exactly when it is free. *)
Definition frame_wf (f : PhysicalFrame) : Prop := fstate f = FFree <-> owner f = FreePool.

Lemma frame_step_wf f o : frame_wf f -> frame_wf (frame_step f o).1.
Proof.
  unfold frame_wf. destruct f as [b s ow], o as [ow'| | | |]; simpl;
    unfold allocate; try case_decide; destruct s; simpl; naive_solver.
Qed.

Lemma frame_step_err f o e : (frame_step f o).2 = Err e -> (frame_step f o).1 = f.
Proof.
  destruct f as [b s ow], o as [ow'| | | |]; simpl; unfold allocate;
    try case_decide; destruct s; simpl; naive_solver.
Qed.

(** Ownership moves only into and out of the free pool. *)
Lemma frame_step_owner f o : frame_wf f ->
  owner (frame_step f o).1 = owner f \/ owner f = FreePool \/ owner (frame_step f o).1 = FreePool.
Proof.
  unfold frame_wf. destruct f as [b s ow], o as [ow'| | | |]; simpl;
    unfold allocate; try case_decide; destruct s; simpl; naive_solver.
Qed.

Lemma frame_step_quarantined f o : fstate f = FQuarantined -> (frame_step f o).1 = f.
Proof.
  destruct f as [b s ow], o as [ow'| | | |]; simpl; unfold allocate;
    try case_decide; intros ->; done.
Qed.

Lemma frame_run_wf f ops : frame_wf f -> frame_wf (frame_run f ops).
Proof. revert f; induction ops; intros f H; simpl; auto using frame_step_wf. Qed.

Lemma frame_run_base f ops : base (frame_run f ops) = base f.
Proof.
  revert f; induction ops as [|o ops IH]; intros f; simpl; [done|]. rewrite IH.
  destruct f as [b s ow], o as [ow'| | | |]; simpl; unfold allocate;
    try case_decide; by destruct s.
Qed.

Lemma frame_run_quarantined f ops : fstate f = FQuarantined -> frame_run f ops = f.
Proof.
  revert f; induction ops as [|o ops IH]; intros f Hf; simpl; [done|].
  rewrite frame_step_quarantined; auto.
Qed.

(** Frame life cycle, over every sequence of operations on a frame from
    the free pool: the frame keeps its address, is free exactly when the
    free pool owns it, an operation that fails changes nothing, an operation
    never hands the frame from one owner to another without passing through
    the free pool, and a quarantined frame never changes again. *)
Theorem frame_single_owner b ops o more :
  let f := frame_run (new_free b) ops in
  base f = b /\ (fstate f = FFree <-> owner f = FreePool) /\
  (forall e, (frame_step f o).2 = Err e -> (frame_step f o).1 = f) /\
  (owner (frame_step f o).1 = owner f \/ owner f = FreePool \/
   owner (frame_step f o).1 = FreePool) /\
  (fstate f = FQuarantined -> frame_run f more = f).
Proof.
  assert (frame_wf (new_free b)) as Hn by done. simpl.
  split; [apply frame_run_base|]. split; [by apply frame_run_wf|].
  split; [apply frame_step_err|]. split; [by apply frame_step_owner, frame_run_wf|].
  apply frame_run_quarantined.
Qed.
