(* ===== verification/PageTable.v ===== *)
(** * The page table model and memory isolation

    Models [kernel/src/memory/pagetable.rs]: permissions, the fixed-size
    mapping table of one address space, and its [map] and [unmap].  The
    system around it is a pool of frames and the tables of all address
    spaces; isolation is an invariant of that system. *)

From stdpp Require Import base decidable numbers option relations tactics list.
From S2P Require Import Prelude Thread Memory.
Local Open Scope Z_scope.

Definition MAX_MAPPINGS : nat := 64.
#[global] Arguments MAX_MAPPINGS : simpl never.

Record Permissions := mkPerms {
  p_read : bool; p_write : bool; p_execute : bool; p_user : bool; p_device : bool
}.

#[export] Instance Permissions_eq_dec : EqDecision Permissions.
Proof. solve_decision. Defined.

Definition user_rx : Permissions := mkPerms true false true true false.
Definition user_rw : Permissions := mkPerms true true false true false.
Definition user_r : Permissions := mkPerms true false false true false.
Definition kernel_rw : Permissions := mkPerms true true false false false.
Definition kernel_device : Permissions := mkPerms true true false false true.

Record Mapping := mkMapping { vpage : VirtAddr; mframe : PhysAddr; perms : Permissions }.

#[export] Instance Mapping_eq_dec : EqDecision Mapping.
Proof. solve_decision. Defined.

Inductive MapError :=
| Misaligned | KernelFrameUserMapped | NotOwner | FrameNotMappable | RangeViolation
| WxViolation | DeviceRuleViolation | InvalidPermissions | AlreadyMapped | TableFull
| NotMapped.

#[export] Instance MapError_eq_dec : EqDecision MapError.
Proof. solve_decision. Defined.

(** ** [memory::pagetable::PageTable] *)
Module PageTable.

Record t := Mk { pt_owner : AddressSpaceId; entries : list (option Mapping) }.

Definition new (o : AddressSpaceId) : t := Mk o (replicate MAX_MAPPINGS None).

(** [len] and [is_empty] count the live mappings. *)
Definition len (self : t) : nat := length (filter (fun e => is_Some e) self.(entries)).
Definition is_empty (self : t) : bool := forallb (fun e => bool_decide (e = None)) self.(entries).

(** [entries.iter().flatten().find(..)] *)
Definition lookup (self : t) (v : VirtAddr) : option Mapping :=
  snd <$> list_find (fun m => vpage m = page_base v) (omap id self.(entries)).

Definition validate_perms (p : Permissions) : result unit MapError :=
  if negb p.(p_read) && negb p.(p_write) && negb p.(p_execute) then Err InvalidPermissions
  else if p.(p_user) && (p.(p_write) && p.(p_execute)) then Err WxViolation
  else if p.(p_user) && p.(p_device) then Err DeviceRuleViolation
  else if p.(p_device) && p.(p_execute) then Err DeviceRuleViolation
  else Ok tt.

(** [self] and [frame] are both [&mut]: the result carries the two. *)
Definition map (self : t) (v : VirtAddr) (frame : PhysicalFrame) (p : Permissions)
    : outcome (t * PhysicalFrame * result unit MapError) :=
  if negb (va_is_page_aligned v) || negb (pa_is_page_aligned frame.(base))
  then mret (self, frame, Err Misaligned)
  else match validate_perms p with
  | Err e => mret (self, frame, Err e)
  | Ok _ =>
    if p.(p_user) && is_kernel frame.(base) then mret (self, frame, Err KernelFrameUserMapped)
    else if p.(p_user) && negb (va_is_user v) then mret (self, frame, Err RangeViolation)
    else if negb p.(p_user) && va_is_user v then mret (self, frame, Err RangeViolation)
    else
    let owner_ok := if p.(p_user)
                    then bool_decide (frame.(owner) = AddressSpace self.(pt_owner))
                    else bool_decide (frame.(owner) = Kernel) in
    if negb owner_ok then mret (self, frame, Err NotOwner)
    else if negb (bool_decide (frame.(fstate) = FAllocated))
    then mret (self, frame, Err FrameNotMappable)
    else match lookup self v with
    | Some _ => mret (self, frame, Err AlreadyMapped)
    | None =>
      match list_find (fun e => e = None) self.(entries) with
      | None => mret (self, frame, Err TableFull)
      | Some (slot, _) =>
          let entries' := <[slot := Some (mkMapping v frame.(base) p)]> self.(entries) in
          let '(frame', r) := mark_mapped frame in
          _ ← expect_ok r;
          mret (Mk self.(pt_owner) entries', frame', Ok tt)
      end
    end
  end.

(** [matches!(e, Some(m) if m.vpage == vpage.page_base())] *)
Definition slot_matches (v : VirtAddr) (e : option Mapping) : bool :=
  match e with Some m => bool_decide (vpage m = page_base v) | None => false end.

Definition unmap (self : t) (v : VirtAddr) (frame : PhysicalFrame)
    : outcome (t * PhysicalFrame * result unit MapError) :=
  match list_find (fun e => slot_matches v e = true) self.(entries) with
  | None => mret (self, frame, Err NotMapped)
  | Some (slot, e) =>
      mapping ← expect e;
      if negb (bool_decide (mframe mapping = frame.(base)))
      then mret (self, frame, Err NotMapped)
      else match mark_unmapped frame with
      | (frame', Err _) => mret (self, frame', Err FrameNotMappable)
      | (frame', Ok _) => mret (Mk self.(pt_owner) (<[slot := None]> self.(entries)), frame', Ok tt)
      end
  end.

(** *** What each call does *)

(** The mapping rules, as one predicate on the mapping to be installed. *)
Definition allowed (m : Mapping) : Prop :=
  va_is_page_aligned (vpage m) = true /\ pa_is_page_aligned (mframe m) = true /\
  (p_read (perms m) = true \/ p_write (perms m) = true \/ p_execute (perms m) = true) /\
  (p_device (perms m) = true -> p_execute (perms m) = false) /\
  if p_user (perms m)
  then is_kernel (mframe m) = false /\ va_is_user (vpage m) = true /\
       (p_write (perms m) && p_execute (perms m)) = false /\ p_device (perms m) = false
  else va_is_user (vpage m) = false.

Definition mapping_owner (o : AddressSpaceId) (m : Mapping) : FrameOwner :=
  if p_user (perms m) then AddressSpace o else Kernel.

Lemma lookup_None self v : lookup self v = None <->
  forall j m, self.(entries) !! j = Some (Some m) -> vpage m <> page_base v.
Proof.
  unfold lookup. rewrite fmap_None, list_find_None, Forall_forall. split.
  - intros H j m Hj. apply H. apply list_elem_of_omap. exists (Some m).
    split; [by eapply list_elem_of_lookup_2|done].
  - intros H m Hm. apply list_elem_of_omap in Hm as (e & He & Hid). simpl in Hid; subst.
    apply list_elem_of_lookup_1 in He as [j Hj]. by eapply H.
Qed.

Lemma lookup_Some self v m : lookup self v = Some m ->
  exists j, self.(entries) !! j = Some (Some m) /\ vpage m = page_base v.
Proof.
  unfold lookup. intros ([i m'] & Hf & E)%fmap_Some. simpl in E; subst.
  apply list_find_Some in Hf as (Hi & Hv & _).
  apply list_elem_of_lookup_2, list_elem_of_omap in Hi as (e & He & Hid). simpl in Hid; subst.
  apply list_elem_of_lookup_1 in He as [j Hj]. by exists j.
Qed.

Lemma validate_perms_ok p : validate_perms p = Ok tt <->
  (p_read p = true \/ p_write p = true \/ p_execute p = true) /\
  (p_device p = true -> p_execute p = false) /\
  (p_user p = true -> (p_write p && p_execute p) = false /\ p_device p = false).
Proof. destruct p as [[] [] [] [] []]; vm_compute; intuition discriminate. Qed.

(** Either nothing changed, or every rule held and exactly one empty entry
    and the frame's state changed. *)
Lemma map_cases self v f p :
  (exists e, map self v f p = Val (self, f, Err e)) \/
  (exists j, map self v f p =
       Val (Mk self.(pt_owner) (<[j := Some (mkMapping v f.(base) p)]> self.(entries)),
            set_state f FMapped, Ok tt) /\
     self.(entries) !! j = Some None /\ lookup self v = None /\
     allowed (mkMapping v f.(base) p) /\ fstate f = FAllocated /\
     owner f = mapping_owner self.(pt_owner) (mkMapping v f.(base) p)).
Proof.
  unfold map.
  destruct (negb (va_is_page_aligned v) || _) eqn:E1; [left; by eexists|].
  destruct (validate_perms p) as [[]|e] eqn:E2; [|left; by eexists].
  destruct (p_user p && is_kernel _) eqn:E3; [left; by eexists|].
  destruct (p_user p && negb _) eqn:E4; [left; by eexists|].
  destruct (negb (p_user p) && _) eqn:E5; [left; by eexists|].
  destruct (negb (if p_user p then _ else _)) eqn:E6; [left; by eexists|].
  destruct (negb (bool_decide (fstate f = FAllocated))) eqn:E7; [left; by eexists|].
  destruct (lookup self v) eqn:E8; [left; by eexists|].
  destruct (list_find _ _) as [[j e]|] eqn:E9; [|left; by eexists].
  right. exists j. bool_facts. unfold mark_mapped. rewrite E7. simpl.
  apply list_find_Some in E9 as (Hj & -> & _). apply validate_perms_ok in E2 as (Ha & Hd & Hu).
  unfold allowed, mapping_owner; simpl. destruct (p_user p); simpl in *; bool_facts;
    repeat split; naive_solver.
Qed.

Lemma unmap_cases self v f :
  (exists e, unmap self v f = Val (self, f, Err e)) \/
  (exists j m, unmap self v f =
       Val (Mk self.(pt_owner) (<[j := None]> self.(entries)), set_state f FAllocated, Ok tt) /\
     self.(entries) !! j = Some (Some m) /\ mframe m = base f /\ vpage m = page_base v /\
     fstate f = FMapped).
Proof.
  unfold unmap. destruct (list_find _ _) as [[j e]|] eqn:E; [|left; by eexists].
  apply list_find_Some in E as (Hj & Hm & _). destruct e as [m|]; simpl in *; [|done].
  bool_facts. case_bool_decide as Ef; simpl; [|left; by eexists].
  unfold mark_unmapped. destruct (fstate f) eqn:Es; [left; by eexists..| |left; by eexists].
  right. by exists j, m.
Qed.

End PageTable.

(** ** All address spaces over one pool of frames *)

Record memory := mkMemory { pool : list PhysicalFrame; tables : list PageTable.t }.

Inductive mem_op :=
| MFrame (k : nat) (o : frame_op)
| MMap (i : nat) (v : VirtAddr) (k : nat) (p : Permissions)
| MUnmap (i : nat) (v : VirtAddr) (k : nat).

(** The pool operations the kernel performs on a frame outside the page
    table code; [mark_mapped] and [mark_unmapped] are called by [map] and
    [unmap] only. *)
Definition pool_op (o : frame_op) : Prop :=
  match o with FMap | FUnmap => False | _ => True end.
Definition mem_op_ok (o : mem_op) : Prop :=
  match o with MFrame _ o => pool_op o | _ => True end.

(** A call names a table and a frame; naming none is no call. *)
Definition mem_step (s : memory) (o : mem_op) : outcome memory :=
  match o with
  | MFrame k o =>
      match s.(pool) !! k with
      | Some f => mret (mkMemory (<[k := (frame_step f o).1]> s.(pool)) s.(tables))
      | None => mret s
      end
  | MMap i v k p =>
      match s.(tables) !! i, s.(pool) !! k with
      | Some pt, Some f =>
          r ← PageTable.map pt v f p;
          mret (mkMemory (<[k := r.1.2]> s.(pool)) (<[i := r.1.1]> s.(tables)))
      | _, _ => mret s
      end
  | MUnmap i v k =>
      match s.(tables) !! i, s.(pool) !! k with
      | Some pt, Some f =>
          r ← PageTable.unmap pt v f;
          mret (mkMemory (<[k := r.1.2]> s.(pool)) (<[i := r.1.1]> s.(tables)))
      | _, _ => mret s
      end
  end.

(** Entry [j] of table [i] holds the mapping [m]. *)
Definition mapped_at (s : memory) (i j : nat) (m : Mapping) : Prop :=
  exists pt, s.(tables) !! i = Some pt /\ PageTable.entries pt !! j = Some (Some m).

Definition in_use (st : FrameState) : Prop := st = FMapped \/ st = FQuarantined.

Record mem_inv (s : memory) : Prop := {
  mi_bases k k' f f' : s.(pool) !! k = Some f -> s.(pool) !! k' = Some f' ->
    base f = base f' -> k = k';
  mi_wf k f : s.(pool) !! k = Some f -> frame_wf f;
  mi_map i j m pt : s.(tables) !! i = Some pt -> PageTable.entries pt !! j = Some (Some m) ->
    PageTable.allowed m /\
    exists k f, s.(pool) !! k = Some f /\ base f = mframe m /\
      owner f = PageTable.mapping_owner (PageTable.pt_owner pt) m /\ in_use (fstate f);
  mi_frame_once i j m i' j' m' : mapped_at s i j m -> mapped_at s i' j' m' ->
    mframe m = mframe m' -> i = i' /\ j = j';
  mi_page_once i j m j' m' : mapped_at s i j m -> mapped_at s i j' m' ->
    vpage m = vpage m' -> j = j';
  mi_mapped k f : s.(pool) !! k = Some f -> fstate f = FMapped ->
    exists i j m, mapped_at s i j m /\ mframe m = base f
}.

(** A pool update that keeps the frame's address, and its owner and use if
    it was in use, changes no mapping. *)
Lemma pool_update_inv s k f f' : mem_inv s -> s.(pool) !! k = Some f ->
  base f' = base f -> frame_wf f' ->
  (in_use (fstate f) -> owner f' = owner f /\ in_use (fstate f')) ->
  (fstate f' = FMapped -> fstate f = FMapped) ->
  mem_inv (mkMemory (<[k := f']> s.(pool)) s.(tables)).
Proof.
  intros I Hk Hb Hwf Hu Hm.
  pose proof (insert_lookup_cases s.(pool) k f') as Hlk.
  constructor; simpl.
  - intros k1 k2 f1 f2 [[-> ->]|[? H1]]%Hlk [[-> ->]|[? H2]]%Hlk E; try done.
    + eapply (mi_bases _ I); [exact Hk|exact H2|congruence].
    + eapply (mi_bases _ I); [exact H1|exact Hk|congruence].
    + by eapply (mi_bases _ I).
  - intros k0 f0 [[-> ->]|[? H0]]%Hlk; [done|]. by eapply (mi_wf _ I).
  - intros i j m pt Hi Hj. destruct (mi_map _ I i j m pt Hi Hj) as (Ha & k0 & f0 & H0 & Hb0 & Ho & Hu0).
    split; [done|]. destruct (decide (k0 = k)) as [->|].
    + exists k, f'. rewrite list_lookup_insert_eq by (by eapply lookup_lt_Some).
      simplify_eq. destruct (Hu Hu0) as [-> ?]. by rewrite Hb.
    + exists k0, f0. by rewrite list_lookup_insert_ne.
  - exact (mi_frame_once _ I).
  - exact (mi_page_once _ I).
  - intros k0 f0 [[-> ->]|[? H0]]%Hlk Hst.
    + rewrite Hb. by apply (mi_mapped _ I k f Hk), Hm.
    + by apply (mi_mapped _ I k0).
Qed.

Lemma pool_op_inv s k f o : mem_inv s -> pool_op o -> s.(pool) !! k = Some f ->
  mem_inv (mkMemory (<[k := (frame_step f o).1]> s.(pool)) s.(tables)).
Proof.
  intros I Ho Hk. pose proof (mi_wf _ I k f Hk) as Hwf.
  eapply pool_update_inv; [done|done| |by apply frame_step_wf|..].
  all: destruct f as [b st ow], o as [ow'| | | |]; simpl in *; try done;
    unfold in_use, allocate; try case_decide; destruct st; simpl; naive_solver.
Qed.

Definition set_entry (pt : PageTable.t) (j : nat) (e : option Mapping) : PageTable.t :=
  PageTable.Mk (PageTable.pt_owner pt) (<[j := e]> (PageTable.entries pt)).

(** The mappings after one entry of one table was written. *)
Lemma mapped_at_set s P i pt j e e0 i0 j0 m0 :
  s.(tables) !! i = Some pt -> PageTable.entries pt !! j = Some e0 ->
  mapped_at (mkMemory P (<[i := set_entry pt j e]> s.(tables))) i0 j0 m0 <->
  (i0 = i /\ j0 = j /\ e = Some m0) \/ (~ (i0 = i /\ j0 = j) /\ mapped_at s i0 j0 m0).
Proof.
  intros Hi Hj. unfold mapped_at; simpl. destruct (decide (i0 = i)) as [->|Hne].
  - rewrite list_lookup_insert_eq by (by eapply lookup_lt_Some).
    setoid_rewrite Hi. destruct (decide (j0 = j)) as [->|Hnj].
    + split.
      * intros (pt' & ? & H); simplify_eq/=.
        rewrite list_lookup_insert_eq in H by (by eapply lookup_lt_Some). naive_solver.
      * intros [(_ & _ & ->)|[[] _]]; [|done]. eexists; split; [done|]. simpl.
        rewrite list_lookup_insert_eq by (by eapply lookup_lt_Some). done.
    + split.
      * intros (pt' & ? & H); simplify_eq/=. rewrite list_lookup_insert_ne in H by done.
        right. split; [naive_solver|eauto].
      * intros [(_ & -> & _)|[_ (pt' & ? & H)]]; [done|]. simplify_eq.
        eexists; split; [done|]. simpl. by rewrite list_lookup_insert_ne.
  - rewrite list_lookup_insert_ne by done. naive_solver.
Qed.

Lemma set_entry_owner pt j e : PageTable.pt_owner (set_entry pt j e) = PageTable.pt_owner pt.
Proof. done. Qed.

(** A mapping, seen from its table, with the owner of that table. *)
Definition mapped_by (s : memory) (i j : nat) (m : Mapping) (o : AddressSpaceId) : Prop :=
  mapped_at s i j m /\ exists pt, s.(tables) !! i = Some pt /\ PageTable.pt_owner pt = o.

Lemma mem_inv_map_by s i j m o : mem_inv s -> mapped_by s i j m o ->
  PageTable.allowed m /\ exists k f, s.(pool) !! k = Some f /\ base f = mframe m /\
    owner f = PageTable.mapping_owner o m /\ in_use (fstate f).
Proof. intros I [(pt & Hi & Hj) (pt' & Hi' & <-)]. simplify_eq. by apply (mi_map _ I i j). Qed.

Lemma table_owner_set s P i pt j e i0 o :
  s.(tables) !! i = Some pt ->
  (exists pt', tables (mkMemory P (<[i := set_entry pt j e]> s.(tables))) !! i0 = Some pt' /\
               PageTable.pt_owner pt' = o) <->
  (exists pt', s.(tables) !! i0 = Some pt' /\ PageTable.pt_owner pt' = o).
Proof.
  intros Hi; simpl. destruct (decide (i0 = i)) as [->|].
  - rewrite list_lookup_insert_eq by (by eapply lookup_lt_Some). rewrite Hi.
    split; intros (pt' & ? & <-); simplify_eq; eexists; (split; [done|]); done.
  - by rewrite list_lookup_insert_ne.
Qed.

(** Installing an allowed mapping of a free-to-map frame keeps the invariant. *)
Lemma map_inv s i pt k f j m : mem_inv s ->
  s.(tables) !! i = Some pt -> s.(pool) !! k = Some f ->
  PageTable.entries pt !! j = Some None ->
  (forall j' m', PageTable.entries pt !! j' = Some (Some m') -> vpage m' <> vpage m) ->
  PageTable.allowed m -> mframe m = base f -> fstate f = FAllocated ->
  owner f = PageTable.mapping_owner (PageTable.pt_owner pt) m ->
  mem_inv (mkMemory (<[k := set_state f FMapped]> s.(pool))
                    (<[i := set_entry pt j (Some m)]> s.(tables))).
Proof.
  intros I Hi Hk Hj Hfresh Ha Hf Hst Ho. pose proof (lookup_lt_Some _ _ _ Hk) as Hklt.
  assert (forall i' j' m', mapped_at s i' j' m' -> mframe m' <> mframe m) as Hnew.
  { intros i' j' m' (pt' & Hi' & Hj') E.
    destruct (mi_map _ I _ _ _ _ Hi' Hj') as (_ & k' & f' & Hk' & Hb' & _ & Hu).
    assert (k' = k) as -> by (eapply (mi_bases _ I); [done|done|congruence]).
    simplify_eq. rewrite Hst in Hu. by destruct Hu. }
  set (s' := mkMemory _ _).
  assert (forall i0 j0 m0, mapped_at s' i0 j0 m0 <->
    (i0 = i /\ j0 = j /\ Some m = Some m0) \/ (~ (i0 = i /\ j0 = j) /\ mapped_at s i0 j0 m0))
    as Hat by (intros; by eapply mapped_at_set).
  pose proof (insert_lookup_cases s.(pool) k (set_state f FMapped)) as Hlk.
  constructor.
  - intros k1 k2 f1 f2 [[-> ->]|[? H1]]%Hlk [[-> ->]|[? H2]]%Hlk E; simpl in *; try done.
    + by eapply (mi_bases _ I).
    + by eapply (mi_bases _ I).
    + by eapply (mi_bases _ I).
  - intros k0 f0 [[-> ->]|[? H0]]%Hlk; [|by eapply (mi_wf _ I)].
    pose proof (mi_wf _ I k f Hk) as W. unfold frame_wf; simpl.
    split; [discriminate|]. intros Hp. apply W in Hp. congruence.
  - intros i0 j0 m0 pt0 Hi0 Hj0.
    assert (mapped_by s' i0 j0 m0 (PageTable.pt_owner pt0)) as [Hm0 Ho0] by (split; eexists; eauto).
    apply (table_owner_set s _ i pt j) in Ho0; [|done].
    apply Hat in Hm0 as [(-> & -> & [= <-])|[_ Hm0]].
    + split; [done|]. exists k, (set_state f FMapped). simpl.
      rewrite list_lookup_insert_eq by done. destruct Ho0 as (pt1 & ? & <-). simplify_eq.
      repeat split; [done..|by left].
    + destruct (mem_inv_map_by s i0 j0 m0 _ I (conj Hm0 Ho0)) as (Ha0 & k0 & f0 & H0 & Hb0 & ? & Hu0).
      split; [done|]. exists k0, f0. simpl. rewrite list_lookup_insert_ne; [done|].
      intros ->. simplify_eq. rewrite Hst in Hu0. by destruct Hu0.
  - intros i1 j1 m1 i2 j2 m2 H1%Hat H2%Hat E.
    destruct H1 as [(-> & -> & [= <-])|[_ H1]], H2 as [(-> & -> & [= <-])|[_ H2]]; [done|..].
    + by apply Hnew in H2.
    + by apply Hnew in H1.
    + by eapply (mi_frame_once _ I).
  - intros i1 j1 m1 j2 m2 H1%Hat H2%Hat E.
    destruct H1 as [(-> & -> & [= <-])|[_ H1]], H2 as [(? & -> & [= <-])|[_ H2]]; [done|..].
    + destruct H2 as (pt2 & ? & H2). simplify_eq. by apply Hfresh in H2.
    + subst i1. destruct H1 as (pt2 & ? & H1). simplify_eq. by apply Hfresh in H1.
    + by eapply (mi_page_once _ I).
  - intros k0 f0 [[-> ->]|[? H0]]%Hlk Hm0.
    + exists i, j, m. split; [|done]. apply Hat. by left.
    + destruct (mi_mapped _ I k0 f0 H0 Hm0) as (i0 & j0 & m0 & Hm & Hb0).
      exists i0, j0, m0. split; [|done]. apply Hat. right. split; [|done].
      intros [-> ->]. destruct Hm as (pt' & ? & ?). simplify_eq.
Qed.

(** Removing a mapping returns its frame, and the frame's only mapping is gone. *)
Lemma unmap_inv s i pt k f j m : mem_inv s ->
  s.(tables) !! i = Some pt -> s.(pool) !! k = Some f ->
  PageTable.entries pt !! j = Some (Some m) -> mframe m = base f -> fstate f = FMapped ->
  mem_inv (mkMemory (<[k := set_state f FAllocated]> s.(pool))
                    (<[i := set_entry pt j None]> s.(tables))).
Proof.
  intros I Hi Hk Hj Hf Hst. pose proof (lookup_lt_Some _ _ _ Hk) as Hklt.
  pose proof (insert_lookup_cases s.(pool) k (set_state f FAllocated)) as Hlk.
  set (s' := mkMemory _ _).
  assert (forall i0 j0 m0, mapped_at s' i0 j0 m0 -> ~ (i0 = i /\ j0 = j) /\ mapped_at s i0 j0 m0)
    as Hat.
  { intros i0 j0 m0 H. eapply mapped_at_set in H; [|done..]. naive_solver. }
  constructor.
  - intros k1 k2 f1 f2 [[-> ->]|[? H1]]%Hlk [[-> ->]|[? H2]]%Hlk E; simpl in *; try done;
      by eapply (mi_bases _ I).
  - intros k0 f0 [[-> ->]|[? H0]]%Hlk; [|by eapply (mi_wf _ I)].
    pose proof (mi_wf _ I k f Hk) as W. unfold frame_wf; simpl.
    split; [discriminate|]. intros Hp. apply W in Hp. congruence.
  - intros i0 j0 m0 pt0 Hi0 Hj0.
    assert (mapped_by s' i0 j0 m0 (PageTable.pt_owner pt0)) as [Hm0 Ho0] by (split; eexists; eauto).
    apply (table_owner_set s _ i pt j) in Ho0; [|done]. apply Hat in Hm0 as [Hne Hm0].
    destruct (mem_inv_map_by s i0 j0 m0 _ I (conj Hm0 Ho0)) as (Ha0 & k0 & f0 & H0 & Hb0 & ? & Hu0).
    split; [done|]. exists k0, f0. simpl. rewrite list_lookup_insert_ne; [done|]. intros ->.
    simplify_eq. apply Hne. apply (mi_frame_once _ I _ _ m0 _ _ m); [done|by exists pt|congruence].
  - intros i1 j1 m1 i2 j2 m2 [_ H1]%Hat [_ H2]%Hat. by eapply (mi_frame_once _ I).
  - intros i1 j1 m1 j2 m2 [_ H1]%Hat [_ H2]%Hat. by eapply (mi_page_once _ I).
  - intros k0 f0 [[-> ->]|[? H0]]%Hlk Hm0; [done|].
    destruct (mi_mapped _ I k0 f0 H0 Hm0) as (i0 & j0 & m0 & Hm & Hb0).
    exists i0, j0, m0. split; [|done]. eapply mapped_at_set; [done..|]. right. split; [|done].
    intros [-> ->]. destruct Hm as (pt' & ? & ?). simplify_eq.
    assert (k0 = k) by (eapply (mi_bases _ I); [done|done|congruence]). done.
Qed.

Lemma mem_step_inv s o : mem_inv s -> mem_op_ok o ->
  exists s', mem_step s o = Val s' /\ mem_inv s'.
Proof.
  intros I Ho. destruct o as [k fo|i v k p|i v k]; simpl in *.
  - destruct (s.(pool) !! k) as [f|] eqn:Hk; eexists; (split; [done|]); [|done].
    by apply pool_op_inv.
  - destruct (s.(tables) !! i) as [pt|] eqn:Hi; [|by eexists].
    destruct (s.(pool) !! k) as [f|] eqn:Hk; [|by eexists].
    destruct (PageTable.map_cases pt v f p)
      as [(e & ->)|(j & -> & Hj & Hl & Ha & Hst & Hown)]; simpl; eexists; (split; [done|]).
    + rewrite !list_insert_id by done. by destruct s.
    + rewrite PageTable.lookup_None, page_base_aligned in Hl by apply Ha.
      eapply (map_inv s i pt k f j); try done.
  - destruct (s.(tables) !! i) as [pt|] eqn:Hi; [|by eexists].
    destruct (s.(pool) !! k) as [f|] eqn:Hk; [|by eexists].
    destruct (PageTable.unmap_cases pt v f)
      as [(e & ->)|(j & m & -> & Hj & Hm & Hv & Hst)]; simpl; eexists; (split; [done|]).
    + rewrite !list_insert_id by done. by destruct s.
    + by eapply (unmap_inv s i pt k f j).
Qed.

(** The boot state: free frames at distinct addresses, empty tables. *)
Definition mem_boot (bases : list PhysAddr) (owners : list AddressSpaceId) : memory :=
  mkMemory (new_free <$> bases) (PageTable.new <$> owners).

Lemma mem_boot_inv bases owners : NoDup bases -> mem_inv (mem_boot bases owners).
Proof.
  intros Hnd.
  assert (forall i pt j m, tables (mem_boot bases owners) !! i = Some pt ->
    PageTable.entries pt !! j = Some (Some m) -> False) as Hno.
  { intros i pt j m Hi Hj. simpl in Hi. apply list_lookup_fmap_Some in Hi as (o & -> & _).
    apply lookup_replicate in Hj as [? _]. done. }
  constructor; simpl.
  - intros k k' f f' (b & -> & Hk)%list_lookup_fmap_Some (b' & -> & Hk')%list_lookup_fmap_Some E.
    simpl in E. subst. by eapply NoDup_lookup.
  - intros k f (b & -> & Hk)%list_lookup_fmap_Some. done.
  - intros i j m pt Hi Hj. by edestruct Hno.
  - intros i j m i' j' m' (pt & Hi & Hj). by edestruct Hno.
  - intros i j m j' m' (pt & Hi & Hj). by edestruct Hno.
  - intros k f (b & -> & Hk)%list_lookup_fmap_Some. done.
Qed.

Lemma mem_run_inv s ops : mem_inv s -> Forall mem_op_ok ops ->
  exists s', for_m mem_step s ops = Val s' /\ mem_inv s'.
Proof.
  revert s; induction ops as [|o ops IH]; intros s I H; simpl; [by exists s|].
  apply Forall_cons in H as [Ho H]. destruct (mem_step_inv s o I Ho) as (s' & -> & I').
  by apply IH.
Qed.

(** C36. Memory isolation, over every history of allocations, releases,
    quarantines, mappings and unmappings by any number of address spaces on
    a pool of distinct frames: no call panics; every mapping is page aligned,
    grants some access and is not an executable device; a user mapping lies
    in the user window, is not writable and executable, is not a device,
    names no kernel frame, and names a frame owned by that very address
    space; any other mapping lies outside the user window and names a frame
    the kernel owns; the frame of a mapping is marked mapped or quarantined;
    no frame is mapped twice, in one table or in two; no page is mapped
    twice in a table; and a frame marked mapped has a mapping. *)
Theorem memory_isolation bases owners ops :
  NoDup bases -> Forall mem_op_ok ops ->
  exists s, for_m mem_step (mem_boot bases owners) ops = Val s /\
    (forall i j m pt, s.(tables) !! i = Some pt ->
       PageTable.entries pt !! j = Some (Some m) ->
       va_is_page_aligned (vpage m) = true /\ pa_is_page_aligned (mframe m) = true /\
       (p_read (perms m) = true \/ p_write (perms m) = true \/ p_execute (perms m) = true) /\
       (p_device (perms m) && p_execute (perms m)) = false /\
       va_is_user (vpage m) = p_user (perms m) /\
       (p_user (perms m) = true -> (p_write (perms m) && p_execute (perms m)) = false /\
          p_device (perms m) = false /\ is_kernel (mframe m) = false) /\
       exists k f, s.(pool) !! k = Some f /\ base f = mframe m /\
         owner f = (if p_user (perms m) then AddressSpace (PageTable.pt_owner pt) else Kernel) /\
         (fstate f = FMapped \/ fstate f = FQuarantined)) /\
    (forall i j m i' j' m', mapped_at s i j m -> mapped_at s i' j' m' ->
       mframe m = mframe m' -> i = i' /\ j = j') /\
    (forall i j m j' m', mapped_at s i j m -> mapped_at s i j' m' ->
       vpage m = vpage m' -> j = j') /\
    (forall k f, s.(pool) !! k = Some f -> fstate f = FMapped ->
       exists i j m, mapped_at s i j m /\ mframe m = base f).
Proof.
  intros Hnd Hops. destruct (mem_run_inv _ ops (mem_boot_inv bases owners Hnd) Hops)
    as (s & E & I).
  exists s. split; [done|]. split; [|split; [exact (mi_frame_once _ I)|split;
    [exact (mi_page_once _ I)|exact (mi_mapped _ I)]]].
  intros i j m pt Hi Hj. destruct (mi_map _ I i j m pt Hi Hj)
    as ((Hv & Hf & Hr & Hd & Ha) & k & f & Hk & Hb & Ho & Hst).
  split; [done|]. split; [done|]. split; [done|].
  split; [destruct (p_device (perms m)); [by rewrite Hd|done]|].
  destruct (p_user (perms m)) eqn:Hu; [destruct Ha as (H1 & H2 & H3 & H4)|];
    (split; [done|]; split; [done|]; exists k, f; unfold PageTable.mapping_owner in Ho; by rewrite Hu in Ho).
Qed.

Lemma memory_isolation_witness :
  let frames := [mkPhys 0x10000000; mkPhys 0x10001000] in
  let ops := [MFrame 0 (FAlloc (AddressSpace (mkAddressSpaceId 1)));
              MMap 0 (mkVirt 0x2000) 0 user_rw; MMap 1 (mkVirt 0x2000) 0 user_rw] in
  exists s, for_m mem_step (mem_boot frames [mkAddressSpaceId 1; mkAddressSpaceId 2]) ops = Val s /\
    forall j m, mapped_at s 0 j m -> ~ mapped_at s 1 j m.
Proof.
  intros frames ops.
  destruct (memory_isolation frames [mkAddressSpaceId 1; mkAddressSpaceId 2] ops)
    as (s & E & _ & Honce & _ & _).
  - apply (bool_decide_unpack (NoDup frames)). vm_compute. exact I.
  - repeat constructor.
  - exists s. split; [exact E|]. intros j m H1 H2.
    destruct (Honce 0%nat j m 1%nat j m H1 H2 eq_refl). discriminate.
Defined.

Lemma find_skip {A} (P : A -> Prop) `{!forall x, Decision (P x)} a m b : ~ P m ->
  snd <$> list_find P (a ++ m :: b) = snd <$> list_find P (a ++ b).
Proof.
  intros Hm. induction a as [|x a IH]; simpl.
  - rewrite decide_False by done. by destruct (list_find P b) as [[]|].
  - case_decide; [done|]. destruct (list_find P (a ++ m :: b)) as [[]|],
      (list_find P (a ++ b)) as [[]|]; simpl in *; congruence.
Qed.

(** [map] is atomic and does what it says: it never panics; on an error
    both the table and the frame are unchanged; on success the frame is
    marked mapped, a lookup of any address of the page finds the mapping
    just made, and a lookup of an address of any other page is unchanged. *)
Theorem pagetable_map_lookup pt v f p :
  exists pt' f' r, PageTable.map pt v f p = Val (pt', f', r) /\
    match r with
    | Err _ => pt' = pt /\ f' = f
    | Ok _ => fstate f' = FMapped /\
        forall a, PageTable.lookup pt' a =
          if decide (page_base a = v) then Some (mkMapping v (base f) p)
          else PageTable.lookup pt a
    end.
Proof.
  destruct (PageTable.map_cases pt v f p) as [(e & ->)|(j & -> & Hj & Hl & Ha & _ & _)];
    [by eexists _, _, _|]. eexists _, _, _; split; [done|]. split; [done|]. intros a.
  rewrite PageTable.lookup_None, page_base_aligned in Hl by apply Ha.
  case_decide as E.
  - destruct (PageTable.lookup _ a) as [m|] eqn:El.
    + apply PageTable.lookup_Some in El as (j' & Hj' & Hv). simpl in Hj'.
      apply insert_lookup_cases in Hj' as [[-> [= ->]]|[_ Hj']]; [done|].
      exfalso. apply (Hl _ _ Hj'). congruence.
    + rewrite PageTable.lookup_None in El. exfalso.
      apply (El j (mkMapping v (base f) p)); [|by symmetry]. simpl. apply list_lookup_insert_eq. by eapply lookup_lt_Some.
  - unfold PageTable.lookup; simpl.
    rewrite <- (take_drop_middle _ _ _ Hj) at 2. rewrite insert_take_drop by (by eapply lookup_lt_Some).
    rewrite !omap_app; simpl. by apply find_skip.
Qed.
