(* ===== verification/Sv39.v ===== *)
(** * Sv39 page table entries

    Models [kernel/src/arch/riscv64/sv39.rs]: the 64-bit encoding of a page
    table entry, its checked constructors and the [satp] value. *)

From stdpp Require Import base decidable numbers option relations tactics list.
From S2P Require Import Prelude RightsSet Memory PageTable.
Local Open Scope Z_scope.

Definition PTE_V : Z := 1 .<< 0.
Definition PTE_R : Z := 1 .<< 1.
Definition PTE_W : Z := 1 .<< 2.
Definition PTE_X : Z := 1 .<< 3.
Definition PTE_U : Z := 1 .<< 4.
Definition PTE_G : Z := 1 .<< 5.
Definition PTE_A : Z := 1 .<< 6.
Definition PTE_D : Z := 1 .<< 7.
Definition SATP_MODE_SV39 : Z := 8 .<< 60.

Inductive PteError := PteMisaligned | NoAccess | WriteWithoutRead | UserWx | DeviceExecute.

#[export] Instance PteError_eq_dec : EqDecision PteError.
Proof. solve_decision. Defined.

(** [ppn_field]: the physical page number in bits 10..53. *)
Definition ppn_field (a : PhysAddr) : Z := (pa_u64 a .>> 12) .<< 10.

Module Pte.

(** [struct Pte(u64)] *)
Record t := Mk { bits : Z }.

Definition empty : t := Mk 0.
Definition from_bits (b : Z) : t := Mk b.
Definition is_valid (self : t) : bool := negb ((bits self .& PTE_V) =? 0).
Definition is_leaf (self : t) : bool :=
  is_valid self && negb ((bits self .& (PTE_R .| PTE_W .| PTE_X)) =? 0).

Definition pointer (next_table : PhysAddr) : result t PteError :=
  if negb (pa_is_page_aligned next_table) then Err PteMisaligned
  else Ok (Mk (PTE_V .| ppn_field next_table)).

Definition leaf (frame : PhysAddr) (p : Permissions) : result t PteError :=
  if negb (pa_is_page_aligned frame) then Err PteMisaligned
  else if negb (p_read p) && negb (p_write p) && negb (p_execute p) then Err NoAccess
  else if p_write p && negb (p_read p) then Err WriteWithoutRead
  else if p_user p && p_write p && p_execute p then Err UserWx
  else if p_device p && p_execute p then Err DeviceExecute
  else
    let bits := PTE_V .| ppn_field frame in
    let bits := if p_read p then bits .| PTE_R else bits in
    let bits := if p_write p then bits .| PTE_W else bits in
    let bits := if p_execute p then bits .| PTE_X else bits in
    let bits := if p_user p then bits .| PTE_U else bits in
    Ok (Mk (bits .| (PTE_A .| PTE_D))).

Definition is_user (self : t) : bool := negb ((bits self .& PTE_U) =? 0).
Definition readable (self : t) : bool := negb ((bits self .& PTE_R) =? 0).
Definition writable (self : t) : bool := negb ((bits self .& PTE_W) =? 0).
Definition executable (self : t) : bool := negb ((bits self .& PTE_X) =? 0).

(** The page number field, as [table_index_of] and [translate] read it. *)
Definition ppn (self : t) : Z := (bits self .>> 10) .& 0xfffffffffff.

End Pte.

Definition satp_for (root : PhysAddr) : Z := SATP_MODE_SV39 .| (pa_u64 root .>> 12).

(** ** Bit-level facts *)

Lemma land_flag x k : 0 <= k -> negb ((x .& (1 .<< k)) =? 0) = Z.testbit x k.
Proof.
  intros Hk. rewrite Z.shiftl_1_l. destruct (Z.testbit x k) eqn:E.
  - apply negb_true_iff, Z.eqb_neq. intros H.
    apply (f_equal (fun z => Z.testbit z k)) in H.
    by rewrite Z.land_spec, E, Z.pow2_bits_true, Z.testbit_0_l in H.
  - apply negb_false_iff, Z.eqb_eq, Z.bits_inj'. intros i Hi.
    rewrite Z.land_spec, Z.pow2_bits_eqb, Z.testbit_0_l by done.
    destruct (Z.eqb_spec k i) as [->|]; [by rewrite E|apply andb_false_r].
Qed.

(** An entry is its ten flag bits below its page number. *)
Definition encode (flags page : Z) : Z := flags .| (page .<< 10).

Lemma encode_flag flags page k : 0 <= k < 10 ->
  Z.testbit (encode flags page) k = Z.testbit flags k.
Proof.
  intros Hk. unfold encode. rewrite Z.lor_spec, Z.shiftl_spec_low by lia. apply orb_false_r.
Qed.

Lemma encode_ppn flags page : flags ∈ᵤ 10 -> page ∈ᵤ 44 ->
  Pte.ppn (Pte.Mk (encode flags page)) = page.
Proof.
  intros Hf Hp. unfold Pte.ppn; simpl. change 0xfffffffffff with (Z.ones 44).
  rewrite Z.land_ones by lia. unfold encode. rewrite Z.shiftr_lor.
  rewrite Z.shiftr_shiftl_l, Z.sub_diag, Z.shiftl_0_r by lia.
  rewrite Z.shiftr_div_pow2, Z.div_small by (done || lia). rewrite Z.lor_0_l.
  by apply Z.mod_small.
Qed.

Definition leaf_flags (p : Permissions) : Z :=
  Z.b2z true + 2 * Z.b2z (p_read p) + 4 * Z.b2z (p_write p) + 8 * Z.b2z (p_execute p)
  + 16 * Z.b2z (p_user p) + 64 + 128.

(** The permissions Sv39 can express and the constructor accepts. *)
Definition pte_allowed (p : Permissions) : bool :=
  (p_read p || p_execute p) && implb (p_write p) (p_read p)
  && negb (p_user p && p_write p && p_execute p) && negb (p_device p && p_execute p).

Lemma lor_swap a b c : (a .| b) .| c = (a .| c) .| b.
Proof. by rewrite <- !Z.lor_assoc, (Z.lor_comm b c). Qed.

Lemma leaf_encode frame p : pa_is_page_aligned frame = true ->
  (pte_allowed p = true /\ Pte.leaf frame p = Ok (Pte.Mk (encode (leaf_flags p) (pa_u64 frame .>> 12)))) \/
  (pte_allowed p = false /\ exists e, Pte.leaf frame p = Err e).
Proof.
  intros Ha. unfold Pte.leaf, ppn_field, encode. rewrite Ha. simpl negb.
  destruct p as [[] [] [] [] []]; simpl; try (right; split; [done|by eexists]);
    left; (split; [done|]); do 2 f_equal;
    rewrite <- ?Z.lor_assoc, (Z.lor_comm (_ .<< 10)), ?Z.lor_assoc; try reflexivity;
    rewrite !(lor_swap _ (_ .<< 10)); reflexivity.
Qed.

Lemma leaf_flags_uint p : leaf_flags p ∈ᵤ 10.
Proof. destruct p as [[] [] [] [] []]; vm_compute; split; congruence. Qed.

Lemma page_uint44 frame : pa_u64 frame ∈ᵤ 56 -> (pa_u64 frame .>> 12) ∈ᵤ 44.
Proof.
  unfold uint. rewrite Z.shiftr_div_pow2 by lia. intros [H1 H2]. split.
  - apply Z.div_pos; lia.
  - apply Z.div_lt_upper_bound; lia.
Qed.

Lemma page_roundtrip x : x mod PAGE_SIZE = 0 -> (x .>> 12) * PAGE_SIZE = x.
Proof.
  intros H. rewrite Z.shiftr_div_pow2 by lia. change (2 ^ 12) with PAGE_SIZE.
  pose proof (Z.div_mod x PAGE_SIZE). unfold PAGE_SIZE in *. lia.
Qed.

(** What a walk reads back from an entry. *)
Definition pte_perms (pte : Pte.t) : Permissions :=
  mkPerms (Pte.readable pte) (Pte.writable pte) (Pte.executable pte) (Pte.is_user pte) false.

Lemma land3_zero x a b c : ((x .& (a .| b .| c)) =? 0) = ((x .& a) =? 0) && ((x .& b) =? 0) && ((x .& c) =? 0).
Proof.
  apply eq_true_iff_eq. rewrite !andb_true_iff, !Z.eqb_eq, !Z.land_lor_distr_r, !Z.lor_eq_0_iff. tauto.
Qed.

Lemma is_leaf_bits pte : Pte.is_leaf pte =
  Z.testbit (Pte.bits pte) 0 &&
  (Z.testbit (Pte.bits pte) 1 || Z.testbit (Pte.bits pte) 2 || Z.testbit (Pte.bits pte) 3).
Proof.
  unfold Pte.is_leaf, Pte.is_valid. rewrite land3_zero, !negb_andb.
  unfold PTE_V, PTE_R, PTE_W, PTE_X. by rewrite !land_flag by lia.
Qed.

Lemma is_valid_bits pte : Pte.is_valid pte = Z.testbit (Pte.bits pte) 0.
Proof. unfold Pte.is_valid, PTE_V. by rewrite land_flag by lia. Qed.

Lemma encode_leaf p page : pte_allowed p = true ->
  Pte.is_leaf (Pte.Mk (encode (leaf_flags p) page)) = true /\
  pte_perms (Pte.Mk (encode (leaf_flags p) page)) =
    mkPerms (p_read p) (p_write p) (p_execute p) (p_user p) false.
Proof.
  intros Hp. rewrite is_leaf_bits. unfold pte_perms, Pte.readable, Pte.writable, Pte.executable,
    Pte.is_user, PTE_R, PTE_W, PTE_X, PTE_U. rewrite !land_flag by lia. simpl Pte.bits.
  rewrite !encode_flag by lia. destruct p as [[] [] [] [] []]; by vm_compute in Hp |- *.
Qed.

Lemma pointer_encode a : pa_is_page_aligned a = true ->
  Pte.pointer a = Ok (Pte.Mk (encode 1 (pa_u64 a .>> 12))).
Proof. intros Ha. unfold Pte.pointer. by rewrite Ha. Qed.

Lemma encode_pointer page :
  Pte.is_valid (Pte.Mk (encode 1 page)) = true /\ Pte.is_leaf (Pte.Mk (encode 1 page)) = false.
Proof.
  rewrite is_valid_bits, is_leaf_bits. simpl Pte.bits. rewrite !encode_flag by lia. done.
Qed.

Lemma leaf_ok frame p : pa_is_page_aligned frame = true -> pa_u64 frame ∈ᵤ 56 ->
  (pte_allowed p = true /\ exists pte, Pte.leaf frame p = Ok pte /\ Pte.is_leaf pte = true /\
     Pte.ppn pte * PAGE_SIZE = pa_u64 frame /\
     pte_perms pte = mkPerms (p_read p) (p_write p) (p_execute p) (p_user p) false) \/
  (pte_allowed p = false /\ exists e, Pte.leaf frame p = Err e).
Proof.
  intros Ha Hf. destruct (leaf_encode frame p Ha) as [[Hp ->]|H]; [left|by right].
  destruct (encode_leaf p (pa_u64 frame .>> 12) Hp) as [Hl Hr].
  split; [done|]. eexists; split; [done|]. split; [done|]. split; [|done].
  rewrite encode_ppn by (apply leaf_flags_uint || by apply page_uint44).
  by apply page_roundtrip, is_page_aligned_iff.
Qed.

(** The entry encoding round-trips and accepts exactly the legal
    permissions: for a frame in the 56-bit physical space, [leaf] succeeds
    exactly when the frame is page aligned, some access is granted, write
    comes with read, a user page is not writable and executable, and a
    device page is not executable; the entry it builds is a leaf whose
    permission bits and page number read back as given. *)
Theorem pte_leaf_roundtrip frame p :
  pa_u64 frame ∈ᵤ 56 ->
  match Pte.leaf frame p with
  | Ok pte => pa_is_page_aligned frame = true /\ pte_allowed p = true /\
      Pte.is_leaf pte = true /\ Pte.ppn pte * PAGE_SIZE = pa_u64 frame /\
      pte_perms pte = mkPerms (p_read p) (p_write p) (p_execute p) (p_user p) false
  | Err e => e = PteMisaligned /\ pa_is_page_aligned frame = false \/
             pte_allowed p = false
  end.
Proof.
  intros Hf. destruct (pa_is_page_aligned frame) eqn:Ha.
  - destruct (leaf_ok frame p Ha Hf) as [(Hp & pte & -> & H)|[Hp [e ->]]]; [done|by right].
  - unfold Pte.leaf. rewrite Ha. by left.
Qed.

Lemma pte_leaf_roundtrip_witness :
  exists pte, Pte.leaf (mkPhys 0x80300000) user_rw = Ok pte /\
    pte_perms pte = user_rw /\ Pte.ppn pte * PAGE_SIZE = 0x80300000.
Proof.
  pose proof (pte_leaf_roundtrip (mkPhys 0x80300000) user_rw) as H.
  destruct (Pte.leaf (mkPhys 0x80300000) user_rw) as [pte|e] eqn:E; [|vm_compute in E; discriminate].
  exists pte. split; [reflexivity|].
  destruct H as (_ & _ & _ & Hp & Hr); [vm_compute; split; congruence|]. split; assumption.
Defined.

(** How the hardware encoding relates to the page table model: a
    permission set the model accepts is encodable unless it asks for write
    without read, and an encodable set is accepted by the model unless it is
    a user device mapping; a user device mapping is refused by the model
    ([DeviceRuleViolation]) but the entry constructor builds it, so the
    encoding does not enforce the model's device rule. *)
Theorem pte_refines_model frame p :
  pa_is_page_aligned frame = true ->
  (PageTable.validate_perms p = Ok tt -> (p_write p = true -> p_read p = true) ->
     exists pte, Pte.leaf frame p = Ok pte) /\
  ((exists pte, Pte.leaf frame p = Ok pte) -> p_user p && p_device p = false ->
     PageTable.validate_perms p = Ok tt) /\
  (PageTable.validate_perms (mkPerms true true false true true) = Err DeviceRuleViolation /\
   exists pte, Pte.leaf frame (mkPerms true true false true true) = Ok pte /\
               Pte.is_user pte = true).
Proof.
  intros Ha. split; [|split; [|split; [done|]]].
  - intros Hv Hw. destruct (leaf_encode frame p Ha) as [[Hp ->]|[Hp _]]; [by eexists|].
    destruct p as [[] [] [] [] []]; simpl in *; vm_compute in Hv, Hp; naive_solver.
  - intros [pte E] Hu. destruct (leaf_encode frame p Ha) as [[Hp _]|[_ [e E']]]; [|congruence].
    destruct p as [[] [] [] [] []]; by vm_compute in Hp, Hu |- *.
  - destruct (leaf_encode frame (mkPerms true true false true true) Ha) as [[Hp ->]|[Hp _]]; [|done].
    eexists; split; [done|]. unfold Pte.is_user, PTE_U. rewrite land_flag by lia.
    simpl Pte.bits. by rewrite encode_flag by lia.
Qed.

Lemma pte_refines_model_witness : exists pte, Pte.leaf (mkPhys 0x1000) user_rx = Ok pte.
Proof.
  apply (pte_refines_model (mkPhys 0x1000) user_rx); [reflexivity|reflexivity|discriminate].
Defined.
