(* ===== verification/Paging.v ===== *)
(** * Sv39 page table construction over an arena of tables

    Models [kernel/src/arch/riscv64/paging.rs]: mapping a page through the
    three levels, the software walk, and identity-mapping a range. *)

From stdpp Require Import base decidable numbers option relations tactics list.
From S2P Require Import Prelude Memory PageTable Sv39.
Local Open Scope Z_scope.

Definition ENTRIES : nat := 512.
#[global] Arguments ENTRIES : simpl never.

(** [struct Table { entries: [u64; ENTRIES] }] *)
Abbreviation Table := (list Z).
Definition Table_zeroed : Table := replicate ENTRIES 0.

Inductive PagingError :=
| PgMisaligned | OutOfTables | PgPte (e : PteError) | PgAlreadyMapped | UnexpectedLeaf.

#[export] Instance PagingError_eq_dec : EqDecision PagingError.
Proof. solve_decision. Defined.

Definition vpn (va : Z) (level : nat) : nat :=
  Z.to_nat ((va .>> (12 + Z.of_nat level * 9)) .& 0x1ff).

(** Run the monad's glue without touching the arithmetic. *)
Ltac ostep := cbn [mbind outcome_bind mret outcome_ret fst snd].

Module Arena.

Record t := Mk { tables : list Table; used : nat; base_pa : Z }.

Definition new (ts : list Table) (b : Z) : t := Mk ts 1 b.

Definition pa_of (self : t) (idx : nat) : PhysAddr :=
  mkPhys (wrapping_add 64 self.(base_pa) (Z.of_nat idx * PAGE_SIZE)).
Definition root_pa (self : t) : PhysAddr := pa_of self 0.

Definition alloc (self : t) : outcome (t * result nat PagingError) :=
  if decide (length self.(tables) <= self.(used))%nat then mret (self, Err OutOfTables)
  else
    let idx := self.(used) in
    ts ← arr_set self.(tables) idx Table_zeroed;
    mret (Mk ts (self.(used) + 1) self.(base_pa), Ok idx).

(** The subtraction is on [u64] and wraps. *)
Definition table_index_of (self : t) (pte : Pte.t) : nat :=
  Z.to_nat (wrapping 64 (Pte.ppn pte * PAGE_SIZE - self.(base_pa)) / PAGE_SIZE).

(** [self.tables[cur].entries[idx]], read and written. *)
Definition get_entry (self : t) (cur idx : nat) : outcome Z :=
  tbl ← arr_get self.(tables) cur; arr_get tbl idx.
Definition put_entry (self : t) (cur idx : nat) (v : Z) : outcome t :=
  tbl ← arr_get self.(tables) cur;
  tbl' ← arr_set tbl idx v;
  ts ← arr_set self.(tables) cur tbl';
  mret (Mk ts self.(used) self.(base_pa)).

(** The [for level in [2, 1]] loop of [map_page]: descend, linking a fresh
    table where the entry is empty. *)
Fixpoint descend (self : t) (va : Z) (cur : nat) (levels : list nat)
    : outcome (t * result nat PagingError) :=
  match levels with
  | [] => mret (self, Ok cur)
  | level :: levels =>
      let idx := vpn va level in
      b ← get_entry self cur idx;
      let entry := Pte.from_bits b in
      if Pte.is_leaf entry then mret (self, Err UnexpectedLeaf)
      else if Pte.is_valid entry then descend self va (table_index_of self entry) levels
      else
        p ← alloc self;
        match p.2 with
        | Err e => mret (p.1, Err e)
        | Ok next =>
            match Pte.pointer (pa_of p.1 next) with
            | Err e => mret (p.1, Err (PgPte e))
            | Ok ptr =>
                self' ← put_entry p.1 cur idx (Pte.bits ptr);
                descend self' va next levels
            end
        end
  end.

Definition map_page (self : t) (va : VirtAddr) (pa : PhysAddr) (p : Permissions)
    : outcome (t * result unit PagingError) :=
  if negb (va_is_page_aligned va) || negb (pa_is_page_aligned pa)
  then mret (self, Err PgMisaligned)
  else match Pte.leaf pa p with
  | Err e => mret (self, Err (PgPte e))
  | Ok leaf =>
      d ← descend self (va_u64 va) 0 [2%nat; 1%nat];
      match d.2 with
      | Err e => mret (d.1, Err e)
      | Ok cur =>
          let idx0 := vpn (va_u64 va) 0 in
          b ← get_entry d.1 cur idx0;
          if Pte.is_valid (Pte.from_bits b) then mret (d.1, Err PgAlreadyMapped)
          else self' ← put_entry d.1 cur idx0 (Pte.bits leaf); mret (self', Ok tt)
      end
  end.

Fixpoint walk (self : t) (va : Z) (cur : nat) (levels : list nat) : outcome (option nat) :=
  match levels with
  | [] => mret (Some cur)
  | level :: levels =>
      b ← get_entry self cur (vpn va level);
      let entry := Pte.from_bits b in
      if negb (Pte.is_valid entry) || Pte.is_leaf entry then mret None
      else walk self va (table_index_of self entry) levels
  end.

Definition translate (self : t) (va : VirtAddr) : outcome (option (PhysAddr * Permissions)) :=
  w ← walk self (va_u64 va) 0 [2%nat; 1%nat];
  match w with
  | None => mret None
  | Some cur =>
      b ← get_entry self cur (vpn (va_u64 va) 0);
      let leaf := Pte.from_bits b in
      if negb (Pte.is_leaf leaf) then mret None
      else mret (Some (mkPhys (Pte.ppn leaf * PAGE_SIZE + (va_u64 va .& (PAGE_SIZE - 1))),
                       mkPerms (Pte.readable leaf) (Pte.writable leaf) (Pte.executable leaf)
                               (Pte.is_user leaf) false))
  end.

(** The [while addr < end] loop; the fuel counts turns. *)
Fixpoint identity_loop (fuel : nat) (self : t) (addr end_ : Z) (p : Permissions)
    : outcome (t * result unit PagingError) :=
  match fuel with
  | O => Panic
  | S fuel =>
      if addr <? end_ then
        r ← map_page self (mkVirt addr) (mkPhys addr) p;
        match r.2 with
        | Err e => mret (r.1, Err e)
        | Ok _ => identity_loop fuel r.1 (addr + PAGE_SIZE) end_ p
        end
      else mret (self, Ok tt)
  end.

(** One turn per page and the final test. *)
Definition identity_map_range (self : t) (start end_ : Z) (p : Permissions)
    : outcome (t * result unit PagingError) :=
  identity_loop (2 + Z.to_nat ((end_ - start) / PAGE_SIZE)) self start end_ p.

End Arena.

(** ** The arena holds a three-level tree *)

Module ArenaInv.
Import Arena.

(** Entry [i] of table [t]; entries outside the arena read as empty. *)
Definition entry (a : t) (tb i : nat) : Z :=
  default 0 (a.(tables) !! tb ≫= fun tbl => tbl !! i).
Definition pte_at (a : t) (tb i : nat) : Pte.t := Pte.Mk (entry a tb i).

(** The pointer entry for table [n]. *)
Definition ptr (a : t) (n : nat) : Z := encode 1 ((a.(base_pa) + Z.of_nat n * PAGE_SIZE) .>> 12).

(** [lvl] assigns to each table its level: two for the root, one for the
    tables it points to, zero for the tables that hold leaves. *)
Record inv (a : t) (lvl : nat -> nat) : Prop := {
  i_used : (1 <= used a <= length (tables a))%nat;
  i_len tb tbl : tables a !! tb = Some tbl -> length tbl = ENTRIES;
  i_base : 0 <= base_pa a /\ base_pa a mod PAGE_SIZE = 0 /\
           base_pa a + Z.of_nat (length (tables a)) * PAGE_SIZE <= 2 ^ 56;
  i_root : lvl 0%nat = 2%nat;
  i_ptr tb i l : (tb < used a)%nat -> lvl tb = S l ->
    entry a tb i = 0 \/
    exists n, (n < used a)%nat /\ lvl n = l /\ entry a tb i = ptr a n;
  i_leaf tb i : (tb < used a)%nat -> lvl tb = 0%nat ->
    entry a tb i = 0 \/ Pte.is_leaf (pte_at a tb i) = true;
  i_inj tb i tb' i' n : (tb < used a)%nat -> (tb' < used a)%nat ->
    (0 < lvl tb)%nat -> (0 < lvl tb')%nat -> (n < used a)%nat ->
    entry a tb i = ptr a n -> entry a tb' i' = ptr a n -> tb = tb' /\ i = i'
}.

(** The walk, as a function of the entries. *)
Definition next (a : t) (tb i : nat) : option nat :=
  if negb (Pte.is_valid (pte_at a tb i)) || Pte.is_leaf (pte_at a tb i) then None
  else Some (table_index_of a (pte_at a tb i)).
Definition leaf_at (a : t) (tb i : nat) (va : Z) : option (PhysAddr * Permissions) :=
  if Pte.is_leaf (pte_at a tb i)
  then Some (mkPhys (Pte.ppn (pte_at a tb i) * PAGE_SIZE + (va .& (PAGE_SIZE - 1))),
             pte_perms (pte_at a tb i))
  else None.
Definition tr (a : t) (va : Z) : option (PhysAddr * Permissions) :=
  t1 ← next a 0 (vpn va 2); t0 ← next a t1 (vpn va 1); leaf_at a t0 (vpn va 0) va.

Lemma vpn_lt va l : (vpn va l < ENTRIES)%nat.
Proof.
  unfold vpn, ENTRIES. change 0x1ff with (Z.ones 9). rewrite Z.land_ones by lia.
  pose proof (Z.mod_pos_bound (va .>> (12 + Z.of_nat l * 9)) (2 ^ 9)). lia.
Qed.

Section inv.
Context (a : t) (lvl : nat -> nat) (I : inv a lvl).

Lemma root_used : (0 < used a)%nat.
Proof. pose proof (i_used _ _ I). lia. Qed.

Lemma get_entry_ok tb i : (tb < used a)%nat -> (i < ENTRIES)%nat ->
  get_entry a tb i = Val (entry a tb i).
Proof.
  intros Ht Hi. unfold get_entry, entry.
  destruct (lookup_lt_is_Some_2 (tables a) tb) as [tbl E]; [pose proof (i_used _ _ I); lia|].
  rewrite (arr_get_lookup _ _ _ E), E; simpl.
  destruct (lookup_lt_is_Some_2 tbl i) as [e Ee]; [by rewrite (i_len _ _ I _ _ E)|].
  by rewrite (arr_get_lookup _ _ _ Ee), Ee.
Qed.

Lemma ptr_range n : (n < length (tables a))%nat ->
  (base_pa a + Z.of_nat n * PAGE_SIZE) ∈ᵤ 56 /\ (base_pa a + Z.of_nat n * PAGE_SIZE) mod PAGE_SIZE = 0.
Proof.
  intros Hn. destruct (i_base _ _ I) as (H0 & Hm & Hb). pose proof (i_used _ _ I).
  unfold uint, PAGE_SIZE in *. split; [lia|]. by rewrite Z.mod_add by lia.
Qed.

Lemma ptr_index n : (n < length (tables a))%nat -> table_index_of a (Pte.Mk (ptr a n)) = n.
Proof.
  intros Hn. destruct (ptr_range n Hn) as [Hr Hm]. unfold table_index_of, ptr.
  rewrite encode_ppn; [|by vm_compute|by apply (page_uint44 (mkPhys _))].
  rewrite page_roundtrip by done.
  replace (base_pa a + Z.of_nat n * PAGE_SIZE - base_pa a) with (Z.of_nat n * PAGE_SIZE) by lia.
  destruct (i_base _ _ I) as (H0 & _ & Hb). pose proof (i_used _ _ I).
  unfold wrapping. rewrite Z.mod_small by (unfold PAGE_SIZE in *; lia).
  rewrite Z.div_mul by done. lia.
Qed.

Lemma ptr_inj n n' : (n < length (tables a))%nat -> (n' < length (tables a))%nat ->
  ptr a n = ptr a n' -> n = n'.
Proof. intros Hn Hn' E. rewrite <- (ptr_index n Hn), <- (ptr_index n' Hn'). by rewrite E. Qed.

Lemma next_empty tb i : entry a tb i = 0 -> next a tb i = None.
Proof. unfold next, pte_at. by intros ->. Qed.

Lemma next_ptr tb i n : entry a tb i = ptr a n -> (n < used a)%nat -> next a tb i = Some n.
Proof.
  intros E Hn. unfold next, pte_at. rewrite E, ptr_index by (pose proof (i_used _ _ I); lia).
  destruct (encode_pointer ((base_pa a + Z.of_nat n * PAGE_SIZE) .>> 12)) as [Hv Hl].
  unfold ptr. by rewrite Hv, Hl.
Qed.

(** In an inner table an entry is empty or leads one level down. *)
Lemma next_cases tb i l : (tb < used a)%nat -> lvl tb = S l ->
  (entry a tb i = 0 /\ next a tb i = None) \/
  exists n, next a tb i = Some n /\ (n < used a)%nat /\ lvl n = l /\ entry a tb i = ptr a n.
Proof.
  intros Ht Hl. destruct (i_ptr _ _ I tb i l Ht Hl) as [E|(n & Hn & Hln & E)].
  - left. auto using next_empty.
  - right. exists n. auto using next_ptr.
Qed.

Lemma walk_step va tb level levels : (tb < used a)%nat ->
  walk a va tb (level :: levels) =
    match next a tb (vpn va level) with
    | Some n => walk a va n levels
    | None => Val None
    end.
Proof.
  intros Ht. simpl. rewrite get_entry_ok by (done || apply vpn_lt). simpl.
  unfold next. change (Pte.from_bits ?e) with (Pte.Mk e).
  by destruct (negb (Pte.is_valid (pte_at a tb (vpn va level))) || _) eqn:E; unfold pte_at in E; rewrite E.
Qed.

Lemma translate_tr va : translate a va = Val (tr a (va_u64 va)).
Proof.
  unfold translate, tr. rewrite walk_step by apply root_used.
  destruct (next_cases 0 (vpn (va_u64 va) 2) 1 root_used (i_root _ _ I))
    as [[_ ->]|(t1 & -> & H1 & L1 & _)]; cbv iota; [done|].
  rewrite walk_step by done. simpl mbind.
  destruct (next_cases t1 (vpn (va_u64 va) 1) 0 H1 L1)
    as [[_ ->]|(t0 & -> & H0 & L0 & _)]; simpl; [done|].
  rewrite get_entry_ok by (done || apply vpn_lt). simpl. unfold leaf_at.
  change (Pte.from_bits ?e) with (Pte.Mk e).
  destruct (Pte.is_leaf (pte_at a t0 (vpn (va_u64 va) 0))) eqn:E; unfold pte_at in E; by rewrite E.
Qed.

End inv.

(** *** Writing one entry *)

Lemma put_entry_ok a tb i v :
  (forall t' tbl, tables a !! t' = Some tbl -> length tbl = ENTRIES) ->
  (tb < length (tables a))%nat -> (i < ENTRIES)%nat ->
  exists a', put_entry a tb i v = Val a' /\ used a' = used a /\ base_pa a' = base_pa a /\
    length (tables a') = length (tables a) /\
    (forall t' tbl, tables a' !! t' = Some tbl -> length tbl = ENTRIES) /\
    forall t' i', entry a' t' i' = if decide (t' = tb /\ i' = i) then v else entry a t' i'.
Proof.
  intros Hlen Ht Hi. unfold put_entry.
  destruct (lookup_lt_is_Some_2 (tables a) tb) as [tbl E]; [lia|].
  pose proof (Hlen _ _ E) as Hl.
  rewrite (arr_get_lookup _ _ _ E); simpl. rewrite arr_set_lt by lia; simpl.
  rewrite arr_set_lt by lia; simpl. eexists; split; [done|]. simpl.
  split; [done|]. split; [done|]. split; [apply length_insert|]. split.
  - intros t' tbl' [[-> ->]|[_ H]]%insert_lookup_cases; [by rewrite length_insert|].
    by eapply Hlen.
  - intros t' i'. unfold entry; simpl. rewrite list_lookup_insert.
    destruct (decide (tb = t' /\ (tb < length (tables a))%nat)) as [[<- _]|Hne]; simpl.
    + rewrite list_lookup_insert, E; simpl. repeat case_decide; try done; exfalso; intuition lia.
    + rewrite decide_False; [done|]. intros [-> ->]. apply Hne. lia.
Qed.

(** Linking a fresh table below an empty entry. *)
Definition lvl_set (lvl : nat -> nat) (n l : nat) : nat -> nat :=
  fun k => if decide (k = n) then l else lvl k.

Lemma alloc_ok a lvl : inv a lvl -> (used a < length (tables a))%nat ->
  exists a', alloc a = Val (a', Ok (used a)) /\ used a' = S (used a) /\ base_pa a' = base_pa a /\
    length (tables a') = length (tables a) /\
    (forall t' tbl, tables a' !! t' = Some tbl -> length tbl = ENTRIES) /\
    forall t' i', entry a' t' i' = if decide (t' = used a) then 0 else entry a t' i'.
Proof.
  intros I Hu. unfold alloc. rewrite decide_False by lia. rewrite arr_set_lt by lia. simpl.
  eexists; split; [done|]; simpl. split; [lia|]. split; [done|]. split; [apply length_insert|]. split.
  - intros t' tbl' [[-> ->]|[_ H]]%insert_lookup_cases; [done|]. by eapply (i_len _ _ I).
  - intros t' i'. unfold entry; simpl. rewrite list_lookup_insert.
    repeat case_decide; try done; try (exfalso; intuition lia). simpl.
    destruct (Table_zeroed !! i') as [z|] eqn:Ez; [|done]. simpl.
    by apply lookup_replicate in Ez as [-> _].
Qed.

Lemma ptr_base a a' n : base_pa a' = base_pa a -> ptr a' n = ptr a n.
Proof. unfold ptr. by intros ->. Qed.

Lemma ptr_nonzero a n : ptr a n <> 0.
Proof.
  intros E. destruct (encode_pointer ((base_pa a + Z.of_nat n * PAGE_SIZE) .>> 12)) as [Hv _].
  unfold ptr in E. by rewrite E in Hv.
Qed.

(** [b] is [a] with table [used a] linked, empty, below entry [(cur, idx)]. *)
Record linked (a b : t) (cur idx : nat) : Prop := {
  lk_used : used b = S (used a);
  lk_base : base_pa b = base_pa a;
  lk_length : length (tables b) = length (tables a);
  lk_len t' tbl : tables b !! t' = Some tbl -> length tbl = ENTRIES;
  lk_entry t' i' : entry b t' i' =
    if decide (t' = cur /\ i' = idx) then ptr a (used a)
    else if decide (t' = used a) then 0 else entry a t' i'
}.

Lemma link_step a lvl cur idx : inv a lvl -> (cur < used a)%nat -> (idx < ENTRIES)%nat ->
  (used a < length (tables a))%nat ->
  exists a1 b, alloc a = Val (a1, Ok (used a)) /\
    Pte.pointer (pa_of a1 (used a)) = Ok (Pte.Mk (ptr a (used a))) /\
    put_entry a1 cur idx (ptr a (used a)) = Val b /\ linked a b cur idx.
Proof.
  intros I Hc Hi Hu. destruct (alloc_ok a lvl I Hu) as (a1 & Ea & Hu1 & Hb1 & Hl1 & Hlen & He1).
  destruct (put_entry_ok a1 cur idx (ptr a (used a)) Hlen) as (b & Ep & Hub & Hbb & Hlb & Hlenb & Heb);
    [lia|done|].
  exists a1, b. split; [done|]. split; [|split; [done|]].
  - destruct (i_base _ _ I) as (H0 & Hm & Hr).
    assert (pa_of a1 (used a) = mkPhys (base_pa a + Z.of_nat (used a) * PAGE_SIZE)) as ->.
    { unfold pa_of, wrapping_add, wrapping. rewrite Hb1, Z.mod_small; [done|].
      unfold PAGE_SIZE in *. lia. }
    rewrite pointer_encode; [done|]. apply is_page_aligned_iff. simpl.
    by rewrite Z.mod_add by done.
  - constructor; [congruence..|done|]. intros t' i'. rewrite Heb.
    destruct (decide (t' = cur /\ i' = idx)); [done|]. apply He1.
Qed.

(** A pointer entry after linking is the new one or one that was there. *)
Lemma linked_ptr a b lvl cur idx tb i n : inv a lvl -> linked a b cur idx ->
  (used a < length (tables a))%nat -> (tb < used b)%nat -> (n < used b)%nat ->
  (tb <> used a -> 0 < lvl tb)%nat -> entry b tb i = ptr a n ->
  (tb = cur /\ i = idx /\ n = used a) \/
  ((tb < used a)%nat /\ entry a tb i = ptr a n /\ (n < used a)%nat /\ (0 < lvl tb)%nat).
Proof.
  intros I L Hu Ht Hn Hl E. rewrite (lk_used _ _ _ _ L) in *. rewrite (lk_entry _ _ _ _ L) in E.
  case_decide as E1; [|case_decide as E2].
  - apply (ptr_inj a lvl I) in E; [|lia..]. left. intuition congruence.
  - symmetry in E. by apply ptr_nonzero in E.
  - right. specialize (Hl E2). split; [lia|]. split; [done|]. split; [|done].
    destruct (lvl tb) as [|l] eqn:El; [lia|].
    destruct (i_ptr _ _ I tb i l) as [E0|(m & Hm & _ & E0)]; [lia|done|..]; rewrite E in E0.
    + by apply ptr_nonzero in E0.
    + apply (ptr_inj a lvl I) in E0; [|pose proof (i_used _ _ I); lia..]. lia.
Qed.

Lemma linked_inv a b lvl cur idx l : inv a lvl -> linked a b cur idx -> (cur < used a)%nat ->
  lvl cur = S l -> entry a cur idx = 0 -> (used a < length (tables a))%nat ->
  inv b (lvl_set lvl (used a) l).
Proof.
  intros I L Hc Hl He Hu. pose proof (i_used _ _ I) as Hua.
  assert (forall k, (k < used a)%nat -> lvl_set lvl (used a) l k = lvl k) as Hlo
    by (intros; unfold lvl_set; by rewrite decide_False by lia).
  assert (lvl_set lvl (used a) l (used a) = l) as Hnew by (unfold lvl_set; by rewrite decide_True).
  pose proof (fun n => ptr_base a b n (lk_base _ _ _ _ L)) as Hp.
  pose proof (lk_used _ _ _ _ L) as Hub. constructor.
  - rewrite Hub, (lk_length _ _ _ _ L). lia.
  - exact (lk_len _ _ _ _ L).
  - rewrite (lk_base _ _ _ _ L), (lk_length _ _ _ _ L). exact (i_base _ _ I).
  - rewrite Hlo by lia. exact (i_root _ _ I).
  - intros tb i l' Ht Hl'. rewrite (lk_entry _ _ _ _ L). setoid_rewrite Hp.
    case_decide as E1; [|case_decide as E2; [by left|]].
    + destruct E1 as [-> ->]. right. exists (used a). rewrite Hlo, Hl in Hl' by done.
      simplify_eq. repeat split; [lia|done].
    + rewrite Hlo in Hl' by lia. destruct (i_ptr _ _ I tb i l') as [?|(n & Hn & Hln & En)];
        [lia|done|by left|]. right. exists n. rewrite Hlo by done. repeat split; [lia|done..].
  - intros tb i Ht Hl'. unfold pte_at. rewrite (lk_entry _ _ _ _ L).
    case_decide as E1; [|case_decide as E2; [by left|]].
    + destruct E1 as [-> ->]. rewrite Hlo in Hl' by done. congruence.
    + rewrite Hlo in Hl' by lia. apply (i_leaf _ _ I); [lia|done].
  - intros tb i tb' i' n Ht Ht' Hlt Hlt' Hn. rewrite !Hp. intros H1 H2.
    assert (forall k, (k < used b)%nat -> (0 < lvl_set lvl (used a) l k)%nat ->
      k <> used a -> (0 < lvl k)%nat) as Hpos by (intros k Hk Hk' ?; by rewrite Hlo in Hk' by lia).
    destruct (linked_ptr a b lvl cur idx tb i n I L Hu Ht Hn (Hpos _ Ht Hlt) H1)
      as [(-> & -> & ->)|(? & ? & ? & ?)],
      (linked_ptr a b lvl cur idx tb' i' _ I L Hu Ht' Hn (Hpos _ Ht' Hlt') H2)
      as [(-> & -> & ?)|(? & ? & ? & ?)]; try done; try lia.
    by eapply (i_inj _ _ I).
Qed.

(** Walks depend only on the base and on the entries they read. *)
Lemma next_entry a b tb i : base_pa b = base_pa a -> entry b tb i = entry a tb i ->
  next b tb i = next a tb i.
Proof. intros Hb He. unfold next, pte_at, table_index_of. by rewrite He, Hb. Qed.

Lemma leaf_at_entry a b tb i va : entry b tb i = entry a tb i -> leaf_at b tb i va = leaf_at a tb i va.
Proof. intros He. unfold leaf_at, pte_at. by rewrite He. Qed.

Lemma leaf_at_empty a tb i va : entry a tb i = 0 -> leaf_at a tb i va = None.
Proof. unfold leaf_at, pte_at. by intros ->. Qed.

Section linked.
Context (a b : t) (lvl : nat -> nat) (cur idx l : nat).
Context (I : inv a lvl) (L : linked a b cur idx) (Hc : (cur < used a)%nat)
        (Hl : lvl cur = S l) (He : entry a cur idx = 0) (Hu : (used a < length (tables a))%nat).

Lemma linked_same tb i : (tb < used a)%nat -> ~ (tb = cur /\ i = idx) ->
  entry b tb i = entry a tb i.
Proof.
  intros Ht Hne. rewrite (lk_entry _ _ _ _ L), decide_False by done.
  by rewrite decide_False by lia.
Qed.

Lemma linked_fresh i : entry b (used a) i = 0.
Proof.
  rewrite (lk_entry _ _ _ _ L), decide_False by lia. by rewrite decide_True.
Qed.

Lemma linked_next_new : next b cur idx = Some (used a).
Proof.
  apply (next_ptr b (lvl_set lvl (used a) l)); [by eapply linked_inv| |rewrite (lk_used _ _ _ _ L); lia].
  rewrite (lk_entry _ _ _ _ L), decide_True by done. symmetry. apply ptr_base, (lk_base _ _ _ _ L).
Qed.

(** The fresh table is empty, so no translation changes. *)
Lemma linked_tr va : tr b va = tr a va.
Proof.
  unfold tr. pose proof linked_next_new as Nb. pose proof (next_empty a _ _ He) as Na.
  destruct (decide (0%nat = cur /\ vpn va 2 = idx)) as [[E1 E2]|N2].
  { rewrite <- E1, <- E2 in Na, Nb. rewrite Na, Nb; simpl.
    by rewrite (next_empty b _ _ (linked_fresh _)). }
  rewrite (next_entry a b) by (apply (lk_base _ _ _ _ L) || by apply linked_same; [apply (root_used a lvl)|]).
  destruct (next_cases a lvl I 0 (vpn va 2) 1 (root_used a lvl I) (i_root _ _ I))
    as [[_ ->]|(t1 & -> & H1 & L1 & _)]; simpl; [done|].
  destruct (decide (t1 = cur /\ vpn va 1 = idx)) as [[-> E2]|N1].
  { rewrite E2, Na, Nb; simpl.
    by rewrite (leaf_at_empty b _ _ _ (linked_fresh _)). }
  rewrite (next_entry a b) by (apply (lk_base _ _ _ _ L) || by apply linked_same).
  destruct (next_cases a lvl I t1 (vpn va 1) 0 H1 L1)
    as [[_ ->]|(t0 & -> & H0 & L0 & _)]; simpl; [done|].
  apply leaf_at_entry, linked_same; [done|]. intros [-> _]. congruence.
Qed.
End linked.

(** One level of [map_page]'s descent. *)
Lemma descend_step a lvl va cur l level levels : inv a lvl -> (cur < used a)%nat -> lvl cur = S l ->
  (descend a va cur (level :: levels) = Val (a, Err OutOfTables) /\
   next a cur (vpn va level) = None /\ (length (tables a) <= used a)%nat) \/
  exists b lvl' n, descend a va cur (level :: levels) = descend b va n levels /\
    inv b lvl' /\ (n < used b)%nat /\ lvl' n = l /\ next b cur (vpn va level) = Some n /\
    (forall va', tr b va' = tr a va') /\
    used b = (used a + match next a cur (vpn va level) with Some _ => 0 | None => 1 end)%nat /\
    (base_pa b = base_pa a /\ length (tables b) = length (tables a)) /\
    (forall tb i m, (tb < used a)%nat -> next a tb i = Some m -> next b tb i = Some m).
Proof.
  intros I Hc Hl. simpl. rewrite (get_entry_ok a lvl I) by (done || apply vpn_lt). simpl.
  change (Pte.from_bits ?e) with (Pte.Mk e). fold (pte_at a cur (vpn va level)).
  destruct (next_cases a lvl I cur (vpn va level) l Hc Hl) as [[E N]|(n & N & Hn & Hln & E)].
  - unfold pte_at. rewrite E. simpl.
    destruct (decide (used a < length (tables a))%nat) as [Hu|Hu].
    + right. destruct (link_step a lvl cur (vpn va level) I Hc (vpn_lt _ _) Hu)
        as (a1 & b & -> & Hp & Ep & L). simpl. rewrite Hp. simpl. rewrite Ep. simpl.
      exists b, (lvl_set lvl (used a) l), (used a). split; [done|].
      split; [by eapply linked_inv|]. split; [rewrite (lk_used _ _ _ _ L); lia|].
      split; [unfold lvl_set; by rewrite decide_True|]. split; [by eapply linked_next_new|].
      split; [intros; by eapply linked_tr|]. split; [rewrite (lk_used _ _ _ _ L), N; lia|].
      split; [split; [apply (lk_base _ _ _ _ L)|apply (lk_length _ _ _ _ L)]|].
      intros tb i m Ht Hm. rewrite <- Hm. apply next_entry; [apply (lk_base _ _ _ _ L)|].
      eapply linked_same; [done..|]. intros [-> ->]. congruence.
    + left. unfold alloc. rewrite decide_True by lia. split; [done|]. split; [done|lia].
  - right. exists a, lvl, n. pose proof N as N0. unfold next in N0.
    destruct (Pte.is_valid (pte_at a cur (vpn va level))) eqn:Ev; [|done].
    destruct (Pte.is_leaf (pte_at a cur (vpn va level))) eqn:Elf; [done|]. simpl in N0.
    injection N0 as N0. split; [by rewrite N0|]. rewrite N, Nat.add_0_r. done.
Qed.

(** Two addresses select the same entry at each level. *)
Definition same_vpns (va va' : Z) : Prop :=
  vpn va 2 = vpn va' 2 /\ vpn va 1 = vpn va' 1 /\ vpn va 0 = vpn va' 0.
#[export] Instance same_vpns_dec va va' : Decision (same_vpns va va').
Proof. unfold same_vpns. apply _. Defined.

(** Distinct paths lead to distinct tables. *)
Lemma next_inj a lvl tb i tb' i' l n : inv a lvl -> (tb < used a)%nat -> (tb' < used a)%nat ->
  lvl tb = S l -> lvl tb' = S l -> next a tb i = Some n -> next a tb' i' = Some n ->
  tb = tb' /\ i = i'.
Proof.
  intros I Ht Ht' Hl Hl' N N'.
  destruct (next_cases a lvl I tb i l Ht Hl) as [[_ ?]|(m & ? & ? & _ & ?)]; [congruence|].
  destruct (next_cases a lvl I tb' i' l Ht' Hl') as [[_ ?]|(m' & ? & ? & _ & ?)]; [congruence|].
  simplify_eq. apply (i_inj _ _ I tb i tb' i' n); auto with lia.
Qed.

Section write_leaf.
Context (a b : t) (lvl : nat -> nat) (va : Z) (t1 t0 : nat) (e : Pte.t).
Context (I : inv a lvl) (N1 : next a 0 (vpn va 2) = Some t1) (N0 : next a t1 (vpn va 1) = Some t0)
        (H1 : (t1 < used a)%nat) (L1 : lvl t1 = 1%nat) (H0 : (t0 < used a)%nat) (L0 : lvl t0 = 0%nat).
Context (Hub : used b = used a) (Hbb : base_pa b = base_pa a)
        (Hlb : length (tables b) = length (tables a))
        (Hlen : forall t' tbl, tables b !! t' = Some tbl -> length tbl = ENTRIES)
        (Heb : forall t' i', entry b t' i' =
                 if decide (t' = t0 /\ i' = vpn va 0) then Pte.bits e else entry a t' i').
Context (Hleaf : Pte.is_leaf e = true).

Lemma write_same tb i l : lvl tb = S l -> entry b tb i = entry a tb i.
Proof. intros Hl. rewrite Heb, decide_False; [done|]. intros [-> _]. congruence. Qed.

Lemma write_inv : inv b lvl.
Proof.
  constructor; rewrite ?Hub, ?Hbb, ?Hlb.
  - exact (i_used _ _ I).
  - exact Hlen.
  - exact (i_base _ _ I).
  - exact (i_root _ _ I).
  - intros tb i l Ht Hl. rewrite (write_same tb i l Hl).
    setoid_rewrite (fun n => ptr_base a b n Hbb). by apply (i_ptr _ _ I).
  - intros tb i Ht Hl. unfold pte_at. rewrite Heb. case_decide; [right; by destruct e|].
    by apply (i_leaf _ _ I).
  - intros tb i tb' i' n Ht Ht' Hl Hl' Hn.
    destruct (lvl tb) eqn:E1; [lia|]. destruct (lvl tb') eqn:E2; [lia|].
    rewrite (write_same tb i _ E1), (write_same tb' i' _ E2), !(ptr_base a b n Hbb).
    apply (i_inj _ _ I); lia.
Qed.

Lemma write_tr va' : tr b va' =
  if decide (same_vpns va va')
  then Some (mkPhys (Pte.ppn e * PAGE_SIZE + (va' .& (PAGE_SIZE - 1))), pte_perms e)
  else tr a va'.
Proof.
  unfold tr. rewrite (next_entry a b 0) by (done || by eapply write_same, (i_root _ _ I)).
  destruct (decide (same_vpns va va')) as [(E2 & E1 & E0)|Hne].
  - rewrite <- E2, <- E1, <- E0, N1. simpl.
    rewrite (next_entry a b t1) by (done || by eapply write_same). rewrite N0. simpl.
    unfold leaf_at, pte_at. rewrite Heb, decide_True by done. destruct e. simpl in *. by rewrite Hleaf.
  - destruct (next_cases a lvl I 0 (vpn va' 2) 1 (root_used a lvl I) (i_root _ _ I))
      as [[_ ->]|(t1' & E2 & H1' & L1' & _)]; [done|]. rewrite E2; simpl.
    rewrite (next_entry a b t1') by (done || by eapply write_same).
    destruct (next_cases a lvl I t1' (vpn va' 1) 0 H1' L1')
      as [[_ ->]|(t0' & E1 & H0' & L0' & _)]; [done|]. rewrite E1; simpl.
    apply leaf_at_entry. rewrite Heb, decide_False; [done|]. intros [-> E0]. apply Hne.
    destruct (next_inj a lvl t1 (vpn va 1) t1' (vpn va' 1) 0 t0 I) as [<- ?]; try done.
    destruct (next_inj a lvl 0 (vpn va 2) 0 (vpn va' 2) 1 t1 I (root_used a lvl I)
      (root_used a lvl I) (i_root _ _ I) (i_root _ _ I) N1 E2) as [_ ?].
    by repeat split.
Qed.
End write_leaf.

(** *** [map_page] as a function on translations *)

Lemma map_page_tr a lvl va pa p : inv a lvl -> pa_u64 pa ∈ᵤ 56 ->
  exists b lvl' r, map_page a va pa p = Val (b, r) /\ inv b lvl' /\ base_pa b = base_pa a /\
    length (tables b) = length (tables a) /\
    match r with
    | Err _ => forall va', tr b va' = tr a va'
    | Ok _ => va_is_page_aligned va = true /\ pa_is_page_aligned pa = true /\
        pte_allowed p = true /\ tr a (va_u64 va) = None /\
        forall va', tr b va' =
          if decide (same_vpns (va_u64 va) va')
          then Some (mkPhys (pa_u64 pa + (va' .& (PAGE_SIZE - 1))),
                     mkPerms (p_read p) (p_write p) (p_execute p) (p_user p) false)
          else tr a va'
    end.
Proof.
  intros I Hpa. unfold map_page.
  destruct (negb (va_is_page_aligned va) || _) eqn:Eal; [by exists a, lvl, (Err PgMisaligned)|].
  apply orb_false_iff in Eal as [Hva%negb_false_iff Hpa'%negb_false_iff].
  destruct (leaf_ok pa p Hpa' Hpa) as [(Hp & e & -> & Hle & Hpp & Hpe)|[_ [e ->]]];
    [|by exists a, lvl, (Err (PgPte e))].
  destruct (descend_step a lvl (va_u64 va) 0 1 2 [1%nat] I (root_used a lvl I) (i_root _ _ I))
    as [(-> & _ & _)|(a1 & lvl1 & t1 & -> & I1 & H1 & L1 & N1 & T1 & U1 & [B1 Ln1] & P1)];
    [by exists a, lvl, (Err OutOfTables)|].
  destruct (descend_step a1 lvl1 (va_u64 va) t1 0 1 [] I1 H1 L1)
    as [(-> & _ & _)|(a2 & lvl2 & t0 & -> & I2 & H0 & L0 & N0 & T0 & U0 & [B0 Ln0] & P0)];
    [by exists a1, lvl1, (Err OutOfTables)|].
  assert (next a2 0 (vpn (va_u64 va) 2) = Some t1) as N1'
    by (apply P0; [apply (root_used a1 lvl1 I1)|done]).
  cbn [Arena.descend]. ostep. rewrite (get_entry_ok a2 lvl2 I2) by (done || apply vpn_lt). ostep.
  assert (forall va', tr a2 va' = tr a va') as T by (intros; by rewrite T0, T1).
  destruct (i_leaf _ _ I2 t0 (vpn (va_u64 va) 0) H0 L0) as [E0|E0].
  - rewrite E0. change (Pte.is_valid (Pte.from_bits 0)) with false. ostep.
    destruct (put_entry_ok a2 t0 (vpn (va_u64 va) 0) (Pte.bits e) (i_len _ _ I2))
      as (b & Ep & Hub & Hbb & Hlb & Hlen & Heb); [pose proof (i_used _ _ I2); lia|apply vpn_lt|].
    rewrite Ep. ostep.
    destruct (next_cases a2 lvl2 I2 0 (vpn (va_u64 va) 2) 1 (root_used _ _ I2) (i_root _ _ I2))
      as [[_ ?]|(t1' & N' & H1' & L1' & _)]; [congruence|].
    assert (t1' = t1) as -> by congruence.
    exists b, lvl2, (Ok tt). split; [done|]. split; [exact (write_inv a2 b lvl2 (va_u64 va) t1 t0 e I2 H1' L1' H0 L0 Hub Hbb Hlb Hlen Heb Hle)|].
    split; [congruence|]. split; [congruence|]. split; [done|]. split; [done|]. split; [done|].
    split.
    + rewrite <- T. unfold tr. rewrite N1'; cbn [mbind option_bind]. rewrite N0; cbn [mbind option_bind]. by apply leaf_at_empty.
    + intros va'. rewrite <- T.
      rewrite (write_tr a2 b lvl2 (va_u64 va) t1 t0 e I2 N1' N0 H1' L1' L0 Hbb Heb Hle).
      by rewrite Hpe, Hpp.
  - assert (Pte.is_valid (pte_at a2 t0 (vpn (va_u64 va) 0)) = true) as Hv
      by (by apply andb_true_iff in E0 as [? _]).
    unfold pte_at in Hv. change (Pte.from_bits ?x) with (Pte.Mk x). rewrite Hv.
    exists a2, lvl2, (Err PgAlreadyMapped). split; [done|]. split; [done|].
    split; [congruence|]. split; [congruence|done].
Qed.

(** Within the 39-bit address space, equal indices mean equal pages. *)
Lemma same_vpns_page va va' : va ∈ᵤ 39 -> va' ∈ᵤ 39 ->
  same_vpns va va' <-> va / PAGE_SIZE = va' / PAGE_SIZE.
Proof.
  unfold uint, same_vpns, vpn, PAGE_SIZE. intros Hv Hv'.
  change 0x1ff with (Z.ones 9). rewrite !Z.land_ones, !Z.shiftr_div_pow2 by lia.
  change (2 ^ 9) with 512. change (2 ^ (12 + Z.of_nat 2 * 9)) with 1073741824.
  change (2 ^ (12 + Z.of_nat 1 * 9)) with 2097152. change (2 ^ (12 + Z.of_nat 0 * 9)) with 4096.
  rewrite !Z2Nat.inj_iff by (apply Z.mod_pos_bound; lia).
  replace 1073741824 with (4096 * 262144) by done. replace 2097152 with (4096 * 512) by done.
  rewrite <- !Z.div_div by lia. change (2 ^ 39) with (4096 * 134217728) in *.
  assert (0 <= va / 4096 < 134217728 /\ 0 <= va' / 4096 < 134217728) as [Hq Hq'] by divmod_lia.
  generalize dependent (va / 4096). generalize dependent (va' / 4096). clear.
  intros q' Hq' q Hq. split; [|by intros ->]. intros (E2 & E1 & E0).
  rewrite (Z.mod_small (q / 262144)), (Z.mod_small (q' / 262144)) in E2 by divmod_lia.
  divmod_lia.
Qed.

(** A fresh arena: every table zeroed. *)
Lemma new_inv n b : (1 <= n)%nat -> 0 <= b -> b mod PAGE_SIZE = 0 ->
  b + Z.of_nat n * PAGE_SIZE <= 2 ^ 56 ->
  inv (new (replicate n Table_zeroed) b) (fun _ => 2%nat) /\
  forall va, tr (new (replicate n Table_zeroed) b) va = None.
Proof.
  intros Hn H0 Hm Hr.
  assert (forall tb i, entry (new (replicate n Table_zeroed) b) tb i = 0) as He.
  { intros tb i. unfold entry, new; simpl.
    destruct (replicate n Table_zeroed !! tb) as [tbl|] eqn:E; [|done]. simpl.
    apply lookup_replicate in E as [-> _].
    destruct (Table_zeroed !! i) as [z|] eqn:Ez; [|done]. by apply lookup_replicate in Ez as [-> _]. }
  split.
  - constructor; simpl; rewrite ?length_replicate; try done.
    + intros tb tbl [-> _]%lookup_replicate. done.
    + intros. left. apply He.
    + intros tb i tb' i' k _ _ _ _ _ E. rewrite He in E. symmetry in E. by apply ptr_nonzero in E.
  - intros va. unfold tr. by rewrite (next_empty _ _ _ (He _ _)).
Qed.

(** A sequence of [map_page] calls; refused ones are skipped. *)
Definition map_all (a : t) (reqs : list (VirtAddr * PhysAddr * Permissions)) : outcome t :=
  for_m (fun a r => d ← map_page a r.1.1 r.1.2 r.2; mret d.1) a reqs.

Lemma map_all_inv a lvl reqs : inv a lvl -> Forall (fun r => pa_u64 r.1.2 ∈ᵤ 56) reqs ->
  exists b lvl', map_all a reqs = Val b /\ inv b lvl'.
Proof.
  intros I H. revert a lvl I. induction H as [|r reqs Hr _ IH]; intros a lvl I; [by exists a, lvl|].
  destruct (map_page_tr a lvl r.1.1 r.1.2 r.2 I Hr) as (b & lvl' & d & E & I' & _).
  unfold map_all. cbn [for_m]. rewrite E. ostep. by eapply IH.
Qed.

Lemma land_offset va : va .& (PAGE_SIZE - 1) = va mod PAGE_SIZE.
Proof. change (PAGE_SIZE - 1) with (Z.ones 12). by rewrite Z.land_ones by lia. Qed.

(** C38. Mapping and translating round-trip, on an arena built from zeroed
    tables by any sequence of [map_page] calls: nothing panics; after a
    successful call every address of the page translates to the same offset
    in the frame, with the permissions given, the page was not mapped
    before, and every other page translates as before; after a refused call
    (misaligned, illegal entry, already mapped, out of tables) every address
    translates as before, so nothing half-linked is visible to a walk. *)
Theorem paging_map_translate n b reqs va pa p va' :
  (1 <= n)%nat -> 0 <= b -> b mod PAGE_SIZE = 0 -> b + Z.of_nat n * PAGE_SIZE <= 2 ^ 56 ->
  Forall (fun r => pa_u64 r.1.2 ∈ᵤ 56) reqs -> pa_u64 pa ∈ᵤ 56 ->
  va_u64 va ∈ᵤ 39 -> va_u64 va' ∈ᵤ 39 ->
  exists a c r, map_all (new (replicate n Table_zeroed) b) reqs = Val a /\
    map_page a va pa p = Val (c, r) /\
    (r = Ok tt -> translate a va = Val None) /\
    translate c va' =
      match r with
      | Ok _ =>
          if decide (va_u64 va / PAGE_SIZE = va_u64 va' / PAGE_SIZE)
          then Val (Some (mkPhys (pa_u64 pa + va_u64 va' mod PAGE_SIZE),
                          mkPerms (p_read p) (p_write p) (p_execute p) (p_user p) false))
          else translate a va'
      | Err _ => translate a va'
      end.
Proof.
  intros Hn H0 Hm Hr Hreqs Hpa Hva Hva'.
  destruct (new_inv n b Hn H0 Hm Hr) as [I0 _].
  destruct (map_all_inv _ _ reqs I0 Hreqs) as (a & lvl & E & I).
  destruct (map_page_tr a lvl va pa p I Hpa) as (c & lvl' & r & Em & I' & _ & _ & H).
  exists a, c, r. split; [done|]. split; [done|].
  rewrite !(translate_tr a lvl I), (translate_tr c lvl' I'). destruct r as [[]|e].
  - destruct H as (_ & _ & _ & Hnone & H). split; [by rewrite Hnone|].
    rewrite H, land_offset. destruct (decide (same_vpns _ _)) as [Hs|Hs];
      rewrite same_vpns_page in Hs by done; destruct (decide (_ / _ = _)); done.
  - split; [done|]. by rewrite H.
Qed.

Lemma sample_maps :
  match map_page (new (replicate 4 Table_zeroed) 0x80200000) (mkVirt 0x4000) (mkPhys 0x9000) kernel_rw with
  | Val (_, r) => r = Ok tt
  | Panic => False
  end.
Proof. vm_compute. reflexivity. Qed.

Lemma paging_map_translate_witness :
  exists c, map_page (new (replicate 4 Table_zeroed) 0x80200000) (mkVirt 0x4000) (mkPhys 0x9000) kernel_rw = Val (c, Ok tt) /\
    translate c (mkVirt 0x4abc) = Val (Some (mkPhys 0x9abc, kernel_rw)).
Proof.
  destruct (paging_map_translate 4 0x80200000 [] (mkVirt 0x4000) (mkPhys 0x9000) kernel_rw
    (mkVirt 0x4abc)) as (a & c & r & E & Em & _ & H).
  - lia.
  - lia.
  - reflexivity.
  - vm_compute. congruence.
  - constructor.
  - vm_compute. split; congruence.
  - vm_compute. split; congruence.
  - vm_compute. split; congruence.
  - assert (a = new (replicate 4 Table_zeroed) 0x80200000) as -> by (unfold map_all in E; cbn [for_m] in E; unfold mret, outcome_ret in E; congruence).
    pose proof sample_maps as Hr. rewrite Em in Hr. subst r. exists c. split; [exact Em|].
    rewrite H. reflexivity.
Defined.

Lemma identity_loop_tr fuel a lvl addr end_ p :
  inv a lvl -> 0 <= addr -> addr mod PAGE_SIZE = 0 -> end_ <= 2 ^ 39 ->
  (0 < fuel)%nat -> (addr < end_ -> (end_ - addr) / PAGE_SIZE + 1 < Z.of_nat fuel) ->
  exists b lvl' r, identity_loop fuel a addr end_ p = Val (b, r) /\ inv b lvl' /\
    base_pa b = base_pa a /\ (r = Ok tt -> forall va, va ∈ᵤ 39 -> tr b va =
       if decide (addr <= va /\ va / PAGE_SIZE * PAGE_SIZE < end_)
       then Some (mkPhys va, mkPerms (p_read p) (p_write p) (p_execute p) (p_user p) false)
       else tr a va).
Proof.
  revert a lvl addr. induction fuel as [|fuel IH]; intros a lvl addr I Ha Hm He Hf0 Hf; [lia|].
  cbn [identity_loop]. destruct (addr <? end_) eqn:El; bool_facts.
  - destruct (map_page_tr a lvl (mkVirt addr) (mkPhys addr) p I)
      as (b & lvl' & r & -> & I' & Hb & _ & H); [unfold uint; simpl; lia|]. ostep.
    destruct r as [[]|e]; [|by exists b, lvl', (Err e)].
    destruct (IH b lvl' (addr + PAGE_SIZE) I') as (c & lvl'' & r & -> & I'' & Hb' & Hc);
      [unfold PAGE_SIZE in *; lia|by rewrite Z.add_mod, Hm by done|done|unfold PAGE_SIZE in *; divmod_lia..|].
    exists c, lvl'', r. split; [done|]. split; [done|]. split; [congruence|]. intros -> va Hva. rewrite Hc by done.
    destruct H as (_ & _ & _ & _ & H). rewrite H, land_offset. cbn [va_u64 pa_u64].
    pose proof (same_vpns_page addr va) as Hs. unfold uint in Hs, Hva.
    assert (0 <= addr < 2 ^ 39) as Haddr by lia. specialize (Hs Haddr Hva).
    repeat case_decide; try done; unfold PAGE_SIZE in *.
    all: try (exfalso; divmod_lia).
    + do 3 f_equal. assert (addr / 4096 = va / 4096) by tauto. divmod_lia.
    + exfalso. assert (addr / 4096 = va / 4096) by tauto. divmod_lia.
    + exfalso. assert (addr / 4096 <> va / 4096) by tauto. divmod_lia.
  - exists a, lvl, (Ok tt). split; [done|]. split; [done|]. split; [done|]. intros _ va Hva.
    rewrite decide_False; [done|]. unfold PAGE_SIZE in *. divmod_lia.
Qed.

(** Identity-mapping a page-aligned range on a fresh arena always
    returns (the loop makes at most one turn per page and a final test), and
    when it succeeds exactly the addresses of the range's pages translate,
    each to itself with the given permissions. *)
Theorem identity_map_range_exact n b start end_ p va :
  (1 <= n)%nat -> 0 <= b -> b mod PAGE_SIZE = 0 -> b + Z.of_nat n * PAGE_SIZE <= 2 ^ 56 ->
  0 <= start -> start mod PAGE_SIZE = 0 -> end_ mod PAGE_SIZE = 0 -> end_ <= 2 ^ 39 ->
  va_u64 va ∈ᵤ 39 ->
  exists a r, identity_map_range (new (replicate n Table_zeroed) b) start end_ p = Val (a, r) /\
    (r = Ok tt -> translate a va =
       Val (if decide (start <= va_u64 va < end_)
            then Some (mkPhys (va_u64 va),
                       mkPerms (p_read p) (p_write p) (p_execute p) (p_user p) false)
            else None)).
Proof.
  intros Hn H0 Hm Hr Hs Hsm Hem He Hva. destruct (new_inv n b Hn H0 Hm Hr) as [I0 T0].
  unfold identity_map_range.
  assert (0 < 2 + Z.to_nat ((end_ - start) / PAGE_SIZE))%nat as Hf by (clear; lia).
  assert (start < end_ -> (end_ - start) / PAGE_SIZE + 1 <
    Z.of_nat (2 + Z.to_nat ((end_ - start) / PAGE_SIZE))) as Hf'
    by (clear; unfold PAGE_SIZE; intros; divmod_lia).
  destruct (identity_loop_tr _ _ _ start end_ p I0 Hs Hsm He Hf Hf') as (a & lvl & r & E & I & _ & H).
  exists a, r. split; [done|]. intros Hok. rewrite (translate_tr a lvl I), H, T0 by done. f_equal.
  unfold uint in Hva. unfold PAGE_SIZE in *. clear -Hs Hsm Hem Hva.
  repeat case_decide; try done; exfalso; divmod_lia.
Qed.

Lemma identity_map_range_exact_witness :
  exists a r, identity_map_range (new (replicate 4 Table_zeroed) 0x80200000) 0x80200000 0x80202000
                kernel_rw = Val (a, r) /\
    (r = Ok tt -> translate a (mkVirt 0x80201008) = Val (Some (mkPhys 0x80201008, kernel_rw))).
Proof.
  destruct (identity_map_range_exact 4 0x80200000 0x80200000 0x80202000 kernel_rw (mkVirt 0x80201008))
    as (a & r & E & H).
  - lia.
  - lia.
  - reflexivity.
  - vm_compute. congruence.
  - lia.
  - reflexivity.
  - reflexivity.
  - vm_compute. congruence.
  - vm_compute. split; congruence.
  - exists a, r. split; [exact E|]. intros Hr. rewrite (H Hr). reflexivity.
Defined.

End ArenaInv.
