(* ===== verification/PagingHw.v ===== *)
(** * Address spaces on target

    Models [kernel/src/arch/riscv64/paging_hw.rs]: the kernel mappings every
    table shares, and the address spaces of user tasks and services, built
    over [Paging]'s arenas.  The addresses the linker assigns are a record,
    [Linker]; writing [satp] is a field update of the dispatcher's state. *)

From stdpp Require Import base decidable numbers option relations tactics list.
From S2P Require Import Prelude Memory PageTable Sv39 Paging.
Local Open Scope Z_scope.

Definition ARENA_TABLES : nat := 16.
Definition UART_PAGE : Z := 0x10000000.
Definition VIRTIO_MMIO0_PAGE : Z := 0x10001000.
Definition MAX_USER_AS : nat := 16.
Definition USER_CODE_VA : Z := 0x10000.
Definition USER_STACK_VA : Z := 0x200000.
Definition USER_STACK_PAGES : nat := 1.

(** The addresses of the linker script's section symbols and of the two
    static table arrays. *)
Record Linker := mkLinker {
  __text_start : Z; __text_end : Z; __rodata_start : Z; __rodata_end : Z;
  __data_start : Z; __data_end : Z;
  __user_text_start : Z; __user_text_end : Z; __user_rodata_start : Z; __user_rodata_end : Z;
  KERNEL_TABLES_addr : Z; USER_TABLES_addr : Z
}.

Record KernelRegions := mkRegions { r_text : Z * Z; r_rodata : Z * Z; r_data : Z * Z }.

Definition kernel_regions (l : Linker) : KernelRegions :=
  mkRegions (__text_start l, __text_end l) (__rodata_start l, __rodata_end l)
    (__data_start l, __data_end l).

Definition krx : Permissions := mkPerms true false true false false.
Definition kr_only : Permissions := mkPerms true false false false false.
Definition urx : Permissions := mkPerms true false true true false.
Definition uro : Permissions := mkPerms true false false true false.

(** [.expect(..)] on the result of a mapping call. *)
Definition mapped (d : Arena.t * result unit PagingError) : outcome Arena.t :=
  match d.2 with Ok _ => mret d.1 | Err _ => Panic end.
Definition map_range (a : Arena.t) (start end_ : Z) (p : Permissions) : outcome Arena.t :=
  d ← Arena.identity_map_range a start end_ p; mapped d.
Definition map_one (a : Arena.t) (va pa : Z) (p : Permissions) : outcome Arena.t :=
  d ← Arena.map_page a (mkVirt va) (mkPhys pa) p; mapped d.

Definition map_kernel_regions (a : Arena.t) (r : KernelRegions) : outcome Arena.t :=
  a ← map_range a r.(r_text).1 r.(r_text).2 krx;
  a ← (if r.(r_rodata).1 <? r.(r_rodata).2
       then map_range a r.(r_rodata).1 r.(r_rodata).2 kr_only else mret a);
  a ← map_range a r.(r_data).1 r.(r_data).2 kernel_rw;
  a ← map_range a UART_PAGE (UART_PAGE + 0x1000) kernel_device;
  map_range a VIRTIO_MMIO0_PAGE (VIRTIO_MMIO0_PAGE + 0x1000) kernel_device.

(** [enable_kernel_paging]: the value written to [satp] and the tables. *)
Definition enable_kernel_paging (l : Linker) (KERNEL_TABLES : list Table)
    : outcome (Z * list Table) :=
  a ← map_kernel_regions (Arena.new KERNEL_TABLES (KERNEL_TABLES_addr l)) (kernel_regions l);
  mret (satp_for (Arena.root_pa a), Arena.tables a).

Record UserAddressSpace := mkUas { root : PhysAddr; entry_va : Z; stack_top_va : Z }.

(** [addr_of!(all[as_index])]: the arenas lie end to end. *)
Definition arena_base (l : Linker) (as_index : nat) : Z :=
  USER_TABLES_addr l + Z.of_nat as_index * (Z.of_nat ARENA_TABLES * PAGE_SIZE).

Definition map_pages (a : Arena.t) (va pa : Z) (n : nat) (p : Permissions) : outcome Arena.t :=
  for_m (fun a i => map_one a (va + Z.of_nat i * 0x1000) (pa + Z.of_nat i * 0x1000) p) a (seq 0 n).

Definition build_user_address_space (l : Linker) (USER_TABLES : list (list Table))
    (as_index : nat) (code_phys stack_phys : Z) : outcome (UserAddressSpace * list (list Table)) :=
  if decide (as_index < MAX_USER_AS)%nat then
    tables ← arr_get USER_TABLES as_index;
    a ← map_kernel_regions (Arena.new tables (arena_base l as_index)) (kernel_regions l);
    let code_base := code_phys .& bitnot 64 0xfff in
    a ← map_pages a USER_CODE_VA code_base 2 urx;
    let stack_base := stack_phys .& bitnot 64 0xfff in
    a ← map_pages a USER_STACK_VA stack_base USER_STACK_PAGES user_rw;
    ts ← arr_set USER_TABLES as_index (Arena.tables a);
    mret (mkUas (Arena.root_pa a) (USER_CODE_VA + (code_phys .& 0xfff))
            (USER_STACK_VA + Z.of_nat USER_STACK_PAGES * 0x1000), ts)
  else Panic.

Definition user_region_va_span (l : Linker) : Z * Z :=
  (USER_CODE_VA, wrapping 64 (USER_CODE_VA + (__user_rodata_end l - __user_text_start l))).

(** The number of turns of [while pa < end { ..; pa += 0x1000 }]. *)
Definition page_turns (start end_ : Z) : nat := Z.to_nat ((end_ - start + 0xfff) / 0x1000).

Definition build_service_address_space (l : Linker) (USER_TABLES : list (list Table))
    (as_index : nat) (entry_kernel_va stack_phys : Z)
    : outcome (UserAddressSpace * list (list Table)) :=
  if decide (as_index < MAX_USER_AS)%nat then
    tables ← arr_get USER_TABLES as_index;
    a ← map_kernel_regions (Arena.new tables (arena_base l as_index)) (kernel_regions l);
    let text_start := __user_text_start l in
    let ro_start := __user_rodata_start l in
    a ← map_pages a USER_CODE_VA text_start (page_turns text_start (__user_text_end l)) urx;
    a ← map_pages a (USER_CODE_VA + (ro_start - text_start)) ro_start
          (page_turns ro_start (__user_rodata_end l)) uro;
    a ← map_one a USER_STACK_VA (stack_phys .& bitnot 64 0xfff) user_rw;
    ts ← arr_set USER_TABLES as_index (Arena.tables a);
    mret (mkUas (Arena.root_pa a)
            (wrapping 64 (USER_CODE_VA + (entry_kernel_va - text_start)))
            (USER_STACK_VA + 0x1000), ts)
  else Panic.

(** ** What a service can reach *)

(** What the linker script guarantees: page-aligned, ordered sections in the
    39-bit space, the user read-only data right after the user text, and
    page-aligned table arrays. *)
Record linker_ok (l : Linker) : Prop := {
  lk_aligned : Forall (fun x => x mod PAGE_SIZE = 0 /\ 0 <= x <= 2 ^ 38)
    [__text_start l; __text_end l; __rodata_start l; __rodata_end l; __data_start l; __data_end l;
     __user_text_start l; __user_text_end l; __user_rodata_start l; __user_rodata_end l;
     USER_TABLES_addr l];
  lk_user : __user_text_start l <= __user_text_end l /\
    __user_text_end l = __user_rodata_start l /\ __user_rodata_start l <= __user_rodata_end l
}.

Definition in_span (va start end_ : Z) : Prop := start <= va < end_.
#[export] Instance in_span_dec va s e : Decision (in_span va s e).
Proof. unfold in_span. apply _. Defined.

(** The leaf's view of a permission: the device attribute has no bit. *)
Definition leaf_perms (p : Permissions) : Permissions :=
  mkPerms (p_read p) (p_write p) (p_execute p) (p_user p) false.

(** The kernel part of every address space: identity, never user. *)
Definition kernel_view (l : Linker) (va : Z) : option (PhysAddr * Permissions) :=
  if decide (in_span va VIRTIO_MMIO0_PAGE (VIRTIO_MMIO0_PAGE + 0x1000) \/
             in_span va UART_PAGE (UART_PAGE + 0x1000))
  then Some (mkPhys va, leaf_perms kernel_device)
  else if decide (in_span va (__data_start l) (__data_end l)) then Some (mkPhys va, kernel_rw)
  else if decide (in_span va (__rodata_start l) (__rodata_end l)) then Some (mkPhys va, kr_only)
  else if decide (in_span va (__text_start l) (__text_end l)) then Some (mkPhys va, krx)
  else None.

(** A service: the kernel part, the user region at [USER_CODE_VA] and one
    private stack page. *)
Definition service_view (l : Linker) (stack_phys va : Z) : option (PhysAddr * Permissions) :=
  let pa := va - USER_CODE_VA + __user_text_start l in
  if decide (in_span va USER_STACK_VA (USER_STACK_VA + 0x1000))
  then Some (mkPhys (stack_phys / PAGE_SIZE * PAGE_SIZE + va mod PAGE_SIZE), user_rw)
  else if decide (in_span pa (__user_rodata_start l) (__user_rodata_end l)) then Some (mkPhys pa, uro)
  else if decide (in_span pa (__user_text_start l) (__user_text_end l)) then Some (mkPhys pa, urx)
  else kernel_view l va.

Import ArenaInv.

Lemma map_range_tr a lvl start end_ p b : inv a lvl -> 0 <= start -> start mod PAGE_SIZE = 0 ->
  end_ mod PAGE_SIZE = 0 -> end_ <= 2 ^ 39 -> map_range a start end_ p = Val b ->
  exists lvl', inv b lvl' /\ Arena.base_pa b = Arena.base_pa a /\
    forall va, va ∈ᵤ 39 -> tr b va =
      if decide (in_span va start end_) then Some (mkPhys va, leaf_perms p) else tr a va.
Proof.
  intros I H0 Hs He Hb. unfold map_range, Arena.identity_map_range.
  edestruct (identity_loop_tr (2 + Z.to_nat ((end_ - start) / PAGE_SIZE)) a lvl start end_ p I H0
    Hs Hb) as (c & lvl' & r & -> & I' & Hbase & H);
    [clear; lia|clear; unfold PAGE_SIZE; intros; divmod_lia|].
  ostep. unfold mapped. ostep. destruct r as [[]|]; [|done]. intros [= <-].
  exists lvl'. split; [done|]. split; [done|]. intros va Hva. rewrite H by done.
  unfold uint in Hva. unfold in_span, PAGE_SIZE in *. clear -H0 Hs He Hva.
  repeat case_decide; try done; exfalso; divmod_lia.
Qed.

Lemma map_one_tr a lvl va pa p b : inv a lvl -> va ∈ᵤ 39 -> pa ∈ᵤ 56 -> map_one a va pa p = Val b ->
  exists lvl', inv b lvl' /\ Arena.base_pa b = Arena.base_pa a /\
    va mod PAGE_SIZE = 0 /\ pa mod PAGE_SIZE = 0 /\
    forall va', va' ∈ᵤ 39 -> tr b va' =
      if decide (in_span va' va (va + PAGE_SIZE))
      then Some (mkPhys (pa + va' mod PAGE_SIZE), leaf_perms p) else tr a va'.
Proof.
  intros I Hva Hpa. unfold map_one.
  destruct (map_page_tr a lvl (mkVirt va) (mkPhys pa) p I Hpa)
    as (c & lvl' & r & -> & I' & Hbase & _ & H).
  ostep. unfold mapped. ostep. destruct r as [[]|]; [|done]. intros [= <-].
  destruct H as (Hav & Hap & _ & _ & H).
  apply is_page_aligned_iff in Hav, Hap. cbn [va_u64 pa_u64] in *.
  exists lvl'. split; [done|]. split; [done|]. split; [done|]. split; [done|]. intros va' Hva'.
  rewrite H, land_offset. pose proof (same_vpns_page va va' Hva Hva') as Hs.
  unfold uint in Hva, Hva'. unfold in_span, PAGE_SIZE in *. clear -Hs Hva Hva' Hav.
  destruct (decide (same_vpns va va')) as [Hd|Hd]; rewrite Hs in Hd;
    case_decide; try done; exfalso; divmod_lia.
Qed.

Lemma map_pages_tr n a lvl va pa p b : inv a lvl -> 0 <= va -> va + Z.of_nat n * 0x1000 <= 2 ^ 39 ->
  0 <= pa -> pa + Z.of_nat n * 0x1000 <= 2 ^ 56 -> va mod PAGE_SIZE = 0 ->
  map_pages a va pa n p = Val b ->
  exists lvl', inv b lvl' /\ Arena.base_pa b = Arena.base_pa a /\
    forall va', va' ∈ᵤ 39 -> tr b va' =
      if decide (in_span va' va (va + Z.of_nat n * 0x1000))
      then Some (mkPhys (pa + (va' - va)), leaf_perms p) else tr a va'.
Proof.
  unfold map_pages. revert a lvl b.
  induction n as [|n IH]; intros a lvl b I Hva Hve Hpa Hpe Hal.
  - intros [= <-]. exists lvl. split; [done|]. split; [done|]. intros va' _.
    rewrite decide_False; [done|]. unfold in_span. lia.
  - rewrite seq_S, Nat.add_0_l, for_m_app. ostep. destruct (for_m _ a (seq 0 n)) as [c|] eqn:Ec; [|done].
    destruct (IH a lvl c I) as (lvl1 & I1 & Hb1 & T1); [lia..|done|done|]. ostep. cbn [for_m].
    destruct (map_one c _ _ p) as [d|] eqn:Ed; [|done]. intros [= <-].
    apply (map_one_tr c lvl1) in Ed as (lvl2 & I2 & Hb2 & Hvm & _ & T2);
      [|done|unfold uint; lia|unfold uint; lia].
    exists lvl2. split; [done|]. split; [congruence|]. intros va' Hva'. rewrite T2, T1 by done.
    unfold in_span, PAGE_SIZE in *. clear -Hal Hva Hvm.
    repeat case_decide; try done; try (exfalso; lia). do 3 f_equal. divmod_lia.
Qed.

Lemma linker_aligned l x : linker_ok l ->
  x ∈ [__text_start l; __text_end l; __rodata_start l; __rodata_end l; __data_start l;
       __data_end l; __user_text_start l; __user_text_end l; __user_rodata_start l;
       __user_rodata_end l; USER_TABLES_addr l] ->
  x mod PAGE_SIZE = 0 /\ 0 <= x <= 2 ^ 39.
Proof.
  intros [H _] Hx. rewrite Forall_forall in H. destruct (H x Hx) as [? [? ?]].
  split; [done|]. split; [done|]. etrans; [done|]. by vm_compute.
Qed.

Ltac linked L := apply (linker_aligned _ _ L); repeat (constructor; fail || constructor).

Lemma map_kernel_regions_tr l a lvl b : linker_ok l -> inv a lvl -> (forall va, tr a va = None) ->
  map_kernel_regions a (kernel_regions l) = Val b ->
  exists lvl', inv b lvl' /\ Arena.base_pa b = Arena.base_pa a /\
    forall va, va ∈ᵤ 39 -> tr b va = kernel_view l va.
Proof.
  intros L I T0. unfold map_kernel_regions, kernel_regions. cbn [r_text r_rodata r_data fst snd].
  destruct (map_range a _ _ krx) as [a1|] eqn:E1; [ostep|done].
  apply (map_range_tr a lvl) in E1 as (lvl1 & I1 & B1 & T1); [|done|by linked L..].
  destruct (__rodata_start l <? __rodata_end l) eqn:Ero.
  all: [> destruct (map_range a1 _ _ kr_only) as [a2|] eqn:E2; [ostep|done];
       apply (map_range_tr a1 lvl1) in E2 as (lvl2 & I2 & B2 & T2); [|done|by linked L..]
     | ostep; pose (a2 := a1); pose (lvl2 := lvl1); assert (I2 : inv a2 lvl2) by exact I1;
       assert (B2 : Arena.base_pa a2 = Arena.base_pa a1) by done;
       assert (forall va, va ∈ᵤ 39 -> tr a2 va =
         if decide (in_span va (__rodata_start l) (__rodata_end l)) then Some (mkPhys va, leaf_perms kr_only)
         else tr a1 va) as T2
         by (intros; rewrite decide_False; [done|]; unfold in_span; bool_facts; lia);
       change a1 with a2 at 1 ].
  all: destruct (map_range a2 _ _ kernel_rw) as [a3|] eqn:E3; [ostep|done];
    apply (map_range_tr a2 lvl2) in E3 as (lvl3 & I3 & B3 & T3); [|done|by linked L..];
    destruct (map_range a3 _ _ _) as [a4|] eqn:E4; [ostep|done];
    apply (map_range_tr a3 lvl3) in E4 as (lvl4 & I4 & B4 & T4); [|done|by vm_compute..];
    intros E5; apply (map_range_tr a4 lvl4) in E5 as (lvl5 & I5 & B5 & T5); [|done|by vm_compute..];
    exists lvl5; split; [done|]; split; [congruence|];
    intros va Hva; rewrite T5, T4, T3, T2, T1, T0 by done;
    unfold kernel_view; repeat case_decide; done || tauto.
Qed.

Lemma translate_used ts u u' b va :
  Arena.translate (Arena.Mk ts u b) va = Arena.translate (Arena.Mk ts u' b) va.
Proof. reflexivity. Qed.

Lemma mask_page x : x ∈ᵤ 64 -> x .& bitnot 64 0xfff = x / PAGE_SIZE * PAGE_SIZE.
Proof.
  intros [H0 H1]. unfold PAGE_SIZE. change 4096 with (2 ^ 12) at 2.
  rewrite <- Z.shiftl_mul_pow2 by lia. change 4096 with (2 ^ 12). rewrite <- Z.shiftr_div_pow2 by lia.
  apply Z.bits_inj'. intros i Hi. unfold bitnot. change 0xfff with (Z.ones 12).
  rewrite Z.land_spec, Z.lxor_spec, Z.shiftl_spec, !Z.testbit_ones by lia.
  destruct (decide (i < 12)).
  - rewrite (Z.testbit_neg_r _ (i - 12)) by lia.
    replace (0 <=? i) with true by lia. replace (i <? 12) with true by lia.
    replace (i <? 64) with true by lia. by rewrite andb_false_r.
  - rewrite Z.shiftr_spec by lia. replace (i - 12 + 12) with i by lia.
    replace (i <? 12) with false by lia. rewrite andb_false_r, xorb_false_l.
    destruct (decide (i < 64)).
    + replace (0 <=? i) with true by lia. replace (i <? 64) with true by lia. apply andb_true_r.
    + rewrite (Z.bits_above_log2 x i), andb_false_l; [done|lia|].
      destruct (decide (x = 0)) as [->|]; [simpl; lia|]. apply Z.log2_lt_pow2; [lia|].
      eapply Z.lt_le_trans; [done|]. apply Z.pow_le_mono_r; lia.
Qed.

Definition fresh_tables : list Table := replicate ARENA_TABLES Table_zeroed.

(** The address space a service table slot holds. *)
Definition space_of (l : Linker) (USER_TABLES : list (list Table)) (i : nat) : Arena.t :=
  Arena.Mk (default [] (USER_TABLES !! i)) 1 (arena_base l i).

Lemma page_floor_uint x : x ∈ᵤ 56 -> x / PAGE_SIZE * PAGE_SIZE ∈ᵤ 56.
Proof. unfold uint, PAGE_SIZE. change (2 ^ 56) with 72057594037927936. intros. divmod_lia. Qed.
Lemma uint_56_64 x : x ∈ᵤ 56 -> x ∈ᵤ 64.
Proof.
  unfold uint. change (2 ^ 56) with 72057594037927936. change (2 ^ 64) with 18446744073709551616. lia.
Qed.

Lemma decide_ext_eq {A} P Q `{!Decision P, !Decision Q} (x x' y y' : A) :
  (P <-> Q) -> x = x' -> y = y' -> (if decide P then x else y) = (if decide Q then x' else y').
Proof. intros H -> ->. destruct (decide P), (decide Q); tauto. Qed.

Lemma page_turns_span s e : s mod PAGE_SIZE = 0 -> e mod PAGE_SIZE = 0 -> s <= e ->
  Z.of_nat (page_turns s e) * 0x1000 = e - s.
Proof. unfold page_turns, PAGE_SIZE. intros. divmod_lia. Qed.

Lemma arena_base_ok l i : linker_ok l -> (i < MAX_USER_AS)%nat ->
  0 <= arena_base l i /\ arena_base l i mod PAGE_SIZE = 0 /\
  arena_base l i + Z.of_nat ARENA_TABLES * PAGE_SIZE <= 2 ^ 56.
Proof.
  intros L Hi. assert (USER_TABLES_addr l mod PAGE_SIZE = 0 /\ 0 <= USER_TABLES_addr l <= 2 ^ 39)
    as (Ha & H0 & H1) by linked L.
  unfold arena_base, MAX_USER_AS, ARENA_TABLES, PAGE_SIZE in *.
  change (2 ^ 39) with 549755813888 in H1. change (2 ^ 56) with 72057594037927936.
  split; [lia|]. split; [divmod_lia|lia].
Qed.

Lemma service_space_tr l TS i entry stack uas TS' :
  linker_ok l -> TS !! i = Some fresh_tables -> stack ∈ᵤ 56 ->
  build_service_address_space l TS i entry stack = Val (uas, TS') ->
  exists a lvl, inv a lvl /\ Arena.base_pa a = arena_base l i /\
    TS' = <[i := Arena.tables a]> TS /\ root uas = Arena.root_pa a /\
    forall va, va ∈ᵤ 39 -> tr a va = service_view l stack va.
Proof.
  intros L HT Hst. unfold build_service_address_space.
  case_decide as Hi; [|done]. rewrite (arr_get_lookup _ _ _ HT). ostep.
  destruct (arena_base_ok l i L Hi) as (B0 & Bm & Bl).
  destruct (new_inv ARENA_TABLES (arena_base l i)) as [I0 T0]; [unfold ARENA_TABLES; lia|done..|].
  destruct (map_kernel_regions _ _) as [a1|] eqn:E1; [ostep|done].
  apply (map_kernel_regions_tr l _ _ _ L I0 T0) in E1 as (lvl1 & I1 & B1 & T1).
  assert (__user_text_start l mod PAGE_SIZE = 0 /\ 0 <= __user_text_start l <= 2 ^ 39) as [Hts ?] by linked L.
  assert (__user_text_end l mod PAGE_SIZE = 0 /\ 0 <= __user_text_end l <= 2 ^ 39) as [Hte ?] by linked L.
  assert (__user_rodata_end l mod PAGE_SIZE = 0 /\ 0 <= __user_rodata_end l <= 2 ^ 38) as [? ?].
  { pose proof (lk_aligned l L) as F. rewrite Forall_forall in F. apply F.
    repeat (constructor; fail || constructor). }
  destruct (lk_user l L) as (Hu1 & Hu2 & Hu3).
  change (2 ^ 39) with 549755813888 in *. change (2 ^ 38) with 274877906944 in *.
  pose proof (page_turns_span (__user_text_start l) (__user_text_end l)) as S1.
  pose proof (page_turns_span (__user_rodata_start l) (__user_rodata_end l)) as S2.
  rewrite <- Hu2 in *. specialize (S1 ltac:(done) ltac:(done) Hu1).
  specialize (S2 ltac:(done) ltac:(done) Hu3).
  destruct (map_pages a1 _ _ _ urx) as [a2|] eqn:E2; [ostep|done].
  apply (map_pages_tr _ a1 lvl1) in E2 as (lvl2 & I2 & B2 & T2); [|done|..];
    [|unfold USER_CODE_VA; rewrite ?S1; change (2 ^ 39) with 549755813888;
      change (2 ^ 56) with 72057594037927936; lia || done..].
  destruct (map_pages a2 _ _ _ uro) as [a3|] eqn:E3; [ostep|done].
  apply (map_pages_tr _ a2 lvl2) in E3 as (lvl3 & I3 & B3 & T3); [|done|..];
    [|unfold USER_CODE_VA; rewrite ?S2; change (2 ^ 39) with 549755813888;
      change (2 ^ 56) with 72057594037927936; unfold PAGE_SIZE in *; lia || (clear -Hts Hte; divmod_lia)..].
  rewrite mask_page by (by apply uint_56_64).
  destruct (map_one a3 _ _ user_rw) as [a4|] eqn:E4; [ostep|done].
  apply (map_one_tr a3 lvl3) in E4 as (lvl4 & I4 & B4 & _ & _ & T4); [|done|by vm_compute|];
    [|by apply page_floor_uint].
  rewrite arr_set_lt by (by eapply lookup_lt_Some). ostep. intros [= <- <-].
  exists a4, lvl4. split; [done|]. split; [rewrite B4, B3, B2, B1; done|]. split; [done|].
  split; [done|]. intros va Hva. rewrite T4, T3, T2, T1 by done. unfold service_view, in_span.
  rewrite <- ?Hu2, S1, S2.
  replace (__user_text_end l + (va - (USER_CODE_VA + (__user_text_end l - __user_text_start l))))
    with (va - USER_CODE_VA + __user_text_start l) by lia.
  replace (__user_text_start l + (va - USER_CODE_VA)) with (va - USER_CODE_VA + __user_text_start l)
    by lia.
  apply decide_ext_eq; [reflexivity|reflexivity|].
  apply decide_ext_eq; [clear; lia|reflexivity|].
  apply decide_ext_eq; [clear; lia|reflexivity|reflexivity].
Qed.

Lemma service_view_user l stack va pa p : 0 <= stack ->
  service_view l stack va = Some (pa, p) -> p_user p = true ->
  ~ (p_write p = true /\ p_execute p = true) /\
  (p_write p = true -> pa_u64 pa / PAGE_SIZE = stack / PAGE_SIZE).
Proof.
  intros H0. unfold service_view, kernel_view.
  repeat case_decide; intros [= <- <-]; simpl; try done; (split; [by intros [? ?]|]); try done.
  intros _. unfold PAGE_SIZE. divmod_lia.
Qed.

(** C12. A service address space, once built over fresh tables, is exactly
    the intended one: every 39-bit address translates as [service_view]
    says, which is the user region read-only (text executable, constants
    not), one private stack page, and the kernel sections and devices
    identity-mapped without user access (the kernel runs its handlers in the
    address space of the interrupted task).  So nothing a user can reach is both writable and
    executable, and the only frame a user can write is its own stack.  The
    root is the slot's own arena and no other slot's tables change. *)
Theorem service_space_exact l TS i entry stack uas TS' va :
  linker_ok l -> TS !! i = Some fresh_tables -> stack ∈ᵤ 56 -> va ∈ᵤ 39 ->
  build_service_address_space l TS i entry stack = Val (uas, TS') ->
  Arena.translate (space_of l TS' i) (mkVirt va) = Val (service_view l stack va) /\
  root uas = Arena.root_pa (space_of l TS' i) /\
  (forall j, j <> i -> TS' !! j = TS !! j) /\
  forall pa p, service_view l stack va = Some (pa, p) -> p_user p = true ->
    ~ (p_write p = true /\ p_execute p = true) /\
    (p_write p = true -> pa_u64 pa / PAGE_SIZE = stack / PAGE_SIZE).
Proof.
  intros L HT Hst Hva E.
  destruct (service_space_tr l TS i entry stack uas TS' L HT Hst E) as (a & lvl & I & B & -> & R & T).
  pose proof (lookup_lt_Some _ _ _ HT) as Hi.
  assert (space_of l (<[i := Arena.tables a]> TS) i = Arena.Mk (Arena.tables a) 1 (Arena.base_pa a))
    as -> by (unfold space_of; by rewrite list_lookup_insert_eq, B).
  split.
  { rewrite (translate_used _ 1 (Arena.used a)). destruct a. cbn [Arena.tables Arena.base_pa Arena.used].
    rewrite (translate_tr _ lvl I). cbn [va_u64]. by rewrite T. }
  split; [exact R|]. split; [intros j Hj; by rewrite list_lookup_insert_ne|].
  intros pa p. apply service_view_user. by destruct Hst.
Qed.

Definition sample_linker : Linker :=
  mkLinker 0x80200000 0x80208000 0x80208000 0x8020a000 0x80210000 0x80240000
    0x8020a000 0x8020e000 0x8020e000 0x80210000 0x80210000 0x80220000.

Definition sample_build : outcome (UserAddressSpace * list (list Table)) :=
  build_service_address_space sample_linker (replicate 16 fresh_tables) 3 0x8020a100 0x80230000.

Definition sample_check : bool :=
  match sample_build with
  | Val (u, _) => Z.eqb (entry_va u) 0x10100 && Z.eqb (stack_top_va u) 0x201000
  | Panic => false
  end.
Lemma sample_build_ok : sample_check = true.
Proof. vm_compute. reflexivity. Qed.

Lemma sample_linker_ok : linker_ok sample_linker.
Proof.
  split; [|vm_compute; repeat split; congruence].
  repeat (constructor; [vm_compute; repeat split; congruence|]). constructor.
Qed.

Lemma service_space_exact_witness :
  exists uas TS', sample_build = Val (uas, TS') /\
    entry_va uas = 0x10100 /\ stack_top_va uas = 0x201000 /\
    Arena.translate (space_of sample_linker TS' 3) (mkVirt 0x200008)
      = Val (Some (mkPhys 0x80230008, user_rw)).
Proof.
  pose proof sample_build_ok as Hok. unfold sample_check in Hok.
  destruct sample_build as [[uas TS']|] eqn:E; [|discriminate Hok].
  apply andb_true_iff in Hok as [H1%Z.eqb_eq H2%Z.eqb_eq].
  exists uas, TS'. split; [reflexivity|]. split; [exact H1|]. split; [exact H2|].
  destruct (service_space_exact sample_linker (replicate 16 fresh_tables) 3 0x8020a100 0x80230000 uas TS'
    0x200008 sample_linker_ok eq_refl) as [H _].
  - vm_compute. split; congruence.
  - vm_compute. split; congruence.
  - exact E.
  - rewrite H. vm_compute. reflexivity.
Defined.
