(* ===== verification/Capacity.v ===== *)
(** * The tables suffice

    Every address space is built in an arena of sixteen tables, and a call
    that runs out of them is a panic at boot.  This file shows that it cannot
    happen: a mapping needs at most one table per gigabyte and one per two
    megabytes it touches, and the sections the linker script places touch few
    enough.  So the address spaces of [PagingHw] can always be built. *)

From stdpp Require Import base decidable numbers option tactics list.
From S2P Require Import Prelude Memory PageTable Sv39 Paging PagingHw.
Local Open Scope Z_scope.

Module Fit.
Import ArenaInv.

(** ** Counting missing tables *)

Lemma filter_fewer {A} (P Q : A -> Prop) {dP : forall x, Decision (P x)} {dQ : forall x, Decision (Q x)} l :
  (forall x, Q x -> P x) -> (length (filter Q l) <= length (filter P l))%nat.
Proof.
  intros H. induction l as [|x l IH]; [done|]. rewrite !filter_cons. destruct (decide (Q x)) as [q|q].
  - rewrite decide_True by auto. cbn. lia.
  - case_decide; cbn; lia.
Qed.
Lemma filter_less {A} (P Q : A -> Prop) {dP : forall x, Decision (P x)} {dQ : forall x, Decision (Q x)} l x :
  (forall x, Q x -> P x) -> x ∈ l -> P x -> ~ Q x -> (S (length (filter Q l)) <= length (filter P l))%nat.
Proof.
  intros H Hx Px Nx. induction l as [|y l IH]; [by apply elem_of_nil in Hx|]. rewrite !filter_cons.
  apply elem_of_cons in Hx as [<- |Hx].
  - rewrite (decide_True (P := P x)), (decide_False (P := Q x)) by done. cbn. pose proof (filter_fewer P Q l H). lia.
  - specialize (IH Hx). destruct (decide (Q y)) as [q|q]; [rewrite (decide_True (P := P y)) by auto; cbn; lia|case_decide; cbn; lia].
Qed.

Section room.
(** The gigabytes and, within them, the blocks of two megabytes that are
    going to be touched. *)
Context (gigs : list nat) (blocks : list (nat * nat)).

Definition no_gig (a : Arena.t) (g : nat) : Prop := next a 0 g = None.
Definition no_block (a : Arena.t) (b : nat * nat) : Prop := (t ← next a 0 b.1; next a t b.2) = None.
#[export] Instance no_gig_dec a g : Decision (no_gig a g).
Proof. unfold no_gig. apply _. Defined.
#[export] Instance no_block_dec a b : Decision (no_block a b).
Proof. unfold no_block. apply _. Defined.

Definition missing (a : Arena.t) : nat := length (filter (no_gig a) gigs) + length (filter (no_block a) blocks).
(** The free tables are enough for all that is missing. *)
Definition room (a : Arena.t) : Prop := (Arena.used a + missing a <= length (Arena.tables a))%nat.

(** The links of [a] are links of [b]. *)
Definition keeps (a b : Arena.t) : Prop :=
  forall g t, next a 0 g = Some t -> next b 0 g = Some t /\ forall m t', next a t m = Some t' -> next b t m = Some t'.

Lemma keeps_no_gig a b g : keeps a b -> no_gig b g -> no_gig a g.
Proof. intros K N. unfold no_gig in *. destruct (next a 0 g) as [t|] eqn:E; [|done]. destruct (K g t E). congruence. Qed.
Lemma keeps_no_block a b x : keeps a b -> no_block b x -> no_block a x.
Proof.
  intros K. unfold no_block. destruct (next a 0 x.1) as [t|] eqn:E; [|done]. destruct (K _ t E) as [-> H]. cbn.
  intros N. destruct (next a t x.2) as [t'|] eqn:E'; [|done]. by rewrite (H _ t' E') in N.
Qed.
Lemma keeps_missing a b : keeps a b -> (missing b <= missing a)%nat.
Proof.
  intros K. unfold missing.
  pose proof (filter_fewer (no_gig a) (no_gig b) gigs (fun g => keeps_no_gig a b g K)).
  pose proof (filter_fewer (no_block a) (no_block b) blocks (fun x => keeps_no_block a b x K)). lia.
Qed.
Lemma keeps_gig a b g : keeps a b -> g ∈ gigs -> no_gig a g -> ~ no_gig b g -> (S (missing b) <= missing a)%nat.
Proof.
  intros K Hg Na Nb. unfold missing.
  pose proof (filter_less (no_gig a) (no_gig b) gigs g (fun g => keeps_no_gig a b g K) Hg Na Nb).
  pose proof (filter_fewer (no_block a) (no_block b) blocks (fun x => keeps_no_block a b x K)). lia.
Qed.
Lemma keeps_block a b x : keeps a b -> x ∈ blocks -> no_block a x -> ~ no_block b x -> (S (missing b) <= missing a)%nat.
Proof.
  intros K Hx Na Nb. unfold missing.
  pose proof (filter_fewer (no_gig a) (no_gig b) gigs (fun g => keeps_no_gig a b g K)).
  pose proof (filter_less (no_block a) (no_block b) blocks x (fun x => keeps_no_block a b x K) Hx Na Nb). lia.
Qed.

(** ** One page *)

(** The page at [va] touches what was planned for. *)
Definition spot (va : Z) : Prop := vpn va 2 ∈ gigs /\ (vpn va 2, vpn va 1) ∈ blocks.

Lemma keeps_old a b lvl : inv a lvl ->
  (forall tb i m, (tb < Arena.used a)%nat -> next a tb i = Some m -> next b tb i = Some m) -> keeps a b.
Proof.
  intros I P g t E. pose proof (root_used a lvl I) as H0. split; [by apply P|]. intros m t' E'. apply P; [|done].
  destruct (next_cases a lvl I 0 g 1 H0 (i_root _ _ I)) as [[_ ?]|(t1 & ? & ? & _ & _)]; congruence.
Qed.

(** A missing entry the plan has: linking it takes one table and makes one
    fewer missing. *)
Definition planned (a : Arena.t) (cur i : nat) : Prop := next a cur i = None ->
  (0 < missing a)%nat /\ forall b, keeps a b -> next b cur i <> None -> (S (missing b) <= missing a)%nat.

Lemma planned_gig a g : g ∈ gigs -> planned a 0 g.
Proof.
  intros Hg N. split; [|by intros b K Nb; apply (keeps_gig a b g)].
  pose proof (filter_less (no_gig a) (fun _ => False) gigs g ltac:(done) Hg N ltac:(auto)). unfold missing. lia.
Qed.
Lemma planned_block a g t m : next a 0 g = Some t -> (g, m) ∈ blocks -> planned a t m.
Proof.
  intros E Hb N. assert (no_block a (g, m)) as Na by (unfold no_block; cbn; by rewrite E). split.
  - pose proof (filter_less (no_block a) (fun _ => False) blocks _ ltac:(done) Hb Na ltac:(auto)). unfold missing. lia.
  - intros b K Nb. apply (keeps_block a b (g, m)); try done. unfold no_block. cbn. by destruct (K _ _ E) as [-> _].
Qed.

Lemma descend_room a lvl va cur l level levels : inv a lvl -> (cur < Arena.used a)%nat -> lvl cur = S l -> room a ->
  planned a cur (vpn va level) -> exists b lvl' n,
  Arena.descend a va cur (level :: levels) = Arena.descend b va n levels /\ inv b lvl' /\ (n < Arena.used b)%nat /\ lvl' n = l /\
  next b cur (vpn va level) = Some n /\ (forall va', tr b va' = tr a va') /\ room b /\ keeps a b.
Proof.
  intros I Hc Hl Hr Hpl. unfold room in *.
  destruct (descend_step a lvl va cur l level levels I Hc Hl)
    as [(_ & N & Hfull)|(b & lvl' & n & E & I' & Hn & L' & N & T & U & [B Ln] & P)]; [destruct (Hpl N); lia|].
  exists b, lvl', n. assert (keeps a b) as K by (by eapply keeps_old). split_and!; try done.
  rewrite U, Ln. destruct (next a cur (vpn va level)) eqn:E'; [pose proof (keeps_missing a b K); lia|].
  destruct (Hpl E') as [_ H]. specialize (H b K ltac:(congruence)). lia.
Qed.

(** Writing a leaf changes no link. *)
Lemma leaf_keeps a b lvl t0 i v : inv a lvl -> lvl t0 = 0%nat -> Arena.base_pa b = Arena.base_pa a ->
  (forall t' i', entry b t' i' = if decide (t' = t0 /\ i' = i) then v else entry a t' i') -> keeps a b.
Proof.
  intros I L0 Hb He.
  assert (forall tb i l, lvl tb = S l -> next b tb i = next a tb i) as Hs.
  { intros tb j l Hl. apply next_entry; [done|]. rewrite He, decide_False; [done|]. intros [-> _]. congruence. }
  intros g t E. rewrite (Hs _ _ _ (i_root _ _ I)). split; [done|]. intros m t' E'.
  destruct (next_cases a lvl I 0 g 1 (root_used _ _ I) (i_root _ _ I)) as [[_ ?]|(x & ? & ? & Hx & _)]; [congruence|].
  assert (x = t) as -> by congruence. by rewrite (Hs _ _ _ Hx).
Qed.

Lemma map_page_room a lvl va pa p : inv a lvl -> room a -> spot va ->
  va mod PAGE_SIZE = 0 -> pa mod PAGE_SIZE = 0 -> pa ∈ᵤ 56 -> pte_allowed p = true -> tr a va = None ->
  exists b, Arena.map_page a (mkVirt va) (mkPhys pa) p = Val (b, Ok tt) /\ room b.
Proof.
  intros I Hr [Hg Hb] Hva Hpa Hu Hp Hn.
  assert (va_is_page_aligned (mkVirt va) = true) as Ava by (by apply is_page_aligned_iff).
  assert (pa_is_page_aligned (mkPhys pa) = true) as Apa by (by apply is_page_aligned_iff).
  unfold Arena.map_page. rewrite Ava, Apa. cbn [negb orb].
  destruct (leaf_ok (mkPhys pa) p Apa Hu) as [(_ & e & -> & Hle & _)|[? _]]; [|congruence]. cbn [va_u64].
  destruct (descend_room a lvl va 0 1 2 [1%nat] I (root_used a lvl I) (i_root _ _ I) Hr (planned_gig _ _ Hg))
    as (a1 & lvl1 & t1 & -> & I1 & H1 & L1 & N1 & T1 & R1 & _).
  destruct (descend_room a1 lvl1 va t1 0 1 [] I1 H1 L1 R1 (planned_block _ _ _ _ N1 Hb))
    as (a2 & lvl2 & t0 & -> & I2 & H0 & L0 & N0 & T0 & R2 & K2).
  cbn [Arena.descend]. ostep. rewrite (get_entry_ok a2 lvl2 I2) by (done || apply vpn_lt). ostep.
  destruct (i_leaf _ _ I2 t0 (vpn va 0) H0 L0) as [E0|E0].
  2: { exfalso. rewrite <- T1, <- T0 in Hn. revert Hn. unfold tr. rewrite (proj1 (K2 _ _ N1)). cbn. rewrite N0. cbn.
       unfold leaf_at. by rewrite E0. }
  rewrite E0. change (Pte.is_valid (Pte.from_bits 0)) with false. ostep.
  destruct (put_entry_ok a2 t0 (vpn va 0) (Pte.bits e) (i_len _ _ I2))
    as (b & Ep & Hub & Hbb & Hlb & Hlen & Heb); [pose proof (i_used _ _ I2); lia|apply vpn_lt|].
  rewrite Ep. ostep. exists b. split; [done|].
  pose proof (keeps_missing a2 b (leaf_keeps _ _ _ _ _ _ I2 L0 Hbb Heb)). unfold room in *. rewrite Hub, Hlb. lia.
Qed.

(** ** Ranges *)

(** Free addresses the plan has. *)
Definition open (a : Arena.t) (start end_ : Z) : Prop := forall va, in_span va start end_ -> spot va /\ tr a va = None.

Lemma map_one_room a lvl va pa p : inv a lvl -> room a -> va ∈ᵤ 39 -> va mod PAGE_SIZE = 0 -> pa mod PAGE_SIZE = 0 ->
  pa ∈ᵤ 56 -> pte_allowed p = true -> open a va (va + 0x1000) ->
  exists b, map_one a va pa p = Val b /\ room b.
Proof.
  intros I Hr Hu Hva Hpa Hpu Hp Ho. destruct (Ho va) as [Hs Hn]; [unfold in_span; lia|].
  destruct (map_page_room a lvl va pa p) as (b & E & Hb); try done. exists b. unfold map_one. rewrite E. by ostep.
Qed.

Lemma map_pages_room n a lvl va pa p : inv a lvl -> room a -> 0 <= va -> va + Z.of_nat n * 0x1000 <= 2 ^ 39 ->
  0 <= pa -> pa + Z.of_nat n * 0x1000 <= 2 ^ 56 -> va mod PAGE_SIZE = 0 -> pa mod PAGE_SIZE = 0 ->
  pte_allowed p = true -> open a va (va + Z.of_nat n * 0x1000) ->
  exists b, map_pages a va pa n p = Val b /\ room b.
Proof.
  intros I Hr H0 H1 H2 H3 Hva Hpa Hp. unfold map_pages. induction n as [|n IH]; intros Ho; [by exists a|].
  destruct IH as (c & Ec & Hc); [lia|lia|intros x Hx; apply Ho; unfold in_span in *; lia|].
  assert (map_pages a va pa n p = Val c) as Em by done.
  apply (map_pages_tr n a lvl) in Em as (lvl1 & I1 & _ & T); [|done|lia..|done].
  rewrite seq_S, for_m_app, Nat.add_0_l. ostep. rewrite Ec. ostep. cbn [for_m].
  destruct (map_one_room c lvl1 (va + Z.of_nat n * 0x1000) (pa + Z.of_nat n * 0x1000) p) as (b & -> & Hb); try done.
  - unfold uint. lia.
  - unfold PAGE_SIZE in *. divmod_lia.
  - unfold PAGE_SIZE in *. divmod_lia.
  - unfold uint. lia.
  - intros x Hx. unfold in_span in *. destruct (Ho x) as [Hs Hn]; [unfold in_span; lia|]. split; [done|].
    rewrite T by (unfold uint; lia). by rewrite decide_False by (unfold in_span; lia).
  - exists b. by ostep.
Qed.

Lemma identity_loop_room fuel a lvl addr end_ p : inv a lvl -> room a -> 0 <= addr -> addr mod PAGE_SIZE = 0 ->
  end_ mod PAGE_SIZE = 0 -> end_ <= 2 ^ 39 -> (0 < fuel)%nat -> (addr < end_ -> (end_ - addr) / PAGE_SIZE + 1 < Z.of_nat fuel) ->
  pte_allowed p = true -> open a addr end_ -> exists b, Arena.identity_loop fuel a addr end_ p = Val (b, Ok tt) /\ room b.
Proof.
  revert a lvl addr. induction fuel as [|fuel IH]; intros a lvl addr I Hr H0 Hm Hem He Hf0 Hf Hp Ho; [lia|].
  cbn [Arena.identity_loop]. destruct (addr <? end_) eqn:El; bool_facts; [|by exists a].
  assert (0 <= addr < 2 ^ 39) as Hu by lia.
  destruct (Ho addr) as [Hs Hn]; [unfold in_span; lia|].
  destruct (map_page_room a lvl addr addr p I Hr Hs Hm Hm ltac:(unfold uint; lia) Hp Hn) as (b & E & Hb).
  rewrite E. ostep.
  destruct (map_page_tr a lvl (mkVirt addr) (mkPhys addr) p I) as (b' & lvl' & r & E' & I' & _ & _ & H); [unfold uint; cbn; lia|].
  rewrite E in E'. injection E' as <- <-. destruct H as (_ & _ & _ & _ & H).
  apply (IH b lvl'); try done; [unfold PAGE_SIZE in *; lia|by rewrite Z.add_mod, Hm by done|unfold PAGE_SIZE in *; divmod_lia..|].
  intros x Hx. destruct (Ho x) as [Hsx Hnx]; [unfold in_span, PAGE_SIZE in *; lia|]. split; [done|]. cbn [va_u64] in H.
  rewrite H, decide_False; [done|]. intros Hv. apply same_vpns_page in Hv; [|done|unfold uint, in_span, PAGE_SIZE in *; lia].
  unfold in_span, PAGE_SIZE in *. divmod_lia.
Qed.

Lemma map_range_room a lvl start end_ p : inv a lvl -> room a -> 0 <= start -> start mod PAGE_SIZE = 0 ->
  end_ mod PAGE_SIZE = 0 -> end_ <= 2 ^ 39 -> pte_allowed p = true -> open a start end_ ->
  exists b, map_range a start end_ p = Val b /\ room b.
Proof.
  intros I Hr H0 Hm Hem He Hp Ho. unfold map_range, Arena.identity_map_range.
  destruct (identity_loop_room (2 + Z.to_nat ((end_ - start) / PAGE_SIZE)) a lvl start end_ p) as (b & -> & Hb); try done;
    [clear; lia|clear; unfold PAGE_SIZE; intros; divmod_lia|]. exists b. by ostep.
Qed.

End room.

(** ** The sections of the kernel image *)

(** What the linker script says of the sections, and two limits: the image
    ends within 20 MiB of its base, and the user region fits below the user
    stack. *)
Definition KERNEL_BASE : Z := 0x80200000.
Definition IMAGE_LIMIT : Z := 20 * 0x100000.
Record linker_fits (l : Linker) : Prop := {
  lf_ok : linker_ok l;
  lf_kernel : KERNEL_BASE <= __text_start l <= __text_end l /\ __text_end l <= __rodata_start l <= __rodata_end l /\
    __rodata_end l <= __user_text_start l /\ __user_rodata_end l <= __data_start l <= __data_end l /\
    __data_end l <= KERNEL_BASE + IMAGE_LIMIT;
  lf_user : __user_rodata_end l - __user_text_start l <= USER_STACK_VA - USER_CODE_VA;
  lf_tables : KERNEL_TABLES_addr l mod PAGE_SIZE = 0 /\ 0 <= KERNEL_TABLES_addr l <= 2 ^ 38
}.

(** Devices and user pages lie in the first gigabyte, the kernel in the
    third. *)
Definition image_gigs : list nat := [0; 2]%nat.
Definition image_blocks : list (nat * nat) := [(0, 0); (0, 1); (0, 128)]%nat ++ map (pair 2%nat) (seq 1 10).

Lemma vpn_div va n : vpn va n = Z.to_nat (va / 2 ^ (12 + Z.of_nat n * 9) mod 512).
Proof. unfold vpn. change 0x1ff with (Z.ones 9). by rewrite Z.land_ones, Z.shiftr_div_pow2 by lia. Qed.

Abbreviation planned_spot := (spot image_gigs image_blocks).
Abbreviation has_room := (room image_gigs image_blocks).
Abbreviation is_open := (open image_gigs image_blocks).

Lemma spot_at va g m : vpn va 2 = g -> vpn va 1 = m -> g ∈ image_gigs -> (g, m) ∈ image_blocks -> planned_spot va.
Proof. unfold spot. by intros -> ->. Qed.

Lemma user_spot va : 0 <= va < 0x400000 -> planned_spot va.
Proof.
  intros H. assert (vpn va 2 = 0%nat) as H2 by (rewrite vpn_div; change (2 ^ (12 + Z.of_nat 2 * 9)) with 1073741824; divmod_lia).
  assert (vpn va 1 = 0%nat \/ vpn va 1 = 1%nat) as [H1|H1]
    by (rewrite vpn_div; change (2 ^ (12 + Z.of_nat 1 * 9)) with 2097152; divmod_lia);
    by apply (spot_at va _ _ H2 H1); repeat constructor.
Qed.
Lemma device_spot va : UART_PAGE <= va < UART_PAGE + 0x2000 -> planned_spot va.
Proof.
  unfold UART_PAGE. intros H.
  assert (vpn va 2 = 0%nat) as H2 by (rewrite vpn_div; change (2 ^ (12 + Z.of_nat 2 * 9)) with 1073741824; divmod_lia).
  assert (vpn va 1 = 128%nat) as H1 by (rewrite vpn_div; change (2 ^ (12 + Z.of_nat 1 * 9)) with 2097152; divmod_lia).
  by apply (spot_at va _ _ H2 H1); repeat constructor.
Qed.
Lemma kernel_spot va : KERNEL_BASE <= va < KERNEL_BASE + IMAGE_LIMIT -> planned_spot va.
Proof.
  unfold KERNEL_BASE, IMAGE_LIMIT. intros H.
  assert (vpn va 2 = 2%nat) as H2 by (rewrite vpn_div; change (2 ^ (12 + Z.of_nat 2 * 9)) with 1073741824; divmod_lia).
  assert (1 <= vpn va 1 < 11)%nat as H1 by (rewrite vpn_div; change (2 ^ (12 + Z.of_nat 1 * 9)) with 2097152; divmod_lia).
  apply (spot_at va _ _ H2 eq_refl); [repeat constructor|]. apply elem_of_app. right.
  apply list_elem_of_fmap_2. apply elem_of_seq. lia.
Qed.

Lemma fresh_room b : has_room (Arena.new fresh_tables b).
Proof.
  unfold room, missing. cbn [Arena.new Arena.used Arena.tables]. unfold fresh_tables. rewrite length_replicate.
  pose proof (filter_fewer (fun _ => True) (no_gig (Arena.new (replicate ARENA_TABLES Table_zeroed) b)) image_gigs ltac:(done)) as H1.
  pose proof (filter_fewer (fun _ => True) (no_block (Arena.new (replicate ARENA_TABLES Table_zeroed) b)) image_blocks ltac:(done)) as H2.
  change (length (filter (fun _ => True) image_gigs)) with 2%nat in H1.
  change (length (filter (fun _ => True) image_blocks)) with 13%nat in H2.
  apply Nat.le_trans with 16%nat; [lia|done].
Qed.

(** An arena in which exactly the addresses of [v] are mapped. *)
Definition holds_view (v : Z -> Prop) (a : Arena.t) : Prop :=
  (exists lvl, inv a lvl) /\ has_room a /\ forall va, va ∈ᵤ 39 -> ~ v va -> tr a va = None.

Lemma range_fits v a start end_ p : holds_view v a -> 0 <= start -> start mod PAGE_SIZE = 0 -> end_ mod PAGE_SIZE = 0 ->
  end_ <= 2 ^ 39 -> pte_allowed p = true -> (forall va, in_span va start end_ -> planned_spot va /\ ~ v va) ->
  exists b, map_range a start end_ p = Val b /\ holds_view (fun va => v va \/ in_span va start end_) b.
Proof.
  intros ([lvl I] & Hr & T) H0 Hs He Hl Hp Ho.
  destruct (map_range_room image_gigs image_blocks a lvl start end_ p) as (b & E & Hb); try done.
  { intros va Hva. destruct (Ho va Hva). split; [done|]. apply T; [|done]. unfold uint, in_span in *. lia. }
  exists b. split; [done|]. apply (map_range_tr a lvl) in E as (lvl' & I' & _ & T'); try done. split; [by exists lvl'|].
  split; [done|]. intros va Hva Hn. rewrite T', decide_False by tauto. apply T; tauto.
Qed.
Lemma pages_fit v a va0 pa n p : holds_view v a -> 0 <= va0 -> va0 + Z.of_nat n * 0x1000 <= 2 ^ 39 -> 0 <= pa ->
  pa + Z.of_nat n * 0x1000 <= 2 ^ 56 -> va0 mod PAGE_SIZE = 0 -> pa mod PAGE_SIZE = 0 -> pte_allowed p = true ->
  (forall va, in_span va va0 (va0 + Z.of_nat n * 0x1000) -> planned_spot va /\ ~ v va) ->
  exists b, map_pages a va0 pa n p = Val b /\ holds_view (fun va => v va \/ in_span va va0 (va0 + Z.of_nat n * 0x1000)) b.
Proof.
  intros ([lvl I] & Hr & T) H0 H1 H2 H3 Hva Hpa Hp Ho.
  destruct (map_pages_room image_gigs image_blocks n a lvl va0 pa p) as (b & E & Hb); try done.
  { intros va Hs. destruct (Ho va Hs). split; [done|]. apply T; [|done]. unfold uint, in_span in *. lia. }
  exists b. split; [done|]. apply (map_pages_tr n a lvl) in E as (lvl' & I' & _ & T'); try done. split; [by exists lvl'|].
  split; [done|]. intros va Hu Hn. rewrite T', decide_False by tauto. apply T; tauto.
Qed.

Lemma new_view b : 0 <= b -> b mod PAGE_SIZE = 0 -> b + Z.of_nat ARENA_TABLES * PAGE_SIZE <= 2 ^ 56 ->
  holds_view (fun _ => False) (Arena.new fresh_tables b).
Proof.
  intros H0 Hm Hr. destruct (new_inv ARENA_TABLES b) as [I T]; [unfold ARENA_TABLES; lia|done..|].
  split; [by eexists|]. split; [apply fresh_room|]. auto.
Qed.
Lemma holds_view_wider (v w : Z -> Prop) a : holds_view v a -> (forall va, v va -> w va) -> holds_view w a.
Proof. intros (I & R & T) H. split; [done|]. split; [done|]. intros va Hu N. apply T; [done|]. auto. Qed.

(** Side conditions on the sections. *)
Ltac sections L :=
  match goal with
  | |- _ mod PAGE_SIZE = 0 => by linked (lf_ok _ L)
  | |- pte_allowed _ = true => reflexivity
  | _ => pose proof (lf_kernel _ L); unfold KERNEL_BASE, IMAGE_LIMIT in *; change (2 ^ 39) with 549755813888; lia
  end.

Definition kernel_span (l : Linker) (va : Z) : Prop :=
  KERNEL_BASE <= va < KERNEL_BASE + IMAGE_LIMIT \/ in_span va UART_PAGE (UART_PAGE + 0x2000).

Lemma kernel_fits l a : linker_fits l -> holds_view (fun _ => False) a ->
  exists b, map_kernel_regions a (kernel_regions l) = Val b /\ holds_view (kernel_span l) b.
Proof.
  intros L H. unfold map_kernel_regions, kernel_regions. cbn [r_text r_rodata r_data fst snd].
  pose proof (lf_kernel _ L) as K. pose proof (lk_user _ (lf_ok _ L)) as U.
  destruct (range_fits _ a (__text_start l) (__text_end l) krx H) as (a1 & -> & H1); [sections L..| |ostep].
  { intros va Hv. split; [|auto]. apply kernel_spot. unfold in_span in Hv. sections L. }
  assert (exists b, (if __rodata_start l <? __rodata_end l then map_range a1 (__rodata_start l) (__rodata_end l) kr_only
                     else mret a1) = Val b /\
    holds_view (fun va => (False \/ in_span va (__text_start l) (__text_end l)) \/ in_span va (__rodata_start l) (__rodata_end l)) b)
    as (a2 & -> & H2).
  { destruct (__rodata_start l <? __rodata_end l).
    - apply range_fits; [done|sections L..|]. intros va Hv. unfold in_span in *. split; [|lia]. apply kernel_spot. sections L.
    - exists a1. split; [done|]. eapply holds_view_wider; [exact H1|]. intros va Hv. by left. }
  ostep. destruct (range_fits _ a2 (__data_start l) (__data_end l) kernel_rw H2) as (a3 & -> & H3); [sections L..| |ostep].
  { intros va Hv. unfold in_span in *. split; [|lia]. apply kernel_spot. sections L. }
  destruct (range_fits _ a3 UART_PAGE (UART_PAGE + 0x1000) kernel_device H3) as (a4 & -> & H4); [done..| |ostep].
  { intros va Hv. unfold in_span, KERNEL_BASE, UART_PAGE in *. split; [|lia]. apply device_spot. unfold UART_PAGE. lia. }
  destruct (range_fits _ a4 VIRTIO_MMIO0_PAGE (VIRTIO_MMIO0_PAGE + 0x1000) kernel_device H4) as (a5 & -> & H5); [done..| |].
  { intros va Hv. unfold in_span, KERNEL_BASE, UART_PAGE, VIRTIO_MMIO0_PAGE in *. split; [|lia]. apply device_spot. unfold UART_PAGE. lia. }
  exists a5. split; [done|]. eapply holds_view_wider; [exact H5|]. unfold kernel_span, in_span, UART_PAGE, VIRTIO_MMIO0_PAGE.
  intros va Hv. unfold KERNEL_BASE, IMAGE_LIMIT in *. lia.
Qed.

(** The user pages after the kernel's. *)
Lemma user_fits l v a va0 pa n p : holds_view v a -> (forall va, v va -> kernel_span l va \/ 0 <= va < va0) -> 0 <= va0 ->
  va0 + Z.of_nat n * 0x1000 <= 0x400000 -> 0 <= pa -> pa + Z.of_nat n * 0x1000 <= 2 ^ 56 -> va0 mod PAGE_SIZE = 0 ->
  pa mod PAGE_SIZE = 0 -> pte_allowed p = true ->
  exists b, map_pages a va0 pa n p = Val b /\ holds_view (fun va => v va \/ in_span va va0 (va0 + Z.of_nat n * 0x1000)) b.
Proof.
  intros H Hv H0 H1 H2 H3 Hm Hp Ha. apply pages_fit; try done; [change (2 ^ 39) with 549755813888; lia|].
  intros va Hs. unfold in_span in Hs. split; [apply user_spot; lia|]. intros [[Hk|Hk]|Hk]%Hv; unfold in_span, KERNEL_BASE, UART_PAGE in *; lia.
Qed.

Section fit.
Context (l : Linker) (L : linker_fits l).

Lemma arena_view i : (i < MAX_USER_AS)%nat -> exists a,
  map_kernel_regions (Arena.new fresh_tables (arena_base l i)) (kernel_regions l) = Val a /\ holds_view (kernel_span l) a.
Proof.
  intros Hi. destruct (arena_base_ok l i (lf_ok _ L) Hi) as (B0 & Bm & Bl). apply kernel_fits; [done|]. by apply new_view.
Qed.

Lemma kernel_paging_fits : exists r, enable_kernel_paging l fresh_tables = Val r.
Proof.
  unfold enable_kernel_paging. destruct (lf_tables _ L) as (Hm & H0 & H1).
  destruct (kernel_fits l (Arena.new fresh_tables (KERNEL_TABLES_addr l)) L) as (a & -> & _); [|ostep; by eexists].
  apply new_view; [done..|]. unfold ARENA_TABLES, PAGE_SIZE. change (2 ^ 38) with 274877906944 in H1.
  change (2 ^ 56) with 72057594037927936. lia.
Qed.

Lemma page_base x : x ∈ᵤ 55 -> x .& bitnot 64 0xfff = x / PAGE_SIZE * PAGE_SIZE /\ 0 <= x / PAGE_SIZE * PAGE_SIZE /\
  x / PAGE_SIZE * PAGE_SIZE + 0x2000 <= 2 ^ 56 /\ (x / PAGE_SIZE * PAGE_SIZE) mod PAGE_SIZE = 0.
Proof.
  unfold uint. change (2 ^ 55) with 36028797018963968. intros H. split.
  - apply mask_page. unfold uint. change (2 ^ 64) with 18446744073709551616. lia.
  - unfold PAGE_SIZE. change (2 ^ 56) with 72057594037927936. split; [divmod_lia|]. split; [divmod_lia|]. by rewrite Z.mod_mul.
Qed.

Lemma user_space_fits TS i code stack : TS !! i = Some fresh_tables -> (i < MAX_USER_AS)%nat -> code ∈ᵤ 55 -> stack ∈ᵤ 55 ->
  exists r, build_user_address_space l TS i code stack = Val r.
Proof.
  intros HT Hi (Ec & C0 & C1 & C2)%page_base (Es & S0 & S1 & S2)%page_base. unfold build_user_address_space.
  rewrite decide_True by done. rewrite (arr_get_lookup _ _ _ HT). ostep. destruct (arena_view i Hi) as (a & -> & Ha). ostep.
  rewrite Ec, Es.
  destruct (user_fits l _ a USER_CODE_VA (code / PAGE_SIZE * PAGE_SIZE) 2 urx Ha (fun _ H => or_introl H))
    as (a1 & -> & H1); [done..|].
  ostep. destruct (user_fits l _ a1 USER_STACK_VA (stack / PAGE_SIZE * PAGE_SIZE) USER_STACK_PAGES user_rw H1)
    as (a2 & -> & _); try done; [|unfold USER_STACK_PAGES; lia|].
  { intros va [Hk|Hk]; [by left|right]. unfold in_span, USER_STACK_VA, USER_CODE_VA in *. lia. }
  ostep. rewrite arr_set_lt by (by eapply lookup_lt_Some). ostep. by eexists.
Qed.

(** The user region: its two parts in pages, and where it lies. *)
Record user_region (n1 n2 : nat) : Prop := {
  ur_text : Z.of_nat n1 * 0x1000 = __user_text_end l - __user_text_start l;
  ur_rodata : Z.of_nat n2 * 0x1000 = __user_rodata_end l - __user_text_end l;
  ur_low : KERNEL_BASE <= __user_text_start l <= __user_text_end l;
  ur_high : __user_text_end l <= __user_rodata_end l <= KERNEL_BASE + IMAGE_LIMIT;
  ur_size : __user_rodata_end l - __user_text_start l <= USER_STACK_VA - USER_CODE_VA
}.
Lemma user_region_ok : user_region (page_turns (__user_text_start l) (__user_text_end l))
  (page_turns (__user_text_end l) (__user_rodata_end l)).
Proof.
  pose proof (lk_user _ (lf_ok _ L)) as (U1 & U2 & U3). pose proof (lf_kernel _ L) as K. rewrite <- U2 in U3.
  split; [apply page_turns_span; [by linked (lf_ok _ L)..|done]|apply page_turns_span; [by linked (lf_ok _ L)..|done]
         |lia|lia|exact (lf_user _ L)].
Qed.
Lemma user_rodata_aligned : (USER_CODE_VA + (__user_text_end l - __user_text_start l)) mod PAGE_SIZE = 0.
Proof.
  assert (__user_text_start l mod PAGE_SIZE = 0) as M1 by linked (lf_ok _ L).
  assert (__user_text_end l mod PAGE_SIZE = 0) as M2 by linked (lf_ok _ L).
  unfold USER_CODE_VA, PAGE_SIZE in *. clear L. divmod_lia.
Qed.

(** Text, constants and stack of a service, after the kernel's part. *)
Lemma service_pages_fit n1 n2 a sb : user_region n1 n2 -> holds_view (kernel_span l) a -> 0 <= sb -> sb + 0x2000 <= 2 ^ 56 ->
  sb mod PAGE_SIZE = 0 ->
  exists b, (a ← map_pages a USER_CODE_VA (__user_text_start l) n1 urx;
             a ← map_pages a (USER_CODE_VA + (__user_text_end l - __user_text_start l)) (__user_text_end l) n2 uro;
             map_one a USER_STACK_VA sb user_rw) = Val b.
Proof.
  intros [T1 T2 R1 R2 R3] Ha S0 S1 S2.
  assert (forall x, x <= KERNEL_BASE + IMAGE_LIMIT -> x <= 2 ^ 56) as Hbig.
  { clear. unfold KERNEL_BASE, IMAGE_LIMIT. change (2 ^ 56) with 72057594037927936. lia. }
  assert (0 <= KERNEL_BASE) as Hk0 by done. unfold USER_STACK_VA, USER_CODE_VA in R3.
  destruct (user_fits l _ a USER_CODE_VA (__user_text_start l) n1 urx Ha (fun _ H => or_introl H)) as (a1 & -> & H1).
  1-7: rewrite ?T1; first [reflexivity|by linked (lf_ok _ L)|apply Hbig; lia|unfold USER_CODE_VA; lia].
  ostep. destruct (user_fits l _ a1 (USER_CODE_VA + (__user_text_end l - __user_text_start l)) (__user_text_end l) n2 uro H1)
    as (a2 & -> & H2).
  1: { intros va [Hk|Hk]; [by left|right]. unfold in_span, USER_CODE_VA in *. rewrite T1 in Hk. lia. }
  1-7: rewrite ?T2; first [reflexivity|exact user_rodata_aligned|by linked (lf_ok _ L)|apply Hbig; lia|unfold USER_CODE_VA; lia].
  ostep. destruct (user_fits l _ a2 USER_STACK_VA sb 1 user_rw H2) as (a3 & E & _); [|done|done|done|lia|done..|].
  { intros va [[Hk|Hk]|Hk]; [by left|right..]; unfold in_span, USER_STACK_VA, USER_CODE_VA in *; rewrite ?T1, ?T2 in Hk; lia. }
  unfold map_pages in E. cbn [seq for_m] in E. rewrite !Z.add_0_r in E. revert E. ostep.
  destruct (map_one a2 USER_STACK_VA sb user_rw) as [a4|]; [by exists a4|done].
Qed.

Lemma service_space_fits TS i entry stack : TS !! i = Some fresh_tables -> (i < MAX_USER_AS)%nat -> stack ∈ᵤ 55 ->
  exists r, build_service_address_space l TS i entry stack = Val r.
Proof.
  intros HT Hi (Es & S0 & S1 & S2)%page_base. unfold build_service_address_space.
  rewrite decide_True by done. rewrite (arr_get_lookup _ _ _ HT). ostep. destruct (arena_view i Hi) as (a & -> & Ha). ostep.
  pose proof (lk_user _ (lf_ok _ L)) as (_ & <- & _). rewrite Es.
  destruct (service_pages_fit _ _ a _ user_region_ok Ha S0 S1 S2) as [b E]. revert E. ostep.
  destruct (map_pages a _ _ _ _) as [a1|]; [ostep|done]. destruct (map_pages a1 _ _ _ _) as [a2|]; [ostep|done].
  intros ->. ostep. rewrite arr_set_lt by (by eapply lookup_lt_Some). ostep. by eexists.
Qed.

End fit.

(** C13. Boot never runs out of tables: for every image the linker script can
    produce whose end lies within 20 MiB of its base, with a user region of
    at most 1984 KiB, the kernel's table and every user and service address
    space can be built in their arenas of sixteen tables; no mapping of them
    is refused, so none of the kernel's [expect] calls panics. *)
Theorem address_spaces_fit l : linker_fits l ->
  (exists r, enable_kernel_paging l fresh_tables = Val r) /\
  forall TS i stack, TS !! i = Some fresh_tables -> (i < MAX_USER_AS)%nat -> stack ∈ᵤ 55 ->
    (forall code, code ∈ᵤ 55 -> exists r, build_user_address_space l TS i code stack = Val r) /\
    (forall entry, exists r, build_service_address_space l TS i entry stack = Val r).
Proof.
  intros L. split; [by apply kernel_paging_fits|]. intros TS i stack HT Hi Hs.
  split; intros; [by apply user_space_fits|by apply service_space_fits].
Qed.

Lemma sample_linker_fits : linker_fits sample_linker.
Proof.
  split; [exact sample_linker_ok|..]; unfold KERNEL_BASE, IMAGE_LIMIT, USER_STACK_VA, USER_CODE_VA; cbn; [lia..|].
  split; [reflexivity|]. change (2 ^ 38) with 274877906944. lia.
Qed.

Lemma address_spaces_fit_witness :
  (exists r, enable_kernel_paging sample_linker fresh_tables = Val r) /\
  exists r, build_service_address_space sample_linker (replicate 16 fresh_tables) 5 0x8020a040 0x80235000 = Val r.
Proof.
  destruct (address_spaces_fit sample_linker sample_linker_fits) as [H1 H2]. split; [exact H1|].
  apply (H2 (replicate 16 fresh_tables) 5%nat 0x80235000).
  - reflexivity.
  - unfold MAX_USER_AS. lia.
  - vm_compute. split; congruence.
Defined.

(** The limit is exact: with one more block of two megabytes a user address
    space no longer fits. *)
Definition large_linker : Linker :=
  mkLinker 0x80200000 0x80208000 0x80208000 0x8020a000 0x80210000 0x81601000
    0x8020a000 0x8020e000 0x8020e000 0x80210000 0x80210000 0x80220000.
Lemma image_limit_tight :
  match build_user_address_space large_linker (replicate MAX_USER_AS fresh_tables) 0 0x80201000 0x80230000 with
  | Val _ => false | Panic => true end = true.
Proof. vm_compute. reflexivity. Qed.

End Fit.
