(* ===== verification/Bytes.v ===== *)
(** * Byte strings: little-endian encodings and text

    [u64::to_le_bytes], [u64::from_le_bytes] and byte string literals, used
    by the wire formats and the text protocols. *)

From stdpp Require Import strings base decidable numbers option tactics list.
From S2P Require Import Prelude.
Local Open Scope Z_scope.

(** A byte is a [Z] in [0..256). *)
Definition is_byte (b : Z) : Prop := 0 <= b < 256.
Definition bytes_ok (l : list Z) : Prop := Forall is_byte l.

Fixpoint to_le_bytes (n : nat) (x : Z) : list Z :=
  match n with
  | O => []
  | S n => x mod 256 :: to_le_bytes n (x / 256)
  end.

Fixpoint from_le_bytes (l : list Z) : Z :=
  match l with
  | [] => 0
  | b :: l => b + 256 * from_le_bytes l
  end.

(** [buf[a..b].copy_from_slice(src)]: a panic unless [a <= b <= len] and
    [src] has [b - a] bytes. *)
Definition copy_at (buf : list Z) (a b : nat) (src : list Z) : outcome (list Z) :=
  if decide (a <= b /\ b <= length buf /\ length src = b - a)%nat
  then mret (take a buf ++ src ++ drop b buf) else Panic.

(** [data[a..b]]: a panic unless [a <= b <= len]. *)
Definition slice (l : list Z) (a b : nat) : outcome (list Z) :=
  if decide (a <= b <= length l)%nat then mret (take (b - a) (drop a l)) else Panic.

(** [b"..."]: the bytes of a literal. *)
Fixpoint bstr (s : string) : list Z :=
  match s with
  | EmptyString => []
  | String c s => Z.of_N (Ascii.N_of_ascii c) :: bstr s
  end.

Lemma length_to_le_bytes n x : length (to_le_bytes n x) = n.
Proof. revert x; induction n; intros x; simpl; auto. Qed.

Lemma to_le_bytes_ok n x : bytes_ok (to_le_bytes n x).
Proof.
  revert x; induction n as [|n IH]; intros x; simpl; constructor; [|apply IH].
  apply Z.mod_pos_bound. lia.
Qed.

Lemma from_to_le_bytes n x : x ∈ᵤ (8 * Z.of_nat n) -> from_le_bytes (to_le_bytes n x) = x.
Proof.
  unfold uint. revert x; induction n as [|n IH]; intros x Hx; simpl.
  { change (8 * Z.of_nat 0) with 0 in Hx. lia. }
  rewrite IH; [rewrite Z.add_comm; symmetry; apply Z.div_mod; lia|].
  replace (8 * Z.of_nat (S n)) with (8 + 8 * Z.of_nat n) in Hx by lia.
  rewrite Z.pow_add_r in Hx by lia. change (2 ^ 8) with 256 in Hx. split.
  - apply Z.div_pos; lia.
  - apply Z.div_lt_upper_bound; lia.
Qed.

Lemma to_from_le_bytes l : bytes_ok l -> to_le_bytes (length l) (from_le_bytes l) = l.
Proof.
  induction 1 as [|b l Hb _ IH]; simpl; [done|]. unfold is_byte in Hb.
  rewrite Z.mul_comm, Z.mod_add, Z.mod_small, Z.div_add, Z.div_small, Z.add_0_l by lia.
  by rewrite IH.
Qed.

Lemma from_le_bytes_uint l : bytes_ok l -> from_le_bytes l ∈ᵤ (8 * Z.of_nat (length l)).
Proof.
  unfold uint. induction 1 as [|b l Hb _ IH]; simpl; [lia|]. unfold is_byte in Hb.
  replace (8 * Z.of_nat (S (length l))) with (8 + 8 * Z.of_nat (length l)) by lia.
  rewrite Z.pow_add_r by lia. change (2 ^ 8) with 256. nia.
Qed.

(** Writing [n] bytes of a value and reading them back truncates it. *)
Lemma le_bytes_wrap n x : from_le_bytes (to_le_bytes n x) = wrapping (8 * Z.of_nat n) x.
Proof.
  unfold wrapping. revert x; induction n as [|n IH]; intros x; simpl; [by rewrite Z.mod_1_r|].
  rewrite IH. replace (8 * Z.of_nat (S n)) with (8 + 8 * Z.of_nat n) by lia.
  rewrite Z.pow_add_r by lia. change (2 ^ 8) with 256.
  rewrite Z.rem_mul_r by lia. lia.
Qed.
Lemma u64_narrow w x : 0 <= w <= 63 -> u64_of_i64 (wrapping w x) = wrapping w x.
Proof.
  intros Hw. unfold u64_of_i64, wrapping. apply Z.mod_small.
  pose proof (Z.mod_pos_bound x (2 ^ w) (Z.pow_pos_nonneg 2 w ltac:(lia) ltac:(lia))).
  assert (2 ^ w <= 2 ^ 64) by (apply Z.pow_le_mono_r; lia). lia.
Qed.
