(* ===== verification/Ipc.v ===== *)
(** * Synchronous IPC: messages, endpoints and the rendezvous

    Models [kernel/src/ipc]: bounded copied messages, the one-slot endpoint,
    [send], [recv], [cancel] and the capability-checked entry points. *)

From stdpp Require Import base decidable numbers option tactics list.
From S2P Require Import Prelude RightsSet Thread Caps.
Local Open Scope Z_scope.

(** ** [ipc::message] *)

Definition MSG_MAX_BYTES : nat := 128.
#[global] Arguments MSG_MAX_BYTES : simpl never.

Inductive MessageError := TooLarge.

Record MessageHeader := mkHeader { h_sender : ThreadId; h_len : nat }.

Module Message.

Record t := Mk { header : MessageHeader; payload : list Z }.

(** [payload[..data.len()].copy_from_slice(data)] on a zeroed array. *)
Definition new (sender : ThreadId) (data : list Z) : result t MessageError :=
  if decide (MSG_MAX_BYTES < length data)%nat then Err TooLarge
  else Ok (Mk (mkHeader sender (length data))
              (data ++ drop (length data) (replicate MSG_MAX_BYTES 0))).

(** The slice [&payload[..len]] panics when [len] exceeds the array. *)
Definition data (self : t) : outcome (list Z) :=
  if decide (h_len (header self) <= length (payload self))%nat
  then Val (take (h_len (header self)) (payload self)) else Panic.

Definition wf (self : t) : Prop :=
  length (payload self) = MSG_MAX_BYTES /\ (h_len (header self) <= MSG_MAX_BYTES)%nat.

Lemma new_spec sender d :
  (MSG_MAX_BYTES < length d)%nat /\ new sender d = Err TooLarge \/
  (length d <= MSG_MAX_BYTES)%nat /\ exists m, new sender d = Ok m /\ wf m /\
    header m = mkHeader sender (length d) /\ data m = Val d.
Proof.
  unfold new. case_decide as H; [by left|]. right. split; [lia|]. eexists; split; [done|].
  assert (length (d ++ drop (length d) (replicate MSG_MAX_BYTES 0)) = MSG_MAX_BYTES) as Hl
    by (rewrite length_app, length_drop, length_replicate; lia).
  split; [split; simpl; [done|lia]|]. split; [done|]. unfold data; cbn [header payload h_len].
  rewrite Hl, decide_True by lia. by rewrite take_app_length.
Qed.

End Message.

(** ** [ipc::endpoint] *)

Record EndpointId := mkEndpointId { ep_u32 : Z }.

Inductive EndpointState :=
| Idle
| SenderWaiting (sender : ThreadId)
| ReceiverWaiting (receiver : ThreadId).

#[export] Instance EndpointState_eq_dec : EqDecision EndpointState.
Proof. solve_decision. Defined.

Module Endpoint.

Record t := Mk { id : EndpointId; state : EndpointState; pending : option Message.t }.

Definition new (i : EndpointId) : t := Mk i Idle None.
Definition set_state (self : t) (s : EndpointState) : t := Mk self.(id) s self.(pending).
Definition take_pending (self : t) : t * option Message.t :=
  (Mk self.(id) self.(state) None, self.(pending)).

Section debug.
(** Whether [debug_assert!] is compiled in. *)
Context (debug_assertions : bool).

Definition put_pending (self : t) (msg : Message.t) : outcome t :=
  if (debug_assertions && bool_decide (is_Some self.(pending)))%bool then Panic
  else mret (Mk self.(id) self.(state) (Some msg)).
End debug.

End Endpoint.

(** ** The rendezvous: [ipc::send], [ipc::recv], [ipc::cancel] *)

Inductive IpcError := Busy | AlreadyWaiting.
Inductive SendOutcome := SBlocked | Delivered (to : ThreadId) (msg : Message.t).
Inductive RecvOutcome := RBlocked | Received (msg : Message.t) (unblock : ThreadId).
Inductive CancelOutcome := NotWaiting | Cancelled.

Section rendezvous.
Context (debug_assertions : bool).

Definition send (ep : Endpoint.t) (sender : ThreadId) (msg : Message.t)
    : outcome (Endpoint.t * result SendOutcome IpcError) :=
  match Endpoint.state ep with
  | Idle =>
      ep ← Endpoint.put_pending debug_assertions ep msg;
      mret (Endpoint.set_state ep (SenderWaiting sender), Ok SBlocked)
  | ReceiverWaiting receiver =>
      mret (Endpoint.set_state ep Idle, Ok (Delivered receiver msg))
  | SenderWaiting s =>
      mret (ep, Err (if decide (s = sender) then AlreadyWaiting else Busy))
  end.

Definition recv (ep : Endpoint.t) (receiver : ThreadId)
    : outcome (Endpoint.t * result RecvOutcome IpcError) :=
  match Endpoint.state ep with
  | Idle => mret (Endpoint.set_state ep (ReceiverWaiting receiver), Ok RBlocked)
  | SenderWaiting sender =>
      let '(ep, taken) := Endpoint.take_pending ep in
      msg ← expect taken;
      mret (Endpoint.set_state ep Idle, Ok (Received msg sender))
  | ReceiverWaiting r =>
      mret (ep, Err (if decide (r = receiver) then AlreadyWaiting else Busy))
  end.

Definition cancel (ep : Endpoint.t) (tid : ThreadId) : Endpoint.t * CancelOutcome :=
  match Endpoint.state ep with
  | SenderWaiting sender =>
      if decide (sender = tid)
      then (Endpoint.set_state (Endpoint.take_pending ep).1 Idle, Cancelled)
      else (ep, NotWaiting)
  | ReceiverWaiting receiver =>
      if decide (receiver = tid) then (Endpoint.set_state ep Idle, Cancelled)
      else (ep, NotWaiting)
  | Idle => (ep, NotWaiting)
  end.

(** ** The capability-checked entry points *)

Inductive IpcCapError := ECap (e : CapError) | WrongEndpoint | EIpc (e : IpcError).

Definition send_checked (table : CapTable.t) (cap_index : nat) (ep : Endpoint.t)
    (sender : ThreadId) (msg : Message.t)
    : outcome (Endpoint.t * result SendOutcome IpcCapError) :=
  r ← CapTable.lookup table cap_index OEndpoint Rights.SEND;
  match r with
  | Err e => mret (ep, Err (ECap e))
  | Ok obj =>
      if negb (object_id obj =? ep_u32 (Endpoint.id ep)) then mret (ep, Err WrongEndpoint)
      else p ← send ep sender msg; mret (p.1, map_err EIpc p.2)
  end.

Definition recv_checked (table : CapTable.t) (cap_index : nat) (ep : Endpoint.t)
    (receiver : ThreadId) : outcome (Endpoint.t * result RecvOutcome IpcCapError) :=
  r ← CapTable.lookup table cap_index OEndpoint Rights.RECEIVE;
  match r with
  | Err e => mret (ep, Err (ECap e))
  | Ok obj =>
      if negb (object_id obj =? ep_u32 (Endpoint.id ep)) then mret (ep, Err WrongEndpoint)
      else p ← recv ep receiver; mret (p.1, map_err EIpc p.2)
  end.

(** ** Conservation of messages *)

(** A message is pending exactly while a sender waits. *)
Definition ep_wf (ep : Endpoint.t) : Prop :=
  match Endpoint.state ep with
  | SenderWaiting _ => is_Some (Endpoint.pending ep)
  | _ => Endpoint.pending ep = None
  end.

Inductive ipc_op :=
| ISend (sender : ThreadId) (msg : Message.t)
| IRecv (receiver : ThreadId)
| ICancel (tid : ThreadId).

(** What an operation does, seen from outside: a message accepted for
    sending, handed to a receiver, or dropped. *)
Inductive ipc_event := Accepted (m : Message.t) | Handed (m : Message.t) | Dropped (m : Message.t).

Definition ipc_step (ep : Endpoint.t) (o : ipc_op) : outcome (Endpoint.t * list ipc_event) :=
  match o with
  | ISend s m =>
      p ← send ep s m;
      mret (p.1, match p.2 with
                 | Ok SBlocked => [Accepted m]
                 | Ok (Delivered _ m') => [Accepted m; Handed m']
                 | Err _ => []
                 end)
  | IRecv r =>
      p ← recv ep r;
      mret (p.1, match p.2 with Ok (Received m _) => [Handed m] | _ => [] end)
  | ICancel t =>
      let '(ep', c) := cancel ep t in
      mret (ep', match c, Endpoint.pending ep with Cancelled, Some m => [Dropped m] | _, _ => [] end)
  end.

Fixpoint ipc_run (ep : Endpoint.t) (ops : list ipc_op) : outcome (Endpoint.t * list ipc_event) :=
  match ops with
  | [] => mret (ep, [])
  | o :: ops => p ← ipc_step ep o; q ← ipc_run p.1 ops; mret (q.1, p.2 ++ q.2)
  end.

Definition accepted (evs : list ipc_event) : list Message.t :=
  omap (fun e => match e with Accepted m => Some m | _ => None end) evs.
Definition finished (evs : list ipc_event) : list Message.t :=
  omap (fun e => match e with Handed m | Dropped m => Some m | _ => None end) evs.

Lemma ipc_step_conserves ep o : ep_wf ep ->
  exists ep' evs, ipc_step ep o = Val (ep', evs) /\ ep_wf ep' /\
    Endpoint.id ep' = Endpoint.id ep /\
    option_list (Endpoint.pending ep) ++ accepted evs =
    finished evs ++ option_list (Endpoint.pending ep').
Proof.
  unfold ep_wf. destruct ep as [i st pd]; simpl. intros Hwf.
  destruct o as [s m|r|t]; simpl; unfold send, recv, cancel, Endpoint.put_pending,
    Endpoint.take_pending, Endpoint.set_state; simpl;
    destruct st as [|s'|r']; simplify_eq/=; try destruct Hwf as [m' ->]; simpl.
  all: repeat case_decide; rewrite ?andb_false_r; simpl;
    eexists _, _; (split; [done|]); repeat split; simpl; try done; by eexists.
Qed.

Lemma ipc_run_conserves ep ops : ep_wf ep ->
  exists ep' evs, ipc_run ep ops = Val (ep', evs) /\ ep_wf ep' /\
    Endpoint.id ep' = Endpoint.id ep /\
    option_list (Endpoint.pending ep) ++ accepted evs =
    finished evs ++ option_list (Endpoint.pending ep').
Proof.
  revert ep; induction ops as [|o ops IH]; intros ep Hwf; simpl.
  { exists ep, []. simpl. by rewrite app_nil_r. }
  destruct (ipc_step_conserves ep o Hwf) as (ep1 & ev1 & -> & Hw1 & Hi1 & H1). simpl.
  destruct (IH ep1 Hw1) as (ep2 & ev2 & -> & Hw2 & Hi2 & H2). simpl.
  exists ep2, (ev1 ++ ev2). split; [done|]. split; [done|]. split; [congruence|].
  unfold accepted, finished in *. rewrite !omap_app, app_assoc, H1, <- !app_assoc. by rewrite H2.
Qed.

End rendezvous.

(** Messages are conserved: over any sequence of sends, receives and
    cancellations on a fresh endpoint, with debug assertions on or off,
    nothing panics, and the messages accepted are, in order, those handed to
    a receiver or dropped by a cancellation, followed by the one still
    pending; so none is lost, duplicated, reordered or altered, and a
    message is pending exactly while its sender waits. *)
Theorem ipc_message_conservation debug i ops :
  exists ep evs, ipc_run debug (Endpoint.new i) ops = Val (ep, evs) /\
    accepted evs = finished evs ++ option_list (Endpoint.pending ep) /\
    (is_Some (Endpoint.pending ep) <-> exists s, Endpoint.state ep = SenderWaiting s) /\
    Endpoint.id ep = i.
Proof.
  destruct (ipc_run_conserves debug (Endpoint.new i) ops) as (ep & evs & E & Hw & Hi & H); [done|].
  exists ep, evs. split; [done|]. split; [done|]. split; [|done].
  unfold ep_wf in Hw. destruct (Endpoint.state ep); rewrite ?Hw; split;
    try (intros [? ?]; discriminate); eauto.
Qed.

(** The capability gate in front of the rendezvous: [send_checked]
    never panics on a well-formed table and endpoint, and it reaches the
    endpoint exactly when the caller's slot holds a capability for this very
    endpoint that includes the send right; in every other case it returns
    the capability error (or [WrongEndpoint]) and leaves the endpoint
    untouched; a caller that passes the gate gets what [send] gives. *)
Theorem send_checked_gate debug table i ep s m :
  CapTable.wf table -> ep_wf ep ->
  exists ep' r, send_checked debug table i ep s m = Val (ep', r) /\
    match CapTable.lookup table i OEndpoint Rights.SEND with
    | Val (Ok obj) =>
        if object_id obj =? ep_u32 (Endpoint.id ep)
        then exists r', send debug ep s m = Val (ep', r') /\ r = map_err EIpc r'
        else ep' = ep /\ r = Err WrongEndpoint
    | Val (Err e) => ep' = ep /\ r = Err (ECap e)
    | Panic => False
    end.
Proof.
  intros Ht He. unfold send_checked. rewrite CapTable.lookup_view by done. simpl.
  destruct (if decide _ then _ else _) as [obj|e]; simpl; [|by eexists _, _].
  destruct (object_id obj =? _); simpl; [|by eexists _, _].
  destruct (ipc_step_conserves debug ep (ISend s m) He) as (ep' & evs & E & _). simpl in E.
  destruct (send debug ep s m) as [[ep1 r1]|]; simpl in *; [|done].
  eexists _, _; split; [done|]. by eexists.
Qed.

Lemma send_checked_gate_witness :
  exists ep' r, send_checked true CapTable.new 0 (Endpoint.new (mkEndpointId 3)) (mkThreadId 1)
                  (Message.Mk (mkHeader (mkThreadId 1) 0) []) = Val (ep', r) /\
    r = Err (ECap EmptySlot) /\ ep' = Endpoint.new (mkEndpointId 3).
Proof.
  destruct (send_checked_gate true CapTable.new 0 (Endpoint.new (mkEndpointId 3)) (mkThreadId 1)
    (Message.Mk (mkHeader (mkThreadId 1) 0) []) CapTable.new_wf eq_refl) as (ep' & r & E & H).
  exists ep', r. split; [exact E|]. simpl in H. destruct H as [H1 H2]. split; assumption.
Defined.
