(* ===== verification/Fault.v ===== *)
(** * Faults: structured events, containment and the supervisor wire format

    Models [kernel/src/fault]: the event object and its life cycle, the
    total fault handler, the 30-byte encoding sent to the supervisor, the
    notification over the fault channel and the acknowledgement. *)

From stdpp Require Import base decidable numbers option tactics list.
From S2P Require Import Prelude Bytes Thread Ipc.
Local Open Scope Z_scope.

(** ** [fault::event] *)

Inductive FaultType :=
| IllegalSyscall | InvalidCapability | PageFault | IllegalInstruction | WatchdogTimeout
| DeadlineMiss | IPCViolation | KernelInvariantViolation.

Inductive Severity := Info | Error | Critical | Fatal.

#[export] Instance FaultType_eq_dec : EqDecision FaultType.
Proof. solve_decision. Defined.
#[export] Instance Severity_eq_dec : EqDecision Severity.
Proof. solve_decision. Defined.

Definition severity_of (t : FaultType) : Severity :=
  match t with
  | IllegalSyscall | InvalidCapability | PageFault | IllegalInstruction => Error
  | WatchdogTimeout => Critical
  | DeadlineMiss | IPCViolation => Error
  | KernelInvariantViolation => Fatal
  end.

(** [severity as u8]: the discriminant. *)
Definition severity_u8 (s : Severity) : Z :=
  match s with Info => 0 | Error => 1 | Critical => 2 | Fatal => 3 end.

Inductive EventState := Created | Queued | EDelivered | Acknowledged.

#[export] Instance EventState_eq_dec : EqDecision EventState.
Proof. solve_decision. Defined.

Record IllegalEventTransition := mkIllegalEvent { iet_from : EventState; iet_to : EventState }.

Module FaultEvent.

Record t := Mk {
  event_id : Z; fault_type : FaultType; severity : Severity; thread : ThreadId;
  pc : Z; detail : Z; state : EventState
}.

Definition new (event_id : Z) (fault_type : FaultType) (thread : ThreadId) (pc detail : Z) : t :=
  Mk event_id fault_type (severity_of fault_type) thread pc detail Created.

Definition with_state (self : t) (s : EventState) : t :=
  Mk self.(event_id) self.(fault_type) self.(severity) self.(thread) self.(pc) self.(detail) s.

Definition advance (self : t) (to : EventState) : t * result unit IllegalEventTransition :=
  let legal := match self.(state), to with
               | Created, Queued | Queued, EDelivered | EDelivered, Acknowledged => true
               | _, _ => false
               end in
  if legal then (with_state self to, Ok tt)
  else (self, Err (mkIllegalEvent self.(state) to)).

End FaultEvent.

(** ** [fault::handle] *)

(** The [User] scope carries [&mut Thread]; the handler returns it. *)
Inductive FaultScope := ScopeUser (thread : Thread) | ScopeKernel.

Inductive FaultOutcome := Contained (ev : FaultEvent.t) | KernelPanic (ev : FaultEvent.t).

Definition handle (event_id : Z) (fault_type : FaultType) (scope : FaultScope) (pc detail : Z)
    : FaultScope * FaultOutcome :=
  match scope with
  | ScopeKernel =>
      (scope, KernelPanic (FaultEvent.new event_id KernelInvariantViolation (mkThreadId 0) pc detail))
  | ScopeUser thread =>
      let ev := FaultEvent.new event_id fault_type (th_id thread) pc detail in
      if decide (fault_type = KernelInvariantViolation) then (scope, KernelPanic ev)
      else match transition thread Faulted with
           | (thread', Ok _) => (ScopeUser thread', Contained ev)
           | (thread', Err _) => (ScopeUser thread', KernelPanic ev)
           end
  end.

(** ** [fault::wire] *)

Definition KERNEL_SENDER : ThreadId := mkThreadId 0.
Definition FAULT_WIRE_BYTES : nat := 30.

Inductive RecoveryDecision := Kill | Restart | Suspend | Quarantine | Escalate.

Definition default_decision (t : FaultType) : option RecoveryDecision :=
  match t with
  | IllegalSyscall => Some Kill
  | InvalidCapability => Some Escalate
  | PageFault => Some Kill
  | IllegalInstruction => Some Kill
  | WatchdogTimeout => Some Restart
  | DeadlineMiss => Some Escalate
  | IPCViolation => Some Kill
  | KernelInvariantViolation => None
  end.

Definition is_valid_recovery (t : FaultType) (_decision : RecoveryDecision) : bool :=
  match t with KernelInvariantViolation => false | _ => true end.

Inductive NotifyOutcome := NDelivered | NQueued | ChannelFull.

Definition fault_type_to_u8 (t : FaultType) : Z :=
  match t with
  | IllegalSyscall => 0 | InvalidCapability => 1 | PageFault => 2 | IllegalInstruction => 3
  | WatchdogTimeout => 4 | DeadlineMiss => 5 | IPCViolation => 6 | KernelInvariantViolation => 7
  end.

Definition fault_type_from_u8 (v : Z) : option FaultType :=
  match v with
  | 0 => Some IllegalSyscall | 1 => Some InvalidCapability | 2 => Some PageFault
  | 3 => Some IllegalInstruction | 4 => Some WatchdogTimeout | 5 => Some DeadlineMiss
  | 6 => Some IPCViolation | 7 => Some KernelInvariantViolation
  | _ => None
  end.

Definition encode (ev : FaultEvent.t) : outcome Message.t :=
  let buf := replicate FAULT_WIRE_BYTES 0 in
  buf ← copy_at buf 0 8 (to_le_bytes 8 (FaultEvent.event_id ev));
  buf ← arr_set buf 8 (fault_type_to_u8 (FaultEvent.fault_type ev));
  buf ← arr_set buf 9 (severity_u8 (FaultEvent.severity ev));
  buf ← copy_at buf 10 14 (to_le_bytes 4 (as_u32 (FaultEvent.thread ev)));
  buf ← copy_at buf 14 22 (to_le_bytes 8 (FaultEvent.pc ev));
  buf ← copy_at buf 22 30 (to_le_bytes 8 (FaultEvent.detail ev));
  expect_ok (Message.new KERNEL_SENDER buf).

Record FaultReport := mkReport {
  r_event_id : Z; r_fault_type : FaultType; r_severity : Severity; r_thread : ThreadId;
  r_pc : Z; r_detail : Z
}.

Inductive DecodeError := WrongLength | UnknownFaultType | SeverityMismatch | ForgedSender.

Definition decode (msg : Message.t) : outcome (result FaultReport DecodeError) :=
  if negb (bool_decide (h_sender (Message.header msg) = KERNEL_SENDER))
  then mret (Err ForgedSender)
  else
    data ← Message.data msg;
    if negb (bool_decide (length data = FAULT_WIRE_BYTES)) then mret (Err WrongLength)
    else
      b8 ← arr_get data 8;
      match fault_type_from_u8 b8 with
      | None => mret (Err UnknownFaultType)
      | Some fault_type =>
          b9 ← arr_get data 9;
          if negb (b9 =? severity_u8 (severity_of fault_type)) then mret (Err SeverityMismatch)
          else
            eid ← slice data 0 8; tid ← slice data 10 14; pc ← slice data 14 22;
            det ← slice data 22 30;
            mret (Ok (mkReport (from_le_bytes eid) fault_type (severity_of fault_type)
                        (mkThreadId (from_le_bytes tid)) (from_le_bytes pc) (from_le_bytes det)))
      end.

(** [event.advance(to).expect(..)] *)
Definition advance_expect (ev : FaultEvent.t) (to : EventState) : outcome FaultEvent.t :=
  let '(ev', r) := FaultEvent.advance ev to in _ ← expect_ok r; mret ev'.

Definition notify_supervisor (debug_assertions : bool) (channel : Endpoint.t) (ev : FaultEvent.t)
    : outcome (Endpoint.t * FaultEvent.t * NotifyOutcome) :=
  msg ← encode ev;
  p ← send debug_assertions channel KERNEL_SENDER msg;
  match p.2 with
  | Ok (Delivered _ _) =>
      ev ← advance_expect ev Queued;
      ev ← advance_expect ev EDelivered;
      mret (p.1, ev, NDelivered)
  | Ok SBlocked => ev ← advance_expect ev Queued; mret (p.1, ev, NQueued)
  | Err _ => mret (p.1, ev, ChannelFull)
  end.

Inductive AckError := InvalidDecision | NotPending.

Definition acknowledge (ev : FaultEvent.t) (decision : RecoveryDecision)
    : outcome (FaultEvent.t * result RecoveryDecision AckError) :=
  if negb (is_valid_recovery (FaultEvent.fault_type ev) decision)
  then mret (ev, Err InvalidDecision)
  else if negb (bool_decide (FaultEvent.state ev = EDelivered)) then mret (ev, Err NotPending)
  else ev' ← advance_expect ev Acknowledged; mret (ev', Ok decision).

(** ** The wire layout *)

Definition wire (id ft sev tid pc det : Z) : list Z :=
  to_le_bytes 8 id ++ [ft; sev] ++ to_le_bytes 4 tid ++ to_le_bytes 8 pc ++ to_le_bytes 8 det.

Definition report_of (ev : FaultEvent.t) : FaultReport :=
  mkReport (FaultEvent.event_id ev) (FaultEvent.fault_type ev) (FaultEvent.severity ev)
           (FaultEvent.thread ev) (FaultEvent.pc ev) (FaultEvent.detail ev).

Definition report_wire (r : FaultReport) : list Z :=
  wire (r_event_id r) (fault_type_to_u8 (r_fault_type r)) (severity_u8 (r_severity r))
       (as_u32 (r_thread r)) (r_pc r) (r_detail r).

(** Field widths, and the severity the constructor derives. *)
Definition event_ok (ev : FaultEvent.t) : Prop :=
  FaultEvent.event_id ev ∈ᵤ 64 /\ as_u32 (FaultEvent.thread ev) ∈ᵤ 32 /\
  FaultEvent.pc ev ∈ᵤ 64 /\ FaultEvent.detail ev ∈ᵤ 64 /\
  FaultEvent.severity ev = severity_of (FaultEvent.fault_type ev).

Lemma wire_length id ft sev tid pc det : length (wire id ft sev tid pc det) = FAULT_WIRE_BYTES.
Proof. reflexivity. Qed.

Lemma encode_wire ev :
  encode ev = expect_ok (Message.new KERNEL_SENDER (report_wire (report_of ev))).
Proof. reflexivity. Qed.

Lemma fault_type_u8_roundtrip t : fault_type_from_u8 (fault_type_to_u8 t) = Some t.
Proof. by destruct t. Qed.

Lemma fault_type_from_u8_inv v t : fault_type_from_u8 v = Some t -> v = fault_type_to_u8 t.
Proof.
  intros H. destruct (decide (0 <= v < 8)) as [Hv|Hv].
  - assert (v = 0 \/ v = 1 \/ v = 2 \/ v = 3 \/ v = 4 \/ v = 5 \/ v = 6 \/ v = 7) as Hc by lia.
    destruct Hc as [->|[->|[->|[->|[->|[->|[-> | -> ]]]]]]]; by inversion H.
  - exfalso. unfold fault_type_from_u8 in H. destruct v as [|p|p]; [lia| |done].
    do 3 (destruct p; simpl in H; try lia; try discriminate).
Qed.

(** The fields of a 30-byte string. *)
Lemma wire_split (data : list Z) : length data = FAULT_WIRE_BYTES ->
  data = take 8 data ++ [nth 8 data 0; nth 9 data 0] ++ take 4 (drop 10 data) ++
    take 8 (drop 14 data) ++ take 8 (drop 22 data).
Proof.
  intros H. do 30 (destruct data as [|? data]; [done|]). by destruct data.
Qed.

(** [decode] on a message whose payload is the wire string [d]. *)
Definition decode_bytes (d : list Z) : result FaultReport DecodeError :=
  if negb (bool_decide (length d = FAULT_WIRE_BYTES)) then Err WrongLength
  else match fault_type_from_u8 (nth 8 d 0) with
       | None => Err UnknownFaultType
       | Some t =>
           if nth 9 d 0 =? severity_u8 (severity_of t)
           then Ok (mkReport (from_le_bytes (take 8 d)) t (severity_of t)
                      (mkThreadId (from_le_bytes (take 4 (drop 10 d))))
                      (from_le_bytes (take 8 (drop 14 d))) (from_le_bytes (take 8 (drop 22 d))))
           else Err SeverityMismatch
       end.

Lemma decode_data msg d : h_sender (Message.header msg) = KERNEL_SENDER ->
  Message.data msg = Val d -> decode msg = Val (decode_bytes d).
Proof.
  intros Hs Hd. unfold decode, decode_bytes. rewrite bool_decide_true, Hd by done.
  cbn [negb mbind outcome_bind]. case_bool_decide as Hl; [|done]. cbn [negb].
  assert (forall i, (i < 30)%nat -> arr_get d i = Val (nth i d 0)) as Hg.
  { intros i Hi. apply arr_get_lookup.
    destruct (lookup_lt_is_Some_2 d i) as [x Hx]; [by rewrite Hl|].
    rewrite Hx. f_equal. symmetry. by apply nth_lookup_Some. }
  rewrite !Hg by lia. cbn [mbind outcome_bind].
  destruct (fault_type_from_u8 _); [|done]. destruct (_ =? _); [|done].
  cbn [negb]. unfold slice. rewrite Hl. rewrite !decide_True by (unfold FAULT_WIRE_BYTES; lia). done.
Qed.

Lemma decode_wire id t tid pc det :
  id ∈ᵤ 64 -> tid ∈ᵤ 32 -> pc ∈ᵤ 64 -> det ∈ᵤ 64 ->
  decode_bytes (wire id (fault_type_to_u8 t) (severity_u8 (severity_of t)) tid pc det) =
  Ok (mkReport id t (severity_of t) (mkThreadId tid) pc det).
Proof.
  intros H1 H2 H3 H4. unfold decode_bytes. rewrite bool_decide_true by apply wire_length.
  cbn [negb]. set (w := wire _ _ _ _ _ _).
  change (nth 8 w 0) with (fault_type_to_u8 t). rewrite fault_type_u8_roundtrip.
  change (nth 9 w 0) with (severity_u8 (severity_of t)). rewrite Z.eqb_refl.
  change (take 8 w) with (to_le_bytes 8 id). change (take 4 (drop 10 w)) with (to_le_bytes 4 tid).
  change (take 8 (drop 14 w)) with (to_le_bytes 8 pc).
  change (take 8 (drop 22 w)) with (to_le_bytes 8 det).
  by rewrite (from_to_le_bytes 8 id H1), (from_to_le_bytes 4 tid H2), (from_to_le_bytes 8 pc H3),
    (from_to_le_bytes 8 det H4).
Qed.

Lemma slice_le_bytes (d : list Z) a n : bytes_ok d -> (a + n <= length d)%nat ->
  to_le_bytes n (from_le_bytes (take n (drop a d))) = take n (drop a d).
Proof.
  intros Hb Hl. rewrite <- (to_from_le_bytes (take n (drop a d))) at 2.
  - by rewrite length_take, length_drop, Nat.min_l by lia.
  - by apply Forall_take, Forall_drop.
Qed.

(** Decoding is injective: the bytes are the encoding of the report. *)
Lemma decode_bytes_canonical d r : bytes_ok d -> decode_bytes d = Ok r -> d = report_wire r.
Proof.
  intros Hb. unfold decode_bytes. case_bool_decide as Hl; [|done]. cbn [negb].
  destruct (fault_type_from_u8 (nth 8 d 0)) as [t|] eqn:Et; [|done].
  destruct (nth 9 d 0 =? _) eqn:E9; [|done]. intros [= <-].
  apply fault_type_from_u8_inv in Et. apply Z.eqb_eq in E9.
  unfold report_wire, wire; cbn [r_event_id r_fault_type r_severity r_thread r_pc r_detail as_u32].
  rewrite <- E9, <- Et. pose proof (wire_split d Hl) as Hw. unfold FAULT_WIRE_BYTES in Hl.
  pose proof (slice_le_bytes d 0 8 Hb) as H0. rewrite drop_0 in H0.
  rewrite H0, !slice_le_bytes by (done || lia). exact Hw.
Qed.

Lemma encode_ok ev : event_ok ev ->
  exists m, encode ev = Val m /\ Message.wf m /\ h_sender (Message.header m) = KERNEL_SENDER /\
            decode m = Val (Ok (report_of ev)).
Proof.
  intros (H1 & H2 & H3 & H4 & H5). rewrite encode_wire.
  destruct (Message.new_spec KERNEL_SENDER (report_wire (report_of ev)))
    as [[H _]|(_ & m & -> & Hw & Hhd & Hd)]; [by vm_compute in H; lia|].
  exists m. split; [done|]. split; [done|]. rewrite Hhd. split; [done|].
  erewrite decode_data; [|by rewrite Hhd|done]. unfold report_wire, report_of; simpl.
  rewrite H5. rewrite decode_wire by done. by destruct (FaultEvent.thread ev).
Qed.

(** The fault report round-trips and cannot be forged: encoding an
    event whose fields have their widths never panics and decoding gives the
    report of that event; decoding a well-formed message never panics, and
    it accepts exactly the messages sent by the kernel whose bytes are the
    encoding of the report it returns, with the severity the fault type
    implies. *)
Theorem fault_wire_roundtrip ev msg :
  event_ok ev -> Message.wf msg -> bytes_ok (Message.payload msg) ->
  (exists m, encode ev = Val m /\ Message.wf m /\ h_sender (Message.header m) = KERNEL_SENDER /\
     decode m = Val (Ok (report_of ev))) /\
  (exists r, decode msg = Val r /\
     forall rep, r = Ok rep ->
       h_sender (Message.header msg) = KERNEL_SENDER /\ Message.data msg = Val (report_wire rep) /\
       r_severity rep = severity_of (r_fault_type rep)).
Proof.
  intros Hev [Hl Hh] Hb. split; [by apply encode_ok|].
  destruct (decide (h_sender (Message.header msg) = KERNEL_SENDER)) as [Hs|Hs].
  - unfold Message.data. rewrite decide_True by lia.
    erewrite decode_data; [|done|unfold Message.data; by rewrite decide_True by lia].
    eexists; split; [done|]. intros rep Hr. split; [done|]. split.
    + f_equal. apply decode_bytes_canonical; [by apply Forall_take|done].
    + unfold decode_bytes in Hr. split_matches; done.
  - unfold decode. rewrite bool_decide_false by done. by eexists.
Qed.

Lemma fault_wire_roundtrip_witness :
  let ev := FaultEvent.new 42 PageFault (mkThreadId 3) 0x80200abc 0xbad in
  exists m, encode ev = Val m /\ decode m = Val (Ok (report_of ev)).
Proof.
  intros ev.
  destruct (fault_wire_roundtrip ev (Message.Mk (mkHeader KERNEL_SENDER 0) (replicate 128 0)))
    as [(m & E & _ & _ & D) _].
  - vm_compute. repeat split; congruence.
  - vm_compute. split; [reflexivity|lia].
  - apply Forall_replicate. vm_compute. split; congruence.
  - exists m. split; assumption.
Defined.

(** ** Life cycle and notification *)

Lemma notify_cases debug ch ev : event_ok ev -> FaultEvent.state ev = Created -> ep_wf ch ->
  exists m, encode ev = Val m /\ decode m = Val (Ok (report_of ev)) /\
    notify_supervisor debug ch ev =
      Val (match Endpoint.state ch with
           | Idle => (Endpoint.Mk (Endpoint.id ch) (SenderWaiting KERNEL_SENDER) (Some m),
                      FaultEvent.with_state ev Queued, NQueued)
           | ReceiverWaiting _ => (Endpoint.set_state ch Idle,
                                   FaultEvent.with_state ev EDelivered, NDelivered)
           | SenderWaiting _ => (ch, ev, ChannelFull)
           end).
Proof.
  intros Hev Hst Hch. destruct (encode_ok ev Hev) as (m & Em & _ & _ & Hd). exists m.
  split; [done|]. split; [done|]. unfold notify_supervisor. rewrite Em.
  cbn [mbind outcome_bind]. unfold send, ep_wf in *.
  destruct ch as [i st pd]; simpl in *. destruct st as [|s|r]; simpl in *; subst.
  - unfold Endpoint.put_pending. simpl. rewrite andb_false_r. simpl.
    unfold advance_expect, FaultEvent.advance. by rewrite Hst.
  - done.
  - unfold advance_expect, FaultEvent.advance. rewrite Hst. done.
Qed.

(** Fault handling is total and contained: a kernel-scope fault and a
    user-scope kernel-invariant fault always give [KernelPanic]; any other
    user fault of a live thread (ready, running or blocked) is [Contained],
    moves that thread to [Faulted] and changes nothing else of it; a fault
    raised on a thread that is not live is a [KernelPanic] and leaves it
    unchanged; the event always carries the severity of its type. *)
Theorem fault_handle_total id ft scope pc det :
  let '(scope', out) := handle id ft scope pc det in
  match scope with
  | ScopeKernel =>
      scope' = ScopeKernel /\
      out = KernelPanic (FaultEvent.new id KernelInvariantViolation KERNEL_SENDER pc det)
  | ScopeUser th =>
      let ev := FaultEvent.new id ft (th_id th) pc det in
      if decide (ft <> KernelInvariantViolation /\
                 (th_state th = Ready \/ th_state th = Running \/ th_state th = Blocked))
      then scope' = ScopeUser (mkThread (th_id th) Faulted (th_address_space th)) /\
           out = Contained ev
      else scope' = scope /\ out = KernelPanic ev
  end.
Proof.
  unfold handle. destruct scope as [[i s a]|]; [|done]. simpl.
  destruct (decide (ft = KernelInvariantViolation)) as [->|Hft].
  - by rewrite decide_False by tauto.
  - unfold transition; simpl. case_decide as E.
    + by destruct E as [_ [->|[->| ->]]].
    + destruct s; simpl; try done; exfalso; apply E; tauto.
Qed.

(** The event life cycle on the fault channel: notifying the
    supervisor of a new event never panics and is decided by the channel
    alone: idle parks the encoded report and queues the event, a waiting
    receiver marks it delivered, a full channel changes nothing.  A parked
    report is what the next receiver gets, and it decodes to the event.  Only
    a delivered event can be acknowledged, once, and only for a fault that
    admits recovery. *)
Theorem fault_event_lifecycle debug ch ev receiver decision :
  event_ok ev -> FaultEvent.state ev = Created -> ep_wf ch ->
  exists ch' ev' out, notify_supervisor debug ch ev = Val (ch', ev', out) /\
    report_of ev' = report_of ev /\
    (out = NQueued -> FaultEvent.state ev' = Queued /\
       exists ch'' m, recv ch' receiver = Val (ch'', Ok (Received m KERNEL_SENDER)) /\
         Endpoint.state ch'' = Idle /\ decode m = Val (Ok (report_of ev))) /\
    (out = ChannelFull -> ch' = ch /\ ev' = ev) /\
    exists ev'' r, acknowledge ev' decision = Val (ev'', r) /\
      (r = Ok decision <->
         out = NDelivered /\ FaultEvent.fault_type ev <> KernelInvariantViolation) /\
      (r = Ok decision -> FaultEvent.state ev'' = Acknowledged /\
         (exists e, acknowledge ev'' decision = Val (ev'', Err e))).
Proof.
  intros Hev Hst Hch. destruct (notify_cases debug ch ev Hev Hst Hch) as (m & _ & Hd & ->).
  destruct ev as [id ft sev th pc det st]; simpl in *; subst st.
  destruct (Endpoint.state ch) as [|s|r] eqn:Est; simpl; eexists _, _, _; (split; [done|]);
    (split; [done|]); split; try done.
  - intros _. split; [done|]. eexists _, _. split; [done|]. done.
  - split; [done|]. unfold acknowledge; simpl. destruct ft; simpl; eexists _, _; (split; [done|]);
      (split; [split; [discriminate|by intros [? ?]]|discriminate]).
  - split; [done|]. unfold acknowledge; simpl.
    destruct ft; simpl; eexists _, _; (split; [done|]);
      (split; [split; [discriminate|by intros [? ?]]|discriminate]).
  - split; [done|]. unfold acknowledge; simpl.
    destruct ft; simpl; eexists _, _; (split; [done|]);
      (split; [split; [try discriminate; by split|by intros [_ ?]]|]); try discriminate;
      intros _; (split; [done|]); by eexists.
Qed.

Lemma fault_event_lifecycle_witness :
  let ev := FaultEvent.new 7 PageFault (mkThreadId 3) 0xabc 0xbad in
  exists ch' ev', notify_supervisor true (Endpoint.new (mkEndpointId 9)) ev = Val (ch', ev', NQueued) /\
    exists ch'' m, recv ch' (mkThreadId 10) = Val (ch'', Ok (Received m KERNEL_SENDER)) /\
      decode m = Val (Ok (report_of ev)).
Proof.
  intros ev.
  destruct (fault_event_lifecycle true (Endpoint.new (mkEndpointId 9)) ev (mkThreadId 10) Kill)
    as (ch' & ev' & out & E & _ & Hq & _).
  - vm_compute. repeat split; congruence.
  - reflexivity.
  - reflexivity.
  - assert (out = NQueued) as -> by (vm_compute in E; congruence).
    exists ch', ev'. split; [exact E|]. destruct (Hq eq_refl) as (_ & ch'' & m & Er & _ & Hd).
    exists ch'', m. split; assumption.
Defined.
