(* ===== verification/Supervisor.v ===== *)
(** * The supervisor service

    Models [userland/supervisor/src/lib.rs]: the recovery policy and one
    poll of the fault channel over the capability-checked receive path. *)

From stdpp Require Import base decidable numbers option tactics list.
From S2P Require Import Prelude RightsSet Thread Caps Ipc Fault.
Local Open Scope Z_scope.

(** [decide(&FaultReport)] *)
Definition decide_recovery (report : FaultReport) : RecoveryDecision :=
  match r_fault_type report, r_severity report with
  | WatchdogTimeout, _ => Restart
  | DeadlineMiss, Critical => Restart
  | DeadlineMiss, _ => Escalate
  | InvalidCapability, Critical => Quarantine
  | InvalidCapability, _ => Escalate
  | IllegalSyscall, _ | PageFault, _ | IllegalInstruction, _ | IPCViolation, _ => Kill
  | KernelInvariantViolation, _ => Escalate
  end.

Inductive PollError := Denied | NothingPending | BadReport (e : DecodeError).

Definition poll_fault_channel (table : CapTable.t) (cap_index : nat) (channel : Endpoint.t)
    (supervisor_tid : ThreadId)
    : outcome (Endpoint.t * result (FaultReport * RecoveryDecision) PollError) :=
  p ← recv_checked table cap_index channel supervisor_tid;
  match p.2 with
  | Err (ECap _) | Err WrongEndpoint => mret (p.1, Err Denied)
  | Err (EIpc _) => mret (p.1, Err NothingPending)
  | Ok RBlocked => mret (p.1, Err NothingPending)
  | Ok (Received msg _) =>
      r ← decode msg;
      match r with
      | Err e => mret (p.1, Err (BadReport e))
      | Ok report => mret (p.1, Ok (report, decide_recovery report))
      end
  end.

(** The supervisor's boot table: one receive capability on the channel. *)
Definition grants (table : CapTable.t) (cap_index : nat) (ch : Endpoint.t) : Prop :=
  exists obj, CapTable.lookup table cap_index OEndpoint Rights.RECEIVE = Val (Ok obj) /\
    object_id obj = ep_u32 (Endpoint.id ch).

Lemma recv_checked_granted table i ch tid : grants table i ch ->
  recv_checked table i ch tid = (p ← recv ch tid; mret (p.1, map_err EIpc p.2)).
Proof. intros (obj & E & Hid). unfold recv_checked. rewrite E. simpl. by rewrite Hid, Z.eqb_refl. Qed.

(** For the severities the kernel assigns, the policy is the kernel's
    default policy. *)
Lemma policy_is_default report : r_severity report = severity_of (r_fault_type report) ->
  r_fault_type report <> KernelInvariantViolation ->
  default_decision (r_fault_type report) = Some (decide_recovery report).
Proof.
  intros Hs Hk. unfold decide_recovery. rewrite Hs. by destruct (r_fault_type report).
Qed.

(** The fault path end to end: a contained user fault whose report is
    parked on an idle channel reaches a supervisor that holds a receive
    capability for the channel: its next poll returns exactly the report of
    the event and the documented default decision for that fault, and the
    channel is idle again; a supervisor whose slot does not grant that
    capability is denied and the report stays parked. *)
Theorem supervisor_receives_fault debug id ft th pc det table i ch sup :
  id ∈ᵤ 64 -> as_u32 (th_id th) ∈ᵤ 32 -> pc ∈ᵤ 64 -> det ∈ᵤ 64 ->
  ft <> KernelInvariantViolation -> th_state th = Running ->
  Endpoint.state ch = Idle -> Endpoint.pending ch = None -> CapTable.wf table ->
  exists th' ev ch1 ev1, handle id ft (ScopeUser th) pc det = (ScopeUser th', Contained ev) /\
    th_state th' = Faulted /\
    notify_supervisor debug ch ev = Val (ch1, ev1, NQueued) /\
    (grants table i ch -> exists ch2 d,
       poll_fault_channel table i ch1 sup = Val (ch2, Ok (report_of ev, d)) /\
       default_decision ft = Some d /\ Endpoint.state ch2 = Idle) /\
    (~ grants table i ch -> poll_fault_channel table i ch1 sup = Val (ch1, Err Denied)).
Proof.
  intros Hid Htid Hpc Hdet Hft Hst Hidle Hpend Htab.
  set (ev := FaultEvent.new id ft (th_id th) pc det).
  assert (event_ok ev) as Hev by done.
  destruct (notify_cases debug ch ev Hev eq_refl) as (m & Em & Hd & Hn);
    [unfold ep_wf; by rewrite Hidle|]. rewrite Hidle in Hn.
  eexists _, ev, _, _. split; [|split; [|split; [exact Hn|split]]].
  - unfold handle, transition. rewrite decide_False by done. by rewrite Hst.
  - done.
  - intros (obj & Hl & Ho). unfold poll_fault_channel. rewrite recv_checked_granted by by exists obj.
    unfold recv; simpl. rewrite Hd. simpl. eexists _, _; split; [done|]. split; [|done].
    by apply (policy_is_default (report_of ev)).
  - intros Hno. unfold poll_fault_channel, recv_checked. rewrite CapTable.lookup_view by done. simpl.
    destruct (if decide _ then _ else _) as [obj|e] eqn:E; simpl; [|done].
    destruct (object_id obj =? _) eqn:Eo; simpl; [|done]. exfalso. apply Hno. exists obj.
    rewrite CapTable.lookup_view, E by done. by apply Z.eqb_eq in Eo.
Qed.

Definition sup_table : CapTable.t :=
  CapTable.Mk (Some (Capability_new (mkObjectRef OEndpoint 9) Rights.RECEIVE) :: replicate 31 None).

Lemma supervisor_receives_fault_witness :
  let th := mkThread (mkThreadId 3) Running (mkAddressSpaceId 3) in
  let ch := Endpoint.new (mkEndpointId 9) in
  exists th' ev ch1 ev1, handle 7 PageFault (ScopeUser th) 0xabc 0xbad = (ScopeUser th', Contained ev) /\
    notify_supervisor true ch ev = Val (ch1, ev1, NQueued) /\
    exists ch2, poll_fault_channel sup_table 0 ch1 (mkThreadId 10) = Val (ch2, Ok (report_of ev, Kill)).
Proof.
  intros th ch.
  destruct (supervisor_receives_fault true 7 PageFault th 0xabc 0xbad sup_table 0 ch (mkThreadId 10))
    as (th' & ev & ch1 & ev1 & Eh & _ & En & Hg & _);
    [vm_compute; split; congruence..|discriminate|reflexivity|reflexivity|reflexivity|reflexivity|].
  exists th', ev, ch1, ev1. split; [exact Eh|]. split; [exact En|].
  destruct Hg as (ch2 & d & Ep & Hd & _).
  - exists (mkObjectRef OEndpoint 9). split; reflexivity.
  - exists ch2. rewrite Ep. simpl in Hd. congruence.
Defined.

(** A report delivered to a waiting supervisor is lost: after a poll
    that found the channel empty (which parks the supervisor as the waiting
    receiver), the notification of the next fault answers [NDelivered] and
    marks the event delivered, but the message is handed back to the kernel
    and dropped; the supervisor's next poll finds nothing pending. *)
Theorem polled_then_notified_report_lost debug table i ch sup ev :
  grants table i ch -> Endpoint.state ch = Idle -> Endpoint.pending ch = None ->
  event_ok ev -> FaultEvent.state ev = Created ->
  exists ch1 ch2 ev2 ch3,
    poll_fault_channel table i ch sup = Val (ch1, Err NothingPending) /\
    notify_supervisor debug ch1 ev = Val (ch2, ev2, NDelivered) /\
    FaultEvent.state ev2 = EDelivered /\
    poll_fault_channel table i ch2 sup = Val (ch3, Err NothingPending) /\
    Endpoint.pending ch3 = None.
Proof.
  intros Hg Hidle Hpend Hev Hst. destruct ch as [eid st pd]; simpl in *; subst.
  assert (forall st, grants table i (Endpoint.Mk eid st None)) as Hg'
    by (intros st; destruct Hg as (obj & ? & ?); by exists obj).
  destruct (notify_cases debug (Endpoint.Mk eid (ReceiverWaiting sup) None) ev Hev Hst eq_refl)
    as (m & Em & Hd & Hn).
  exists (Endpoint.Mk eid (ReceiverWaiting sup) None), (Endpoint.Mk eid Idle None),
    (FaultEvent.with_state ev EDelivered), (Endpoint.Mk eid (ReceiverWaiting sup) None).
  split; [|split; [exact Hn|]].
  - unfold poll_fault_channel. by rewrite recv_checked_granted.
  - split; [done|]. split; [|reflexivity]. unfold poll_fault_channel.
    by rewrite recv_checked_granted by apply Hg'.
Qed.

Lemma polled_then_notified_report_lost_witness :
  exists ch1 ch2 ev2 ch3,
    poll_fault_channel sup_table 0 (Endpoint.new (mkEndpointId 9)) (mkThreadId 10)
      = Val (ch1, Err NothingPending) /\
    notify_supervisor true ch1 (FaultEvent.new 7 PageFault (mkThreadId 3) 0 0)
      = Val (ch2, ev2, NDelivered) /\
    poll_fault_channel sup_table 0 ch2 (mkThreadId 10) = Val (ch3, Err NothingPending).
Proof.
  destruct (polled_then_notified_report_lost true sup_table 0 (Endpoint.new (mkEndpointId 9))
    (mkThreadId 10) (FaultEvent.new 7 PageFault (mkThreadId 3) 0 0))
    as (ch1 & ch2 & ev2 & ch3 & E1 & E2 & _ & E3 & _).
  - exists (mkObjectRef OEndpoint 9). split; reflexivity.
  - reflexivity.
  - reflexivity.
  - vm_compute. repeat split; congruence.
  - reflexivity.
  - exists ch1, ch2, ev2, ch3. split; [exact E1|]. split; [exact E2|exact E3].
Defined.
