(* ===== verification/Device.v ===== *)
(** * Devices: device capabilities and mediated access

    Models [kernel/src/device/mod.rs]: the device table and its access
    check, the interrupt delivery policy and the bounds rule shared by the
    register and buffer accesses. *)

From stdpp Require Import base decidable numbers option tactics list.
From S2P Require Import Prelude RightsSet.
Local Open Scope Z_scope.

Record DeviceId := mkDeviceId { dev_u32 : Z }.

#[export] Instance DeviceId_eq_dec : EqDecision DeviceId.
Proof. solve_decision. Defined.

Inductive DeviceKind := BlockDeviceSkeleton | SyntheticNetwork.

Record MmioRegion := mkMmio { mmio_base : Z; mmio_size : Z }.
Record IrqLine := mkIrq { irq_endpoint : Z }.
Record DmaRegion := mkDma { dma_base : Z; dma_size : Z }.

Record DeviceObject := mkDevice {
  dev_id : DeviceId; dev_kind : DeviceKind; dev_mmio : MmioRegion; dev_irq : IrqLine;
  dev_dma : DmaRegion
}.

Module DeviceRights.

(** [struct DeviceRights(u16)] *)
Record t := Mk { bits : Z }.

Definition NONE : t := Mk 0.
Definition DEVICE_INFO : t := Mk (1 .<< 0).
Definition MMIO_READ : t := Mk (1 .<< 1).
Definition MMIO_WRITE : t := Mk (1 .<< 2).
Definition DMA_READ : t := Mk (1 .<< 3).
Definition DMA_WRITE : t := Mk (1 .<< 4).
Definition IRQ_RECEIVE : t := Mk (1 .<< 5).
Definition DRIVER_CONTROL : t := Mk (1 .<< 6).
Definition NETWORK_DRIVER : t := Mk (1 .<< 7).

Definition union (self other : t) : t := Mk (self.(bits) .| other.(bits)).
Definition contains (self required : t) : bool :=
  (self.(bits) .& required.(bits)) =? required.(bits).
Definition diminish (self removed : t) : t := Mk (self.(bits) .& bitnot 16 removed.(bits)).

#[global] Instance device_rights_set : RightsSet t := {|
  rs_bits := bits; rs_union := union; rs_contains := contains; rs_diminish := diminish;
  rs_union_bit a b i := lor_has_bit (bits a) (bits b) i;
  rs_contains_bit a b := land_subset (bits a) (bits b);
  rs_diminish_bit a b i := ldiff_has_bit (bits a) (bits b) i
|}.

End DeviceRights.

Record DeviceCapability := DeviceCapability_new {
  cap_device : DeviceId; cap_rights : DeviceRights.t
}.

Definition dev_derive_diminished (self : DeviceCapability) (removed : DeviceRights.t)
    : DeviceCapability :=
  DeviceCapability_new self.(cap_device) (DeviceRights.diminish self.(cap_rights) removed).

Inductive DeviceAccessError :=
| NoCapability | UnknownDevice | WrongDevice | DevInsufficientRights | OutOfBounds.

Module DeviceTable.

Record t := Mk { devices : list DeviceObject }.

Definition get (self : t) (id : DeviceId) : option DeviceObject :=
  snd <$> list_find (fun d => dev_id d = id) self.(devices).

Definition check (self : t) (cap : option DeviceCapability) (target : DeviceId)
    (required : DeviceRights.t) : result DeviceObject DeviceAccessError :=
  match cap with
  | None => Err NoCapability
  | Some cap =>
      match get self cap.(cap_device) with
      | None => Err UnknownDevice
      | Some dev =>
          if negb (bool_decide (dev_id dev = target)) then Err WrongDevice
          else if negb (DeviceRights.contains cap.(cap_rights) required)
          then Err DevInsufficientRights
          else Ok dev
      end
  end.

End DeviceTable.

Inductive IrqRaiseOutcome := IrqDelivered | IrqPending | IrqDropped.

Definition irq_raise_outcome (receiver_registered receiver_alive receiver_waiting : bool)
    : IrqRaiseOutcome :=
  if negb receiver_registered || negb receiver_alive then IrqDropped
  else if receiver_waiting then IrqDelivered
  else IrqPending.

Definition access_in_bounds (size offset width : Z) : bool :=
  ((width =? 1) || (width =? 2) || (width =? 4))
  && is_multiple_of offset width
  && match checked_add 64 offset width with Some end_ => end_ <=? size | None => false end.

Lemma get_Some self id d : DeviceTable.get self id = Some d ->
  d ∈ DeviceTable.devices self /\ dev_id d = id.
Proof.
  unfold DeviceTable.get. intros ([i d'] & Hf & E)%fmap_Some. simpl in E; subst.
  apply list_find_Some in Hf as (Hi & Hd & _). split; [by eapply list_elem_of_lookup_2|done].
Qed.

Lemma get_None self id : DeviceTable.get self id = None ->
  forall d, d ∈ DeviceTable.devices self -> dev_id d <> id.
Proof.
  unfold DeviceTable.get. rewrite fmap_None, list_find_None, Forall_forall. auto.
Qed.

(** The device check admits exactly the right callers: it returns a
    device only if the caller presented a capability naming the target
    device, that device is in the table, and the held rights include every
    required right; a diminished capability never passes a check the
    original fails; and each refusal names its first failing condition. *)
Theorem device_check_exact tbl cap target required :
  match DeviceTable.check tbl cap target required with
  | Ok dev => exists c, cap = Some c /\ cap_device c = target /\ dev_id dev = target /\
      dev ∈ DeviceTable.devices tbl /\
      (forall b, has_bit (DeviceRights.bits required) b ->
                 has_bit (DeviceRights.bits (cap_rights c)) b) /\
      (forall c' removed, DeviceRights.bits (cap_rights c') ∈ᵤ 16 ->
         DeviceRights.bits removed ∈ᵤ 16 -> cap_device c' = target ->
         c = dev_derive_diminished c' removed ->
         DeviceTable.check tbl (Some c') target required = Ok dev)
  | Err NoCapability => cap = None
  | Err UnknownDevice => exists c, cap = Some c /\
      forall d, d ∈ DeviceTable.devices tbl -> dev_id d <> cap_device c
  | Err WrongDevice => exists c, cap = Some c /\ cap_device c <> target
  | Err DevInsufficientRights => exists c, cap = Some c /\ cap_device c = target /\
      DeviceRights.contains (cap_rights c) required = false
  | Err OutOfBounds => False
  end.
Proof.
  unfold DeviceTable.check. destruct cap as [c|]; [|done].
  destruct (DeviceTable.get tbl (cap_device c)) as [dev|] eqn:Eg.
  - apply get_Some in Eg as Hd. destruct Hd as [Hin Hid].
    case_bool_decide as Et; simpl; [|exists c; split; [done|congruence]].
    destruct (DeviceRights.contains (cap_rights c) required) eqn:Er; simpl;
      [|exists c; split; [done|split; [congruence|done]]].
    exists c. split; [done|]. split; [congruence|]. split; [done|]. split; [done|].
    split; [by apply land_subset|]. intros c' removed H1 H2 Hc' ->.
    rewrite Hc'. simpl in Eg. rewrite Hc' in Eg. rewrite Eg, bool_decide_true by done. simpl.
    pose proof (rs_diminish_sub (RS := DeviceRights.device_rights_set) (cap_rights c') removed
      required H1 H2 Er) as Hs. simpl in Hs. by rewrite Hs.
  - exists c. split; [done|]. by apply get_None.
Qed.

(** The bounds rule is exact on 64-bit values, with no wrap-around: an
    access is admitted exactly when its width is 1, 2 or 4, it is aligned to
    its width, and its last byte lies inside the region. *)
Theorem access_in_bounds_exact size offset width :
  size ∈ᵤ 64 -> offset ∈ᵤ 64 -> width ∈ᵤ 64 ->
  access_in_bounds size offset width = true <->
  (width = 1 \/ width = 2 \/ width = 4) /\ (width | offset) /\ offset + width <= size.
Proof.
  unfold uint, access_in_bounds, is_multiple_of, checked_add. intros Hs Ho Hw.
  rewrite !andb_true_iff, !orb_true_iff, !Z.eqb_eq.
  split.
  - intros [[Hwd Hm] He]. assert (width <> 0) by lia.
    destruct (width =? 0) eqn:E; [lia|]. apply Z.eqb_eq in Hm.
    destruct (offset + width <? 2 ^ 64) eqn:Ec; [|done]. apply Z.leb_le in He.
    split; [tauto|]. split; [|done]. apply Z.mod_divide; lia.
  - intros (Hwd & Hd & He). assert (width <> 0) by lia.
    destruct (width =? 0) eqn:E; [lia|]. apply Z.mod_divide in Hd; [|done].
    rewrite Hd. destruct (offset + width <? 2 ^ 64) eqn:Ec; bool_facts; [|lia].
    rewrite Z.leb_le. repeat split; [tauto|lia].
Qed.

Lemma access_in_bounds_exact_witness : access_in_bounds 512 508 4 = true.
Proof.
  apply (access_in_bounds_exact 512 508 4);
    [vm_compute; split; congruence..|].
  split; [right; right; reflexivity|]. split; [exists 127; reflexivity|lia].
Defined.
