(* ===== verification/Loader.v ===== *)
(** * Image admission: the restricted-image loader rules and user images

    Models [kernel/src/loader/mod.rs] and [kernel/src/user/image.rs]. *)

From stdpp Require Import base decidable numbers option tactics list.
From S2P Require Import Prelude Thread Memory.
Local Open Scope Z_scope.

(** ** [loader] *)

Definition KERNEL_BASE : Z := 0x80000000.
Definition MAX_IMAGE_BYTES : Z := 131072.

Record ImageLayout := mkLayout {
  base_va : Z; entry_offset : Z; text_size : Z; rodata_size : Z; stack_pages : Z
}.

Inductive MapReject := EmptyText | EntryOutOfText | Oversized | KernelAddress | StackPolicy.

Definition admit_image_mapping (layout : ImageLayout) : result unit MapReject :=
  if text_size layout =? 0 then Err EmptyText
  else if text_size layout <=? entry_offset layout then Err EntryOutOfText
  else match checked_add 64 (text_size layout) (rodata_size layout) with
  | None => Err Oversized
  | Some image_bytes =>
      if MAX_IMAGE_BYTES <? image_bytes then Err Oversized
      else if negb (stack_pages layout =? 1) then Err StackPolicy
      else
        let stack_bytes := saturating_mul 64 (stack_pages layout) 4096 in
        let end_ := span ← checked_add 64 image_bytes stack_bytes;
                    checked_add 64 (base_va layout) span in
        match end_ with
        | Some e => if (base_va layout <? KERNEL_BASE) && (e <=? KERNEL_BASE)
                    then Ok tt else Err KernelAddress
        | None => Err KernelAddress
        end
  end.

Definition layout_ok (l : ImageLayout) : Prop :=
  base_va l ∈ᵤ 64 /\ entry_offset l ∈ᵤ 64 /\ text_size l ∈ᵤ 64 /\ rodata_size l ∈ᵤ 64 /\
  stack_pages l ∈ᵤ 64.

(** Image admission is exact, in true (unbounded) arithmetic: a layout
    of 64-bit fields is admitted exactly when its entry point lies in its
    text, text plus read-only data is at most 128 KiB, it asks for one stack
    page, and the whole span, text, data and stack, ends at or below the
    kernel base.  No sum that exceeds 64 bits slips through. *)
Theorem admit_image_mapping_exact l :
  layout_ok l ->
  admit_image_mapping l = Ok tt <->
  0 <= entry_offset l < text_size l /\ text_size l + rodata_size l <= MAX_IMAGE_BYTES /\
  stack_pages l = 1 /\
  base_va l + text_size l + rodata_size l + stack_pages l * PAGE_SIZE <= KERNEL_BASE.
Proof.
  unfold layout_ok, uint. intros (Hb & He & Ht & Hr & Hs).
  unfold admit_image_mapping, checked_add, saturating_mul, MAX_IMAGE_BYTES, KERNEL_BASE, PAGE_SIZE.
  destruct l as [b e t r s]; simpl in *. destruct (t =? 0) eqn:E1; bool_facts; [by split; [|lia]|].
  destruct (t <=? e) eqn:E2; bool_facts; [by split; [|lia]|].
  destruct (t + r <? 2 ^ 64) eqn:E3; bool_facts; [|by split; [|lia]].
  destruct (131072 <? t + r) eqn:E4; bool_facts; [by split; [|lia]|].
  destruct (s =? 1) eqn:E5; bool_facts; simpl; [|by split; [|lia]]. subst s.
  change (Z.min (1 * 4096) (2 ^ 64 - 1)) with 4096.
  destruct (t + r + 4096 <? 2 ^ 64) eqn:E6; bool_facts; simpl; [|lia].
  destruct (b + (t + r + 4096) <? 2 ^ 64) eqn:E7; bool_facts; [|by split; [|lia]].
  destruct (_ && _)%bool eqn:E8.
  - bool_facts. split; [|done]. intros _. lia.
  - split; [done|]. intros (? & ? & ? & ?). apply andb_false_iff in E8. destruct E8; bool_facts; lia.
Qed.

Lemma admit_image_mapping_exact_witness :
  admit_image_mapping (mkLayout 0x10000 0 4096 4096 1) = Ok tt.
Proof.
  apply (admit_image_mapping_exact (mkLayout 0x10000 0 4096 4096 1)).
  - vm_compute. repeat split; congruence.
  - vm_compute. repeat split; congruence.
Defined.

(** ** [user::image] *)

Inductive ImageError := EntryOutsideUserWindow | StackOutsideUserWindow | BadStackGeometry.

Record UserImage := mkUserImage {
  ui_entry : VirtAddr; ui_stack_top : VirtAddr; ui_stack_size : Z; ui_space : AddressSpaceId
}.

Definition UserImage_new (entry stack_top : VirtAddr) (stack_size : Z) (asid : AddressSpaceId)
    : result UserImage ImageError :=
  if negb (va_is_user entry) then Err EntryOutsideUserWindow
  else if (stack_size =? 0) || negb (is_multiple_of stack_size PAGE_SIZE)
          || negb (va_is_page_aligned stack_top) then Err BadStackGeometry
  else
    let top := va_u64 stack_top in
    match checked_sub top stack_size with
    | None => Err StackOutsideUserWindow
    | Some base =>
        if negb (va_is_user (mkVirt base)) || negb (va_is_user (mkVirt (top - 1)))
        then Err StackOutsideUserWindow
        else Ok (mkUserImage entry stack_top stack_size asid)
    end.

(** A user image that can be constructed lies entirely in user memory:
    construction succeeds exactly when the entry is in the user window, the
    stack is a positive whole number of pages with a page-aligned top, and
    every byte of the stack is in the user window (so none is a kernel
    address and page zero stays unmapped). *)
Theorem user_image_window entry stack_top stack_size asid :
  va_u64 stack_top ∈ᵤ 64 -> stack_size ∈ᵤ 64 ->
  (exists img, UserImage_new entry stack_top stack_size asid = Ok img) <->
  va_is_user entry = true /\ 0 < stack_size /\ stack_size mod PAGE_SIZE = 0 /\
  va_u64 stack_top mod PAGE_SIZE = 0 /\
  forall a, va_u64 stack_top - stack_size <= a < va_u64 stack_top -> va_is_user (mkVirt a) = true.
Proof.
  unfold uint, UserImage_new, va_is_page_aligned. intros Ht Hs.
  destruct (va_is_user entry); simpl; [|split; [by intros []|by intros []]].
  destruct (stack_size =? 0) eqn:E0; bool_facts; simpl; [split; [by intros []|lia]|].
  pose proof (is_page_aligned_iff stack_size) as A1.
  pose proof (is_page_aligned_iff (va_u64 stack_top)) as A2.
  destruct (is_multiple_of stack_size PAGE_SIZE); simpl;
    [|split; [by intros []|intros (_ & _ & Hx & _); by apply A1 in Hx]].
  destruct (is_multiple_of (va_u64 stack_top) PAGE_SIZE); simpl;
    [|split; [by intros []|intros (_ & _ & _ & Hx & _); by apply A2 in Hx]].
  unfold checked_sub, va_is_user; simpl. destruct (stack_size <=? va_u64 stack_top) eqn:E1; bool_facts.
  - destruct (_ || _) eqn:E2.
    + split; [by intros []|]. intros (_ & _ & _ & _ & Hall).
      apply orb_true_iff in E2 as [E2|E2]; apply negb_true_iff in E2.
      * by rewrite Hall in E2 by lia.
      * by rewrite Hall in E2 by lia.
    + apply orb_false_iff in E2 as [Hb1 Hb2]. bool_facts. split; [|by eexists].
      intros _. repeat split; [lia|tauto|tauto|]. intros a Ha. rewrite andb_true_iff, Z.leb_le, Z.ltb_lt. lia.
  - split; [by intros []|]. intros (_ & _ & _ & _ & Hall).
    specialize (Hall (va_u64 stack_top - stack_size)). unfold USER_RANGE_START in Hall.
    rewrite andb_true_iff, Z.leb_le in Hall. lia.
Qed.

Lemma user_image_window_witness :
  exists img, UserImage_new (mkVirt 0x10000) (mkVirt 0x200000) 0x4000 (mkAddressSpaceId 1) = Ok img.
Proof.
  apply (user_image_window (mkVirt 0x10000) (mkVirt 0x200000) 0x4000 (mkAddressSpaceId 1)).
  - vm_compute. split; congruence.
  - vm_compute. split; congruence.
  - split; [reflexivity|]. split; [lia|]. split; [reflexivity|]. split; [reflexivity|].
    intros a Ha. simpl in Ha. unfold va_is_user, USER_RANGE_START, USER_RANGE_END. simpl.
    apply andb_true_iff. rewrite Z.leb_le, Z.ltb_lt. lia.
Defined.
