(* ===== verification/Network.v ===== *)
(** * The bounded network protocol model

    Models [kernel/src/network.rs]: the request vocabularies of the network
    service and its driver, the declarative network rights and the
    synthetic driver counters. *)

From stdpp Require Import strings base decidable numbers option tactics list.
From S2P Require Import Prelude RightsSet Bytes.
Local Open Scope Z_scope.

Definition MAX_NETWORK_MESSAGE_BYTES : nat := 128.
Definition TEST_PACKET_BYTES : Z := 64.

Inductive ProtocolError := Malformed | NetTooLarge | Unsupported.

#[export] Instance ProtocolError_eq_dec : EqDecision ProtocolError.
Proof. solve_decision. Defined.

Definition reply (e : ProtocolError) : list Z :=
  match e with
  | Malformed => bstr "ERR malformed"
  | NetTooLarge => bstr "ERR too_large"
  | Unsupported => bstr "ERR unsupported"
  end.

Definition validate (message : list Z) : result unit ProtocolError :=
  match message with
  | [] => Err Malformed
  | _ => if decide (MAX_NETWORK_MESSAGE_BYTES < length message)%nat then Err NetTooLarge else Ok tt
  end.

(** A [match] on byte strings: the first equal literal. *)
Fixpoint match_bytes {A} (message : list Z) (arms : list (list Z * A)) : option A :=
  match arms with
  | [] => None
  | (lit, a) :: arms => if decide (message = lit) then Some a else match_bytes message arms
  end.

Module ServiceRequest.

Inductive t := Status | Stats | SendTest | RxCount | Fault | Restart.

Definition arms : list (list Z * t) :=
  [(bstr "NET_STATUS", Status); (bstr "NET_STATS", Stats); (bstr "NET_SEND_TEST", SendTest);
   (bstr "NET_RX_COUNT", RxCount); (bstr "NET_FAULT", Fault); (bstr "NET_RESTART", Restart)].

Definition decode (message : list Z) : result t ProtocolError :=
  match validate message with
  | Err e => Err e
  | Ok _ => match match_bytes message arms with Some r => Ok r | None => Err Unsupported end
  end.

(** The wire form of a request. *)
Definition wire (r : t) : list Z :=
  match r with
  | Status => bstr "NET_STATUS" | Stats => bstr "NET_STATS" | SendTest => bstr "NET_SEND_TEST"
  | RxCount => bstr "NET_RX_COUNT" | Fault => bstr "NET_FAULT" | Restart => bstr "NET_RESTART"
  end.

End ServiceRequest.

Module DriverRequest.

Inductive t := Status | TxTest | RxCount | Fault | Restart.

Definition arms : list (list Z * t) :=
  [(bstr "DRV_STATUS", Status); (bstr "DRV_TX_TEST", TxTest); (bstr "DRV_RX_COUNT", RxCount);
   (bstr "DRV_FAULT", Fault); (bstr "DRV_RESTART", Restart)].

Definition decode (message : list Z) : result t ProtocolError :=
  match validate message with
  | Err e => Err e
  | Ok _ => match match_bytes message arms with Some r => Ok r | None => Err Unsupported end
  end.

Definition wire (r : t) : list Z :=
  match r with
  | Status => bstr "DRV_STATUS" | TxTest => bstr "DRV_TX_TEST" | RxCount => bstr "DRV_RX_COUNT"
  | Fault => bstr "DRV_FAULT" | Restart => bstr "DRV_RESTART"
  end.

End DriverRequest.

Module NetworkRights.

Record t := Mk { bits : Z }.

Definition NONE : t := Mk 0.
Definition STATUS : t := Mk (1 .<< 0).
Definition TX : t := Mk (1 .<< 1).
Definition RX : t := Mk (1 .<< 2).
Definition CONTROL : t := Mk (1 .<< 3).

Definition union (self other : t) : t := Mk (self.(bits) .| other.(bits)).
Definition contains (self required : t) : bool :=
  (self.(bits) .& required.(bits)) =? required.(bits).
Definition diminish (self removed : t) : t := Mk (self.(bits) .& bitnot 16 removed.(bits)).

#[global] Instance network_rights_set : RightsSet t := {|
  rs_bits := bits; rs_union := union; rs_contains := contains; rs_diminish := diminish;
  rs_union_bit a b i := lor_has_bit (bits a) (bits b) i;
  rs_contains_bit a b := land_subset (bits a) (bits b);
  rs_diminish_bit a b i := ldiff_has_bit (bits a) (bits b) i
|}.

End NetworkRights.

Inductive DriverModelError := CounterOverflow.

Record SyntheticDriverModel := mkDriver { tx : Z; rx : Z }.

Definition send_test (self : SyntheticDriverModel)
    : SyntheticDriverModel * result Z DriverModelError :=
  match checked_add 64 self.(tx) 1 with
  | None => (self, Err CounterOverflow)
  | Some next_tx =>
      match checked_add 64 self.(rx) 1 with
      | None => (self, Err CounterOverflow)
      | Some next_rx => (mkDriver next_tx next_rx, Ok TEST_PACKET_BYTES)
      end
  end.

Lemma match_bytes_Some {A} m (arms : list (list Z * A)) a :
  match_bytes m arms = Some a -> (m, a) ∈ arms.
Proof.
  induction arms as [|[lit b] arms IH]; simpl; [done|]. case_decide; intros; simplify_eq.
  - apply elem_of_cons; auto.
  - apply elem_of_cons; auto.
Qed.

Lemma service_wire_ok r : ServiceRequest.decode (ServiceRequest.wire r) = Ok r.
Proof. by destruct r. Qed.
Lemma driver_wire_ok r : DriverRequest.decode (DriverRequest.wire r) = Ok r.
Proof. by destruct r. Qed.

Lemma validate_cases m : match validate m with
  | Ok _ => m <> [] /\ (length m <= MAX_NETWORK_MESSAGE_BYTES)%nat
  | Err Malformed => m = []
  | Err NetTooLarge => (MAX_NETWORK_MESSAGE_BYTES < length m)%nat
  | Err Unsupported => False
  end.
Proof. unfold validate. destruct m; [done|]. case_decide; [done|]. split; [done|lia]. Qed.

Lemma service_decode_inv m r : ServiceRequest.decode m = Ok r -> m = ServiceRequest.wire r.
Proof.
  unfold ServiceRequest.decode. destruct (validate m); [|done].
  destruct (match_bytes m _) as [r'|] eqn:E; [|done]. intros [= <-].
  apply match_bytes_Some in E. unfold ServiceRequest.arms in E.
  repeat (apply elem_of_cons in E as [E|E]; [by simplify_eq|]). by apply elem_of_nil in E.
Qed.

Lemma driver_decode_inv m r : DriverRequest.decode m = Ok r -> m = DriverRequest.wire r.
Proof.
  unfold DriverRequest.decode. destruct (validate m); [|done].
  destruct (match_bytes m _) as [r'|] eqn:E; [|done]. intros [= <-].
  apply match_bytes_Some in E. unfold DriverRequest.arms in E.
  repeat (apply elem_of_cons in E as [E|E]; [by simplify_eq|]). by apply elem_of_nil in E.
Qed.

(** The two vocabularies are exact and disjoint: a message decodes to a
    request exactly when it is that request's wire form, so no message is
    accepted by both decoders; an empty message is [Malformed] and a message
    over 128 bytes is [TooLarge], whatever its content. *)
Theorem network_vocabulary m r d :
  (ServiceRequest.decode m = Ok r <-> m = ServiceRequest.wire r) /\
  (DriverRequest.decode m = Ok d <-> m = DriverRequest.wire d) /\
  ~ (ServiceRequest.decode m = Ok r /\ DriverRequest.decode m = Ok d) /\
  (ServiceRequest.decode m = Err Malformed <-> m = []) /\
  (ServiceRequest.decode m = Err NetTooLarge <-> (MAX_NETWORK_MESSAGE_BYTES < length m)%nat).
Proof.
  split; [split; [apply service_decode_inv|intros ->; apply service_wire_ok]|].
  split; [split; [apply driver_decode_inv|intros ->; apply driver_wire_ok]|].
  split; [|split].
  - intros [->%service_decode_inv H]. apply driver_decode_inv in H. by destruct r, d.
  - split; [|by intros ->]. unfold ServiceRequest.decode. pose proof (validate_cases m) as V.
    destruct (validate m) as [|[]]; try done. by destruct (match_bytes _ _).
  - unfold ServiceRequest.decode. pose proof (validate_cases m) as V.
    destruct (validate m) as [|[]]; try done.
    + destruct (match_bytes _ _); split; try done; lia.
    + subst. split; [done|]. unfold MAX_NETWORK_MESSAGE_BYTES; simpl; lia.
Qed.

(** Loopback: transmissions and receptions stay equal, and a refused
    transmission changes neither counter. *)
Lemma send_test_loopback d : tx d = rx d -> tx d ∈ᵤ 64 ->
  let '(d', r) := send_test d in
  tx d' = rx d' /\ tx d' ∈ᵤ 64 /\
  (r = Err CounterOverflow <-> tx d = 2 ^ 64 - 1) /\ (r = Err CounterOverflow -> d' = d).
Proof.
  unfold send_test, checked_add, uint. intros E H. rewrite <- E.
  destruct (tx d + 1 <? 2 ^ 64) eqn:Et; bool_facts; simpl.
  - repeat split; try lia; discriminate.
  - repeat split; try done; lia.
Qed.
