(* ===== verification/Monitor.v ===== *)
(** * Runtime monitoring: events and their serial rendering

    Models [kernel/src/monitor]: the event record and the bounded,
    allocation-free renderer of the [EVT key=value] line. *)

From stdpp Require Import strings base decidable numbers option tactics list.
From S2P Require Import Prelude Bytes Thread Fault.
Local Open Scope Z_scope.

(** ** [monitor::event] *)

Inductive MonitorEventType :=
| TaskStarted | TaskExited | TaskFaulted | CapDenied | IpcDenied | MPageFault
| DeadlineMissed | MWatchdogTimeout | RecoveryApplied.

Definition event_name (t : MonitorEventType) : list Z :=
  match t with
  | TaskStarted => bstr "TASK_STARTED"
  | TaskExited => bstr "TASK_EXITED"
  | TaskFaulted => bstr "TASK_FAULTED"
  | CapDenied => bstr "CAP_DENIED"
  | IpcDenied => bstr "IPC_DENIED"
  | MPageFault => bstr "PAGE_FAULT"
  | DeadlineMissed => bstr "DEADLINE_MISSED"
  | MWatchdogTimeout => bstr "WATCHDOG_TIMEOUT"
  | RecoveryApplied => bstr "RECOVERY_APPLIED"
  end.

Definition event_severity (t : MonitorEventType) : Severity :=
  match t with
  | TaskStarted | TaskExited => Info
  | RecoveryApplied => Info
  | TaskFaulted | CapDenied | IpcDenied | MPageFault | DeadlineMissed => Error
  | MWatchdogTimeout => Critical
  end.

Inductive KernelPhase := PBoot | PTrap | PSyscall | PSched | PIpc | PFault | PUser.

Definition phase_name (p : KernelPhase) : list Z :=
  match p with
  | PBoot => bstr "boot" | PTrap => bstr "trap" | PSyscall => bstr "syscall"
  | PSched => bstr "sched" | PIpc => bstr "ipc" | PFault => bstr "fault" | PUser => bstr "user"
  end.

Record MonitorEvent := mkEvent {
  timestamp : Z; task : ThreadId; event_type : MonitorEventType; ev_severity : Severity;
  phase : KernelPhase; policy_result : option RecoveryDecision; related_cap : option Z;
  related_syscall : option Z
}.

Definition MonitorEvent_new (ts : Z) (t : ThreadId) (ty : MonitorEventType) (p : KernelPhase)
    : MonitorEvent := mkEvent ts t ty (event_severity ty) p None None None.

(** ** [monitor::serial] *)

Definition LINE_CAPACITY : nat := 192.

Record EventLine := mkLine { buf : list Z; len : nat; truncated : bool }.

(** [as_str]: the slice, and UTF-8 validity (a byte below 128 is a whole
    ASCII character; the renderer writes nothing else). *)
Definition as_str (self : EventLine) : outcome (list Z) :=
  s ← slice self.(buf) 0 self.(len);
  if forallb (fun b => b <? 128) s then mret s else Panic.

(** [BufWriter] over the writable prefix of the line. *)
Record BufWriter := mkWriter { w_buf : list Z; w_len : nat; overflow : bool }.

Definition write_str (self : BufWriter) (bytes : list Z) : outcome (BufWriter * bool) :=
  let space := (length self.(w_buf) - self.(w_len))%nat in
  if decide (space < length bytes)%nat then
    part ← slice bytes 0 space;
    b ← copy_at self.(w_buf) self.(w_len) (length self.(w_buf)) part;
    mret (mkWriter b (length self.(w_buf)) true, false)
  else
    b ← copy_at self.(w_buf) self.(w_len) (self.(w_len) + length bytes) bytes;
    mret (mkWriter b (self.(w_len) + length bytes) self.(overflow), true).

(** [write!]: the pieces in order, up to the first failure. *)
Fixpoint write_pieces (self : BufWriter) (pieces : list (list Z)) : outcome (BufWriter * bool) :=
  match pieces with
  | [] => mret (self, true)
  | p :: pieces =>
      r ← write_str self p;
      if (r.2 : bool) then write_pieces r.1 pieces else mret (r.1, false)
  end.

(** [{}] of an unsigned integer: its decimal digits. *)
Fixpoint dec_digits (fuel : nat) (x : Z) (acc : list Z) : list Z :=
  match fuel with
  | O => acc
  | S fuel => let acc := (48 + x mod 10) :: acc in
              if x / 10 =? 0 then acc else dec_digits fuel (x / 10) acc
  end.
Definition dec (x : Z) : list Z := dec_digits 20 x [].

Definition severity_name (s : Severity) : list Z :=
  match s with
  | Info => bstr "info" | Error => bstr "error" | Critical => bstr "critical" | Fatal => bstr "fatal"
  end.

Definition policy_name (d : RecoveryDecision) : list Z :=
  match d with
  | Kill => bstr "kill" | Restart => bstr "restart" | Suspend => bstr "suspend"
  | Quarantine => bstr "quarantine" | Escalate => bstr "escalate"
  end.

Definition MARKER : list Z := bstr " !truncated".

(** The [if result.is_ok() { if let Some(..) .. }] steps. *)
Definition write_opt {A} (st : BufWriter * bool) (o : option A) (pieces : A -> list (list Z))
    : outcome (BufWriter * bool) :=
  if st.2 then match o with Some a => write_pieces st.1 (pieces a) | None => mret st end
  else mret st.

(** The literal pieces and arguments of the four [write!] calls. *)
Definition base_pieces (event : MonitorEvent) : list (list Z) :=
  [bstr "EVT type="; event_name (event_type event); bstr " ts="; dec (timestamp event);
   bstr " task="; dec (as_u32 (task event)); bstr " sev=";
   severity_name (ev_severity event); bstr " phase="; phase_name (phase event)].
Definition policy_pieces (p : RecoveryDecision) : list (list Z) := [bstr " policy="; policy_name p].
Definition cap_pieces (c : Z) : list (list Z) := [bstr " cap="; dec c].
Definition syscall_pieces (s : Z) : list (list Z) := [bstr " syscall="; dec s].

Definition render (event : MonitorEvent) : outcome EventLine :=
  let full := replicate LINE_CAPACITY 0 in
  let writable := (LINE_CAPACITY - length MARKER)%nat in
  st ← write_pieces (mkWriter (take writable full) 0 false) (base_pieces event);
  st ← write_opt st (policy_result event) policy_pieces;
  st ← write_opt st (related_cap event) cap_pieces;
  st ← write_opt st (related_syscall event) syscall_pieces;
  let line := mkLine (w_buf st.1 ++ drop writable full) (w_len st.1) false in
  if (st.2 : bool) then mret line
  else
    b ← copy_at line.(buf) line.(len) (line.(len) + length MARKER) MARKER;
    mret (mkLine b (line.(len) + length MARKER) true).

(** [export]: the line, then a newline, to the sink. *)
Definition export (event : MonitorEvent) : outcome (list (list Z)) :=
  line ← render event; s ← as_str line; mret [s; [10]].

(** ** The renderer writes the whole line *)

Definition line_text (e : MonitorEvent) : list Z :=
  bstr "EVT type=" ++ event_name (event_type e) ++ bstr " ts=" ++ dec (timestamp e) ++
  bstr " task=" ++ dec (as_u32 (task e)) ++ bstr " sev=" ++ severity_name (ev_severity e) ++
  bstr " phase=" ++ phase_name (phase e) ++
  match policy_result e with Some p => bstr " policy=" ++ policy_name p | None => [] end ++
  match related_cap e with Some c => bstr " cap=" ++ dec c | None => [] end ++
  match related_syscall e with Some s => bstr " syscall=" ++ dec s | None => [] end.

(** The value of a decimal string. *)
Definition dec_value : list Z -> Z := foldl (fun v d => 10 * v + (d - 48)) 0.

Lemma dec_digits_length fuel x acc : (length (dec_digits fuel x acc) <= fuel + length acc)%nat.
Proof.
  revert x acc; induction fuel as [|fuel IH]; intros x acc; simpl; [lia|].
  case_match; simpl; [lia|]. etrans; [apply IH|]. simpl. lia.
Qed.

Lemma dec_digits_value fuel x acc : 0 <= x < 10 ^ Z.of_nat fuel -> (0 < fuel)%nat ->
  dec_value (dec_digits fuel x acc) = foldl (fun v d => 10 * v + (d - 48)) x acc.
Proof.
  revert x acc; induction fuel as [|fuel IH]; intros x acc Hx Hf; [lia|]. cbn [dec_digits].
  pose proof (Z.div_mod x 10). pose proof (Z.mod_pos_bound x 10).
  destruct (Z.eqb_spec (x / 10) 0) as [E|E].
  - unfold dec_value. cbn [foldl]. f_equal. lia.
  - rewrite Nat2Z.inj_succ, Z.pow_succ_r in Hx by lia.
    rewrite IH; [cbn [foldl]; f_equal; lia| |].
    + split; [apply Z.div_pos; lia|]. apply Z.div_lt_upper_bound; lia.
    + destruct fuel; [|lia]. simpl in Hx. exfalso. apply E. apply Z.div_small. lia.
Qed.

Lemma dec_digits_ascii fuel x acc : Forall (fun b => 0 <= b < 128) acc ->
  Forall (fun b => 0 <= b < 128) (dec_digits fuel x acc).
Proof.
  revert x acc; induction fuel as [|fuel IH]; intros x acc H; [done|]. cbn [dec_digits].
  assert (Forall (fun b => 0 <= b < 128) ((48 + x mod 10) :: acc)).
  { constructor; [|done]. pose proof (Z.mod_pos_bound x 10). lia. }
  case_match; auto.
Qed.

Lemma dec_digits_range fuel x acc : Forall (fun d => 48 <= d <= 57) acc ->
  Forall (fun d => 48 <= d <= 57) (dec_digits fuel x acc).
Proof.
  revert x acc. induction fuel as [|fuel IH]; intros x acc Ha; cbn [dec_digits]; [done|].
  pose proof (Z.mod_pos_bound x 10). case_match; [constructor; [lia|done]|]. apply IH. constructor; [lia|done].
Qed.
Lemma dec_range x : Forall (fun d => 48 <= d <= 57) (dec x).
Proof. apply dec_digits_range. constructor. Qed.

Lemma dec_length x : (length (dec x) <= 20)%nat.
Proof. unfold dec. etrans; [apply dec_digits_length|]. simpl. lia. Qed.

Lemma dec_roundtrip x : x ∈ᵤ 64 -> dec_value (dec x) = x.
Proof.
  intros [H1 H2]. unfold dec. rewrite dec_digits_value; [done| |lia].
  split; [done|]. eapply Z.lt_trans; [exact H2|]. reflexivity.
Qed.

(** The writer's buffer starts with exactly what was written. *)
Definition wrote (w : BufWriter) (cap : nat) (content : list Z) : Prop :=
  length (w_buf w) = cap /\ w_len w = length content /\ take (length content) (w_buf w) = content.

Lemma write_str_ok w cap content bytes : wrote w cap content ->
  (length content + length bytes <= cap)%nat ->
  exists w', write_str w bytes = Val (w', true) /\ wrote w' cap (content ++ bytes).
Proof.
  intros (Hc & Hl & Ht) Hfit. unfold write_str. rewrite decide_False by lia.
  unfold copy_at. rewrite decide_True by lia. eexists; split; [done|]. unfold wrote; simpl.
  rewrite Hl, Ht. repeat split.
  - rewrite !length_app, length_drop. lia.
  - by rewrite length_app.
  - rewrite app_assoc. apply take_app_length.
Qed.

Lemma write_pieces_ok w cap content pieces : wrote w cap content ->
  (length content + length (concat pieces) <= cap)%nat ->
  exists w', write_pieces w pieces = Val (w', true) /\ wrote w' cap (content ++ concat pieces).
Proof.
  revert w content; induction pieces as [|p ps IH]; intros w content Hw Hfit; simpl in *.
  { exists w. by rewrite app_nil_r. }
  rewrite length_app in Hfit.
  destruct (write_str_ok w cap content p Hw) as (w1 & -> & Hw1); [lia|]. simpl.
  destruct (IH w1 (content ++ p) Hw1) as (w2 & -> & Hw2); [rewrite length_app; lia|].
  exists w2. by rewrite app_assoc.
Qed.

Lemma write_opt_ok {A} w cap content (o : option A) pieces : wrote w cap content ->
  (length content + length (match o with Some a => concat (pieces a) | None => [] end) <= cap)%nat ->
  exists w', write_opt (w, true) o pieces = Val (w', true) /\
    wrote w' cap (content ++ match o with Some a => concat (pieces a) | None => [] end).
Proof.
  intros Hw Hfit. unfold write_opt; simpl. destruct o as [a|].
  - by apply write_pieces_ok.
  - exists w. by rewrite app_nil_r.
Qed.

(** The fixed texts of an event, longest case. *)
Lemma names_bound e :
  (length (event_name (event_type e)) <= 16)%nat /\
  (length (severity_name (ev_severity e)) <= 8)%nat /\ (length (phase_name (phase e)) <= 7)%nat /\
  (forall p, length (policy_name p) <= 10)%nat.
Proof.
  split; [destruct (event_type e); simpl; lia|]. split; [destruct (ev_severity e); simpl; lia|].
  split; [destruct (phase e); simpl; lia|]. intros p; destruct p; simpl; lia.
Qed.

Lemma line_text_length e : (length (line_text e) <= 174)%nat.
Proof.
  destruct (names_bound e) as (H1 & H2 & H3 & H4). unfold line_text. rewrite !length_app.
  pose proof (dec_length (timestamp e)). pose proof (dec_length (as_u32 (task e))).
  assert (length match policy_result e with
                 | Some p => bstr " policy=" ++ policy_name p | None => [] end <= 18)%nat as H5.
  { destruct (policy_result e) as [p|]; [|simpl; lia]. rewrite length_app. specialize (H4 p). simpl. lia. }
  assert (length match related_cap e with Some c => bstr " cap=" ++ dec c | None => [] end <= 25)%nat as H6.
  { destruct (related_cap e) as [c|]; [|simpl; lia]. rewrite length_app.
    pose proof (dec_length c). simpl. lia. }
  assert (length match related_syscall e with Some s => bstr " syscall=" ++ dec s | None => [] end <= 29)%nat as H7.
  { destruct (related_syscall e) as [c|]; [|simpl; lia]. rewrite length_app.
    pose proof (dec_length c). simpl. lia. }
  change (length (bstr "EVT type=")) with 9%nat. change (length (bstr " ts=")) with 4%nat.
  change (length (bstr " task=")) with 6%nat. change (length (bstr " sev=")) with 5%nat.
  change (length (bstr " phase=")) with 7%nat. lia.
Qed.

Definition ascii (l : list Z) : Prop := Forall (fun b => 0 <= b < 128) l.

Lemma dec_ascii x : ascii (dec x).
Proof. by apply dec_digits_ascii. Qed.

Lemma line_text_ascii e : ascii (line_text e).
Proof.
  unfold line_text, ascii. rewrite !Forall_app.
  assert (forall s, bool_decide (Forall (fun b => 0 <= b < 128) (bstr s)) = true ->
    Forall (fun b => 0 <= b < 128) (bstr s)) as Hs by (intros s; apply bool_decide_eq_true).
  repeat split; try (by apply Hs); try apply dec_ascii.
  - destruct (event_type e); by apply Hs.
  - destruct (ev_severity e); by apply Hs.
  - destruct (phase e); by apply Hs.
  - destruct (policy_result e) as [p|]; [|constructor]. apply Forall_app; split; [by apply Hs|].
    destruct p; by apply Hs.
  - destruct (related_cap e); [|constructor]. apply Forall_app; split; [by apply Hs|apply dec_ascii].
  - destruct (related_syscall e); [|constructor]. apply Forall_app; split; [by apply Hs|apply dec_ascii].
Qed.

Definition opt_text {A} (o : option A) (pieces : A -> list (list Z)) : list Z :=
  match o with Some a => concat (pieces a) | None => [] end.

Lemma line_text_pieces e :
  line_text e = ((concat (base_pieces e) ++ opt_text (policy_result e) policy_pieces) ++
    opt_text (related_cap e) cap_pieces) ++ opt_text (related_syscall e) syscall_pieces.
Proof.
  unfold line_text, base_pieces, policy_pieces, cap_pieces, syscall_pieces, opt_text.
  destruct (policy_result e), (related_cap e), (related_syscall e); cbn [concat];
    by rewrite ?app_nil_r, <- ?app_assoc.
Qed.

Lemma render_text e : exists line, render e = Val line /\ truncated line = false /\
  slice (buf line) 0 (len line) = Val (line_text e).
Proof.
  pose proof (line_text_length e) as Hlen. rewrite line_text_pieces, !length_app in Hlen.
  unfold render. set (cap := (LINE_CAPACITY - length MARKER)%nat).
  assert (cap = 181)%nat as Hcap by reflexivity.
  assert (wrote (mkWriter (take cap (replicate LINE_CAPACITY 0)) 0 false) cap []) as W0 by done.
  clearbody cap.
  destruct (write_pieces_ok _ cap [] (base_pieces e) W0) as (w1 & -> & W1);
    [cbn [length]; lia|]; cbn [mbind outcome_bind]. rewrite app_nil_l in W1.
  destruct (write_opt_ok w1 cap _ (policy_result e) policy_pieces W1) as (w2 & -> & W2);
    fold (opt_text (policy_result e) policy_pieces) in *; [lia|]; cbn [mbind outcome_bind].
  destruct (write_opt_ok w2 cap _ (related_cap e) cap_pieces W2) as (w3 & -> & W3);
    fold (opt_text (related_cap e) cap_pieces) in *; [rewrite !length_app; lia|];
    cbn [mbind outcome_bind].
  destruct (write_opt_ok w3 cap _ (related_syscall e) syscall_pieces W3) as (w4 & -> & W4);
    fold (opt_text (related_syscall e) syscall_pieces) in *; [rewrite !length_app; lia|];
    cbn [mbind outcome_bind fst snd].
  eexists; split; [done|]. split; [done|]. cbn [buf len].
  rewrite <- line_text_pieces in W4. destruct W4 as (Hc & Hl & Ht). unfold slice.
  rewrite decide_True by (rewrite length_app; rewrite Hl in *; apply (f_equal length) in Ht;
    rewrite length_take in Ht; lia).
  rewrite drop_0, Nat.sub_0_r, Hl, take_app_le.
  - by rewrite Ht.
  - apply (f_equal length) in Ht. rewrite length_take in Ht. lia.
Qed.

Lemma export_text e : export e = Val [line_text e; [10]].
Proof.
  destruct (render_text e) as (line & E & _ & Hs). pose proof (line_text_ascii e) as Ha.
  unfold export. rewrite E. cbn [mbind outcome_bind]. unfold as_str. rewrite Hs. cbn [mbind outcome_bind].
  assert (forallb (fun b => b <? 128) (line_text e) = true) as ->; [|done].
  apply forallb_forall. intros b Hb. apply list_elem_of_In in Hb.
  unfold ascii in Ha. rewrite Forall_forall in Ha. apply Ha in Hb. apply Z.ltb_lt. lia.
Qed.

(** The event line is always complete: for every event, rendering and
    exporting never panic, nothing is truncated, and the sink gets exactly
    the documented line (pure ASCII, at most 174 of 192 bytes) followed by a
    newline; the decimal fields read back as the numbers of the event. *)
Theorem monitor_export_complete e :
  timestamp e ∈ᵤ 64 -> as_u32 (task e) ∈ᵤ 32 ->
  (exists line, render e = Val line /\ truncated line = false) /\
  export e = Val [line_text e; [10]] /\ (length (line_text e) <= 174)%nat /\
  ascii (line_text e) /\
  dec_value (dec (timestamp e)) = timestamp e /\
  dec_value (dec (as_u32 (task e))) = as_u32 (task e).
Proof.
  intros Hts Htid. destruct (render_text e) as (line & E & Ht & Hs).
  pose proof (line_text_ascii e) as Ha. split; [by exists line|]. split; [apply export_text|split; [|split]].
  - apply line_text_length.
  - done.
  - split; apply dec_roundtrip; [done|]. unfold uint in *. lia.
Qed.

Lemma monitor_export_complete_witness :
  export (MonitorEvent_new 128 (mkThreadId 3) TaskStarted PBoot) =
  Val [bstr "EVT type=TASK_STARTED ts=128 task=3 sev=info phase=boot"; [10]].
Proof.
  apply (monitor_export_complete (MonitorEvent_new 128 (mkThreadId 3) TaskStarted PBoot));
    vm_compute; split; congruence.
Defined.
