(* ===== verification/Kernel.v ===== *)
(** * The dispatcher's state and monad

    The static state of [kernel/src/arch/riscv64/dispatch.rs] as one record,
    the trap frame of [trap.rs], the polled serial port of [uart.rs], and the
    monad the dispatcher's functions are written in.  The live trap frame,
    which the source passes as [&mut TrapFrame], is a field of the state, and
    so are the hardware the source reaches through volatile accesses: the
    memory user addresses resolve to, the serial port and the device
    registers.

    Statements of the source and their reading here: a function returns
    ([Ret]), never returns because it spins or shuts down ([Stop]), or hits a
    Rust panic or an access outside a kernel object ([Crash]). *)

From stdpp Require Import strings base decidable numbers option tactics list.
From S2P Require Import Prelude Bytes Memory Sv39 Paging PagingHw Device.
Local Open Scope Z_scope.

(** ** [trap.rs]: the trap frame *)

Record TrapFrame := mkFrame { regs : list Z; sepc : Z; sstatus : Z }.

(** [regs[i]] with a literal index below 31. *)
Definition reg (f : TrapFrame) (i : nat) : Z := default 0 (f.(regs) !! i).
Definition a7 (f : TrapFrame) : Z := reg f 16.
Definition frame_set_a0 (f : TrapFrame) (v : Z) : TrapFrame :=
  mkFrame (<[9%nat := u64_of_i64 v]> f.(regs)) f.(sepc) f.(sstatus).
Definition SSTATUS_SPP : Z := 1 .<< 8.
Definition SSTATUS_SPIE : Z := 1 .<< 5.
Definition is_from_user (f : TrapFrame) : bool := (f.(sstatus) .& SSTATUS_SPP) =? 0.
Definition new_user (entry user_sp : Z) : TrapFrame :=
  mkFrame (<[1%nat := user_sp]> (replicate 31 0)) entry SSTATUS_SPIE.

(** ** [dispatch.rs]: constants and data *)

Definition SYS_YIELD : Z := 1.
Definition SYS_EXIT : Z := 2.
Definition SYS_SEND : Z := 3.
Definition SYS_RECV : Z := 4.
Definition SYS_FAULT_ACK : Z := 7.
Definition SYS_TASK_START : Z := 8.
Definition SYS_CON_WRITE : Z := 9.
Definition SYS_CON_READ : Z := 10.
Definition SYS_INFO : Z := 11.
Definition SYS_TASK_KILL : Z := 12.
Definition SYS_TASK_RESTART : Z := 13.
Definition SYS_SHUTDOWN : Z := 14.
Definition SYS_DEVICE_INFO : Z := 15.
Definition SYS_MMIO_READ : Z := 16.
Definition SYS_MMIO_WRITE : Z := 17.
Definition SYS_DMA_READ : Z := 18.
Definition SYS_DMA_WRITE : Z := 19.
Definition SYS_IRQ_RAISE : Z := 20.

Definition ERR_INVALID_CAP : Z := -2.
Definition ERR_INSUFFICIENT_RIGHTS : Z := -3.
Definition ERR_WRONG_OBJECT_TYPE : Z := -4.
Definition ERR_INVALID_ARG : Z := -5.
Definition ERR_MSG_TOO_LARGE : Z := -6.
Definition ERR_NO_SLOT : Z := -7.

Definition OTYPE_ENDPOINT : Z := 0.
Definition OTYPE_CONSOLE : Z := 1.
Definition OTYPE_CONTROL : Z := 2.
Definition OTYPE_INFO : Z := 3.
Definition OTYPE_DEVICE : Z := 4.
Definition RIGHT_SEND : Z := 1 .<< 3.
Definition RIGHT_RECV : Z := 1 .<< 4.
Definition RIGHT_CONTROL : Z := 1 .<< 7.
Definition DEV_RIGHT_INFO : Z := 1 .<< 0.
Definition DEV_RIGHT_MMIO_READ : Z := 1 .<< 1.
Definition DEV_RIGHT_MMIO_WRITE : Z := 1 .<< 2.
Definition DEV_RIGHT_DMA_READ : Z := 1 .<< 3.
Definition DEV_RIGHT_DMA_WRITE : Z := 1 .<< 4.
Definition DEV_RIGHT_IRQ_RECEIVE : Z := 1 .<< 5.
Definition DEV_RIGHT_DRIVER_CONTROL : Z := 1 .<< 6.

Definition CAPS_PER_TASK : nat := 9.
Definition MAX_TASKS : nat := 16.
Definition WATCHDOG_WINDOW : Z := 4.
Definition IPC_MSG_MAX : Z := 128.
Definition USER_DATA_VA : Z := 0x200000.
Definition USER_DATA_END : Z := USER_DATA_VA + 0x1000.
Definition NUM_ENDPOINTS : nat := 12.
Definition RING_LEN : nat := 32.
Definition INFO_MAX : Z := 768.
Definition IRQ_EVENT_CODE : Z := 0x10.
Definition IRQ_PENDING : Z := 1.
Definition EP_FAULT : Z := 2.
Definition EP_EVENT : Z := 3.
Definition FAULT_CODE_WATCHDOG : Z := 4.

Definition EV_STARTED : Z := 0.
Definition EV_EXITED : Z := 1.
Definition EV_FAULT : Z := 2.
Definition EV_CAP_DENIED : Z := 3.
Definition EV_RECOVERY : Z := 4.
Definition EV_KILLED : Z := 5.
Definition EV_RESTARTED : Z := 6.

(** [struct Cap] *)
Record Cap := mkCap { otype : Z; object_id : Z; rights : Z }.
Definition cap_endpoint (object_id rights : Z) : Cap := mkCap OTYPE_ENDPOINT object_id rights.
Definition cap_console (rights : Z) : Cap := mkCap OTYPE_CONSOLE 0 rights.
Definition cap_control : Cap := mkCap OTYPE_CONTROL 0 RIGHT_CONTROL.
Definition cap_info : Cap := mkCap OTYPE_INFO 0 RIGHT_RECV.
Definition cap_device (object_id rights : Z) : Cap := mkCap OTYPE_DEVICE object_id rights.

Inductive CapCheck := CcOk (id : Z) | CcInvalidCap | CcWrongType | CcInsufficientRights.

Record PendingMsg := mkPending { pm_dst : Z; pm_len : Z; pm_data : list Z }.

Inductive RtState := Empty | Ready | Running | Blocked | Faulted | Killed.
#[export] Instance RtState_eq_dec : EqDecision RtState.
Proof. solve_decision. Defined.

Record Tcb := mkTcb {
  t_state : RtState; t_prio : Z; t_satp_root : Z; t_frame : TrapFrame;
  t_pending_ipc : option PendingMsg; t_caps : list (option Cap); t_name : string;
  t_entry_va : Z; t_stack_top_va : Z
}.

Definition EMPTY_TCB : Tcb :=
  mkTcb Empty 0 0 (mkFrame (replicate 31 0) 0 0) None (replicate CAPS_PER_TASK None) "" 0 0.

(** [enum Ep] *)
Inductive Ep :=
| EpIdle
| SenderWaiting (tid : nat) (len : Z)
| ReceiverWaiting (tid : nat) (dst cap : Z).

Record IrqRoute := mkRoute { receiver : nat; pending : bool }.

Record DeviceDef := mkDeviceDef {
  d_name : string; d_kind : string; d_mmio_name : string; d_mmio_base : Z; d_mmio_size : Z;
  d_irq_endpoint : Z; d_irq_name : string; d_dma_name : string; d_dma_size : Z
}.

Definition DEVICES : list DeviceDef :=
  [mkDeviceDef "block0" "block_skeleton" "virtio_mmio0" 0x10001000 0x200 8 "driver_irq"
     "block0_dma" 4096;
   mkDeviceDef "net0" "network_synthetic" "none" 0 0 10 "net_irq" "none" 0].

Record ServiceDef := mkService {
  sd_name : string; sd_entry : Z; sd_stack_phys : Z; sd_prio : Z; sd_slot : nat;
  sd_caps : list (option Cap)
}.

(** One access to a device register window, for the trace. *)
Inductive MmioAccess := MmioRd (addr width value : Z) | MmioWr (addr width value : Z).

(** The static state, and the hardware behind it. *)
Record Kernel := mkKernel {
  tasks : list Tcb; (** [TASKS] *)
  current : nat; (** [CURRENT] *)
  active : bool; (** [ACTIVE] *)
  watchdog_miss : Z; (** [WATCHDOG_MISS] *)
  endpoints : list Ep; (** [ENDPOINTS] *)
  kmsg : list Z; (** [KMSG] *)
  irq_routes : list IrqRoute; (** [IRQ_ROUTES] *)
  block0_dma : list Z; (** [BLOCK0_DMA] *)
  ticks : Z; (** [TICKS] *)
  delivered : Z; (** [DELIVERED] *)
  ring : list (Z * Z); (** [RING] *)
  ring_head : Z; (** [RING_HEAD] *)
  service_table : option (list ServiceDef); (** [SERVICE_TABLE] *)
  user_tables : list (list Table); (** [paging_hw::USER_TABLES] *)
  live : TrapFrame; (** the trap frame passed to the handler *)
  satp : Z; (** the [satp] register *)
  umem : Z -> Z -> Z; (** the byte an address resolves to under a [satp] value *)
  uart_out : list Z; (** bytes sent *)
  uart_in : list Z; (** bytes waiting *)
  mmio_log : list MmioAccess; (** device register accesses *)
  timer_ticks : Z; (** [timer::TICKS] *)
  cont_pc : Z; (** [trap::USER_FAULT_CONT_PC] *)
  cont_sp : Z; (** [trap::USER_FAULT_CONT_SP] *)
  stimer : Z (** the time the next timer interrupt is programmed for *)
}.

Definition set_tasks (v : list Tcb) (k : Kernel) : Kernel :=
  mkKernel v (current k) (active k) (watchdog_miss k) (endpoints k) (kmsg k) (irq_routes k)
    (block0_dma k) (ticks k) (delivered k) (ring k) (ring_head k) (service_table k)
    (user_tables k) (live k) (satp k) (umem k) (uart_out k) (uart_in k) (mmio_log k)
    (timer_ticks k) (cont_pc k) (cont_sp k) (stimer k).
Definition set_current (v : nat) (k : Kernel) : Kernel :=
  mkKernel (tasks k) v (active k) (watchdog_miss k) (endpoints k) (kmsg k) (irq_routes k)
    (block0_dma k) (ticks k) (delivered k) (ring k) (ring_head k) (service_table k)
    (user_tables k) (live k) (satp k) (umem k) (uart_out k) (uart_in k) (mmio_log k)
    (timer_ticks k) (cont_pc k) (cont_sp k) (stimer k).
Definition set_active (v : bool) (k : Kernel) : Kernel :=
  mkKernel (tasks k) (current k) v (watchdog_miss k) (endpoints k) (kmsg k) (irq_routes k)
    (block0_dma k) (ticks k) (delivered k) (ring k) (ring_head k) (service_table k)
    (user_tables k) (live k) (satp k) (umem k) (uart_out k) (uart_in k) (mmio_log k)
    (timer_ticks k) (cont_pc k) (cont_sp k) (stimer k).
Definition set_watchdog_miss (v : Z) (k : Kernel) : Kernel :=
  mkKernel (tasks k) (current k) (active k) v (endpoints k) (kmsg k) (irq_routes k)
    (block0_dma k) (ticks k) (delivered k) (ring k) (ring_head k) (service_table k)
    (user_tables k) (live k) (satp k) (umem k) (uart_out k) (uart_in k) (mmio_log k)
    (timer_ticks k) (cont_pc k) (cont_sp k) (stimer k).
Definition set_endpoints (v : list Ep) (k : Kernel) : Kernel :=
  mkKernel (tasks k) (current k) (active k) (watchdog_miss k) v (kmsg k) (irq_routes k)
    (block0_dma k) (ticks k) (delivered k) (ring k) (ring_head k) (service_table k)
    (user_tables k) (live k) (satp k) (umem k) (uart_out k) (uart_in k) (mmio_log k)
    (timer_ticks k) (cont_pc k) (cont_sp k) (stimer k).
Definition set_kmsg (v : list Z) (k : Kernel) : Kernel :=
  mkKernel (tasks k) (current k) (active k) (watchdog_miss k) (endpoints k) v (irq_routes k)
    (block0_dma k) (ticks k) (delivered k) (ring k) (ring_head k) (service_table k)
    (user_tables k) (live k) (satp k) (umem k) (uart_out k) (uart_in k) (mmio_log k)
    (timer_ticks k) (cont_pc k) (cont_sp k) (stimer k).
Definition set_irq_routes (v : list IrqRoute) (k : Kernel) : Kernel :=
  mkKernel (tasks k) (current k) (active k) (watchdog_miss k) (endpoints k) (kmsg k) v
    (block0_dma k) (ticks k) (delivered k) (ring k) (ring_head k) (service_table k)
    (user_tables k) (live k) (satp k) (umem k) (uart_out k) (uart_in k) (mmio_log k)
    (timer_ticks k) (cont_pc k) (cont_sp k) (stimer k).
Definition set_block0_dma (v : list Z) (k : Kernel) : Kernel :=
  mkKernel (tasks k) (current k) (active k) (watchdog_miss k) (endpoints k) (kmsg k)
    (irq_routes k) v (ticks k) (delivered k) (ring k) (ring_head k) (service_table k)
    (user_tables k) (live k) (satp k) (umem k) (uart_out k) (uart_in k) (mmio_log k)
    (timer_ticks k) (cont_pc k) (cont_sp k) (stimer k).
Definition set_ticks (v : Z) (k : Kernel) : Kernel :=
  mkKernel (tasks k) (current k) (active k) (watchdog_miss k) (endpoints k) (kmsg k)
    (irq_routes k) (block0_dma k) v (delivered k) (ring k) (ring_head k) (service_table k)
    (user_tables k) (live k) (satp k) (umem k) (uart_out k) (uart_in k) (mmio_log k)
    (timer_ticks k) (cont_pc k) (cont_sp k) (stimer k).
Definition set_delivered (v : Z) (k : Kernel) : Kernel :=
  mkKernel (tasks k) (current k) (active k) (watchdog_miss k) (endpoints k) (kmsg k)
    (irq_routes k) (block0_dma k) (ticks k) v (ring k) (ring_head k) (service_table k)
    (user_tables k) (live k) (satp k) (umem k) (uart_out k) (uart_in k) (mmio_log k)
    (timer_ticks k) (cont_pc k) (cont_sp k) (stimer k).
Definition set_ring (v : list (Z * Z)) (k : Kernel) : Kernel :=
  mkKernel (tasks k) (current k) (active k) (watchdog_miss k) (endpoints k) (kmsg k)
    (irq_routes k) (block0_dma k) (ticks k) (delivered k) v (ring_head k) (service_table k)
    (user_tables k) (live k) (satp k) (umem k) (uart_out k) (uart_in k) (mmio_log k)
    (timer_ticks k) (cont_pc k) (cont_sp k) (stimer k).
Definition set_ring_head (v : Z) (k : Kernel) : Kernel :=
  mkKernel (tasks k) (current k) (active k) (watchdog_miss k) (endpoints k) (kmsg k)
    (irq_routes k) (block0_dma k) (ticks k) (delivered k) (ring k) v (service_table k)
    (user_tables k) (live k) (satp k) (umem k) (uart_out k) (uart_in k) (mmio_log k)
    (timer_ticks k) (cont_pc k) (cont_sp k) (stimer k).
Definition set_service_table (v : option (list ServiceDef)) (k : Kernel) : Kernel :=
  mkKernel (tasks k) (current k) (active k) (watchdog_miss k) (endpoints k) (kmsg k)
    (irq_routes k) (block0_dma k) (ticks k) (delivered k) (ring k) (ring_head k) v
    (user_tables k) (live k) (satp k) (umem k) (uart_out k) (uart_in k) (mmio_log k)
    (timer_ticks k) (cont_pc k) (cont_sp k) (stimer k).
Definition set_user_tables (v : list (list Table)) (k : Kernel) : Kernel :=
  mkKernel (tasks k) (current k) (active k) (watchdog_miss k) (endpoints k) (kmsg k)
    (irq_routes k) (block0_dma k) (ticks k) (delivered k) (ring k) (ring_head k)
    (service_table k) v (live k) (satp k) (umem k) (uart_out k) (uart_in k) (mmio_log k)
    (timer_ticks k) (cont_pc k) (cont_sp k) (stimer k).
Definition set_live (v : TrapFrame) (k : Kernel) : Kernel :=
  mkKernel (tasks k) (current k) (active k) (watchdog_miss k) (endpoints k) (kmsg k)
    (irq_routes k) (block0_dma k) (ticks k) (delivered k) (ring k) (ring_head k)
    (service_table k) (user_tables k) v (satp k) (umem k) (uart_out k) (uart_in k) (mmio_log k)
    (timer_ticks k) (cont_pc k) (cont_sp k) (stimer k).
Definition set_satp (v : Z) (k : Kernel) : Kernel :=
  mkKernel (tasks k) (current k) (active k) (watchdog_miss k) (endpoints k) (kmsg k)
    (irq_routes k) (block0_dma k) (ticks k) (delivered k) (ring k) (ring_head k)
    (service_table k) (user_tables k) (live k) v (umem k) (uart_out k) (uart_in k) (mmio_log k)
    (timer_ticks k) (cont_pc k) (cont_sp k) (stimer k).
Definition set_umem (v : Z -> Z -> Z) (k : Kernel) : Kernel :=
  mkKernel (tasks k) (current k) (active k) (watchdog_miss k) (endpoints k) (kmsg k)
    (irq_routes k) (block0_dma k) (ticks k) (delivered k) (ring k) (ring_head k)
    (service_table k) (user_tables k) (live k) (satp k) v (uart_out k) (uart_in k) (mmio_log k)
    (timer_ticks k) (cont_pc k) (cont_sp k) (stimer k).
Definition set_uart_out (v : list Z) (k : Kernel) : Kernel :=
  mkKernel (tasks k) (current k) (active k) (watchdog_miss k) (endpoints k) (kmsg k)
    (irq_routes k) (block0_dma k) (ticks k) (delivered k) (ring k) (ring_head k)
    (service_table k) (user_tables k) (live k) (satp k) (umem k) v (uart_in k) (mmio_log k)
    (timer_ticks k) (cont_pc k) (cont_sp k) (stimer k).
Definition set_uart_in (v : list Z) (k : Kernel) : Kernel :=
  mkKernel (tasks k) (current k) (active k) (watchdog_miss k) (endpoints k) (kmsg k)
    (irq_routes k) (block0_dma k) (ticks k) (delivered k) (ring k) (ring_head k)
    (service_table k) (user_tables k) (live k) (satp k) (umem k) (uart_out k) v (mmio_log k)
    (timer_ticks k) (cont_pc k) (cont_sp k) (stimer k).
Definition set_mmio_log (v : list MmioAccess) (k : Kernel) : Kernel :=
  mkKernel (tasks k) (current k) (active k) (watchdog_miss k) (endpoints k) (kmsg k)
    (irq_routes k) (block0_dma k) (ticks k) (delivered k) (ring k) (ring_head k)
    (service_table k) (user_tables k) (live k) (satp k) (umem k) (uart_out k) (uart_in k) v
    (timer_ticks k) (cont_pc k) (cont_sp k) (stimer k).
Definition set_timer_ticks (v : Z) (k : Kernel) : Kernel :=
  mkKernel (tasks k) (current k) (active k) (watchdog_miss k) (endpoints k) (kmsg k)
    (irq_routes k) (block0_dma k) (ticks k) (delivered k) (ring k) (ring_head k)
    (service_table k) (user_tables k) (live k) (satp k) (umem k) (uart_out k) (uart_in k)
    (mmio_log k) v (cont_pc k) (cont_sp k) (stimer k).
Definition set_cont_pc (v : Z) (k : Kernel) : Kernel :=
  mkKernel (tasks k) (current k) (active k) (watchdog_miss k) (endpoints k) (kmsg k)
    (irq_routes k) (block0_dma k) (ticks k) (delivered k) (ring k) (ring_head k)
    (service_table k) (user_tables k) (live k) (satp k) (umem k) (uart_out k) (uart_in k)
    (mmio_log k) (timer_ticks k) v (cont_sp k) (stimer k).
Definition set_cont_sp (v : Z) (k : Kernel) : Kernel :=
  mkKernel (tasks k) (current k) (active k) (watchdog_miss k) (endpoints k) (kmsg k)
    (irq_routes k) (block0_dma k) (ticks k) (delivered k) (ring k) (ring_head k)
    (service_table k) (user_tables k) (live k) (satp k) (umem k) (uart_out k) (uart_in k)
    (mmio_log k) (timer_ticks k) (cont_pc k) v (stimer k).
Definition set_stimer (v : Z) (k : Kernel) : Kernel :=
  mkKernel (tasks k) (current k) (active k) (watchdog_miss k) (endpoints k) (kmsg k)
    (irq_routes k) (block0_dma k) (ticks k) (delivered k) (ring k) (ring_head k)
    (service_table k) (user_tables k) (live k) (satp k) (umem k) (uart_out k) (uart_in k)
    (mmio_log k) (timer_ticks k) (cont_pc k) (cont_sp k) v.

(** ** The monad *)

Inductive stop_reason := IdleLoop | Shutdown.

Inductive exec (A : Type) :=
| Ret (a : A) (k : Kernel)
| Stop (r : stop_reason) (k : Kernel)
| Crash.
Arguments Ret {A} a k.
Arguments Stop {A} r k.
Arguments Crash {A}.

Definition M (A : Type) : Type := Kernel -> exec A.

#[export] Instance M_ret : MRet M := fun A a k => Ret a k.
#[export] Instance M_bind : MBind M := fun A B f m k =>
  match m k with Ret a k' => f a k' | Stop r k' => Stop r k' | Crash => Crash end.

Definition get {A} (f : Kernel -> A) : M A := fun k => Ret (f k) k.
Definition modify (f : Kernel -> Kernel) : M () := fun k => Ret tt (f k).
Definition stop {A} (r : stop_reason) : M A := fun k => Stop r k.
Definition crash {A} : M A := fun _ => Crash.
Definition lift {A} (o : outcome A) : M A :=
  match o with Val a => mret a | Panic => crash end.

(** [while i < n { body(i); i += 1 }] and [for x in l]. *)
Fixpoint for_each {A} (f : A -> M ()) (l : list A) : M () :=
  match l with [] => mret tt | a :: l => f a ;; for_each f l end.

(** Indexing a static array, with its bounds check. *)
Definition task (i : nat) : M Tcb := ts ← get tasks; lift (arr_get ts i).
Definition put_task (i : nat) (t : Tcb) : M () :=
  ts ← get tasks; ts' ← lift (arr_set ts i t); modify (set_tasks ts').

Definition with_state (s : RtState) (t : Tcb) : Tcb :=
  mkTcb s (t_prio t) (t_satp_root t) (t_frame t) (t_pending_ipc t) (t_caps t) (t_name t)
    (t_entry_va t) (t_stack_top_va t).
Definition with_frame (f : TrapFrame) (t : Tcb) : Tcb :=
  mkTcb (t_state t) (t_prio t) (t_satp_root t) f (t_pending_ipc t) (t_caps t) (t_name t)
    (t_entry_va t) (t_stack_top_va t).
Definition with_pending (p : option PendingMsg) (t : Tcb) : Tcb :=
  mkTcb (t_state t) (t_prio t) (t_satp_root t) (t_frame t) p (t_caps t) (t_name t)
    (t_entry_va t) (t_stack_top_va t).
Definition with_caps (c : list (option Cap)) (t : Tcb) : Tcb :=
  mkTcb (t_state t) (t_prio t) (t_satp_root t) (t_frame t) (t_pending_ipc t) c (t_name t)
    (t_entry_va t) (t_stack_top_va t).

(** [tasks[i].field = ..] *)
Definition upd_task (i : nat) (f : Tcb -> Tcb) : M () := t ← task i; put_task i (f t).

(** [frame.set_a0(v)] on the live frame. *)
Definition set_a0 (v : Z) : M () := f ← get live; modify (set_live (frame_set_a0 f v)).
Definition arg (i : nat) : M Z := f ← get live; mret (reg f i).

(** ** [uart.rs] *)

(** The wait for the transmitter is not modelled: every byte is sent. *)
Definition put_byte (b : Z) : M () := o ← get uart_out; modify (set_uart_out (o ++ [b])).
Definition get_byte : M (option Z) :=
  i ← get uart_in;
  match i with [] => mret None | b :: i => modify (set_uart_in i) ;; mret (Some b) end.
Definition put_str_bytes (s : list Z) : M () :=
  for_each (fun b => (if b =? 10 then put_byte 13 else mret tt) ;; put_byte b) s.
Definition put_str (s : string) : M () := put_str_bytes (bstr s).
