(* ===== verification/Dispatch.v ===== *)
(** * The on-target dispatcher

    Models [kernel/src/arch/riscv64/dispatch.rs]: scheduling, synchronous
    IPC, the watchdog, fault containment, device mediation and the system
    calls, over the state of [Kernel].  What the hardware and the build
    decide is the [Platform]: linker addresses, the [sstatus] register, the
    values device registers answer with, and the [os_boot] feature. *)

From stdpp Require Import strings base decidable numbers option tactics list.
From S2P Require Import Prelude Bytes Memory Sv39 Paging PagingHw Device Kernel.
Local Open Scope Z_scope.

Class Platform := {
  linker : Linker;
  read_sstatus : Kernel -> Z;
  os_boot : bool;
  mmio_read : Kernel -> Z -> Z -> Z
}.

(** ** Output *)

(** The literal's newline, which a Rocq string has no escape for. *)
Definition nl : string := String (Ascii.ascii_of_nat 10) EmptyString.

Definition emit (prefix name : string) : M () :=
  put_str prefix ;; put_str name ;; put_str nl.

Definition put_line (s : string) : M () := put_str (s +:+ nl).

Fixpoint digits (fuel : nat) (base v : Z) (acc : list Z) : list Z :=
  match fuel with
  | O => acc
  | S fuel =>
      if 0 <? v then
        let d := v mod base in
        digits fuel base (v / base) ((if d <? 10 then 48 + d else 97 + (d - 10)) :: acc)
      else acc
  end.

Definition put_bytes (l : list Z) : M () := for_each put_byte l.
(** [buf] has room for the 20 decimal digits of a [u64]. *)
Definition put_dec (v : Z) : M () :=
  if v =? 0 then put_byte 48 else put_bytes (digits 20 10 v []).
Definition put_hex (v : Z) : M () :=
  put_str "0x" ;; if v =? 0 then put_byte 48 else put_bytes (digits 16 16 v []).

Definition ring_push (kind : Z) (slot : nat) : M () :=
  head ← get ring_head;
  modify (set_ring_head (wrapping 64 (head + 1))) ;;
  r ← get ring;
  r' ← lift (arr_set r (Z.to_nat (head mod Z.of_nat RING_LEN)) (kind, wrapping 8 (Z.of_nat slot)));
  modify (set_ring r').

(** ** Capabilities *)

(** [c.rights & required != required] *)
Definition lacks (c : Cap) (required : Z) : bool := negb ((rights c .& required) =? required).

Definition cap_check (cur : nat) (cap_index required : Z) : M CapCheck :=
  if Z.of_nat CAPS_PER_TASK <=? cap_index then mret CcInvalidCap
  else
    t ← task cur;
    slot ← lift (arr_get (t_caps t) (Z.to_nat cap_index));
    mret match slot with
    | None => CcInvalidCap
    | Some c =>
        if negb (otype c =? OTYPE_ENDPOINT) then CcWrongType
        else if lacks c required then CcInsufficientRights
        else CcOk (object_id c)
    end.

Definition deny_cap (cur : nat) (check : CapCheck) : M Z :=
  ring_push EV_CAP_DENIED cur ;;
  put_str "CAP_DENIED task=" ;;
  t ← task cur; put_str (t_name t) ;;
  put_line " reason=no_valid_capability" ;;
  put_line "IPC state=unchanged" ;;
  mret match check with
  | CcInvalidCap => ERR_INVALID_CAP
  | CcWrongType => ERR_WRONG_OBJECT_TYPE
  | CcInsufficientRights => ERR_INSUFFICIENT_RIGHTS
  | CcOk _ => 0
  end.

(** [device_cap_check]: bounds, occupancy, type, known device, rights. *)
Definition device_cap_check (cur : nat) (cap_index required : Z) : M CapCheck :=
  if Z.of_nat CAPS_PER_TASK <=? cap_index then mret CcInvalidCap
  else
    t ← task cur;
    slot ← lift (arr_get (t_caps t) (Z.to_nat cap_index));
    mret match slot with
    | None => CcInvalidCap
    | Some c =>
        if negb (otype c =? OTYPE_DEVICE) then CcWrongType
        else if Z.of_nat (length DEVICES) <=? object_id c then CcInvalidCap
        else if lacks c required then CcInsufficientRights
        else CcOk (object_id c)
    end.

Definition cap_find (cur : nat) (ot required : Z) : M bool :=
  t ← task cur;
  mret (existsb (fun c => match c with
                          | Some c => (otype c =? ot) && negb (lacks c required)
                          | None => false end) (t_caps t)).

Definition deny_authority (cur : nat) (what : string) : M Z :=
  ring_push EV_CAP_DENIED cur ;;
  put_str "CAP_DENIED task=" ;;
  t ← task cur; put_str (t_name t) ;;
  put_str " reason=" ;; put_str what ;; put_str nl ;;
  mret ERR_INVALID_CAP.

(** ** Endpoints *)

Definition ep_get (id : Z) : M Ep := e ← get endpoints; lift (arr_get e (Z.to_nat id)).
Definition ep_set (id : Z) (e : Ep) : M () :=
  es ← get endpoints; es' ← lift (arr_set es (Z.to_nat id) e); modify (set_endpoints es').

Definition waiter (e : Ep) : option nat :=
  match e with
  | EpIdle => None | SenderWaiting tid _ => Some tid | ReceiverWaiting tid _ _ => Some tid
  end.

Definition ep_clear_for_task (slot : nat) : M () :=
  for_each (fun id : nat =>
    e ← ep_get (Z.of_nat id);
    if decide (waiter e = Some slot) then ep_set (Z.of_nat id) EpIdle else mret tt)
    (seq 0 NUM_ENDPOINTS).

(** ** Scheduling *)

(** One turn of the scan: [idx] replaces [best] if it is Ready and outranks it. *)
Definition better (ts : list Tcb) (best : option nat) (idx : nat) : outcome (option nat) :=
  t ← arr_get ts idx;
  if negb (bool_decide (t_state t = Ready)) then mret best
  else match best with
  | None => mret (Some idx)
  | Some b => tb ← arr_get ts b; mret (if t_prio tb <? t_prio t then Some idx else Some b)
  end.

Definition scan_order (cur : nat) : list nat :=
  (fun step => (cur + step) mod MAX_TASKS)%nat <$> seq 1 MAX_TASKS.

Definition select_highest (cur : nat) : M (option nat) :=
  ts ← get tasks; lift (for_m (better ts) None (scan_order cur)).

(** ** User memory *)

Definition read_user (va : Z) : M Z := get (fun k => umem k (satp k) va).
Definition write_user (va b : Z) : M () :=
  m ← get umem; s ← get satp;
  modify (set_umem (fun s' a => if (s' =? s) && (a =? va) then b else m s' a)).

Definition in_stack_window (va len : Z) : bool :=
  (USER_DATA_VA <=? va) &&
  match checked_add 64 va len with Some end_ => end_ <=? USER_DATA_END | None => false end.
Definition valid_user_buf (va len : Z) : bool :=
  (len <=? IPC_MSG_MAX) && (USER_DATA_VA <=? va) &&
  match checked_add 64 va len with Some end_ => end_ <=? USER_DATA_END | None => false end.

Definition user_addr (va : Z) (i : nat) : Z := wrapping_add 64 va (Z.of_nat i).

Definition copy_from_user (va len : Z) : M () :=
  for_each (fun i : nat =>
    b ← read_user (user_addr va i);
    m ← get kmsg; m' ← lift (arr_set m i b); modify (set_kmsg m'))
    (seq 0 (Z.to_nat (Z.min len IPC_MSG_MAX))).

Definition copy_bytes_to_user (va : Z) (bytes : list Z) : M () :=
  for_each (fun ib : nat * Z => write_user (user_addr va ib.1) ib.2) (imap pair bytes).

Definition copy_to_user (va len : Z) : M () :=
  m ← get kmsg; bs ← lift (slice m 0 (Z.to_nat len)); copy_bytes_to_user va bs.

(** ** Resuming a task *)

Definition switch_to_user_space (root : PhysAddr) : M () := modify (set_satp (satp_for root)).

Definition resume_task (next : nat) : M () :=
  upd_task next (with_state Running) ;;
  modify (set_current next) ;;
  modify (set_watchdog_miss 0) ;;
  t ← task next;
  switch_to_user_space (mkPhys (t_satp_root t)) ;;
  modify (set_live (t_frame t)) ;;
  match t_pending_ipc t with
  | None => mret tt
  | Some pm =>
      upd_task next (with_pending None) ;;
      d ← get delivered; modify (set_delivered (wrapping 64 (d + 1))) ;;
      bs ← lift (slice (pm_data pm) 0 (Z.to_nat (pm_len pm)));
      copy_bytes_to_user (pm_dst pm) bs ;;
      set_a0 (pm_len pm) ;;
      put_str "IPC delivered bytes=" ;; put_dec (pm_len pm) ;; put_str nl
  end.

Definition idle_halt {A} : M A :=
  put_line "SCHED idle=all_tasks_done" ;;
  put_line "KERNEL alive=true" ;;
  put_line "phase=multitask-demo-complete" ;;
  stop IdleLoop.

(** The spin after [line] and the liveness line. *)
Definition spin {A} (line : string) : M A :=
  put_line line ;; put_line "KERNEL alive=true" ;; stop IdleLoop.

(** [emit("SCHED selected=", ..); resume_task(next, frame)] *)
Definition select_and_resume (next : nat) : M () :=
  t ← task next; emit "SCHED selected=" (t_name t) ;; resume_task next.

(** [start]: the entry address and stack handed to [__enter_user]. *)
Definition start : M (Z * Z) :=
  modify (set_active true) ;;
  upd_task 0 (with_state Running) ;;
  modify (set_current 0%nat) ;;
  t ← task 0;
  switch_to_user_space (mkPhys (t_satp_root t)) ;;
  mret (sepc (t_frame t), reg (t_frame t) 1).

(** ** Boot-time registration *)

Definition user_sstatus (v : Z) : Z := (v .& bitnot 64 SSTATUS_SPP) .| SSTATUS_SPIE.

Section Dispatcher.
Context {P : Platform}.

(** A fresh user frame, as [register_task] and the restart paths build it. *)
Definition fresh_frame (entry sp : Z) : M TrapFrame :=
  v ← get read_sstatus;
  let f := new_user entry sp in
  mret (mkFrame (regs f) (sepc f) (user_sstatus v)).

Definition register_task (idx : nat) (name : string) (prio : Z) (root : PhysAddr)
    (entry_va sp_va : Z) : M () :=
  frame ← fresh_frame entry_va sp_va;
  put_task idx (mkTcb Ready prio (pa_u64 root) frame None (replicate CAPS_PER_TASK None) name
                  entry_va sp_va).

Definition set_endpoint_cap (idx slot : nat) (object_id rights : Z) : M () :=
  t ← task idx;
  c ← lift (arr_set (t_caps t) slot (Some (mkCap OTYPE_ENDPOINT object_id rights)));
  put_task idx (with_caps c t).

Definition set_boot_cap (idx : nat) (cap : Cap) : M () :=
  t ← task idx;
  c ← lift (arr_set (t_caps t) 0 (Some cap));
  put_task idx (with_caps c t).

Definition set_service_table (table : list ServiceDef) : M () :=
  modify (Kernel.set_service_table (Some table)).

(** ** Interrupt routes *)

Definition irq_route (dev : nat) : M IrqRoute := r ← get irq_routes; lift (arr_get r dev).
Definition irq_route_set (dev : nat) (r : IrqRoute) : M () :=
  rs ← get irq_routes; rs' ← lift (arr_set rs dev r); modify (set_irq_routes rs').

Definition device (dev : nat) : M DeviceDef := lift (arr_get DEVICES dev).

Definition emit_irq_delivered (to source : string) : M () :=
  put_str "IRQ delivered to=" ;; put_str to ;; put_str " source=" ;; put_str source ;; put_str nl.

(** A one-byte message. *)
Definition one_byte (dst code : Z) : PendingMsg :=
  mkPending dst 1 (<[0%nat := code]> (replicate (Z.to_nat IPC_MSG_MAX) 0)).

Definition is_dead (s : RtState) : bool :=
  match s with Faulted | Killed | Empty => true | _ => false end.

Definition irq_raise (dev : nat) : M Z :=
  d ← device dev;
  route ← irq_route dev;
  dead ← (if decide (MAX_TASKS <= receiver route)%nat then mret true
          else t ← task (receiver route); mret (is_dead (t_state t)));
  if (dead : bool) then
    irq_route_set dev (mkRoute (receiver route) false) ;;
    put_line "IRQ_DROPPED reason=driver_not_ready" ;;
    mret ERR_NO_SLOT
  else
    e ← ep_get (d_irq_endpoint d);
    match e with
    | ReceiverWaiting tid dst cap =>
        if bool_decide (tid = receiver route) && (1 <=? cap) && valid_user_buf dst 1 then
          upd_task tid (with_pending (Some (one_byte dst IRQ_EVENT_CODE))) ;;
          upd_task tid (with_state Ready) ;;
          ep_set (d_irq_endpoint d) EpIdle ;;
          t ← task tid; emit_irq_delivered (t_name t) (d_name d) ;;
          mret 0
        else
          put_line "IRQ_DROPPED reason=unauthorized_receiver" ;;
          mret ERR_NO_SLOT
    | _ =>
        irq_route_set dev (mkRoute (receiver route) true) ;;
        mret IRQ_PENDING
    end.

(** The [while i < DEVICES.len()] search of [irq_pending_for]. *)
Fixpoint irq_search (ep_id : Z) (cur : nat) (devs : list nat) : M (option nat) :=
  match devs with
  | [] => mret None
  | i :: devs =>
      d ← device i;
      if d_irq_endpoint d =? ep_id then
        route ← irq_route i;
        if pending route && bool_decide (receiver route = cur) then mret (Some i)
        else irq_search ep_id cur devs
      else irq_search ep_id cur devs
  end.
Definition irq_pending_for (ep_id : Z) (cur : nat) : M (option nat) :=
  irq_search ep_id cur (seq 0 (length DEVICES)).

Definition irq_drop_for_task (slot : nat) : M () :=
  for_each (fun i =>
    route ← irq_route i;
    if bool_decide (receiver route = slot) && pending route then
      irq_route_set i (mkRoute (receiver route) false) ;;
      put_line "IRQ_DROPPED reason=driver_not_ready"
    else mret tt) (seq 0 (length DEVICES)).

(** ** Notification of the supervisor and the logger *)

Definition notify_endpoint (ep_id code : Z) : M (option nat) :=
  e ← ep_get ep_id;
  match e with
  | ReceiverWaiting tid dst cap =>
      (if (1 <=? cap) && valid_user_buf dst 1 then
         upd_task tid (with_pending (Some (one_byte dst code))) ;;
         upd_task tid (with_state Ready)
       else mret tt) ;;
      ep_set ep_id EpIdle ;;
      mret (Some tid)
  | _ => mret None
  end.

Definition notify_supervisor_and_logger (faulted_name : string) : M () :=
  n ← notify_endpoint EP_FAULT FAULT_CODE_WATCHDOG;
  (if bool_decide (is_Some n)
   then emit "IPC delivered fault_event to=supervisor_task from=" faulted_name else mret tt) ;;
  n ← notify_endpoint EP_EVENT FAULT_CODE_WATCHDOG;
  if bool_decide (is_Some n) then
    put_str "LOGGER event=TASK_FAULTED task=" ;; put_str faulted_name ;; put_str nl
  else mret tt.

Definition fault_ack : M () :=
  cur ← get current;
  t ← task cur;
  decision ← arg 10;
  let policy : string := if decision =? 2 then "Kill" else if decision =? 1 then "Restart"
                         else "Escalate" in
  put_str "SUPERVISOR decision=" ;; put_str policy ;; put_str " by=" ;; put_str (t_name t) ;;
  put_str nl ;;
  put_str "RECOVERY_APPLIED policy=" ;; put_str policy ;; put_str nl ;;
  ring_push EV_RECOVERY cur ;;
  set_a0 0.

(** ** Yield, exit, preemption, watchdog, fault containment *)

Definition switch (exiting : bool) : M () :=
  cur ← get current;
  t ← task cur;
  let quiet := os_boot && negb exiting in
  (if exiting then
     emit "SYSCALL name=sys_exit task=" (t_name t) ;;
     upd_task cur (with_state Killed) ;;
     emit "TASK_EXITED task=" (t_name t) ;;
     ring_push EV_EXITED cur
   else
     f ← get live;
     upd_task cur (with_frame f) ;;
     upd_task cur (with_state Ready)) ;;
  n ← select_highest cur;
  match n with
  | Some next =>
      (if negb (quiet && bool_decide (next = cur)) then
         (if negb exiting then emit "SYSCALL name=sys_yield task=" (t_name t) else mret tt) ;;
         tn ← task next; emit "SCHED selected=" (t_name tn)
       else mret tt) ;;
      resume_task next
  | None => idle_halt
  end.

Definition block_and_switch : M () :=
  cur ← get current;
  f ← get live;
  upd_task cur (with_frame f) ;;
  upd_task cur (with_state Blocked) ;;
  n ← select_highest cur;
  match n with
  | Some next => select_and_resume next
  | None => spin "SCHED idle=all_blocked"
  end.

Definition preempt : M () :=
  act ← get active;
  if negb act then mret tt
  else
    cur ← get current;
    n ← select_highest cur;
    match n with
    | None => mret tt
    | Some next =>
        tc ← task cur; tn ← task next;
        if bool_decide (next = cur) || (t_prio tn <=? t_prio tc) then mret tt
        else
          put_str "SCHED preempt=" ;; put_str (t_name tc) ;;
          put_str " selected=" ;; put_str (t_name tn) ;; put_str nl ;;
          f ← get live;
          upd_task cur (with_frame f) ;;
          upd_task cur (with_state Ready) ;;
          resume_task next
    end.

(** The common end of both containment paths. *)
Definition fault_and_switch (cur : nat) (name : string) : M () :=
  upd_task cur (with_state Faulted) ;;
  irq_drop_for_task cur ;;
  notify_supervisor_and_logger name ;;
  n ← select_highest cur;
  match n with
  | Some next => select_and_resume next
  | None => spin "SCHED idle=no_ready_task"
  end.

Definition watchdog_tick : M bool :=
  act ← get active;
  if negb act then mret false
  else
    tk ← get ticks; modify (set_ticks (wrapping 64 (tk + 1))) ;;
    w ← get watchdog_miss;
    let misses := wrapping 64 (w + 1) in
    modify (set_watchdog_miss misses) ;;
    if misses <=? WATCHDOG_WINDOW then mret false
    else
      cur ← get current;
      t ← task cur;
      ring_push EV_FAULT cur ;;
      emit "FAULT type=WatchdogTimeout task=" (t_name t) ;;
      put_line "CONTAIN scope=user reason=watchdog_timeout action=faulted kernel=alive" ;;
      fault_and_switch cur (t_name t) ;;
      mret true.

Definition contain_fault (reason : string) : M bool :=
  act ← get active;
  if negb act then mret false
  else
    cur ← get current;
    t ← task cur;
    ring_push EV_FAULT cur ;;
    emit "FAULT type=PageFault task=" (t_name t) ;;
    put_str "CONTAIN scope=user reason=" ;; put_str reason ;;
    put_line " action=faulted kernel=alive" ;;
    fault_and_switch cur (t_name t) ;;
    mret true.

(** ** IPC *)

Definition in_readable_window (va len : Z) : bool :=
  if in_stack_window va len then true
  else
    let '(start, end_) := user_region_va_span linker in
    (start <=? va) &&
    match checked_add 64 va len with Some e => e <=? end_ | None => false end.

Definition ipc_send : M () :=
  cur ← get current;
  cap_index ← arg 9; buf ← arg 10; len ← arg 11;
  t ← task cur;
  let cur_name := t_name t in
  c ← cap_check cur cap_index RIGHT_SEND;
  match c with
  | CcOk ep_id =>
      if IPC_MSG_MAX <? len then
        set_a0 ERR_MSG_TOO_LARGE ;;
        emit "IPC_DENIED op=send reason=msg_too_large task=" cur_name
      else if negb ((len <=? IPC_MSG_MAX) && in_readable_window buf len) then
        set_a0 ERR_INVALID_ARG ;;
        emit "IPC_DENIED op=send reason=bad_buffer task=" cur_name
      else
        copy_from_user buf len ;;
        e ← ep_get ep_id;
        match e with
        | ReceiverWaiting tid dst cap =>
            emit "IPC send task=" cur_name ;;
            put_line "IPC endpoint=log op=send" ;;
            m ← get kmsg;
            (if (len <=? cap) && valid_user_buf dst len then
               bs ← lift (slice m 0 (Z.to_nat len));
               data ← lift (copy_at (replicate (Z.to_nat IPC_MSG_MAX) 0) 0 (Z.to_nat len) bs);
               upd_task tid (with_pending (Some (mkPending dst len data)))
             else upd_task tid (fun t => with_frame (frame_set_a0 (t_frame t) ERR_MSG_TOO_LARGE) t)) ;;
            upd_task tid (with_state Ready) ;;
            ep_set ep_id EpIdle ;;
            set_a0 len
        | EpIdle =>
            ep_set ep_id (SenderWaiting cur len) ;;
            emit "IPC send task=" cur_name ;;
            put_line "IPC endpoint=log op=send state=blocked" ;;
            block_and_switch
        | SenderWaiting _ _ =>
            set_a0 ERR_INVALID_ARG ;;
            emit "IPC_DENIED op=send reason=busy task=" cur_name
        end
  | other => code ← deny_cap cur other; set_a0 code
  end.

(** [frame.set_a0(ERR_INVALID_ARG)] and the refusal line of [ipc_recv]. *)
Definition recv_bad_buffer (cur_name : string) : M () :=
  set_a0 ERR_INVALID_ARG ;;
  emit "IPC_DENIED op=recv reason=bad_buffer task=" cur_name.

Definition ipc_recv : M () :=
  cur ← get current;
  cap_index ← arg 9; dst ← arg 10; cap ← arg 11;
  t ← task cur;
  let cur_name := t_name t in
  c ← cap_check cur cap_index RIGHT_RECV;
  match c with
  | CcOk ep_id =>
      irq ← irq_pending_for ep_id cur;
      match irq with
      | Some dev =>
          if (cap <? 1) || negb (valid_user_buf dst 1) then recv_bad_buffer cur_name
          else
            irq_route_set dev (mkRoute cur false) ;;
            copy_bytes_to_user dst [IRQ_EVENT_CODE] ;;
            d ← device dev; emit_irq_delivered cur_name (d_name d) ;;
            set_a0 1
      | None =>
          e ← ep_get ep_id;
          match e with
          | SenderWaiting tid len =>
              if (cap <? len) || negb (valid_user_buf dst len) then recv_bad_buffer cur_name
              else
                copy_to_user dst len ;;
                set_a0 len ;;
                upd_task tid (with_state Ready) ;;
                upd_task tid (fun t => with_frame (frame_set_a0 (t_frame t) len) t) ;;
                ep_set ep_id EpIdle ;;
                emit "IPC recv task=" cur_name ;;
                put_str "IPC delivered bytes=" ;; put_dec len ;; put_str nl
          | EpIdle =>
              if (IPC_MSG_MAX <? cap) || negb (valid_user_buf dst (Z.min cap IPC_MSG_MAX))
              then recv_bad_buffer cur_name
              else
                ep_set ep_id (ReceiverWaiting cur dst cap) ;;
                emit "IPC recv task=" cur_name ;;
                put_line "IPC endpoint=log op=recv state=blocked" ;;
                block_and_switch
          | ReceiverWaiting _ _ _ =>
              set_a0 ERR_INVALID_ARG ;;
              emit "IPC_DENIED op=recv reason=busy task=" cur_name
          end
      end
  | other => code ← deny_cap cur other; set_a0 code
  end.

(** ** Devices *)

Definition register_devices : M () :=
  for_each (fun i =>
    d ← device i;
    put_str "DEVICE registered=" ;; put_str (d_name d) ;; put_str " kind=" ;; put_str (d_kind d) ;;
    put_str nl ;;
    put_str "IRQ registered source=" ;; put_str (d_name d) ;; put_str " endpoint=" ;;
    put_str (d_irq_name d) ;; put_str nl) (seq 0 (length DEVICES)).

Definition deny_device_op (cur : nat) (kind reason : string) : M () :=
  ring_push EV_CAP_DENIED cur ;;
  put_str kind ;; put_str " task=" ;;
  t ← task cur; put_str (t_name t) ;;
  put_str " reason=" ;; put_str reason ;; put_str nl.

Definition device_check_err (check : CapCheck) : Z * string :=
  match check with
  | CcInvalidCap => (ERR_INVALID_CAP, "no_valid_capability"%string)
  | CcWrongType => (ERR_WRONG_OBJECT_TYPE, "no_valid_capability"%string)
  | CcInsufficientRights => (ERR_INSUFFICIENT_RIGHTS, "insufficient_rights"%string)
  | CcOk _ => (ERR_INVALID_ARG, "unexpected"%string)
  end.

(** The refusal every device call answers a failed lookup with. *)
Definition deny_device_cap (cur : nat) (kind : string) (check : CapCheck) : M () :=
  let '(code, reason) := device_check_err check in
  deny_device_op cur kind reason ;; set_a0 code.

(** One turn of [announce_device_grants]. *)
Definition announce_grant (slot : nat) (name : string) (c : option Cap) : M () :=
  match c with
  | None => mret tt
  | Some c =>
      if (otype c =? OTYPE_DEVICE) && (object_id c <? Z.of_nat (length DEVICES)) then
        d ← device (Z.to_nat (object_id c));
        (if negb ((rights c .& DEV_RIGHT_IRQ_RECEIVE) =? 0) then
           route ← irq_route (Z.to_nat (object_id c));
           irq_route_set (Z.to_nat (object_id c)) (mkRoute slot (pending route))
         else mret tt) ;;
        (if negb ((rights c .& (DEV_RIGHT_MMIO_READ .| DEV_RIGHT_MMIO_WRITE)) =? 0) then
           put_str "MMIO grant task=" ;; put_str name ;; put_str " device=" ;; put_str (d_name d) ;;
           put_str " region=" ;; put_str (d_mmio_name d) ;; put_str nl
         else mret tt) ;;
        (if negb ((rights c .& (DEV_RIGHT_DMA_READ .| DEV_RIGHT_DMA_WRITE)) =? 0) then
           put_str "DMA grant task=" ;; put_str name ;; put_str " buffer=" ;; put_str (d_dma_name d) ;;
           put_str " size=" ;; put_dec (d_dma_size d) ;; put_str nl
         else mret tt)
      else mret tt
  end.

Definition announce_device_grants (slot : nat) : M () :=
  t ← task slot;
  for_each (fun i => c ← lift (arr_get (t_caps t) i); announce_grant slot (t_name t) c)
    (seq 0 CAPS_PER_TASK).

Definition sys_irq_raise : M () :=
  cur ← get current;
  cap_index ← arg 9;
  c ← device_cap_check cur cap_index DEV_RIGHT_DRIVER_CONTROL;
  match c with
  | CcOk dev_id => r ← irq_raise (Z.to_nat dev_id); set_a0 r
  | other => deny_device_cap cur "IRQ_DENIED" other
  end.

(** The bytes of an access: [u8], [u16] or [u32], little-endian. *)
Definition width_bytes (width : Z) : nat := if width =? 1 then 1 else if width =? 2 then 2 else 4.

(** An access to the bounce page; outside it, another kernel object. *)
Definition dma_load (offset width : Z) : M Z :=
  page ← get block0_dma;
  bs ← lift (slice page (Z.to_nat offset) (Z.to_nat offset + width_bytes width));
  mret (from_le_bytes bs).
Definition dma_store (offset width value : Z) : M () :=
  page ← get block0_dma;
  page' ← lift (copy_at page (Z.to_nat offset) (Z.to_nat offset + width_bytes width)
                  (to_le_bytes (width_bytes width) value));
  modify (set_block0_dma page').

Definition dma_access (required : Z) (write : bool) : M () :=
  cur ← get current;
  cap_index ← arg 9; offset ← arg 10; width ← arg 11; value ← arg 12;
  c ← device_cap_check cur cap_index required;
  match c with
  | CcOk dev_id =>
      d ← device (Z.to_nat dev_id);
      if negb (access_in_bounds (d_dma_size d) offset width) then
        deny_device_op cur "DMA_DENIED" "out_of_range" ;;
        set_a0 ERR_INVALID_ARG
      else if write then dma_store offset width value ;; set_a0 0
      else v ← dma_load offset width; set_a0 v
  | other => deny_device_cap cur "DMA_DENIED" other
  end.

Definition sys_dma_read : M () := dma_access DEV_RIGHT_DMA_READ false.
Definition sys_dma_write : M () := dma_access DEV_RIGHT_DMA_WRITE true.

(** One volatile access of a device register. *)
Definition mmio_load (addr width : Z) : M Z :=
  v ← get (fun k => mmio_read k addr width);
  let v := wrapping (8 * Z.of_nat (width_bytes width)) v in
  l ← get mmio_log; modify (set_mmio_log (l ++ [MmioRd addr width v])) ;; mret v.
Definition mmio_store (addr width value : Z) : M () :=
  let v := wrapping (8 * Z.of_nat (width_bytes width)) value in
  l ← get mmio_log; modify (set_mmio_log (l ++ [MmioWr addr width v])).

Definition emit_mmio (op : string) (cur : nat) (d : DeviceDef) (offset value : Z) : M () :=
  put_str "MMIO " ;; put_str op ;; put_str " task=" ;;
  t ← task cur; put_str (t_name t) ;; put_str " device=" ;; put_str (d_name d) ;;
  put_str " offset=" ;; put_dec offset ;; put_str " value=" ;; put_hex value ;; put_str nl.

Definition sys_mmio_read : M () :=
  cur ← get current;
  cap_index ← arg 9; offset ← arg 10; width ← arg 11;
  c ← device_cap_check cur cap_index DEV_RIGHT_MMIO_READ;
  match c with
  | CcOk dev_id =>
      d ← device (Z.to_nat dev_id);
      if negb (access_in_bounds (d_mmio_size d) offset width) then
        deny_device_op cur "MMIO_DENIED" "out_of_range" ;;
        set_a0 ERR_INVALID_ARG
      else
        value ← mmio_load (d_mmio_base d + offset) width;
        emit_mmio "read" cur d offset value ;;
        set_a0 value
  | other => deny_device_cap cur "MMIO_DENIED" other
  end.

Definition sys_mmio_write : M () :=
  cur ← get current;
  cap_index ← arg 9; offset ← arg 10; width ← arg 11; value ← arg 12;
  c ← device_cap_check cur cap_index DEV_RIGHT_MMIO_WRITE;
  match c with
  | CcOk dev_id =>
      d ← device (Z.to_nat dev_id);
      if negb (access_in_bounds (d_mmio_size d) offset width) then
        deny_device_op cur "MMIO_DENIED" "out_of_range" ;;
        set_a0 ERR_INVALID_ARG
      else
        mmio_store (d_mmio_base d + offset) width value ;;
        emit_mmio "write" cur d offset value ;;
        set_a0 0
  | other => deny_device_cap cur "MMIO_DENIED" other
  end.

(** ** Introspection *)

Record InfoBuf := mkInfo { ib_buf : list Z; ib_len : nat }.
Definition InfoBuf_new : InfoBuf := mkInfo (replicate (Z.to_nat INFO_MAX) 0) 0.
Definition push_byte (o : InfoBuf) (b : Z) : InfoBuf :=
  if decide (ib_len o < Z.to_nat INFO_MAX)%nat
  then mkInfo (<[ib_len o := b]> (ib_buf o)) (ib_len o + 1) else o.
Definition push_bytes (o : InfoBuf) (bs : list Z) : InfoBuf := foldl push_byte o bs.
Definition push_str (s : string) (o : InfoBuf) : InfoBuf := push_bytes o (bstr s).
Definition push_dec (v : Z) (o : InfoBuf) : InfoBuf :=
  if v =? 0 then push_byte o 48 else push_bytes o (digits 20 10 v []).

Definition state_name (s : RtState) : string :=
  match s with
  | Empty => "empty" | Ready => "ready" | Running => "running"
  | Blocked => "blocked" | Faulted => "faulted" | Killed => "killed"
  end.

Definition ev_name (kind : Z) : string :=
  if kind =? EV_STARTED then "task_started" else if kind =? EV_EXITED then "task_exited"
  else if kind =? EV_FAULT then "fault" else if kind =? EV_CAP_DENIED then "cap_denied"
  else if kind =? EV_RECOVERY then "recovery_applied" else if kind =? EV_KILLED then "task_killed"
  else if kind =? EV_RESTARTED then "task_restarted" else "unknown".

(** [out.push_str(..); out.push_dec(..); ..] reads left to right. *)
Notation "o |> f" := (f o) (at level 61, left associativity, only parsing).

Definition info_tasks (ts : list Tcb) (out : InfoBuf) : InfoBuf :=
  foldl (fun out (it : nat * Tcb) =>
    if bool_decide (t_state it.2 = Empty) then out
    else out |> push_str "task idx=" |> push_dec (Z.of_nat it.1) |> push_str " name="
         |> push_str (t_name it.2) |> push_str " prio=" |> push_dec (t_prio it.2)
         |> push_str " state=" |> push_str (state_name (t_state it.2)) |> push_str nl)
    out (imap pair ts).

Definition info_event (ts : list Tcb) (kind : Z) (slot : Z) (out : InfoBuf) : outcome InfoBuf :=
  t ← arr_get ts (Z.to_nat slot);
  mret (out |> push_str "evt kind=" |> push_str (ev_name kind) |> push_str " task="
        |> push_str (if decide (t_name t = EmptyString) then "?" else t_name t) |> push_str nl).

Definition info_ring (only_faults : bool) (out : InfoBuf) : M InfoBuf :=
  head ← get ring_head; ts ← get tasks; r ← get ring;
  let count := Z.min head (Z.of_nat RING_LEN) in
  lift (for_m (fun out k =>
    e ← arr_get r (Z.to_nat ((head - count + Z.of_nat k) mod Z.of_nat RING_LEN));
    if only_faults && negb (e.1 =? EV_FAULT) && negb (e.1 =? EV_CAP_DENIED) then mret out
    else info_event ts e.1 e.2 out) out (seq 0 (Z.to_nat count))).

Definition ep_name (e : Ep) : string :=
  match e with
  | EpIdle => "idle" | SenderWaiting _ _ => "sender_waiting" | ReceiverWaiting _ _ _ => "receiver_waiting"
  end.

Definition info_ipc (out : InfoBuf) : M InfoBuf :=
  es ← get endpoints; d ← get delivered;
  out ← lift (for_m (fun out id =>
    e ← arr_get es id;
    mret (out |> push_str "ep id=" |> push_dec (Z.of_nat id) |> push_str " state="
          |> push_str (ep_name e) |> push_str nl)) out (seq 0 NUM_ENDPOINTS));
  mret (out |> push_str "deferred_deliveries=" |> push_dec d |> push_str nl).

Definition otype_name (ot : Z) : string :=
  if ot =? OTYPE_ENDPOINT then " endpoint" else if ot =? OTYPE_CONSOLE then " console"
  else if ot =? OTYPE_CONTROL then " control" else if ot =? OTYPE_INFO then " info"
  else if ot =? OTYPE_DEVICE then " device" else " ?".

Definition info_caps (ts : list Tcb) (out : InfoBuf) : InfoBuf :=
  foldl (fun out t =>
    if bool_decide (t_state t = Empty) then out
    else
      let out := out |> push_str "caps task=" |> push_str (t_name t) in
      foldl (fun out (c : Cap) => out |> push_str (otype_name (otype c))) out (omap id (t_caps t))
      |> push_str nl) out ts.

Definition info_memory (out : InfoBuf) : InfoBuf :=
  out |> push_str ("mmu=sv39 kernel_pages=U0 wxorx=true" +:+ nl)
      |> push_str ("kernel_base=0x80200000" +:+ nl)
      |> push_str ("user_region_va=0x10000" +:+ nl)
      |> push_str ("user_stack_va=0x200000 stack_pages=1" +:+ nl).

(** The end of both introspection calls: the first [max] bytes go out. *)
Definition reply_info (out : InfoBuf) (va max : Z) : M () :=
  let n := Z.min (Z.of_nat (ib_len out)) max in
  bs ← lift (slice (ib_buf out) 0 (Z.to_nat n));
  copy_bytes_to_user va bs ;;
  set_a0 n.

Definition sys_device_info : M () :=
  cur ← get current;
  cap_index ← arg 9; va ← arg 10; max ← arg 11;
  c ← device_cap_check cur cap_index DEV_RIGHT_INFO;
  match c with
  | CcOk dev_id =>
      if negb (in_stack_window va (Z.min max INFO_MAX)) then set_a0 ERR_INVALID_ARG
      else
        d ← device (Z.to_nat dev_id);
        reply_info (InfoBuf_new |> push_str "device id=" |> push_dec dev_id |> push_str " name="
          |> push_str (d_name d) |> push_str " kind=" |> push_str (d_kind d) |> push_str " mmio="
          |> push_str (d_mmio_name d) |> push_str " mmio_size=" |> push_dec (d_mmio_size d)
          |> push_str " irq=" |> push_str (d_irq_name d) |> push_str " dma="
          |> push_str (d_dma_name d) |> push_str " dma_size=" |> push_dec (d_dma_size d)
          |> push_str nl) va max
  | other => deny_device_cap cur "DEVICE_DENIED" other
  end.

Definition sys_info : M () :=
  cur ← get current;
  ok ← cap_find cur OTYPE_INFO RIGHT_RECV;
  if negb ok then code ← deny_authority cur "no_info_capability"; set_a0 code
  else
    kind ← arg 9; va ← arg 10; max ← arg 11;
    if negb (in_stack_window va (Z.min max INFO_MAX)) then set_a0 ERR_INVALID_ARG
    else
      let out := InfoBuf_new in
      ts ← get tasks;
      if kind =? 0 then reply_info (info_tasks ts out) va max
      else if kind =? 1 then o ← info_ring true out; reply_info o va max
      else if kind =? 2 then o ← info_ipc out; reply_info o va max
      else if kind =? 3 then reply_info (info_caps ts out) va max
      else if kind =? 4 then reply_info (info_memory out) va max
      else if kind =? 5 then
        tk ← get ticks;
        reply_info (out |> push_str "uptime ticks=" |> push_dec tk
                    |> push_str (" tick_interval=100000 timebase_hz=10000000" +:+ nl)) va max
      else if kind =? 6 then o ← info_ring false out; reply_info o va max
      else if kind =? 7 then
        slot ← arg 12;
        if Z.of_nat MAX_TASKS <=? slot then set_a0 ERR_INVALID_ARG
        else t ← task (Z.to_nat slot); reply_info (out |> push_str (state_name (t_state t))) va max
      else set_a0 ERR_INVALID_ARG.

(** ** Console *)

Definition CON_WRITE_MAX : Z := 256.

Definition sys_con_write : M () :=
  cur ← get current;
  ok ← cap_find cur OTYPE_CONSOLE RIGHT_SEND;
  if negb ok then code ← deny_authority cur "no_console_write_capability"; set_a0 code
  else
    va ← arg 9; len ← arg 10;
    if (CON_WRITE_MAX <? len) || negb (in_readable_window va len) then set_a0 ERR_INVALID_ARG
    else
      for_each (fun i : nat =>
        b ← read_user (user_addr va i);
        (if b =? 10 then put_byte 13 else mret tt) ;;
        put_byte b) (seq 0 (Z.to_nat len)) ;;
      set_a0 len.

(** The [while n < max] loop: [todo] turns remain. *)
Fixpoint con_read_loop (todo : nat) (va : Z) (n : nat) : M nat :=
  match todo with
  | O => mret n
  | S todo =>
      b ← get_byte;
      match b with
      | None => mret n
      | Some b => write_user (user_addr va n) b ;; con_read_loop todo va (n + 1)
      end
  end.

Definition sys_con_read : M () :=
  cur ← get current;
  ok ← cap_find cur OTYPE_CONSOLE RIGHT_RECV;
  if negb ok then code ← deny_authority cur "no_console_read_capability"; set_a0 code
  else
    va ← arg 9; m ← arg 10;
    let max := Z.min m IPC_MSG_MAX in
    if negb (in_stack_window va max) then set_a0 ERR_INVALID_ARG
    else n ← con_read_loop (Z.to_nat max) va 0; set_a0 (Z.of_nat n).

(** ** Task control *)

(** The re-arm both restart paths share. *)
Definition rearm (slot : nat) : M () :=
  t ← task slot;
  f ← fresh_frame (t_entry_va t) (t_stack_top_va t);
  upd_task slot (with_frame f) ;;
  upd_task slot (with_pending None) ;;
  ep_clear_for_task slot ;;
  upd_task slot (with_state Ready).

Definition build_space (slot : nat) (entry stack_phys : Z) : M UserAddressSpace :=
  ut ← get user_tables;
  r ← lift (build_service_address_space linker ut slot entry stack_phys);
  modify (set_user_tables r.2) ;; mret r.1.

Definition start_service (index : Z) : M Z :=
  table ← get service_table;
  match table ≫= (fun t => if index <? Z.of_nat (length t) then t !! Z.to_nat index else None) with
  | None => mret ERR_INVALID_ARG
  | Some def =>
      let slot := sd_slot def in
      let started :=
        ring_push EV_STARTED slot ;;
        emit "SERVICE started=" (sd_name def) ;;
        mret (Z.of_nat slot) in
      t ← task slot;
      match t_state t with
      | Empty =>
          uas ← build_space slot (sd_entry def) (sd_stack_phys def);
          register_task slot (sd_name def) (sd_prio def) (root uas) (entry_va uas) (stack_top_va uas) ;;
          upd_task slot (with_caps (sd_caps def)) ;;
          announce_device_grants slot ;;
          started
      | Killed | Faulted => rearm slot ;; started
      | _ => mret ERR_NO_SLOT
      end
  end.

Definition sys_task_start : M () :=
  cur ← get current;
  ok ← cap_find cur OTYPE_CONTROL RIGHT_CONTROL;
  if negb ok then code ← deny_authority cur "no_control_capability"; set_a0 code
  else index ← arg 9; r ← start_service index; set_a0 r.

Definition sys_task_kill : M () :=
  cur ← get current;
  ok ← cap_find cur OTYPE_CONTROL RIGHT_CONTROL;
  if negb ok then code ← deny_authority cur "no_control_capability"; set_a0 code
  else
    slot ← arg 9;
    if Z.of_nat MAX_TASKS <=? slot then set_a0 ERR_INVALID_ARG
    else
      let slot := Z.to_nat slot in
      t ← task slot;
      if bool_decide (t_state t = Empty) then set_a0 ERR_INVALID_ARG
      else
        upd_task slot (with_state Killed) ;;
        upd_task slot (with_pending None) ;;
        ep_clear_for_task slot ;;
        irq_drop_for_task slot ;;
        ring_push EV_KILLED slot ;;
        emit "TASK_KILLED task=" (t_name t) ;;
        if bool_decide (slot = cur) then
          n ← select_highest cur;
          match n with
          | Some next => select_and_resume next
          | None => idle_halt
          end
        else set_a0 0.

Definition sys_task_restart : M () :=
  cur ← get current;
  ok ← cap_find cur OTYPE_CONTROL RIGHT_CONTROL;
  if negb ok then code ← deny_authority cur "no_control_capability"; set_a0 code
  else
    slot ← arg 9;
    if (Z.of_nat MAX_TASKS <=? slot) || (slot =? Z.of_nat cur) then set_a0 ERR_INVALID_ARG
    else
      let slot := Z.to_nat slot in
      t ← task slot;
      if bool_decide (t_state t = Empty) || (t_entry_va t =? 0) then set_a0 ERR_INVALID_ARG
      else
        rearm slot ;;
        ring_push EV_RESTARTED slot ;;
        emit "TASK_RESTARTED task=" (t_name t) ;;
        set_a0 0.

Definition sys_shutdown : M () :=
  cur ← get current;
  ok ← cap_find cur OTYPE_CONTROL RIGHT_CONTROL;
  if negb ok then code ← deny_authority cur "no_control_capability"; set_a0 code
  else
    put_str "SHUTDOWN controlled=true by=" ;;
    t ← task cur; put_str (t_name t) ;; put_str nl ;;
    stop Shutdown.

(** ** System call entry *)

Definition syscall_body (num : Z) : option (M ()) :=
  if num =? SYS_YIELD then Some (switch false)
  else if num =? SYS_EXIT then Some (switch true)
  else if num =? SYS_SEND then Some ipc_send
  else if num =? SYS_RECV then Some ipc_recv
  else if num =? SYS_FAULT_ACK then Some fault_ack
  else if num =? SYS_TASK_START then Some sys_task_start
  else if num =? SYS_CON_WRITE then Some sys_con_write
  else if num =? SYS_CON_READ then Some sys_con_read
  else if num =? SYS_INFO then Some sys_info
  else if num =? SYS_TASK_KILL then Some sys_task_kill
  else if num =? SYS_TASK_RESTART then Some sys_task_restart
  else if num =? SYS_SHUTDOWN then Some sys_shutdown
  else if num =? SYS_DEVICE_INFO then Some sys_device_info
  else if num =? SYS_MMIO_READ then Some sys_mmio_read
  else if num =? SYS_MMIO_WRITE then Some sys_mmio_write
  else if num =? SYS_DMA_READ then Some sys_dma_read
  else if num =? SYS_DMA_WRITE then Some sys_dma_write
  else if num =? SYS_IRQ_RAISE then Some sys_irq_raise
  else None.

Definition on_syscall (num : Z) : M bool :=
  act ← get active;
  if negb act then mret false
  else
    modify (set_watchdog_miss 0) ;;
    match syscall_body num with
    | Some body => body ;; mret true
    | None => mret false
    end.

End Dispatcher.
