(* ===== verification/DispatchLogic.v ===== *)
(** * Reasoning about the dispatcher's monad

    A weakest precondition for [Kernel.M], with a rule per primitive, and the
    class of computations that only write to the serial port.  [ksimpl]
    evaluates the fields of an updated state. *)

From stdpp Require Import strings base decidable numbers option tactics list.
From S2P Require Import Prelude Bytes Memory Sv39 Paging PagingHw Device Kernel Dispatch.
Local Open Scope Z_scope.

(** [wp m Q S k]: run from [k], [m] does not crash, a normal return satisfies
    [Q] and a run that never returns ends in a state satisfying [S]. *)
Definition wp {A} (m : M A) (Q : A -> Kernel -> Prop) (S : Kernel -> Prop) (k : Kernel) : Prop :=
  match m k with Ret a k' => Q a k' | Stop _ k' => S k' | Crash => False end.

Ltac ksimpl :=
  cbn [tasks current active watchdog_miss endpoints kmsg irq_routes block0_dma ticks delivered ring
       ring_head service_table user_tables live satp umem uart_out uart_in mmio_log timer_ticks cont_pc cont_sp
       stimer set_timer_ticks set_cont_pc set_cont_sp set_stimer
       set_tasks set_current set_active set_watchdog_miss set_endpoints set_kmsg set_irq_routes
       set_block0_dma set_ticks set_delivered set_ring set_ring_head Kernel.set_service_table
       set_user_tables set_live set_satp set_umem set_uart_out set_uart_in set_mmio_log] in *.

Section rules.
Context {A B : Type}.
Implicit Types (Q : A -> Kernel -> Prop) (S : Kernel -> Prop).

Lemma wp_ret a Q S k : Q a k -> wp (mret a) Q S k.
Proof. done. Qed.
Lemma wp_bind (m : M B) (f : B -> M A) Q S k : wp m (fun b => wp (f b) Q S) S k -> wp (m ≫= f) Q S k.
Proof. unfold wp, mbind, M_bind. by destruct (m k). Qed.
Lemma wp_mono (m : M A) Q Q' S S' k : wp m Q S k -> (forall a k, Q a k -> Q' a k) ->
  (forall k, S k -> S' k) -> wp m Q' S' k.
Proof. unfold wp. destruct (m k); naive_solver. Qed.
Lemma wp_get (f : Kernel -> A) Q S k : Q (f k) k -> wp (get f) Q S k.
Proof. done. Qed.
Lemma wp_stop r Q S k : S k -> wp (stop r) Q S k.
Proof. done. Qed.
Lemma wp_lift (o : outcome A) a Q S k : o = Val a -> Q a k -> wp (lift o) Q S k.
Proof. by intros ->. Qed.
End rules.

Lemma wp_modify f Q S k : Q tt (f k) -> wp (modify f) Q S k.
Proof. done. Qed.

Lemma wp_task i t Q S k : tasks k !! i = Some t -> Q t k -> wp (task i) Q S k.
Proof. unfold wp, task, mbind, M_bind, get, lift, arr_get, expect. by intros ->. Qed.
Lemma wp_put_task i t Q S k : (i < length (tasks k))%nat ->
  Q tt (set_tasks (<[i := t]> (tasks k)) k) -> wp (put_task i t) Q S k.
Proof. unfold wp, put_task, mbind, M_bind, get, lift. intros H. by rewrite arr_set_lt. Qed.
Lemma wp_upd_task i t f Q S k : tasks k !! i = Some t ->
  Q tt (set_tasks (<[i := f t]> (tasks k)) k) -> wp (upd_task i f) Q S k.
Proof.
  intros H HQ. apply wp_bind, (wp_task i t); [done|]. apply wp_put_task; [|done].
  by eapply lookup_lt_Some.
Qed.

Lemma wp_arg i Q S k : Q (reg (live k) i) k -> wp (arg i) Q S k.
Proof. done. Qed.
Lemma wp_set_a0 v Q S k : Q tt (set_live (frame_set_a0 (live k) v) k) -> wp (set_a0 v) Q S k.
Proof. done. Qed.

Lemma wp_ep_get id e Q S k : endpoints k !! Z.to_nat id = Some e -> Q e k -> wp (ep_get id) Q S k.
Proof. unfold wp, ep_get, mbind, M_bind, get, lift, arr_get, expect. by intros ->. Qed.
Lemma wp_ep_set id e Q S k : (Z.to_nat id < length (endpoints k))%nat ->
  Q tt (set_endpoints (<[Z.to_nat id := e]> (endpoints k)) k) -> wp (ep_set id e) Q S k.
Proof. unfold wp, ep_set, mbind, M_bind, get, lift. intros H. by rewrite arr_set_lt. Qed.

Lemma wp_irq_route i r Q S k : irq_routes k !! i = Some r -> Q r k -> wp (irq_route i) Q S k.
Proof. unfold wp, irq_route, mbind, M_bind, get, lift, arr_get, expect. by intros ->. Qed.
Lemma wp_irq_route_set i r Q S k : (i < length (irq_routes k))%nat ->
  Q tt (set_irq_routes (<[i := r]> (irq_routes k)) k) -> wp (irq_route_set i r) Q S k.
Proof. unfold wp, irq_route_set, mbind, M_bind, get, lift. intros H. by rewrite arr_set_lt. Qed.

Lemma wp_for_each {A} (f : A -> M ()) l (I : Kernel -> Prop) S k :
  I k -> (forall a k, a ∈ l -> I k -> wp (f a) (fun _ => I) S k) ->
  wp (for_each f l) (fun _ => I) S k.
Proof.
  revert k. induction l as [|a l IH]; intros k Hk Hf; [done|]. apply wp_bind.
  eapply wp_mono; [apply Hf; [left|done]| |done].
  intros ? k' Hk'. apply IH; [done|]. intros. apply Hf; [by right|done].
Qed.

Lemma for_each_app {A} (f : A -> M ()) l l' k :
  for_each f (l ++ l') k = (for_each f l ;; for_each f l') k.
Proof.
  unfold mbind, M_bind. revert k; induction l as [|a l IH]; intros k; cbn; [done|].
  unfold mbind, M_bind. destruct (f a k); [apply IH|done|done].
Qed.

(** ** Computations that only write to the serial port *)

Class Quiet {A} (m : M A) : Prop := quiet : forall k, exists a o, m k = Ret a (set_uart_out o k).

#[export] Instance quiet_ret {A} (a : A) : Quiet (mret a).
Proof. intros k. exists a, (uart_out k). by destruct k. Qed.
#[export] Instance quiet_bind {A B} (m : M A) (f : A -> M B) :
  Quiet m -> (forall a, Quiet (f a)) -> Quiet (m ≫= f).
Proof.
  intros Hm Hf k. destruct (Hm k) as (a & o & E). destruct (Hf a (set_uart_out o k)) as (b & o' & E').
  exists b, o'. unfold mbind, M_bind. by rewrite E, E'.
Qed.
#[export] Instance quiet_put_byte b : Quiet (put_byte b).
Proof. intros k. by eexists _, _. Qed.
#[export] Instance quiet_for_each {A} (f : A -> M ()) l :
  (forall a, Quiet (f a)) -> Quiet (for_each f l).
Proof. intros Hf. induction l; simpl; apply _. Qed.
#[export] Instance quiet_if {A} (b : bool) (m m' : M A) :
  Quiet m -> Quiet m' -> Quiet (if b then m else m').
Proof. by destruct b. Qed.
#[export] Instance quiet_put_str s : Quiet (put_str s).
Proof. unfold put_str, put_str_bytes. apply _. Qed.
#[export] Instance quiet_put_line s : Quiet (put_line s).
Proof. unfold put_line. apply _. Qed.
#[export] Instance quiet_emit p n : Quiet (emit p n).
Proof. unfold emit. apply _. Qed.
#[export] Instance quiet_put_dec v : Quiet (put_dec v).
Proof. unfold put_dec, put_bytes. apply _. Qed.
#[export] Instance quiet_put_hex v : Quiet (put_hex v).
Proof. unfold put_hex, put_bytes. apply _. Qed.
#[export] Instance quiet_emit_irq a b : Quiet (emit_irq_delivered a b).
Proof. unfold emit_irq_delivered. apply _. Qed.

#[global] Typeclasses Opaque put_byte put_str put_line emit put_dec put_hex emit_irq_delivered put_bytes.

Lemma wp_quiet (m : M ()) Q S k : Quiet m -> (forall o, Q tt (set_uart_out o k)) -> wp m Q S k.
Proof. intros H HQ. unfold wp. destruct (H k) as ([] & o & ->). apply HQ. Qed.

(** Step through a computation: one rule, guided by its head. *)
Ltac kstep :=
  lazymatch goal with
  | |- wp (mret _) _ _ _ => apply wp_ret
  | |- wp (_ ≫= _) _ _ _ => apply wp_bind
  | |- wp (get _) _ _ _ => apply wp_get; ksimpl
  | |- wp (modify _) _ _ _ => apply wp_modify; ksimpl
  | |- wp (arg _) _ _ _ => apply wp_arg; ksimpl
  | |- wp (set_a0 _) _ _ _ => apply wp_set_a0; ksimpl
  | |- wp (stop _) _ _ _ => apply wp_stop
  | |- wp _ _ _ _ => apply wp_quiet; [apply _|let o := fresh "o" in intros o; ksimpl]
  end.
Ltac ksteps := repeat kstep.
