(* ===== verification/DispatchInv.v ===== *)
(** * The dispatcher's invariant

    [KInv]: what holds whenever user code runs, and [Safe]: what one trip
    through the kernel may change.  Inside a handler the invariant is
    suspended in a controlled way ([Mid]): the running task may already have
    been blocked, killed or faulted. *)

From stdpp Require Import strings base decidable numbers option tactics list.
From S2P Require Import Prelude Bytes Memory Sv39 Paging PagingHw Device Kernel Dispatch DispatchLogic.
Local Open Scope Z_scope.

(** ** Well-formed data *)

Definition frame_ok (f : TrapFrame) : Prop := length (regs f) = 31%nat /\ Forall (uint 64) (regs f).

Definition cap_ok (c : Cap) : Prop :=
  0 <= object_id c /\ (otype c = OTYPE_ENDPOINT -> object_id c < Z.of_nat NUM_ENDPOINTS).
Definition caps_ok (cs : list (option Cap)) : Prop :=
  length cs = CAPS_PER_TASK /\ forall c, Some c ∈ cs -> cap_ok c.

Definition pending_ok (p : option PendingMsg) : Prop :=
  forall pm, p = Some pm -> 0 <= pm_len pm <= IPC_MSG_MAX /\
    length (pm_data pm) = Z.to_nat IPC_MSG_MAX /\ valid_user_buf (pm_dst pm) (pm_len pm) = true.

Definition tcb_ok (t : Tcb) : Prop :=
  frame_ok (t_frame t) /\ caps_ok (t_caps t) /\ pending_ok (t_pending_ipc t) /\
  t_entry_va t ∈ᵤ 64 /\ t_stack_top_va t ∈ᵤ 64.

Definition tasks_ok (ts : list Tcb) : Prop :=
  length ts = MAX_TASKS /\ forall i t, ts !! i = Some t -> tcb_ok t.

(** The task endpoint [j] holds waiting. *)
Definition waits (es : list Ep) (j tid : nat) : Prop :=
  exists e, es !! j = Some e /\ waiter e = Some tid.

(** Every waiter is a Blocked task, and waits on one endpoint only. *)
Record eps_ok (ts : list Tcb) (es : list Ep) : Prop := {
  eo_len : length es = NUM_ENDPOINTS;
  eo_blocked : forall j tid, waits es j tid -> exists t, ts !! tid = Some t /\ t_state t = Blocked;
  eo_unique : forall j j' tid, waits es j tid -> waits es j' tid -> j = j';
  eo_sender : forall j tid len, es !! j = Some (SenderWaiting tid len) -> 0 <= len <= IPC_MSG_MAX
}.

Definition run_is (ts : list Tcb) (c : option nat) : Prop :=
  forall i t, ts !! i = Some t -> (t_state t = Running <-> c = Some i).

Section Inv.
Context {P : Platform}.

(** A service the table may start: its slot exists, its capabilities are
    well formed and its address space can be built. *)
Definition service_ok (d : ServiceDef) : Prop :=
  (sd_slot d < MAX_TASKS)%nat /\ caps_ok (sd_caps d) /\
  exists r, build_service_address_space linker (replicate MAX_USER_AS fresh_tables) (sd_slot d)
              (sd_entry d) (sd_stack_phys d) = Val r.

(** The slot of a task that was never started has untouched tables. *)
Definition spaces_ok (ts : list Tcb) (ut : list (list Table)) : Prop :=
  length ut = MAX_USER_AS /\
  forall i t, ts !! i = Some t -> t_state t = Empty -> ut !! i = Some fresh_tables.

Record wf (ts : list Tcb) (es : list Ep) (km : list Z) (rt : list IrqRoute) (dma : list Z)
    (rg : list (Z * Z)) (st : option (list ServiceDef)) (ut : list (list Table)) (lv : TrapFrame)
    (hd : Z) : Prop := {
  wf_tasks : tasks_ok ts;
  wf_eps : eps_ok ts es;
  wf_kmsg : length km = Z.to_nat IPC_MSG_MAX;
  wf_routes : length rt = length DEVICES;
  wf_dma : length dma = 4096%nat;
  wf_ring : length rg = RING_LEN /\ forall e, e ∈ rg -> 0 <= e.2 < Z.of_nat MAX_TASKS;
  wf_services : forall tb d, st = Some tb -> d ∈ tb -> service_ok d;
  wf_spaces : spaces_ok ts ut;
  wf_live : frame_ok lv;
  wf_head : 0 <= hd
}.

Definition Wf (k : Kernel) : Prop :=
  wf (tasks k) (endpoints k) (kmsg k) (irq_routes k) (block0_dma k) (ring k) (service_table k)
    (user_tables k) (live k) (ring_head k).

(** The part of a control block no handler changes; no slot is emptied. *)
Definition same_id (t t' : Tcb) : Prop :=
  t_caps t' = t_caps t /\ t_prio t' = t_prio t /\ t_satp_root t' = t_satp_root t /\
  t_name t' = t_name t /\ t_entry_va t' = t_entry_va t /\ t_stack_top_va t' = t_stack_top_va t /\
  (t_state t' = Empty -> t_state t = Empty).

Definition started_from (d : ServiceDef) (t : Tcb) : Prop :=
  t_caps t = sd_caps d /\ t_prio t = sd_prio d /\ t_name t = sd_name d.

(** The current task of [k0] holds a device capability for device [id] with
    the rights [required]. *)
Definition device_grant (k0 : Kernel) (id required : Z) : Prop :=
  exists t c, tasks k0 !! current k0 = Some t /\ Some c ∈ t_caps t /\ otype c = OTYPE_DEVICE /\
    object_id c = id /\ lacks c required = false.

(** An access inside the register window of a device the current task holds
    the right for. *)
Definition mmio_ok (k0 : Kernel) (a : MmioAccess) : Prop :=
  let '(addr, width, need) := match a with
    | MmioRd x w _ => (x, w, DEV_RIGHT_MMIO_READ) | MmioWr x w _ => (x, w, DEV_RIGHT_MMIO_WRITE) end in
  exists id d, DEVICES !! Z.to_nat id = Some d /\ d_mmio_base d <= addr /\
    addr + width <= d_mmio_base d + d_mmio_size d /\ (width = 1 \/ width = 2 \/ width = 4) /\
    device_grant k0 id need.

Definition in_window (va : Z) : Prop := USER_DATA_VA <= va < USER_DATA_END.

(** What a handler entered in state [k0] may have changed. *)
Record safe (k0 : Kernel) (ts : list Tcb) (st : option (list ServiceDef)) (um : Z -> Z -> Z)
    (sp : Z) (ml : list MmioAccess) (ac : bool) : Prop := {
  sf_tasks : forall i t', ts !! i = Some t' -> exists t, tasks k0 !! i = Some t /\
    (same_id t t' \/ (t_state t = Empty /\ exists tb d, service_table k0 = Some tb /\ d ∈ tb /\
       sd_slot d = i /\ started_from d t'));
  sf_table : st = service_table k0;
  sf_mem : forall s va, um s va <> umem k0 s va -> in_window va /\ (s = satp k0 \/ s = sp);
  sf_mmio : exists l, ml = mmio_log k0 ++ l /\ Forall (mmio_ok k0) l;
  sf_active : ac = active k0
}.

Definition Safe (k0 k : Kernel) : Prop :=
  safe k0 (tasks k) (service_table k) (umem k) (satp k) (mmio_log k) (active k).

(** Inside a handler: [c] is the task still marked Running. *)
Definition Mid (k0 : Kernel) (c : option nat) (w : Z) (k : Kernel) : Prop :=
  Wf k /\ Safe k0 k /\ satp k = satp k0 /\ current k = current k0 /\ run_is (tasks k) c /\
  watchdog_miss k = w /\ active k0 = true.

(** Whenever user code runs: one task is marked Running and it is the
    current one, its address space is active, and it has watchdog credit. *)
Definition KInv (k : Kernel) : Prop :=
  Wf k /\ active k = true /\ run_is (tasks k) (Some (current k)) /\
  (exists t, tasks k !! current k = Some t /\ satp k = satp_for (mkPhys (t_satp_root t))) /\
  0 <= watchdog_miss k <= WATCHDOG_WINDOW.

Definition Done (k0 k : Kernel) : Prop := KInv k /\ Safe k0 k.

(** ** Endpoint facts *)

Lemma waits_insert es j e j' tid : waits (<[j := e]> es) j' tid ->
  (j' = j /\ waiter e = Some tid) \/ (j' <> j /\ waits es j' tid).
Proof.
  intros (e' & H & W). apply insert_lookup_cases in H as [[-> ->]|[? ?]]; [by left|].
  right. split; [done|]. by exists e'.
Qed.

Lemma eps_idle ts es j : eps_ok ts es -> eps_ok ts (<[j := EpIdle]> es).
Proof.
  intros [L B U S]. split; [by rewrite length_insert|..].
  - intros j' tid [[_ [=]]|[_ H]]%waits_insert. by eapply B.
  - intros j1 j2 tid [[_ [=]]|[_ H1]]%waits_insert [[_ [=]]|[_ H2]]%waits_insert. by eapply U.
  - intros j' tid len [[_ [=]]|[_ H]]%insert_lookup_cases. by eapply S.
Qed.

(** A task that waits nowhere, or stays Blocked, may be updated. *)
Lemma eps_task ts es i t' : eps_ok ts es -> (i < length ts)%nat ->
  (t_state t' = Blocked \/ forall j, ~ waits es j i) -> eps_ok (<[i := t']> ts) es.
Proof.
  intros [L B U S] Hi Ht. split; [done| |done|done].
  intros j tid W. destruct (decide (tid = i)) as [->|Hne].
  - rewrite list_lookup_insert_eq by done. exists t'. destruct Ht as [?|Ht]; [done|]. by destruct (Ht j).
  - rewrite list_lookup_insert_ne by done. by apply (B j).
Qed.

Lemma no_waits ts es i t : eps_ok ts es -> ts !! i = Some t -> t_state t <> Blocked ->
  forall j, ~ waits es j i.
Proof. intros E Ht Hs j W. destruct (eo_blocked _ _ E j i W) as (t' & ? & ?). congruence. Qed.

Lemma eps_wake ts es j e tid t' : eps_ok ts es -> es !! j = Some e -> waiter e = Some tid ->
  eps_ok (<[tid := t']> ts) (<[j := EpIdle]> es).
Proof.
  intros E He We. assert (waits es j tid) as W by (by exists e).
  destruct (eo_blocked _ _ E j tid W) as (t & Ht & _).
  apply eps_task; [by apply eps_idle|by eapply lookup_lt_Some|]. right.
  intros j' [[_ [=]]|[Hne W']]%waits_insert. by apply Hne, (eo_unique _ _ E j' j tid).
Qed.

Lemma eps_block ts es j e i t t' : eps_ok ts es -> ts !! i = Some t -> t_state t <> Blocked ->
  t_state t' = Blocked -> waiter e = Some i ->
  (forall tid len, e = SenderWaiting tid len -> 0 <= len <= IPC_MSG_MAX) ->
  eps_ok (<[i := t']> ts) (<[j := e]> es).
Proof.
  intros E Ht Hs Hs' We Hl. pose proof (no_waits _ _ _ _ E Ht Hs) as Hno.
  pose proof (lookup_lt_Some _ _ _ Ht) as Hi. split.
  - by rewrite length_insert, (eo_len _ _ E).
  - intros j' tid [[-> W]|[Hne W]]%waits_insert.
    + assert (tid = i) as -> by congruence. exists t'. by rewrite list_lookup_insert_eq.
    + destruct (eo_blocked _ _ E j' tid W) as (tt & Htt & ?).
      destruct (decide (tid = i)) as [->|]; [congruence|]. exists tt. by rewrite list_lookup_insert_ne.
  - intros j1 j2 tid [[-> W1]|[N1 W1]]%waits_insert [[-> W2]|[N2 W2]]%waits_insert; [done|..].
    + assert (tid = i) as -> by congruence. by destruct (Hno j2).
    + assert (tid = i) as -> by congruence. by destruct (Hno j1).
    + by eapply (eo_unique _ _ E).
  - intros j' tid len [[_ <-]|[_ H]]%insert_lookup_cases; [by eapply Hl|by eapply (eo_sender _ _ E)].
Qed.

(** ** What preserves [Mid] *)

Section mid.
Context (k0 : Kernel) (c : option nat) (w : Z).

Lemma frame_set_a0_ok f v : frame_ok f -> frame_ok (frame_set_a0 f v).
Proof.
  intros [L F]. split; [by cbn; rewrite length_insert|]. cbn. apply Forall_insert; [done|].
  unfold u64_of_i64, wrapping, uint. apply Z.mod_pos_bound. lia.
Qed.

Lemma mid_live f k : Mid k0 c w k -> frame_ok f -> Mid k0 c w (set_live f k).
Proof. intros (W & ? & ? & ? & ? & ?) Hf. split; [by destruct W; split|done]. Qed.

Lemma mid_kmsg m k : Mid k0 c w k -> length m = Z.to_nat IPC_MSG_MAX -> Mid k0 c w (set_kmsg m k).
Proof. intros (W & ? & ? & ? & ? & ?) Hm. split; [by destruct W; split|done]. Qed.

Lemma mid_routes r k : Mid k0 c w k -> length r = length DEVICES -> Mid k0 c w (set_irq_routes r k).
Proof. intros (W & ? & ? & ? & ? & ?) Hm. split; [by destruct W; split|done]. Qed.

Lemma mid_dma d k : Mid k0 c w k -> length d = 4096%nat -> Mid k0 c w (set_block0_dma d k).
Proof. intros (W & ? & ? & ? & ? & ?) Hm. split; [by destruct W; split|done]. Qed.

Lemma mid_mmio l k : Mid k0 c w k -> Forall (mmio_ok k0) l -> Mid k0 c w (set_mmio_log (mmio_log k ++ l) k).
Proof.
  intros (W & [? ? ? (l0 & E & F) ?] & ?) Hl. split; [done|]. split; [|done]. split; [done..| |done].
  ksimpl. exists (l0 ++ l). rewrite E, app_assoc. split; [done|]. by apply Forall_app.
Qed.

Lemma mid_ep_idle j k : Mid k0 c w k -> Mid k0 c w (set_endpoints (<[j := EpIdle]> (endpoints k)) k).
Proof.
  intros (W & ? & ? & ? & ? & ?). split; [|done]. destruct W; split; try done. by apply eps_idle.
Qed.

Lemma mid_write_user va b k : Mid k0 c w k -> in_window va ->
  wp (write_user va b) (fun _ => Mid k0 c w) (Safe k0) k.
Proof.
  intros (W & [H1 H2 H3 H4 H5] & Hs & Hr) Hva. split; [done|]. split; [|done].
  split; [done|done| |done|done]. ksimpl.
  intros s a. destruct ((s =? satp k) && (a =? va)) eqn:E; [|apply H3].
  bool_facts. subst. intros _. split; [done|]. by left.
Qed.

Lemma mid_task c' i t t' k : Mid k0 c w k -> tasks k !! i = Some t -> same_id t t' -> tcb_ok t' ->
  t_state t' <> Empty -> eps_ok (<[i := t']> (tasks k)) (endpoints k) ->
  run_is (<[i := t']> (tasks k)) c' -> Mid k0 c' w (set_tasks (<[i := t']> (tasks k)) k).
Proof.
  intros (W & [H1 H2 H3 H4 H5] & ? & ? & ? & ?) Hi Hid Hok Hne He Hr.
  split; [|split; [|done]].
  - destruct W as [[Lt Ft] ? ? ? ? ? ? [Lu Fu] ? ?]. split; try done.
    + split; [by ksimpl; rewrite length_insert|]. intros j tj [[_ ->]|[_ Hj]]%insert_lookup_cases; [done|].
      by eapply Ft.
    + split; [done|]. intros j tj [[_ ->]|[_ Hj]]%insert_lookup_cases; [done|]. by eapply Fu.
  - split; try done. ksimpl. intros j tj [[-> ->]|[_ Hj]]%insert_lookup_cases; [|by apply H1].
    destruct (H1 i t Hi) as (t0 & Ht0 & [Hs|(He0 & tb & d & ? & ? & ? & ?)]); exists t0; (split; [done|]).
    + left. unfold same_id in *. intuition congruence.
    + right. split; [done|]. exists tb, d. unfold started_from, same_id in *. intuition congruence.
Qed.

(** *** Reading the state *)

Lemma mid_lookup i k : Mid k0 c w k -> (i < MAX_TASKS)%nat ->
  exists t, tasks k !! i = Some t /\ tcb_ok t.
Proof.
  intros (W & _) Hi. destruct (wf_tasks _ _ _ _ _ _ _ _ _ _ W) as [L F].
  destruct (lookup_lt_is_Some_2 (tasks k) i) as [t Ht]; [by rewrite L|]. exists t. eauto.
Qed.

Lemma mid_ep id k : Mid k0 c w k -> 0 <= id < Z.of_nat NUM_ENDPOINTS ->
  exists e, endpoints k !! Z.to_nat id = Some e /\ (Z.to_nat id < length (endpoints k))%nat.
Proof.
  intros (W & _) Hi. pose proof (eo_len _ _ (wf_eps _ _ _ _ _ _ _ _ _ _ W)) as L.
  assert (Z.to_nat id < length (endpoints k))%nat as Hl by lia.
  destruct (lookup_lt_is_Some_2 _ _ Hl) as [e He]. by exists e.
Qed.

Lemma mid_route i k : Mid k0 c w k -> (i < length DEVICES)%nat ->
  exists r, irq_routes k !! i = Some r /\ (i < length (irq_routes k))%nat.
Proof.
  intros (W & _) Hi. pose proof (wf_routes _ _ _ _ _ _ _ _ _ _ W) as L.
  destruct (lookup_lt_is_Some_2 (irq_routes k) i) as [e He]; [lia|]. exists e. split; [done|lia].
Qed.

Lemma mid_reg i k : Mid k0 c w k -> reg (live k) i ∈ᵤ 64.
Proof.
  intros (W & _). destruct (wf_live _ _ _ _ _ _ _ _ _ _ W) as [_ F]. unfold reg.
  destruct (regs (live k) !! i) eqn:E; cbn [default]; [by eapply Forall_lookup_1|]. by vm_compute.
Qed.

Lemma mid_caps k i t : Mid k0 c w k -> tasks k !! i = Some t -> caps_ok (t_caps t).
Proof. intros (W & _) Ht. destruct (wf_tasks _ _ _ _ _ _ _ _ _ _ W) as [_ F]. by apply (F i). Qed.

End mid.

End Inv.
