(* ===== verification/DispatchOps.v ===== *)
(** * The dispatcher's building blocks preserve the invariant

    Triples for the functions the system calls are made of: events,
    capability checks, endpoint clearing, the scheduler's choice, copies to
    and from user memory, and the resume path. *)

From stdpp Require Import strings sets base decidable numbers option tactics list.
From S2P Require Import Prelude.
From S2P Require Import Bytes.
From S2P Require Import Memory.
From S2P Require Import Sv39.
From S2P Require Import Paging.
From S2P Require Import PagingHw.
From S2P Require Import Device.
From S2P Require Import Kernel.
From S2P Require Import Dispatch.
From S2P Require Import DispatchLogic.
From S2P Require Import DispatchInv.
Local Open Scope Z_scope.

(** Use a proved triple for the next statement. *)
Ltac kuse H := eapply wp_mono; [eapply H; eauto|cbv beta; intros ? ?|done].

(** ** Pure descriptions *)

(** What [cap_check] and [device_cap_check] answer. *)
Definition cap_lookup (cs : list (option Cap)) (cap_index required : Z) : CapCheck :=
  if Z.of_nat CAPS_PER_TASK <=? cap_index then CcInvalidCap
  else match cs !! Z.to_nat cap_index with
  | Some (Some c) =>
      if negb (otype c =? OTYPE_ENDPOINT) then CcWrongType
      else if lacks c required then CcInsufficientRights else CcOk (object_id c)
  | _ => CcInvalidCap
  end.
Definition device_lookup (cs : list (option Cap)) (cap_index required : Z) : CapCheck :=
  if Z.of_nat CAPS_PER_TASK <=? cap_index then CcInvalidCap
  else match cs !! Z.to_nat cap_index with
  | Some (Some c) =>
      if negb (otype c =? OTYPE_DEVICE) then CcWrongType
      else if Z.of_nat (length DEVICES) <=? object_id c then CcInvalidCap
      else if lacks c required then CcInsufficientRights else CcOk (object_id c)
  | _ => CcInvalidCap
  end.
(** Whether the table holds a capability of a type with the rights. *)
Definition holds_cap (cs : list (option Cap)) (ot required : Z) : bool :=
  existsb (fun c => match c with
                    | Some c => (otype c =? ot) && negb (lacks c required)
                    | None => false end) cs.

Definition clear_waits (slot : nat) (es : list Ep) : list Ep :=
  (fun e => if decide (waiter e = Some slot) then EpIdle else e) <$> es.

Lemma caps_get cs cap_index : caps_ok cs -> 0 <= cap_index < Z.of_nat CAPS_PER_TASK ->
  exists c, cs !! Z.to_nat cap_index = Some c.
Proof. intros [L _] H. apply lookup_lt_is_Some_2. rewrite L. lia. Qed.

Section ops.
Context {P : Platform}.

Lemma cap_check_eq cur cap_index required t k : tasks k !! cur = Some t -> caps_ok (t_caps t) ->
  0 <= cap_index -> cap_check cur cap_index required k = Ret (cap_lookup (t_caps t) cap_index required) k.
Proof.
  intros Ht Hc H0. unfold cap_check, cap_lookup. destruct (_ <=? cap_index) eqn:E; [done|]. bool_facts.
  destruct (caps_get _ cap_index Hc) as [cc Hcc]; [lia|].
  unfold mbind, M_bind, task, get, lift, arr_get, expect, mbind. cbn. rewrite Ht. cbn. rewrite Hcc.
  by destruct cc.
Qed.
Lemma device_cap_check_eq cur cap_index required t k : tasks k !! cur = Some t -> caps_ok (t_caps t) ->
  0 <= cap_index ->
  device_cap_check cur cap_index required k = Ret (device_lookup (t_caps t) cap_index required) k.
Proof.
  intros Ht Hc H0. unfold device_cap_check, device_lookup.
  destruct (_ <=? cap_index) eqn:E; [done|]. bool_facts.
  destruct (caps_get _ cap_index Hc) as [cc Hcc]; [lia|].
  unfold mbind, M_bind, task, get, lift, arr_get, expect, mbind. cbn. rewrite Ht. cbn. rewrite Hcc.
  by destruct cc.
Qed.
Lemma cap_find_eq cur ot required t k : tasks k !! cur = Some t ->
  cap_find cur ot required k = Ret (holds_cap (t_caps t) ot required) k.
Proof.
  intros Ht. unfold cap_find, mbind, M_bind, task, get, lift, arr_get, expect, mbind. cbn. by rewrite Ht.
Qed.

Lemma cap_lookup_endpoint cs i r id : caps_ok cs -> cap_lookup cs i r = CcOk id ->
  0 <= id < Z.of_nat NUM_ENDPOINTS.
Proof.
  unfold cap_lookup. intros [_ F] H. repeat case_match; try discriminate. bool_facts. simplify_eq.
  match goal with E : cs !! _ = Some (Some ?c) |- _ =>
    destruct (F c (list_elem_of_lookup_2 _ _ _ E)) as [? Hlt] end. auto.
Qed.
Lemma device_lookup_device cs i r id : caps_ok cs -> device_lookup cs i r = CcOk id ->
  0 <= id < Z.of_nat (length DEVICES).
Proof.
  unfold device_lookup. intros [_ F] H. repeat case_match; try discriminate. bool_facts. simplify_eq.
  match goal with E : cs !! _ = Some (Some ?c) |- _ =>
    destruct (F c (list_elem_of_lookup_2 _ _ _ E)) as [? _] end. done.
Qed.

Lemma device_lookup_cap cs i r id : device_lookup cs i r = CcOk id ->
  exists c, Some c ∈ cs /\ otype c = OTYPE_DEVICE /\ object_id c = id /\ lacks c r = false.
Proof.
  unfold device_lookup. intros H. repeat case_match; try discriminate. bool_facts. simplify_eq.
  match goal with E : cs !! _ = Some (Some ?c) |- _ => exists c; split; [by eapply list_elem_of_lookup_2|done] end.
Qed.

Lemma clear_waits_spec slot es j tid : waits (clear_waits slot es) j tid -> tid <> slot /\ waits es j tid.
Proof.
  unfold clear_waits. intros (e & He & W). apply list_lookup_fmap_Some in He as (e0 & -> & He0).
  case_decide; [done|]. split; [congruence|]. by exists e0.
Qed.

Lemma eps_clear ts es slot t' : eps_ok ts es -> (slot < length ts)%nat ->
  eps_ok (<[slot := t']> ts) (clear_waits slot es).
Proof.
  intros E Hs. split.
  - unfold clear_waits. by rewrite length_fmap, (eo_len _ _ E).
  - intros j tid [Hne W]%clear_waits_spec. rewrite list_lookup_insert_ne by done. by apply (eo_blocked _ _ E j).
  - intros j j' tid [_ W]%clear_waits_spec [_ W']%clear_waits_spec. by eapply (eo_unique _ _ E).
  - intros j tid len. unfold clear_waits. intros (e & E' & He)%list_lookup_fmap_Some.
    case_decide; [done|]. subst. by eapply (eo_sender _ _ E).
Qed.

(** The loop over a prefix of the endpoints. *)
Lemma ep_clear_prefix slot n k : (n <= length (endpoints k))%nat ->
  for_each (fun id : nat =>
    e ← ep_get (Z.of_nat id);
    if decide (waiter e = Some slot) then ep_set (Z.of_nat id) EpIdle else mret tt) (seq 0 n) k =
  Ret tt (set_endpoints (clear_waits slot (take n (endpoints k)) ++ drop n (endpoints k)) k).
Proof.
  induction n as [|n IH]; intros Hn; [by destruct k|].
  rewrite seq_S, for_each_app. unfold mbind at 1, M_bind at 1. rewrite IH by lia. cbn [for_each Nat.add].
  destruct (lookup_lt_is_Some_2 (endpoints k) n) as [e He]; [lia|].
  assert (length (clear_waits slot (take n (endpoints k))) = n) as Hl
    by (unfold clear_waits; rewrite length_fmap, length_take; lia).
  assert (ep_get (Z.of_nat n) (set_endpoints
    (clear_waits slot (take n (endpoints k)) ++ drop n (endpoints k)) k) =
    Ret e (set_endpoints (clear_waits slot (take n (endpoints k)) ++ drop n (endpoints k)) k)) as Eg.
  { unfold ep_get, mbind, M_bind, get, lift, arr_get, expect. ksimpl.
    rewrite Nat2Z.id, lookup_app_r, Hl, Nat.sub_diag, lookup_drop, Nat.add_0_r, He by lia. done. }
  unfold mbind, M_bind in *. rewrite Eg.
  erewrite take_S_r by done. unfold clear_waits in *. rewrite fmap_app. cbn [fmap list_fmap].
  rewrite (drop_S _ _ _ He). case_decide as Hw.
  - unfold ep_set, mbind, M_bind, get, lift, arr_set. ksimpl. rewrite Nat2Z.id, decide_True
      by (rewrite length_app, Hl; cbn; lia).
    cbn. unfold set_endpoints, modify. ksimpl. rewrite insert_app_r_alt, Hl, Nat.sub_diag by lia. cbn.
    by rewrite <- app_assoc.
  - cbn. unfold set_endpoints. ksimpl. by rewrite <- app_assoc.
Qed.

Lemma wp_ep_clear slot Q S k : length (endpoints k) = NUM_ENDPOINTS ->
  Q tt (set_endpoints (clear_waits slot (endpoints k)) k) -> wp (ep_clear_for_task slot) Q S k.
Proof.
  intros L HQ. unfold wp, ep_clear_for_task. rewrite ep_clear_prefix by lia.
  rewrite <- L, take_ge, drop_ge, app_nil_r by lia. done.
Qed.

(** ** The scheduler's choice *)

Definition is_ready (ts : list Tcb) (j : nat) (prio : Z) : Prop :=
  exists t, ts !! j = Some t /\ t_state t = Ready /\ t_prio t = prio.

(** [best] is the first of the highest-priority Ready tasks of [l]. *)
Definition chosen (ts : list Tcb) (l : list nat) (best : option nat) : Prop :=
  match best with
  | None => forall j p, j ∈ l -> ~ is_ready ts j p
  | Some n => exists p l1 l2, l = l1 ++ n :: l2 /\ is_ready ts n p /\
      (forall j q, j ∈ l1 -> is_ready ts j q -> q < p) /\
      (forall j q, j ∈ l2 -> is_ready ts j q -> q <= p)
  end.

Lemma select_chosen ts l : (forall j, j ∈ l -> (j < length ts)%nat) ->
  exists best, for_m (better ts) None l = Val best /\ chosen ts l best.
Proof.
  induction l as [|i l IH] using rev_ind; intros Hl.
  { exists None. split; [done|]. intros j p H. by apply elem_of_nil in H. }
  destruct IH as (best & E & C); [set_solver|].
  rewrite for_m_app, E. cbn [mbind outcome_bind for_m].
  destruct (lookup_lt_is_Some_2 ts i) as [t Ht]; [set_solver|].
  assert (forall q, is_ready ts i q -> t_state t = Ready /\ q = t_prio t) as Hi
    by (intros q (t' & ? & ? & ?); split; congruence).
  unfold better at 1. rewrite (arr_get_lookup _ _ _ Ht). cbn [mbind outcome_bind].
  destruct (bool_decide (t_state t = Ready)) eqn:Er; cbn [negb]; bool_facts.
  - assert (is_ready ts i (t_prio t)) as Ri by (by exists t).
    destruct best as [b|].
    + destruct C as (p & l1 & l2 & -> & (tb & Htb & Hsb & Hp) & H1 & H2).
      rewrite (arr_get_lookup _ _ _ Htb). cbn. destruct (t_prio tb <? t_prio t) eqn:Ep; bool_facts.
      * exists (Some i). split; [done|]. exists (t_prio t), (l1 ++ b :: l2), []. split; [done|].
        split; [done|]. split; [|by intros j q Hj%elem_of_nil].
        intros j q [Hj|[->|Hj]%elem_of_cons]%elem_of_app Hr.
        -- specialize (H1 j q Hj Hr). lia.
        -- destruct Hr as (? & ? & ? & ?). assert (q = t_prio tb) by congruence. lia.
        -- specialize (H2 j q Hj Hr). lia.
      * exists (Some b). split; [done|]. exists p, l1, (l2 ++ [i]). rewrite <- app_assoc. split; [done|].
        split; [by exists tb|]. split; [done|].
        intros j q [Hj| ->%list_elem_of_singleton]%elem_of_app Hr; [by apply (H2 j)|].
        destruct (Hi q Hr) as [_ ->]. lia.
    + exists (Some i). split; [done|]. exists (t_prio t), l, []. split; [done|]. split; [done|].
      split; [|by intros j q Hj%elem_of_nil]. intros j q Hj Hr. by destruct (C j q).
  - exists best. split; [done|]. destruct best as [b|].
    + destruct C as (p & l1 & l2 & -> & Hb & H1 & H2). exists p, l1, (l2 ++ [i]).
      rewrite <- app_assoc. split; [done|]. split; [done|]. split; [done|].
      intros j q [Hj| ->%list_elem_of_singleton]%elem_of_app Hr; [by apply (H2 j)|].
      by destruct (Hi q Hr).
    + intros j q [Hj| ->%list_elem_of_singleton]%elem_of_app Hr; [by apply (C j q)|].
      by destruct (Hi q Hr).
Qed.

Lemma scan_order_elem cur j : j ∈ scan_order cur -> (j < MAX_TASKS)%nat.
Proof.
  unfold scan_order. intros (x & -> & _)%list_elem_of_fmap. apply Nat.mod_upper_bound. unfold MAX_TASKS. lia.
Qed.
Lemma scan_order_all cur j : (j < MAX_TASKS)%nat -> j ∈ scan_order cur.
Proof.
  unfold scan_order, MAX_TASKS. intros Hj. apply list_elem_of_fmap.
  exists (if decide ((j + 16 - cur mod 16) mod 16 = 0)%nat then 16%nat else ((j + 16 - cur mod 16) mod 16)%nat).
  pose proof (Nat.mod_upper_bound cur 16). split.
  - case_decide; natmod_lia.
  - apply elem_of_seq. case_decide; natmod_lia.
Qed.

Lemma wp_select k0 c w cur Q S k : Mid k0 c w k ->
  (forall best, chosen (tasks k) (scan_order cur) best -> Q best k) -> wp (select_highest cur) Q S k.
Proof.
  intros Hm HQ. destruct Hm as (W & _). destruct (wf_tasks _ _ _ _ _ _ _ _ _ _ W) as [L _].
  destruct (select_chosen (tasks k) (scan_order cur)) as (best & E & C).
  { intros j Hj. rewrite L. by eapply scan_order_elem. }
  unfold wp, select_highest, mbind, M_bind, get. rewrite E. by apply HQ.
Qed.

Lemma chosen_ready ts l n : chosen ts l (Some n) -> exists t, ts !! n = Some t /\ t_state t = Ready.
Proof. intros (p & l1 & l2 & _ & (t & ? & ? & _) & _). by exists t. Qed.

(** ** Events and refusals *)

Lemma wp_ring_push k0 c w kind slot S k : Mid k0 c w k -> (slot < MAX_TASKS)%nat ->
  wp (ring_push kind slot) (fun _ => Mid k0 c w) S k.
Proof.
  intros Hm Hs. unfold ring_push. do 7 kstep. ksimpl. pose proof Hm as (W & ?).
  destruct (wf_ring _ _ _ _ _ _ _ _ _ _ W) as [L F].
  assert (wrapping 8 (Z.of_nat slot) = Z.of_nat slot) as ->
    by (unfold wrapping; apply Z.mod_small; unfold MAX_TASKS in Hs; lia).
  apply (wp_lift _ (<[Z.to_nat (ring_head k mod Z.of_nat RING_LEN) := (kind, Z.of_nat slot)]> (ring k))).
  { apply arr_set_lt. rewrite L. pose proof (Z.mod_pos_bound (ring_head k) (Z.of_nat RING_LEN)).
    unfold RING_LEN in *. lia. }
  kstep. split; [|done]. destruct W. split; try done.
  - split; [by ksimpl; rewrite length_insert|]. intros e [i Hi]%list_elem_of_lookup_1.
    apply insert_lookup_cases in Hi as [[_ ->]|[_ Hi]]; [cbn; lia|]. apply F. by eapply list_elem_of_lookup_2.
  - ksimpl. unfold wrapping. apply Z.mod_pos_bound. lia.
Qed.

(** ** Copies into user memory *)

Definition buf_in_window (va : Z) (n : nat) : Prop :=
  USER_DATA_VA <= va /\ va + Z.of_nat n <= USER_DATA_END.

Lemma stack_window_ok va len : in_stack_window va len = true -> 0 <= len ->
  buf_in_window va (Z.to_nat len).
Proof.
  unfold in_stack_window, checked_add, buf_in_window. intros H H0.
  destruct (va + len <? 2 ^ 64) eqn:E; bool_facts; [|discriminate]. lia.
Qed.
Lemma valid_buf_ok va len : valid_user_buf va len = true -> 0 <= len ->
  buf_in_window va (Z.to_nat len) /\ len <= IPC_MSG_MAX.
Proof.
  unfold valid_user_buf, checked_add, buf_in_window. intros H H0.
  destruct (va + len <? 2 ^ 64) eqn:E; bool_facts; [|discriminate]. lia.
Qed.
Lemma user_addr_window va n i : buf_in_window va n -> (i < n)%nat -> user_addr va i = va + Z.of_nat i.
Proof.
  unfold buf_in_window, user_addr, wrapping_add, wrapping, USER_DATA_END, USER_DATA_VA. intros H Hi.
  apply Z.mod_small. change (2 ^ 64) with 18446744073709551616. lia.
Qed.

(** The memory after a copy: the bytes at [va], everything else unchanged. *)
Definition copied (k : Kernel) (va : Z) (bs : list Z) (m : Z -> Z -> Z) : Prop :=
  forall s a, m s a =
    if decide (s = satp k /\ va <= a < va + Z.of_nat (length bs))
    then default 0 (bs !! Z.to_nat (a - va)) else umem k s a.

Lemma copy_bytes_mem va bs k : buf_in_window va (length bs) ->
  exists m, copy_bytes_to_user va bs k = Ret tt (set_umem m k) /\ copied k va bs m.
Proof.
  unfold copy_bytes_to_user. induction bs as [|b bs IH] using rev_ind; intros Hw.
  { exists (umem k). split; [by destruct k|]. intros s a. rewrite decide_False; [done|]. cbn. lia. }
  rewrite length_app in Hw. cbn [length] in Hw.
  destruct IH as (m & E & Hm); [unfold buf_in_window in *; lia|].
  rewrite imap_app, for_each_app. unfold mbind, M_bind. rewrite E. cbn [imap for_each].
  unfold write_user, mbind, M_bind, get, modify. ksimpl. cbn [fst snd compose].
  eexists. split; [reflexivity|]. intros s a. rewrite length_app. cbn [length].
  rewrite (user_addr_window va (length bs + 1)) by (done || (cbn; lia)). cbn. rewrite Hm.
  destruct ((s =? satp k) && (a =? va + Z.of_nat (length bs + 0))) eqn:Eq; bool_facts.
  - subst. rewrite decide_True by lia.
    replace (Z.to_nat (va + Z.of_nat (length bs + 0) - va)) with (length bs) by lia.
    by rewrite lookup_app_r, Nat.sub_diag.
  - apply andb_false_iff in Eq. rewrite Z.eqb_neq, Z.eqb_neq in Eq.
    repeat case_decide; try done; try (exfalso; lia). rewrite lookup_app_l; [done|lia].
Qed.

Lemma copied_window k va bs m s a : buf_in_window va (length bs) -> copied k va bs m ->
  m s a <> umem k s a -> in_window a /\ s = satp k.
Proof.
  intros Hw Hm Hne. rewrite Hm in Hne. case_decide; [|done]. unfold buf_in_window, in_window in *.
  split; [lia|tauto].
Qed.

Lemma wp_copy k0 c w va bs k : Mid k0 c w k -> buf_in_window va (length bs) ->
  wp (copy_bytes_to_user va bs) (fun _ => Mid k0 c w) (Safe k0) k.
Proof.
  intros (W & [? ? H3 ? ?] & Hs & ?) Hw. destruct (copy_bytes_mem va bs k Hw) as (m & E & Hm).
  unfold wp. rewrite E. split; [done|]. split; [|done]. split; try done. ksimpl.
  intros s a Hne. destruct (decide (m s a = umem k s a)) as [Eq|Eq].
  - apply H3. congruence.
  - destruct (copied_window k va bs m s a Hw Hm Eq) as [? ->]. tauto.
Qed.

(** ** The resume path *)

Lemma done_live k0 k f : Done k0 k -> frame_ok f -> Done k0 (set_live f k).
Proof. intros [(W & ? & ? & ? & ?) ?] Hf. split; [|done]. split; [by destruct W; split|done]. Qed.

Lemma done_umem k0 k m va bs : Done k0 k -> buf_in_window va (length bs) -> copied k va bs m ->
  Done k0 (set_umem m k).
Proof.
  intros [? [? ? H3 ? ?]] Hw Hm. split; [done|]. split; try done. ksimpl.
  intros s a Hne. destruct (decide (m s a = umem k s a)) as [Eq|Eq].
  - apply H3. congruence.
  - destruct (copied_window k va bs m s a Hw Hm Eq) as [? ->]. tauto.
Qed.

Lemma mid_resume k0 w n t k : Mid k0 (Some n) w k -> tasks k !! n = Some t ->
  Done k0 (set_live (t_frame t) (set_satp (satp_for (mkPhys (t_satp_root t)))
    (set_watchdog_miss 0 (set_current n k)))).
Proof.
  intros (W & [? ? H3 ? Ha] & Hs & ? & Hr & ? & ?) Ht. split.
  - unfold KInv. ksimpl. split; [destruct W as [Wt]; split; try done; by apply (proj2 Wt n t Ht)|].
    split; [congruence|]. split; [done|]. split; [by exists t|]. unfold WATCHDOG_WINDOW. lia.
  - split; try done. ksimpl. intros s va [? [?|?]]%H3; split; try done; left; congruence.
Qed.

Lemma done_pending k0 k n t : Done k0 k -> tasks k !! n = Some t -> t_state t = Running ->
  Done k0 (set_tasks (<[n := with_pending None t]> (tasks k)) k).
Proof.
  intros [(W & ? & Hr & (tc & Htc & Hsat) & ?) [H1 ? ? ? ?]] Ht Hs. unfold KInv.
  split; [split; [|split; [done|split; [|split; [|done]]]]|]; ksimpl.
  - destruct W as [[Lt Ft] We ? ? ? ? ? [Lu Fu] ? ?]. split; try done; ksimpl.
    + split; [by rewrite length_insert|]. intros i ti [[-> ->]|[_ Hi]]%insert_lookup_cases; [|by eapply Ft].
      destruct (Ft _ _ Ht) as (? & ? & ? & ?). split; [done|]. split; [done|]. by split.
    + apply eps_task; [done|by eapply lookup_lt_Some|]. right.
      by eapply no_waits; [done..|rewrite Hs].
    + split; [done|]. intros i ti [[-> ->]|[_ Hi]]%insert_lookup_cases Hem; [cbn in Hem; congruence|by eapply Fu].
  - intros i ti [[-> ->]|[_ Hi]]%insert_lookup_cases; [apply (Hr n t Ht)|by apply Hr].
  - destruct (decide (current k = n)) as [<-|Hne].
    + exists (with_pending None t). rewrite list_lookup_insert_eq by (by eapply lookup_lt_Some).
      split; [done|]. cbn. congruence.
    + exists tc. by rewrite list_lookup_insert_ne.
  - split; try done. intros i ti [[-> ->]|[_ Hi]]%insert_lookup_cases; [|by apply H1].
    destruct (H1 _ _ Ht) as (t0 & Ht0 & Hx). by exists t0.
Qed.

Lemma run_is_insert ts i t' c : (i < length ts)%nat -> t_state t' <> Running -> run_is ts c ->
  c <> Some i -> run_is (<[i := t']> ts) c.
Proof.
  intros Hi Hn Hr Hc j tj [[-> ->]|[_ Hj]]%insert_lookup_cases; [|by apply Hr]. split; congruence.
Qed.
Lemma run_is_stop ts i t' : t_state t' <> Running -> run_is ts (Some i) -> run_is (<[i := t']> ts) None.
Proof.
  intros Hn Hr j tj [[-> ->]|[Hne Hj]]%insert_lookup_cases; [done|]. rewrite (Hr j tj Hj). split; congruence.
Qed.
Lemma run_is_start ts i t' : (i < length ts)%nat -> t_state t' = Running -> run_is ts None ->
  run_is (<[i := t']> ts) (Some i).
Proof.
  intros Hi Hn Hr j tj [[-> ->]|[Hne Hj]]%insert_lookup_cases; [done|]. rewrite (Hr j tj Hj). split; congruence.
Qed.

Lemma wp_resume k0 w n t k : Mid k0 None w k -> tasks k !! n = Some t -> t_state t = Ready ->
  wp (resume_task n) (fun _ => Done k0) (Safe k0) k.
Proof.
  intros Hm Ht Hs. pose proof (lookup_lt_Some _ _ _ Ht) as Hn.
  pose proof Hm as (W & _ & _ & _ & Hr & _). pose proof (wf_tasks _ _ _ _ _ _ _ _ _ _ W) as [_ Ft].
  pose proof (Ft n t Ht) as Hok. unfold resume_task. kstep. apply (wp_upd_task n t); [done|].
  assert (Mid k0 (Some n) w (set_tasks (<[n := with_state Running t]> (tasks k)) k)) as Hm'.
  { eapply mid_task; [done|done|done|done|done| |by apply run_is_start].
    apply eps_task; [apply W|done|]. right. eapply no_waits; [apply W|done|by rewrite Hs]. }
  do 5 kstep. apply (wp_task n (with_state Running t)); [ksimpl; by apply list_lookup_insert_eq|].
  unfold switch_to_user_space. do 4 kstep.
  eapply mid_resume in Hm' as Hd; [|ksimpl; by apply list_lookup_insert_eq].
  cbn [with_state t_frame t_satp_root t_pending_ipc] in *.
  destruct (t_pending_ipc t) as [pm|] eqn:Ep; [|by kstep].
  kstep. apply (wp_upd_task n (with_state Running t)); [ksimpl; by apply list_lookup_insert_eq|].
  eapply done_pending in Hd; [|ksimpl; by apply list_lookup_insert_eq|done].
  destruct (Hok) as (Hf & _ & Hp & _). destruct (Hp pm Ep) as (Hl & Hld & Hv).
  destruct (valid_buf_ok _ _ Hv) as [Hb _]; [lia|].
  do 4 kstep. kstep.
  set (K := set_delivered _ _). change (Done k0 K) in Hd.
  assert (length (take (Z.to_nat (pm_len pm)) (pm_data pm)) = Z.to_nat (pm_len pm)) as Hlen
    by (rewrite length_take; lia).
  apply (wp_lift _ (take (Z.to_nat (pm_len pm)) (pm_data pm))).
  { unfold slice. rewrite decide_True by lia. by rewrite Nat.sub_0_r. }
  destruct (copy_bytes_mem (pm_dst pm) (take (Z.to_nat (pm_len pm)) (pm_data pm)) K) as (m & E & Hcp);
    [by rewrite Hlen|].
  kstep. unfold wp at 1. rewrite E.
  eapply done_umem in Hd; [|by rewrite Hlen|done].
  do 2 kstep.
  eapply (done_live _ _ (frame_set_a0 (t_frame t) (pm_len pm))) in Hd; [|by apply frame_set_a0_ok].
  ksteps. exact Hd.
Qed.

Lemma wp_select_and_resume k0 w n t k : Mid k0 None w k -> tasks k !! n = Some t -> t_state t = Ready ->
  wp (select_and_resume n) (fun _ => Done k0) (Safe k0) k.
Proof.
  intros Hm Ht Hs. unfold select_and_resume. kstep. apply (wp_task n t); [done|]. do 2 kstep.
  by apply (wp_resume k0 w n t).
Qed.

End ops.
