(* ===== verification/DispatchSafe.v ===== *)
(** * Every entry into the dispatcher preserves the invariant

    For each system call and each interrupt or fault path: started from a
    state satisfying [KInv] it does not crash, and what it returns to user
    code satisfies [KInv] again, with only the changes [Safe] allows. *)

From stdpp Require Import strings sets base decidable numbers option tactics list.
From S2P Require Import Prelude.
From S2P Require Import Bytes.
From S2P Require Import Memory.
From S2P Require Import Sv39.
From S2P Require Import Paging.
From S2P Require Import PagingHw.
From S2P Require Import Device.
From S2P Require Import Kernel.
From S2P Require Import Dispatch.
From S2P Require Import DispatchLogic.
From S2P Require Import DispatchInv.
From S2P Require Import DispatchOps.
Local Open Scope Z_scope.

Section safe.
Context {P : Platform}.

Lemma kinv_mid k : KInv k -> Mid k (Some (current k)) (watchdog_miss k) k.
Proof.
  intros (W & Ha & Hr & _ & _). split; [done|]. split; [|done]. split; try done.
  - intros i t Ht. exists t. split; [done|]. by left.
  - exists []. by rewrite app_nil_r.
Qed.

Lemma kinv_current k : KInv k -> (current k < MAX_TASKS)%nat.
Proof.
  intros (W & _ & _ & (t & Ht & _) & _). destruct (wf_tasks _ _ _ _ _ _ _ _ _ _ W) as [L _].
  rewrite <- L. by eapply lookup_lt_Some.
Qed.

Lemma mid_done k0 w k : KInv k0 -> Mid k0 (Some (current k0)) w k -> 0 <= w <= WATCHDOG_WINDOW ->
  Done k0 k.
Proof.
  intros K0 Hm Hw. destruct (mid_lookup k0 _ w _ k Hm (kinv_current k0 K0)) as (t & Ht & _).
  destruct K0 as (_ & Ha & Hr0 & (t0 & Ht0 & Hs0) & _).
  destruct Hm as (W & S & Hs & Hc & Hr & Hwd & _). split; [|done]. unfold KInv.
  rewrite Hc, Hwd. split; [done|]. split; [by rewrite (sf_active _ _ _ _ _ _ _ S)|].
  split; [done|]. split; [|done]. exists t. split; [done|]. rewrite Hs, Hs0.
  destruct (sf_tasks _ _ _ _ _ _ _ S _ _ Ht) as (t0' & Ht0' & [Hid|[He _]]);
    assert (t0' = t0) as -> by congruence.
  - by destruct Hid as (_ & _ & -> & _).
  - apply Hr0 in Ht0 as [_ Hrun]. by rewrite Hrun in He.
Qed.

Section handlers.
Context (k0 : Kernel).

Lemma wp_mid_a0 c w v k : Mid k0 c w k -> wp (set_a0 v) (fun _ => Mid k0 c w) (Safe k0) k.
Proof.
  intros Hm. kstep. apply mid_live; [done|]. apply frame_set_a0_ok. by destruct Hm as [[] _].
Qed.

(** A refusal: an event, a line and an error code. *)
Lemma wp_deny_cap c w cur ck k : Mid k0 c w k -> (cur < MAX_TASKS)%nat ->
  wp (deny_cap cur ck) (fun _ => Mid k0 c w) (Safe k0) k.
Proof.
  intros Hm Hc. unfold deny_cap. kstep. kuse wp_ring_push. intros Hm'. do 2 kstep.
  destruct (mid_lookup k0 c w cur _ Hm' Hc) as (t & Ht & _). kstep. apply (wp_task cur t); [done|].
  ksteps. exact Hm'.
Qed.
Lemma wp_deny_authority c w cur what k : Mid k0 c w k -> (cur < MAX_TASKS)%nat ->
  wp (deny_authority cur what) (fun _ => Mid k0 c w) (Safe k0) k.
Proof.
  intros Hm Hc. unfold deny_authority. kstep. kuse wp_ring_push. intros Hm'. do 2 kstep.
  destruct (mid_lookup k0 c w cur _ Hm' Hc) as (t & Ht & _). kstep. apply (wp_task cur t); [done|].
  ksteps. exact Hm'.
Qed.
Lemma wp_deny_device_op c w cur kind reason k : Mid k0 c w k -> (cur < MAX_TASKS)%nat ->
  wp (deny_device_op cur kind reason) (fun _ => Mid k0 c w) (Safe k0) k.
Proof.
  intros Hm Hc. unfold deny_device_op. kstep. kuse wp_ring_push. intros Hm'. do 4 kstep.
  destruct (mid_lookup k0 c w cur _ Hm' Hc) as (t & Ht & _). kstep. apply (wp_task cur t); [done|].
  ksteps. exact Hm'.
Qed.
Lemma wp_deny_device_cap c w cur kind ck k : Mid k0 c w k -> (cur < MAX_TASKS)%nat ->
  wp (deny_device_cap cur kind ck) (fun _ => Mid k0 c w) (Safe k0) k.
Proof.
  intros Hm Hc. unfold deny_device_cap. destruct (device_check_err ck) as [code reason].
  kstep. kuse wp_deny_device_op. intros Hm'. by apply wp_mid_a0.
Qed.

Lemma wp_irq_drop c w slot k : Mid k0 c w k ->
  wp (irq_drop_for_task slot) (fun _ => Mid k0 c w) (Safe k0) k.
Proof.
  intros Hm. apply wp_for_each; [done|]. clear Hm k. intros i k Hi Hm. apply elem_of_seq in Hi.
  destruct (mid_route k0 c w i k Hm) as (r & Hr & Hl); [lia|].
  kstep. apply (wp_irq_route i r); [done|]. case_match; [|by kstep].
  kstep. apply wp_irq_route_set; [done|]. ksteps.
  apply (mid_routes k0 c w (<[i := mkRoute (receiver r) false]> (irq_routes k)) k Hm).
  rewrite length_insert. by destruct Hm as [[] _].
Qed.

(** A Blocked waiter is made Ready and its endpoint Idle. *)
Lemma mid_wake c w j e tid t t' k : Mid k0 c w k -> endpoints k !! j = Some e -> waiter e = Some tid ->
  tasks k !! tid = Some t -> same_id t t' -> tcb_ok t' -> t_state t' = Ready ->
  Mid k0 c w (set_endpoints (<[j := EpIdle]> (endpoints k)) (set_tasks (<[tid := t']> (tasks k)) k)).
Proof.
  intros Hm He We Ht Hid Hok Hs. pose proof Hm as (W & _ & _ & _ & Hr & _).
  destruct (eo_blocked _ _ (wf_eps _ _ _ _ _ _ _ _ _ _ W) j tid) as (t1 & Ht1 & Hb); [by exists e|].
  assert (t1 = t) as -> by congruence.
  apply (mid_task k0 c w c tid t t' (set_endpoints (<[j := EpIdle]> (endpoints k)) k)); try done.
  - by apply mid_ep_idle.
  - by rewrite Hs.
  - ksimpl. by eapply eps_wake; [apply W|..].
  - apply run_is_insert; [by eapply lookup_lt_Some|by rewrite Hs|done|].
    intros ->. apply Hr in Ht as [_ Hx]. rewrite Hx in Hb; done.
Qed.

Lemma waiter_task c w j e tid k : Mid k0 c w k -> endpoints k !! j = Some e -> waiter e = Some tid ->
  exists t, tasks k !! tid = Some t /\ tcb_ok t /\ t_state t = Blocked.
Proof.
  intros (W & _) He We. destruct (eo_blocked _ _ (wf_eps _ _ _ _ _ _ _ _ _ _ W) j tid) as (t & Ht & Hb);
    [by exists e|]. exists t. split; [done|]. split; [|done]. by apply (proj2 (wf_tasks _ _ _ _ _ _ _ _ _ _ W) tid).
Qed.

Lemma pending_tcb_ok t p : tcb_ok t -> pending_ok (Some p) -> tcb_ok (with_state Ready (with_pending (Some p) t)).
Proof. intros (? & ? & ? & ?) Hp. split; [done|]. split; [done|]. by split. Qed.

Lemma one_byte_ok dst code : valid_user_buf dst 1 = true -> pending_ok (Some (one_byte dst code)).
Proof. intros H pm [= <-]. cbn -[valid_user_buf IPC_MSG_MAX]. split; [by vm_compute|]. split; [|done].
  rewrite length_insert. apply length_replicate. Qed.

Lemma wp_notify c w ep_id code S k : Mid k0 c w k -> 0 <= ep_id < Z.of_nat NUM_ENDPOINTS ->
  wp (notify_endpoint ep_id code) (fun _ => Mid k0 c w) S k.
Proof.
  intros Hm Hid. destruct (mid_ep k0 c w ep_id k Hm Hid) as (e & He & Hl).
  unfold notify_endpoint. kstep. apply (wp_ep_get ep_id e); [done|]. destruct e as [|? ?|tid dst cap]; [by kstep..|].
  destruct (waiter_task c w _ _ tid k Hm He eq_refl) as (t & Ht & Hok & _).
  pose proof (lookup_lt_Some _ _ _ Ht) as Hlt. kstep. case_match eqn:Eb.
  - apply andb_true_iff in Eb as [_ Hv]. kstep. apply (wp_upd_task tid t); [done|]. ksimpl.
    eapply wp_upd_task; [ksimpl; by apply list_lookup_insert_eq|]. ksimpl.
    kstep. apply wp_ep_set; [done|]. kstep. rewrite list_insert_insert_eq.
    apply (mid_wake c w _ _ tid t (with_state Ready (with_pending (Some (one_byte dst code)) t)) k
      Hm He); try done. by apply pending_tcb_ok, one_byte_ok.
  - kstep. kstep. apply wp_ep_set; [done|]. kstep. by apply mid_ep_idle.
Qed.

Lemma wp_notify_both c w name k : Mid k0 c w k ->
  wp (notify_supervisor_and_logger name) (fun _ => Mid k0 c w) (Safe k0) k.
Proof.
  intros Hm. unfold notify_supervisor_and_logger. kstep. kuse wp_notify; [by vm_compute|]. intros Hm1.
  kstep. kstep. kstep. kuse (wp_notify c w EP_EVENT). all: try by vm_compute.
  intros Hm2. case_match; ksteps; exact Hm2.
Qed.

(** ** Giving up the processor *)

Lemma mid_stop w cur t t' k : Mid k0 (Some cur) w k -> tasks k !! cur = Some t -> same_id t t' ->
  tcb_ok t' -> t_state t' <> Running -> t_state t' <> Empty ->
  Mid k0 None w (set_tasks (<[cur := t']> (tasks k)) k).
Proof.
  intros Hm Ht Hid Hok Hr He. pose proof Hm as (W & _ & _ & _ & Hrun & _).
  eapply mid_task; try done; [|by apply run_is_stop].
  apply eps_task; [apply W|by eapply lookup_lt_Some|]. right. eapply no_waits; [apply W|done|].
  apply Hrun in Ht as [_ Hx]. by rewrite Hx.
Qed.

(** A halt that prints and stops. *)
Definition halts (m : M ()) : Prop := forall k, exists r o, m k = Stop r (set_uart_out o k).
Lemma halts_seq (m : M ()) n : Quiet m -> halts n -> halts (m ;; n).
Proof.
  intros Hq Hn k. unfold mbind, M_bind. destruct (Hq k) as (a & o & ->).
  destruct (Hn (set_uart_out o k)) as (r & o' & ->). by exists r, o'.
Qed.
Lemma halts_stop r : halts (stop r).
Proof. intros k. exists r, (uart_out k). by destruct k. Qed.
Lemma halts_idle : halts idle_halt.
Proof. unfold idle_halt. repeat (apply halts_seq; [apply _|]). apply halts_stop. Qed.
Lemma halts_spin s : halts (spin s).
Proof. unfold spin. repeat (apply halts_seq; [apply _|]). apply halts_stop. Qed.

Lemma wp_halts c w m Q k : halts m -> Mid k0 c w k -> wp m Q (Safe k0) k.
Proof. intros Hh (_ & Hs & _). unfold wp. destruct (Hh k) as (r & o & ->). exact Hs. Qed.

Lemma wp_reschedule w cur (halt : M ()) k : halts halt -> Mid k0 None w k ->
  wp (n ← select_highest cur;
      match n with Some next => select_and_resume next | None => halt end)
    (fun _ => Done k0) (Safe k0) k.
Proof.
  intros Hh Hm. kstep. eapply wp_select; [done|]. intros [n|] Hc.
  - apply chosen_ready in Hc as (t & Ht & Hs). by eapply wp_select_and_resume.
  - by eapply wp_halts.
Qed.

Lemma state_tcb_ok s t : tcb_ok t -> tcb_ok (with_state s t).
Proof. done. Qed.
Lemma frame_tcb_ok f t : tcb_ok t -> frame_ok f -> tcb_ok (with_frame f t).
Proof. intros (? & ? & ?) Hf. done. Qed.
Lemma mid_live_ok c w k : Mid k0 c w k -> frame_ok (live k).
Proof. intros (W & _). apply W. Qed.

Lemma wp_fault_and_switch w cur name k : Mid k0 (Some cur) w k -> (cur < MAX_TASKS)%nat ->
  wp (fault_and_switch cur name) (fun _ => Done k0) (Safe k0) k.
Proof.
  intros Hm Hc. destruct (mid_lookup k0 _ w cur k Hm Hc) as (t & Ht & Hok).
  unfold fault_and_switch. kstep. apply (wp_upd_task cur t); [done|].
  assert (Mid k0 None w (set_tasks (<[cur := with_state Faulted t]> (tasks k)) k)) as Hm1
    by (by eapply mid_stop).
  kstep. kuse wp_irq_drop. intros Hm2. kstep. kuse wp_notify_both. intros Hm3.
  eapply wp_reschedule; [apply halts_spin|done].
Qed.

Lemma wp_block w cur t j e k : Mid k0 (Some cur) w k -> current k0 = cur -> tasks k !! cur = Some t ->
  waiter e = Some cur ->
  (forall tid len, e = SenderWaiting tid len -> 0 <= len <= IPC_MSG_MAX) ->
  wp block_and_switch (fun _ => Done k0) (Safe k0) (set_endpoints (<[j := e]> (endpoints k)) k).
Proof.
  intros Hm Hc Ht We Hl. pose proof Hm as (W & S & Hs & Hcur & Hrun & Hw).
  assert (tcb_ok t) as Hok by (by apply (proj2 (wf_tasks _ _ _ _ _ _ _ _ _ _ W) cur)).
  assert (current k = cur) as Ec by congruence. unfold block_and_switch. do 4 kstep. rewrite Ec.
  kstep. apply (wp_upd_task cur t); [done|]. kstep. eapply wp_upd_task;
    [ksimpl; apply list_lookup_insert_eq; by eapply lookup_lt_Some|]. ksimpl. rewrite list_insert_insert_eq.
  eapply (wp_reschedule w); [apply halts_spin|].
  set (t' := with_state Blocked _). apply (mid_stop w cur t t') in Hm as Hm1; try done;
    [|by apply frame_tcb_ok; [|apply W]].
  destruct Hm1 as (W1 & S1 & Hrest). split; [|done]. destruct W1. split; try done. ksimpl.
  eapply eps_block; try done; [apply W|]. apply Hrun in Ht as [_ Hx]. by rewrite Hx.
Qed.

End handlers.

(** ** Timer, faults, yield and exit *)

Lemma mid_active k0 c w k : Mid k0 c w k -> active k = true /\ current k = current k0.
Proof. intros (_ & S & _ & ? & _ & _ & ?). split; [|done]. by rewrite (sf_active _ _ _ _ _ _ _ S). Qed.

Lemma wp_switch k w exiting k' : KInv k -> Mid k (Some (current k)) w k' ->
  wp (switch exiting) (fun _ => Done k) (Safe k) k'.
Proof.
  intros K Hm. pose proof (kinv_current k K) as Hc. destruct (mid_active _ _ _ _ Hm) as [_ Hcur].
  destruct (mid_lookup k _ w _ k' Hm Hc) as (t & Ht & Hok). unfold switch. do 2 kstep. rewrite Hcur. kstep.
  apply (wp_task _ t); [done|]. kstep.
  assert (forall k1, Mid k None w k1 ->
    wp (n ← select_highest (current k);
        match n with
        | Some next =>
            (if negb (os_boot && negb exiting && bool_decide (next = current k)) then
               (if negb exiting then emit "SYSCALL name=sys_yield task=" (t_name t) else mret tt) ;;
               tn ← task next; emit "SCHED selected=" (t_name tn)
             else mret tt) ;;
            resume_task next
        | None => idle_halt
        end) (fun _ => Done k) (Safe k) k1) as Hrest.
  { intros k1 Hm'. kstep. eapply wp_select; [done|]. intros [n|] Hch.
    - apply chosen_ready in Hch as (tn & Htn & Hs). kstep. case_match.
      + do 2 kstep. kstep. apply (wp_task n tn); [done|]. kstep. by eapply (wp_resume _ w).
      + kstep. by eapply (wp_resume _ w).
    - eapply wp_halts; [apply halts_idle|done]. }
  destruct exiting.
  - do 2 kstep. kstep. apply (wp_upd_task _ t); [done|]. do 2 kstep.
    kuse (wp_ring_push k None w).
    { by apply (mid_stop k w (current k) t (with_state Killed t) k'). }
    intros Hm'. by apply Hrest.
  - do 2 kstep. kstep. apply (wp_upd_task _ t); [done|].
    eapply wp_upd_task; [ksimpl; apply list_lookup_insert_eq; by eapply lookup_lt_Some|]. ksimpl.
    rewrite list_insert_insert_eq. apply Hrest.
    apply (mid_stop k w (current k) t (with_state Ready (with_frame (live k') t)) k'); try done.
    apply frame_tcb_ok; [done|]. by eapply mid_live_ok.
Qed.

Lemma wp_preempt k w k' : KInv k -> 0 <= w <= WATCHDOG_WINDOW -> Mid k (Some (current k)) w k' ->
  wp preempt (fun _ => Done k) (Safe k) k'.
Proof.
  intros K Hw Hm. destruct (mid_active _ _ _ _ Hm) as [Hact Hcur]. pose proof (kinv_current k K) as Hc.
  destruct (mid_lookup k _ w _ k' Hm Hc) as (t & Ht & Hok).
  unfold preempt. do 2 kstep. rewrite Hact. cbn [negb]. do 2 kstep. rewrite Hcur. kstep.
  eapply wp_select; [done|]. intros [n|] Hch; [|by kstep; eapply mid_done].
  apply chosen_ready in Hch as (tn & Htn & Hs).
  kstep. apply (wp_task _ t); [done|]. kstep. apply (wp_task n tn); [done|].
  case_match eqn:Eb; [by kstep; eapply mid_done|].
  apply orb_false_iff in Eb as [Hne _]. apply bool_decide_eq_false in Hne.
  do 12 kstep. kstep. apply (wp_upd_task _ t); [done|]. kstep.
  eapply wp_upd_task; [ksimpl; apply list_lookup_insert_eq; by eapply lookup_lt_Some|]. ksimpl.
  rewrite list_insert_insert_eq.
  apply (wp_resume _ w n tn); [|ksimpl; by rewrite list_lookup_insert_ne|done].
  apply (mid_stop k w (current k) t (with_state Ready (with_frame (live k') t)) k'); try done.
  apply frame_tcb_ok; [done|]. by eapply mid_live_ok.
Qed.

(** The counters move without touching anything [Mid] mentions. *)
Lemma mid_counters k0 c w w' tk k : Mid k0 c w k ->
  Mid k0 c w' (set_watchdog_miss w' (set_ticks tk k)).
Proof. intros (? & ? & ? & ? & ? & ? & ?). done. Qed.

Lemma wp_watchdog k : KInv k -> exists w, w = watchdog_miss k + 1 /\
  wp watchdog_tick (fun b k' => if (b : bool) then WATCHDOG_WINDOW < w /\ Done k k'
    else w <= WATCHDOG_WINDOW /\ Mid k (Some (current k)) w k') (Safe k) k.
Proof.
  intros K. pose proof (kinv_current k K) as Hc. pose proof (kinv_mid k K) as Hm.
  pose proof K as (_ & Ha & _ & _ & Hw). exists (watchdog_miss k + 1). split; [done|].
  unfold watchdog_tick. do 2 kstep. rewrite Ha. cbn [negb]. do 8 kstep.
  unfold WATCHDOG_WINDOW in *.
  assert (wrapping 64 (watchdog_miss k + 1) = watchdog_miss k + 1) as ->
    by (unfold wrapping; apply Z.mod_small; change (2 ^ 64) with 18446744073709551616; lia).
  set (tk := wrapping 64 (ticks k + 1)).
  pose proof (mid_counters _ _ _ (watchdog_miss k + 1) tk k Hm) as Hm1.
  destruct (watchdog_miss k + 1 <=? 4) eqn:E; bool_facts; [kstep; split; [done|exact Hm1]|].
  destruct (mid_lookup _ _ _ _ _ Hm1 Hc) as (t & Ht & _).
  do 3 kstep. apply (wp_task _ t); [done|]. kstep. kuse wp_ring_push. intros Hm2. do 4 kstep.
  kstep. kuse (wp_fault_and_switch k (watchdog_miss k + 1)). intros Hd. kstep. split; [lia|done].
Qed.

Lemma wp_contain k reason : KInv k ->
  wp (contain_fault reason) (fun b k' => b = true /\ Done k k') (Safe k) k.
Proof.
  intros K. pose proof (kinv_current k K) as Hc. pose proof (kinv_mid k K) as Hm.
  pose proof K as (_ & Ha & _ & _ & _). unfold contain_fault. do 2 kstep. rewrite Ha. cbn [negb].
  destruct (mid_lookup _ _ _ _ _ Hm Hc) as (t & Ht & _).
  do 3 kstep. apply (wp_task _ t); [done|]. kstep. kuse wp_ring_push. intros Hm2. do 8 kstep.
  kstep. kuse (wp_fault_and_switch k (watchdog_miss k)). intros Hd. by kstep.
Qed.

End safe.
