(* ===== verification/DispatchSys.v ===== *)
(** * The system calls preserve the invariant

    IPC, devices, console, introspection and task control: each body, run by
    the current task, does not crash and hands back a state satisfying
    [KInv], with only the changes [Safe] allows. *)

From stdpp Require Import strings sets base decidable numbers option tactics list.
From S2P Require Import Prelude.
From S2P Require Import Bytes.
From S2P Require Import Memory.
From S2P Require Import Sv39.
From S2P Require Import Paging.
From S2P Require Import PagingHw.
From S2P Require Import Device.
From S2P Require Import Kernel.
From S2P Require Import Dispatch.
From S2P Require Import DispatchLogic.
From S2P Require Import DispatchInv.
From S2P Require Import DispatchOps.
From S2P Require Import DispatchSafe.
Local Open Scope Z_scope.

(** The [n] bytes the active address space has at [va]. *)
Definition user_bytes (k : Kernel) (va : Z) (n : nat) : list Z :=
  (fun i => umem k (satp k) (user_addr va i)) <$> seq 0 n.

Section sys.
Context {P : Platform}.

Definition Sys (body : M ()) : Prop := forall k0 k, KInv k0 -> Mid k0 (Some (current k0)) 0 k ->
  wp body (fun _ => Done k0) (Safe k0) k.

(** The end of a handler that stays with the current task. *)
Lemma finish k0 k : KInv k0 -> Mid k0 (Some (current k0)) 0 k -> Done k0 k.
Proof. intros K Hm. eapply mid_done; [done|done|]. by vm_compute. Qed.

Lemma finish_a0 k0 k v : KInv k0 -> Mid k0 (Some (current k0)) 0 k ->
  wp (set_a0 v) (fun _ => Done k0) (Safe k0) k.
Proof. intros K Hm. kuse wp_mid_a0. by apply finish. Qed.

(** The current task's control block. *)
Lemma sys_current k0 c w k : KInv k0 -> Mid k0 c w k ->
  exists t, current k = current k0 /\ tasks k !! current k0 = Some t /\ tcb_ok t /\
    (current k0 < MAX_TASKS)%nat.
Proof.
  intros K Hm. pose proof (kinv_current k0 K). destruct (mid_lookup k0 c w _ k Hm H) as (t & ? & ?).
  exists t. split; [by eapply mid_active|done].
Qed.

Lemma user_bytes_S k va n :
  user_bytes k va (S n) = user_bytes k va n ++ [umem k (satp k) (user_addr va n)].
Proof. unfold user_bytes. by rewrite seq_S, fmap_app. Qed.

Lemma copy_from_eq va len k : length (kmsg k) = Z.to_nat IPC_MSG_MAX -> 0 <= len <= IPC_MSG_MAX ->
  copy_from_user va len k =
  Ret tt (set_kmsg (user_bytes k va (Z.to_nat len) ++ drop (Z.to_nat len) (kmsg k)) k).
Proof.
  intros Hl H. unfold copy_from_user. rewrite Z.min_l by lia.
  assert (Z.to_nat len <= length (kmsg k))%nat as Hn by lia. revert Hn. clear.
  induction (Z.to_nat len) as [|n IH]; intros Hn; [by destruct k|].
  rewrite seq_S, for_each_app, user_bytes_S. unfold mbind at 1, M_bind at 1. rewrite IH by lia. cbn [for_each Nat.add].
  unfold read_user, mbind, M_bind, get, lift, arr_set. ksimpl.
  assert (length (user_bytes k va n) = n) as Hlen
    by (unfold user_bytes; by rewrite length_fmap, length_seq).
  rewrite decide_True by (rewrite length_app, length_drop, Hlen; lia). cbn. unfold modify, set_kmsg. ksimpl.
  destruct (lookup_lt_is_Some_2 (kmsg k) n) as [b Hb]; [lia|].
  rewrite insert_app_r_alt, Hlen, Nat.sub_diag, (drop_S _ _ _ Hb) by lia.
  cbn. by rewrite <- app_assoc.
Qed.

Lemma length_user_bytes k va n : length (user_bytes k va n) = n.
Proof. unfold user_bytes. by rewrite length_fmap, length_seq. Qed.

Lemma stage_message bs len : length bs = Z.to_nat len -> len <= IPC_MSG_MAX ->
  exists data, copy_at (replicate (Z.to_nat IPC_MSG_MAX) 0) 0 (Z.to_nat len) bs = Val data /\
    length data = Z.to_nat IPC_MSG_MAX /\ take (Z.to_nat len) data = bs.
Proof.
  intros Hl Hm. unfold copy_at. rewrite decide_True by (rewrite length_replicate; lia).
  eexists. split; [done|]. rewrite take_0, app_nil_l. split.
  - rewrite length_app, length_drop, length_replicate. lia.
  - by rewrite take_app_le, take_ge by lia.
Qed.

Lemma sys_wake k0 k ep_id e tid t t' : Mid k0 (Some (current k0)) 0 k ->
  endpoints k !! Z.to_nat ep_id = Some e -> waiter e = Some tid -> tasks k !! tid = Some t ->
  same_id t t' -> tcb_ok t' -> t_state t' = Ready ->
  Mid k0 (Some (current k0)) 0
    (set_endpoints (<[Z.to_nat ep_id := EpIdle]> (endpoints k)) (set_tasks (<[tid := t']> (tasks k)) k)).
Proof. intros. by eapply mid_wake. Qed.

(** A refused lookup: the error code is the only answer. *)
Lemma sys_deny_cap k0 k ck : KInv k0 -> Mid k0 (Some (current k0)) 0 k ->
  wp (code ← deny_cap (current k0) ck; set_a0 code) (fun _ => Done k0) (Safe k0) k.
Proof.
  intros K Hm. pose proof (kinv_current k0 K). kstep. kuse wp_deny_cap. intros Hm'. by apply finish_a0.
Qed.
Lemma sys_deny_authority k0 k what : KInv k0 -> Mid k0 (Some (current k0)) 0 k ->
  wp (code ← deny_authority (current k0) what; set_a0 code) (fun _ => Done k0) (Safe k0) k.
Proof.
  intros K Hm. pose proof (kinv_current k0 K). kstep. kuse wp_deny_authority. intros Hm'.
  by apply finish_a0.
Qed.
Lemma sys_deny_device k0 k kind ck : KInv k0 -> Mid k0 (Some (current k0)) 0 k ->
  wp (deny_device_cap (current k0) kind ck) (fun _ => Done k0) (Safe k0) k.
Proof. intros K Hm. pose proof (kinv_current k0 K). kuse wp_deny_device_cap. by apply finish. Qed.

Lemma sys_ipc_send : Sys ipc_send.
Proof.
  intros k0 k K Hm. destruct (sys_current k0 _ _ k K Hm) as (t & Hcur & Ht & Hok & Hc).
  pose proof (mid_caps k0 _ 0 k _ t Hm Ht) as Hcaps.
  unfold ipc_send. do 2 kstep. rewrite Hcur. do 6 kstep. kstep. apply (wp_task _ t); [done|].
  kstep. unfold wp at 1. rewrite (cap_check_eq _ _ _ t) by (done || by apply (mid_reg k0 _ 0 9 k Hm)).
  pose proof (mid_reg k0 _ 0 11 k Hm) as [Hlen0 _]. set (len := reg (live k) 11) in *.
  destruct (cap_lookup _ _ _) as [ep_id| | |] eqn:Ecap; [|by apply sys_deny_cap..].
  destruct (IPC_MSG_MAX <? len) eqn:El; bool_facts.
  { kstep. kuse wp_mid_a0. intros Hm'. ksteps. by apply finish. }
  case_match; bool_facts.
  { kstep. kuse wp_mid_a0. intros Hm'. ksteps. by apply finish. }
  apply cap_lookup_endpoint in Ecap; [|done].
  assert (length (kmsg k) = Z.to_nat IPC_MSG_MAX) as Hkm by (destruct Hm as (W & _); apply W).
  kstep. unfold wp at 1. rewrite copy_from_eq by (done || lia).
  set (km := user_bytes _ _ _ ++ _).
  assert (length km = Z.to_nat IPC_MSG_MAX) as Hkl
    by (unfold km; rewrite length_app, length_user_bytes, length_drop, Hkm; lia).
  pose proof (mid_kmsg _ _ _ km k Hm Hkl) as Hm1.
  destruct (mid_ep _ _ _ ep_id _ Hm1 Ecap) as (e & He & Hel).
  kstep. apply (wp_ep_get ep_id e); [done|]. destruct e as [|tid slen|tid dst cap].
  - kstep. apply wp_ep_set; [done|]. do 4 kstep.
    apply (wp_block k0 0 (current k0) t (Z.to_nat ep_id) (SenderWaiting (current k0) len)
      (set_uart_out o0 (set_kmsg km k))); try done. intros ? ? [= _ <-]. lia.
  - kstep. kuse wp_mid_a0. intros Hm'. ksteps. by apply finish.
  - do 6 kstep.
    destruct (waiter_task _ _ _ _ _ tid _ Hm1 He eq_refl) as (tr & Htr & Hokr & _).
    pose proof (lookup_lt_Some _ _ _ Htr) as Htl. kstep. case_match eqn:Eb.
    + apply andb_true_iff in Eb as [_ Hv]. kstep.
      apply (wp_lift _ (take (Z.to_nat len) km)).
      { unfold slice. rewrite decide_True by lia. by rewrite Nat.sub_0_r. }
      destruct (stage_message (take (Z.to_nat len) km) len) as (data & Hd & Hdl & _);
        [rewrite length_take; lia|lia|].
      kstep. apply (wp_lift _ data); [done|].
      apply (wp_upd_task tid tr); [done|]. kstep.
      eapply wp_upd_task; [ksimpl; by apply list_lookup_insert_eq|]. ksimpl.
      rewrite list_insert_insert_eq. kstep. apply wp_ep_set; [done|].
      apply finish_a0; [done|].
      apply (sys_wake k0 (set_uart_out o0 (set_kmsg km k)) ep_id _ tid tr
        (with_state Ready (with_pending (Some (mkPending dst len data)) tr)) Hm1 He); try done.
      apply pending_tcb_ok; [done|]. intros pm [= <-]. cbn [pm_len pm_data pm_dst].
      by split; [lia|].
    + apply (wp_upd_task tid tr); [done|]. kstep.
      eapply wp_upd_task; [ksimpl; by apply list_lookup_insert_eq|]. ksimpl.
      rewrite list_insert_insert_eq. kstep. apply wp_ep_set; [done|].
      apply finish_a0; [done|].
      apply (sys_wake k0 (set_uart_out o0 (set_kmsg km k)) ep_id _ tid tr
        (with_state Ready (with_frame (frame_set_a0 (t_frame tr) ERR_MSG_TOO_LARGE) tr)) Hm1 He);
        try done.
      apply frame_tcb_ok; [done|]. by apply frame_set_a0_ok, Hokr.
Qed.

(** ** Devices *)

Lemma wp_device i Q S k : (i < length DEVICES)%nat -> (forall d, d ∈ DEVICES -> DEVICES !! i = Some d -> Q d k) ->
  wp (device i) Q S k.
Proof.
  intros Hi HQ. destruct (lookup_lt_is_Some_2 DEVICES i Hi) as [d Hd]. unfold device.
  apply (wp_lift _ d); [by apply arr_get_lookup|]. apply HQ; [by eapply list_elem_of_lookup_2|done].
Qed.

Lemma wp_irq_search k0 c w ep_id cur devs k : Mid k0 c w k ->
  (forall i, i ∈ devs -> (i < length DEVICES)%nat) ->
  wp (irq_search ep_id cur devs) (fun o k' => k' = k /\
    forall dev, o = Some dev -> (dev < length DEVICES)%nat) (Safe k0) k.
Proof.
  intros Hm. induction devs as [|i devs IH]; intros Hd; cbn [irq_search]; [by kstep|].
  assert (i < length DEVICES)%nat as Hi by (apply Hd; left).
  assert (forall j, j ∈ devs -> (j < length DEVICES)%nat) as Hd' by (intros; apply Hd; by right).
  kstep. apply wp_device; [done|]. intros d _ _. case_match; [|by apply IH].
  destruct (mid_route k0 c w i k Hm Hi) as (r & Hr & _). kstep. apply (wp_irq_route i r); [done|].
  case_match; [|by apply IH]. kstep. split; [done|]. by intros dev [= <-].
Qed.

Lemma device_eps d : d ∈ DEVICES -> 0 <= d_irq_endpoint d < Z.of_nat NUM_ENDPOINTS.
Proof. unfold DEVICES. intros H. repeat (apply elem_of_cons in H as [->|H]; [by vm_compute|]). by apply elem_of_nil in H. Qed.

Lemma wp_irq_raise k0 w dev k : KInv k0 -> Mid k0 (Some (current k0)) w k -> (dev < length DEVICES)%nat ->
  wp (irq_raise dev) (fun _ => Mid k0 (Some (current k0)) w) (Safe k0) k.
Proof.
  intros K Hm Hd. destruct (mid_route _ _ _ dev k Hm Hd) as (r & Hr & Hrl).
  assert (forall b, Mid k0 (Some (current k0)) w
    (set_irq_routes (<[dev := mkRoute (receiver r) b]> (irq_routes k)) k)) as Hroute.
  { intros b. apply mid_routes; [done|]. rewrite length_insert. by destruct Hm as [[] _]. }
  unfold irq_raise. kstep. apply wp_device; [done|]. intros d Hin Hdd.
  kstep. apply (wp_irq_route dev r); [done|]. kstep.
  apply (wp_mono _ (fun (b : bool) k' => k' = k) _ (Safe k0)); [|cbv beta|done].
  { case_decide as Hrec; [by kstep|].
    destruct (mid_lookup _ _ _ (receiver r) k Hm) as (t & Ht & _); [lia|].
    kstep. apply (wp_task _ t); [done|]. by kstep. }
  intros dead ? ->. case_match.
  { kstep. apply wp_irq_route_set; [done|]. ksteps. apply Hroute. }
  destruct (mid_ep _ _ _ (d_irq_endpoint d) k Hm (device_eps d Hin)) as (e & He & Hel).
  kstep. apply (wp_ep_get _ e); [done|]. destruct e as [|? ?|tid dst cap].
  1, 2: kstep; apply wp_irq_route_set; [done|]; kstep; apply Hroute.
  case_match eqn:Eb; [|ksteps; exact Hm].
  apply andb_true_iff in Eb as [_ Hv].
  destruct (waiter_task _ _ _ _ _ tid k Hm He eq_refl) as (t & Ht & Hok & _).
  kstep. apply (wp_upd_task tid t); [done|]. kstep.
  eapply wp_upd_task; [ksimpl; apply list_lookup_insert_eq; by eapply lookup_lt_Some|]. ksimpl.
  rewrite list_insert_insert_eq. kstep. apply wp_ep_set; [done|]. kstep.
  eapply wp_task; [ksimpl; apply list_lookup_insert_eq; by eapply lookup_lt_Some|]. ksteps.
  apply (mid_wake k0 _ _ _ _ tid t (with_state Ready (with_pending (Some (one_byte dst IRQ_EVENT_CODE)) t)) k
      Hm He); try done. by apply pending_tcb_ok, one_byte_ok.
Qed.

Lemma sys_ipc_recv : Sys ipc_recv.
Proof.
  intros k0 k K Hm. destruct (sys_current k0 _ _ k K Hm) as (t & Hcur & Ht & Hok & Hc).
  pose proof (mid_caps k0 _ 0 k _ t Hm Ht) as Hcaps.
  unfold ipc_recv. do 2 kstep. rewrite Hcur. do 6 kstep. kstep. apply (wp_task _ t); [done|].
  kstep. unfold wp at 1. rewrite (cap_check_eq _ _ _ t) by (done || by apply (mid_reg k0 _ 0 9 k Hm)).
  pose proof (mid_reg k0 _ 0 11 k Hm) as [Hcap0 _]. set (cap := reg (live k) 11) in *.
  set (dst := reg (live k) 10) in *.
  assert (wp (recv_bad_buffer (t_name t)) (fun _ => Done k0) (Safe k0) k) as Hbad.
  { unfold recv_bad_buffer. kstep. kuse wp_mid_a0. intros Hm'. ksteps. by apply finish. }
  destruct (cap_lookup _ _ _) as [ep_id| | |] eqn:Ecap; [|by apply sys_deny_cap..].
  apply cap_lookup_endpoint in Ecap; [|done].
  kstep. eapply wp_mono; [eapply (wp_irq_search k0); [done|intros i Hi%elem_of_seq; lia]| |done].
  intros [dev|] ? [-> Hdev]; cbv beta.
  - specialize (Hdev dev eq_refl). case_match eqn:Eb; [done|]. apply orb_false_iff in Eb as [_ Hv].
    apply negb_false_iff in Hv. destruct (valid_buf_ok _ _ Hv) as [Hb _]; [lia|].
    destruct (mid_route _ _ _ dev k Hm Hdev) as (r & _ & Hrl).
    kstep. apply wp_irq_route_set; [done|]. kstep.
    kuse (wp_copy k0 (Some (current k0)) 0).
    { apply mid_routes; [done|]. rewrite length_insert. by destruct Hm as [[] _]. }
    intros Hm2. kstep. apply wp_device; [done|]. intros d _ _. do 2 kstep. by apply finish_a0.
  - destruct (mid_ep _ _ _ ep_id k Hm Ecap) as (e & He & Hel).
    kstep. apply (wp_ep_get ep_id e); [done|]. destruct e as [|tid len|tid dst' cap'].
    + case_match eqn:Eb; [done|]. apply orb_false_iff in Eb as [_ Hv].
      kstep. apply wp_ep_set; [done|]. do 4 kstep.
      by apply (wp_block k0 0 (current k0) t (Z.to_nat ep_id) (ReceiverWaiting (current k0) dst cap)
        (set_uart_out o0 k)).
    + assert (0 <= len <= IPC_MSG_MAX) as Hlen.
      { destruct Hm as (W & _). eapply (eo_sender _ _ (wf_eps _ _ _ _ _ _ _ _ _ _ W)). done. }
      case_match eqn:Eb; [done|]. apply orb_false_iff in Eb as [_ Hv]. apply negb_false_iff in Hv.
      destruct (valid_buf_ok _ _ Hv) as [Hb _]; [lia|].
      assert (length (kmsg k) = Z.to_nat IPC_MSG_MAX) as Hkm by (destruct Hm as (W & _); apply W).
      destruct (waiter_task _ _ _ _ _ tid k Hm He eq_refl) as (ts & Hts & Hoks & _).
      unfold copy_to_user. kstep. do 2 kstep. kstep. apply (wp_lift _ (take (Z.to_nat len) (kmsg k))).
      { unfold slice. rewrite decide_True by lia. by rewrite Nat.sub_0_r. }
      pose proof (wp_copy k0 _ 0 dst (take (Z.to_nat len) (kmsg k)) k Hm) as Hcp. unfold wp in Hcp at 1.
      unfold wp at 1. destruct (copy_bytes_mem dst (take (Z.to_nat len) (kmsg k)) k) as (m & Em & _);
        [by rewrite length_take, Nat.min_l by lia|]. rewrite Em in Hcp |- *.
      specialize (Hcp ltac:(by rewrite length_take, Nat.min_l by lia)).
      do 2 kstep. kstep. apply (wp_upd_task tid ts); [done|]. kstep.
      eapply wp_upd_task; [ksimpl; apply list_lookup_insert_eq; by eapply lookup_lt_Some|]. ksimpl.
      rewrite list_insert_insert_eq. kstep. apply wp_ep_set; [done|]. ksteps. apply finish; [done|].
      apply (sys_wake k0 (set_live (frame_set_a0 (live k) len) (set_umem m k)) ep_id (SenderWaiting tid len) tid ts
        (with_frame (frame_set_a0 (t_frame ts) len) (with_state Ready ts))); try done.
      * apply mid_live; [done|]. apply frame_set_a0_ok. by eapply mid_live_ok.
      * apply frame_tcb_ok; [done|]. by apply frame_set_a0_ok, Hoks.
    + kstep. kuse wp_mid_a0. intros Hm'. ksteps. by apply finish.
Qed.

Lemma sys_fault_ack : Sys fault_ack.
Proof.
  intros k0 k K Hm. destruct (sys_current k0 _ _ k K Hm) as (t & Hcur & Ht & Hok & Hc).
  unfold fault_ack. do 2 kstep. rewrite Hcur. kstep. apply (wp_task _ t); [done|].
  do 2 kstep. do 16 kstep. kstep. kuse (wp_ring_push k0 (Some (current k0)) 0). intros Hm'.
  by apply finish_a0.
Qed.

(** The current task's capabilities are those it entered the kernel with. *)
Lemma mid_current_caps k0 c w k t : KInv k0 -> Mid k0 c w k -> tasks k !! current k0 = Some t ->
  exists t0, tasks k0 !! current k0 = Some t0 /\ t_caps t = t_caps t0.
Proof.
  intros (_ & _ & Hr & _) (_ & S & _) Ht. destruct (sf_tasks _ _ _ _ _ _ _ S _ _ Ht) as (t0 & Ht0 & [Hid|(He & _)]).
  - exists t0. split; [done|]. apply Hid.
  - pose proof (proj2 (Hr _ _ Ht0) eq_refl). congruence.
Qed.

(** The start of every device call. *)
Lemma sys_device_call required (body : Z -> M ()) kind k0 k :
  KInv k0 -> Mid k0 (Some (current k0)) 0 k ->
  (forall id, 0 <= id < Z.of_nat (length DEVICES) -> device_grant k0 id required ->
     wp (body id) (fun _ => Done k0) (Safe k0) k) ->
  wp (c ← device_cap_check (current k0) (reg (live k) 9) required;
      match c with CcOk id => body id | other => deny_device_cap (current k0) kind other end)
    (fun _ => Done k0) (Safe k0) k.
Proof.
  intros K Hm Hb. destruct (sys_current k0 _ _ k K Hm) as (t & Hcur & Ht & Hok & Hc).
  pose proof (mid_caps k0 _ 0 k _ t Hm Ht) as Hcaps.
  kstep. unfold wp at 1. rewrite (device_cap_check_eq _ _ _ t) by (done || by apply (mid_reg k0 _ 0 9 k Hm)).
  destruct (device_lookup _ _ _) as [id| | |] eqn:E; [|by apply sys_deny_device..].
  apply Hb; [by eapply device_lookup_device|].
  destruct (device_lookup_cap _ _ _ _ E) as (c & Hin & Hot & Hid & Hl).
  destruct (mid_current_caps k0 _ _ k t K Hm Ht) as (t0 & Ht0 & Ec). exists t0, c. by rewrite <- Ec.
Qed.

(** The refusal of an access outside the window. *)
Lemma sys_out_of_range kind k0 k : KInv k0 -> Mid k0 (Some (current k0)) 0 k ->
  wp (deny_device_op (current k0) kind "out_of_range" ;; set_a0 ERR_INVALID_ARG)
    (fun _ => Done k0) (Safe k0) k.
Proof.
  intros K Hm. pose proof (kinv_current k0 K). kstep. kuse wp_deny_device_op. intros Hm'.
  by apply finish_a0.
Qed.

Lemma sys_irq_raise_ok : Sys sys_irq_raise.
Proof.
  intros k0 k K Hm. destruct (sys_current k0 _ _ k K Hm) as (t & Hcur & _ & _ & Hc).
  unfold sys_irq_raise. do 2 kstep. rewrite Hcur. do 2 kstep. apply sys_device_call; [done..|].
  intros id Hid _. kstep. kuse (wp_irq_raise k0 0); [lia|]. intros Hm'. by apply finish_a0.
Qed.

Lemma in_bounds size offset width : access_in_bounds size offset width = true ->
  (width = 1 \/ width = 2 \/ width = 4) /\ offset + width <= size.
Proof.
  unfold access_in_bounds, checked_add. intros H.
  destruct (offset + width <? 2 ^ 64); bool_facts; [|discriminate]. split; [|done].
  apply orb_true_iff in H as [[?|?]%orb_true_iff|?]; bool_facts; lia.
Qed.
Lemma width_bytes_eq width : width = 1 \/ width = 2 \/ width = 4 -> Z.of_nat (width_bytes width) = width.
Proof. by intros [-> | [-> | ->]]. Qed.
Lemma device_dma d : d ∈ DEVICES -> d_dma_size d <= 4096.
Proof. unfold DEVICES. intros H. repeat (apply elem_of_cons in H as [->|H]; [by vm_compute|]). by apply elem_of_nil in H. Qed.

Lemma sys_dma required write : Sys (dma_access required write).
Proof.
  intros k0 k K Hm. destruct (sys_current k0 _ _ k K Hm) as (t & Hcur & _ & _ & Hc).
  unfold dma_access. do 2 kstep. rewrite Hcur. do 8 kstep. apply sys_device_call; [done..|].
  intros id Hid _. kstep. apply wp_device; [lia|]. intros d Hd _.
  case_match eqn:Eb; [by apply sys_out_of_range|]. apply negb_false_iff, in_bounds in Eb as [Hw Hb].
  pose proof (width_bytes_eq _ Hw) as Hwb. pose proof (device_dma d Hd) as Hds.
  pose proof (mid_reg k0 _ 0 10 k Hm) as [Ho0 _].
  assert (length (block0_dma k) = 4096%nat) as Hl by (destruct Hm as (W & _); apply W).
  set (offset := reg (live k) 10) in *. set (width := reg (live k) 11) in *.
  set (value := reg (live k) 12) in *. destruct write.
  - unfold dma_store. kstep. do 2 kstep. kstep. eapply wp_lift.
    { unfold copy_at. by rewrite decide_True by (rewrite length_to_le_bytes; lia). }
    kstep. apply finish_a0; [done|].
    apply (mid_dma k0 _ 0 _ k Hm). rewrite !length_app, length_take, length_drop, length_to_le_bytes. lia.
  - unfold dma_load. kstep. do 2 kstep. kstep. eapply wp_lift; [unfold slice; by rewrite decide_True by lia|].
    kstep. by apply finish_a0.
Qed.

Lemma wp_emit_mmio c w k0 op cur d offset value k : Mid k0 c w k -> (cur < MAX_TASKS)%nat ->
  wp (emit_mmio op cur d offset value) (fun _ => Mid k0 c w) (Safe k0) k.
Proof.
  intros Hm Hc. destruct (mid_lookup k0 c w cur k Hm Hc) as (t & Ht & _).
  unfold emit_mmio. do 6 kstep. kstep. apply (wp_task cur t); [done|]. ksteps. exact Hm.
Qed.

Lemma mmio_read_ok k0 id d offset width v : DEVICES !! Z.to_nat id = Some d -> 0 <= offset ->
  access_in_bounds (d_mmio_size d) offset width = true -> device_grant k0 id DEV_RIGHT_MMIO_READ ->
  mmio_ok k0 (MmioRd (d_mmio_base d + offset) width v).
Proof. intros Hd H0 [Hw Hb]%in_bounds Hg. exists id, d. repeat split; try done; lia. Qed.
Lemma mmio_write_ok k0 id d offset width v : DEVICES !! Z.to_nat id = Some d -> 0 <= offset ->
  access_in_bounds (d_mmio_size d) offset width = true -> device_grant k0 id DEV_RIGHT_MMIO_WRITE ->
  mmio_ok k0 (MmioWr (d_mmio_base d + offset) width v).
Proof. intros Hd H0 [Hw Hb]%in_bounds Hg. exists id, d. repeat split; try done; lia. Qed.

Lemma sys_mmio_read_ok : Sys sys_mmio_read.
Proof.
  intros k0 k K Hm. destruct (sys_current k0 _ _ k K Hm) as (t & Hcur & _ & _ & Hc).
  unfold sys_mmio_read. do 2 kstep. rewrite Hcur. do 6 kstep. apply sys_device_call; [done..|].
  intros id Hid Hg. kstep. apply wp_device; [lia|]. intros d _ Hd.
  case_match eqn:Eb; [by apply sys_out_of_range|]. apply negb_false_iff in Eb.
  pose proof (mid_reg k0 _ 0 10 k Hm) as [Ho0 _].
  unfold mmio_load. kstep. do 6 kstep. kstep. kstep.
  kuse (wp_emit_mmio (Some (current k0)) 0 k0).
  { apply (mid_mmio k0 _ 0 [_] k Hm). constructor; [|constructor].
    by eapply mmio_read_ok. }
  intros Hm'. by apply finish_a0.
Qed.

Lemma sys_mmio_write_ok : Sys sys_mmio_write.
Proof.
  intros k0 k K Hm. destruct (sys_current k0 _ _ k K Hm) as (t & Hcur & _ & _ & Hc).
  unfold sys_mmio_write. do 2 kstep. rewrite Hcur. do 8 kstep. apply sys_device_call; [done..|].
  intros id Hid Hg. kstep. apply wp_device; [lia|]. intros d _ Hd.
  case_match eqn:Eb; [by apply sys_out_of_range|]. apply negb_false_iff in Eb.
  pose proof (mid_reg k0 _ 0 10 k Hm) as [Ho0 _].
  unfold mmio_store. kstep. do 3 kstep. kstep.
  kuse (wp_emit_mmio (Some (current k0)) 0 k0).
  { apply (mid_mmio k0 _ 0 [_] k Hm). constructor; [|constructor].
    by eapply mmio_write_ok. }
  intros Hm'. by apply finish_a0.
Qed.

(** ** Introspection *)

Definition ib_ok (o : InfoBuf) : Prop :=
  length (ib_buf o) = Z.to_nat INFO_MAX /\ (ib_len o <= Z.to_nat INFO_MAX)%nat.

Lemma ib_new : ib_ok InfoBuf_new.
Proof. split; [apply length_replicate|cbn [InfoBuf_new ib_len]; lia]. Qed.
Lemma ib_byte o b : ib_ok o -> ib_ok (push_byte o b).
Proof.
  intros [? ?]. unfold push_byte. case_decide; [|done]. split; cbn [ib_buf ib_len]; [by rewrite length_insert|lia].
Qed.
Lemma ib_foldl {A} (f : InfoBuf -> A -> InfoBuf) o l : (forall o a, ib_ok o -> ib_ok (f o a)) ->
  ib_ok o -> ib_ok (foldl f o l).
Proof. intros Hf. revert o; induction l; intros o Ho; cbn [foldl]; auto. Qed.
Lemma ib_str s o : ib_ok o -> ib_ok (push_str s o).
Proof. intros. apply ib_foldl; [|done]. intros; by apply ib_byte. Qed.
Lemma ib_dec v o : ib_ok o -> ib_ok (push_dec v o).
Proof.
  intros. unfold push_dec. case_match; [by apply ib_byte|]. apply ib_foldl; [|done]. intros; by apply ib_byte.
Qed.

Ltac ib := repeat (apply ib_str || apply ib_dec || apply ib_new || assumption).

Lemma ib_tasks ts o : ib_ok o -> ib_ok (info_tasks ts o).
Proof. intros. apply ib_foldl; [|done]. intros o' a Ho. case_match; ib. Qed.
Lemma ib_caps ts o : ib_ok o -> ib_ok (info_caps ts o).
Proof.
  intros. apply ib_foldl; [|done]. intros o' a Ho. case_match; [ib|]. apply ib_str.
  apply ib_foldl; [|ib]. intros; ib.
Qed.

Lemma wp_for_m {St A} (I : St -> Prop) (f : St -> A -> outcome St) l s S k :
  I s -> (forall s a, a ∈ l -> I s -> exists s', f s a = Val s' /\ I s') ->
  wp (lift (for_m f s l)) (fun s' k' => k' = k /\ I s') S k.
Proof.
  revert s; induction l as [|a l IH]; intros s Hs Hf; [done|]. cbn [for_m].
  destruct (Hf s a) as (s1 & -> & H1); [left|done|]. apply IH; [done|]. intros. apply Hf; [by right|done].
Qed.

Lemma wp_info_ring k0 c w only o k : Mid k0 c w k -> ib_ok o ->
  wp (info_ring only o) (fun o' k' => k' = k /\ ib_ok o') (Safe k0) k.
Proof.
  intros Hm Ho. unfold info_ring. do 6 kstep. pose proof Hm as (W & _).
  destruct (wf_ring _ _ _ _ _ _ _ _ _ _ W) as [Hl Hr]. pose proof (wf_tasks _ _ _ _ _ _ _ _ _ _ W) as [Ht _].
  set (count := Z.min _ _). apply wp_for_m; [done|]. intros o1 j _ H1. set (idx := Z.to_nat _).
  assert (idx < length (ring k))%nat as Hi.
  { rewrite Hl. unfold idx. pose proof (Z.mod_pos_bound (ring_head k - count + Z.of_nat j) (Z.of_nat RING_LEN)).
    unfold RING_LEN in *. lia. }
  destruct (lookup_lt_is_Some_2 _ _ Hi) as [e He]. rewrite (arr_get_lookup _ _ _ He). cbn.
  case_match; [by exists o1|]. unfold info_event.
  destruct (Hr e (list_elem_of_lookup_2 _ _ _ He)) as [Hs0 Hs1].
  destruct (lookup_lt_is_Some_2 (tasks k) (Z.to_nat e.2)) as [te Hte]; [lia|].
  rewrite (arr_get_lookup _ _ _ Hte). cbn [mbind outcome_bind mret outcome_ret]. eexists. split; [done|]. ib.
Qed.

Lemma wp_info_ipc k0 c w o k : Mid k0 c w k -> ib_ok o ->
  wp (info_ipc o) (fun o' k' => k' = k /\ ib_ok o') (Safe k0) k.
Proof.
  intros Hm Ho. unfold info_ipc. do 4 kstep. pose proof Hm as (W & _).
  pose proof (eo_len _ _ (wf_eps _ _ _ _ _ _ _ _ _ _ W)) as Hl. kstep.
  eapply wp_mono; [apply (wp_for_m ib_ok); [done|]| |done].
  - intros o1 j Hj%elem_of_seq H1. destruct (lookup_lt_is_Some_2 (endpoints k) j) as [e He]; [lia|].
    rewrite (arr_get_lookup _ _ _ He). cbn [mbind outcome_bind mret outcome_ret]. eexists. split; [done|]. ib.
  - cbv beta. intros o' ? [-> ?]. kstep. split; [done|]. ib.
Qed.

Lemma sys_reply o va max k0 k : KInv k0 -> Mid k0 (Some (current k0)) 0 k -> ib_ok o -> 0 <= max ->
  in_stack_window va (Z.min max INFO_MAX) = true ->
  wp (reply_info o va max) (fun _ => Done k0) (Safe k0) k.
Proof.
  intros K Hm [Hl Hn] H0 Hw. unfold reply_info. set (n := Z.min _ max).
  assert (0 <= INFO_MAX) by by vm_compute.
  apply stack_window_ok in Hw; [|lia]. kstep.
  eapply wp_lift; [unfold slice; rewrite decide_True by lia; reflexivity|].
  kstep. kuse (wp_copy k0 (Some (current k0)) 0).
  { rewrite length_take, length_drop. unfold buf_in_window in *. lia. }
  intros Hm'. by apply finish_a0.
Qed.

Lemma sys_device_info_ok : Sys sys_device_info.
Proof.
  intros k0 k K Hm. destruct (sys_current k0 _ _ k K Hm) as (t & Hcur & _ & _ & Hc).
  unfold sys_device_info. do 2 kstep. rewrite Hcur. do 6 kstep. apply sys_device_call; [done..|].
  intros id Hid _. case_match eqn:Eb; [by apply finish_a0|]. apply negb_false_iff in Eb.
  kstep. apply wp_device; [lia|]. intros d _ _.
  apply sys_reply; [done|done|ib|by apply (mid_reg k0 _ 0 11 k Hm)|done].
Qed.

(** The start of every call whose authority is a property of the task. *)
Lemma sys_authority ot required what (body : M ()) k0 k :
  KInv k0 -> Mid k0 (Some (current k0)) 0 k -> wp body (fun _ => Done k0) (Safe k0) k ->
  wp (ok ← cap_find (current k0) ot required;
      if negb ok then code ← deny_authority (current k0) what; set_a0 code else body)
    (fun _ => Done k0) (Safe k0) k.
Proof.
  intros K Hm Hb. destruct (sys_current k0 _ _ k K Hm) as (t & Hcur & Ht & Hok & Hc).
  kstep. unfold wp at 1. rewrite (cap_find_eq _ _ _ t) by done.
  destruct (holds_cap _ _ _); cbn [negb]; [done|]. by apply sys_deny_authority.
Qed.

Lemma sys_info_ok : Sys sys_info.
Proof.
  intros k0 k K Hm. destruct (sys_current k0 _ _ k K Hm) as (t & Hcur & _ & _ & Hc).
  unfold sys_info. do 2 kstep. rewrite Hcur. apply sys_authority; [done..|]. do 6 kstep.
  pose proof (mid_reg k0 _ 0 11 k Hm) as [Hm0 _]. set (max := reg (live k) 11) in *.
  case_match eqn:Eb; [by apply finish_a0|]. apply negb_false_iff in Eb. do 2 kstep.
  set (kind := reg (live k) 9).
  destruct (kind =? 0); [apply sys_reply; try done; apply ib_tasks; ib|].
  destruct (kind =? 1).
  { kstep. kuse wp_info_ring; [ib|]. intros [-> ?]. by apply sys_reply. }
  destruct (kind =? 2).
  { kstep. kuse wp_info_ipc; [ib|]. intros [-> ?]. by apply sys_reply. }
  destruct (kind =? 3); [apply sys_reply; try done; apply ib_caps; ib|].
  destruct (kind =? 4); [apply sys_reply; try done; unfold info_memory; ib|].
  destruct (kind =? 5); [do 2 kstep; apply sys_reply; try done; ib|].
  destruct (kind =? 6).
  { kstep. kuse wp_info_ring; [ib|]. intros [-> ?]. by apply sys_reply. }
  destruct (kind =? 7); [|by apply finish_a0]. do 2 kstep. case_match eqn:Es; [by apply finish_a0|].
  apply Z.leb_gt in Es. pose proof (mid_reg k0 _ 0 12 k Hm) as [Hs0 _].
  destruct (mid_lookup k0 _ 0 (Z.to_nat (reg (live k) 12)) k Hm) as (ts & Hts & _); [lia|].
  kstep. apply (wp_task _ ts); [done|]. apply sys_reply; try done. ib.
Qed.

(** ** Console *)

Lemma sys_con_write_ok : Sys sys_con_write.
Proof.
  intros k0 k K Hm. destruct (sys_current k0 _ _ k K Hm) as (t & Hcur & _ & _ & Hc).
  unfold sys_con_write. do 2 kstep. rewrite Hcur. apply sys_authority; [done..|]. do 4 kstep.
  case_match; [by apply finish_a0|]. kstep.
  eapply wp_mono; [apply (wp_for_each _ _ (Mid k0 (Some (current k0)) 0)); [exact Hm|]| |done].
  - intros i k1 _ Hm1. unfold read_user. do 2 kstep. do 2 kstep. kstep. exact Hm1.
  - intros ? k1 Hm1. by apply finish_a0.
Qed.

Lemma wp_con_read k0 c w todo va n k : Mid k0 c w k -> buf_in_window va (n + todo) ->
  wp (con_read_loop todo va n) (fun _ => Mid k0 c w) (Safe k0) k.
Proof.
  revert n k. induction todo as [|todo IH]; intros n k Hm Hb; cbn [con_read_loop]; [by kstep|].
  kstep. unfold get_byte. do 2 kstep. destruct (uart_in k) as [|b bs]; [do 2 kstep; exact Hm|].
  do 3 kstep. kstep. kuse (mid_write_user k0 c w).
  { rewrite (user_addr_window va (n + S todo)) by (done || lia). unfold buf_in_window, in_window in *. lia. }
  intros Hm'. apply IH; [done|]. by replace (n + 1 + todo)%nat with (n + S todo)%nat by lia.
Qed.

Lemma sys_con_read_ok : Sys sys_con_read.
Proof.
  intros k0 k K Hm. destruct (sys_current k0 _ _ k K Hm) as (t & Hcur & _ & _ & Hc).
  unfold sys_con_read. do 2 kstep. rewrite Hcur. apply sys_authority; [done..|]. do 4 kstep.
  case_match eqn:Eb; [by apply finish_a0|]. apply negb_false_iff in Eb.
  pose proof (mid_reg k0 _ 0 10 k Hm) as [Hl0 _].
  apply stack_window_ok in Eb; [|unfold IPC_MSG_MAX; lia].
  kstep. kuse (wp_con_read k0 (Some (current k0)) 0). intros Hm'. by apply finish_a0.
Qed.

End sys.
