(* ===== verification/DispatchCtl.v ===== *)
(** * Task control preserves the invariant

    Starting, killing and restarting tasks, shutdown, and the dispatch of
    system calls by number. *)

From stdpp Require Import strings sets base decidable numbers option tactics list.
From S2P Require Import Prelude.
From S2P Require Import Bytes.
From S2P Require Import Memory.
From S2P Require Import PageTable.
From S2P Require Import Sv39.
From S2P Require Import Paging.
From S2P Require Import PagingHw.
From S2P Require Import Device.
From S2P Require Import Kernel.
From S2P Require Import Dispatch.
From S2P Require Import DispatchLogic.
From S2P Require Import DispatchInv.
From S2P Require Import DispatchOps.
From S2P Require Import DispatchSafe.
From S2P Require Import DispatchSys.
Local Open Scope Z_scope.

Section ctl.
Context {P : Platform}.

Lemma wp_fresh_frame entry sp Q S k : sp ∈ᵤ 64 ->
  (forall f, frame_ok f -> sepc f = entry -> reg f 1 = sp -> Q f k) -> wp (fresh_frame entry sp) Q S k.
Proof.
  intros Hsp HQ. unfold fresh_frame. do 2 kstep. kstep. apply HQ; [|done|done].
  split; [done|]. cbn [regs new_user]. apply Forall_insert; [|done].
  apply Forall_replicate. by vm_compute.
Qed.

Lemma mid_clear k0 c w slot k : Mid k0 c w k ->
  Mid k0 c w (set_endpoints (clear_waits slot (endpoints k)) k).
Proof.
  intros (W & Hrest). split; [|done]. destruct W as [? We]. split; try done. ksimpl.
  destruct (tasks k !! slot) as [t|] eqn:Et.
  - rewrite <- (list_insert_id _ _ _ Et). apply eps_clear; [done|]. by eapply lookup_lt_Some.
  - replace (clear_waits slot (endpoints k)) with (endpoints k); [done|]. symmetry.
    unfold clear_waits. apply list_eq. intros j. rewrite list_lookup_fmap.
    destruct (endpoints k !! j) as [e|] eqn:He; [|done]. cbn. case_decide as Hw; [|done]. destruct (eo_blocked _ _ We j slot) as (t & Ht & _); [by exists e|].
    congruence.
Qed.

(** A task reset in place: no endpoint keeps it waiting. *)
Lemma mid_reset k0 c c' w slot t t' k : Mid k0 c w k -> tasks k !! slot = Some t -> same_id t t' ->
  tcb_ok t' -> t_state t' <> Empty -> run_is (<[slot := t']> (tasks k)) c' ->
  Mid k0 c' w (set_endpoints (clear_waits slot (endpoints k)) (set_tasks (<[slot := t']> (tasks k)) k)).
Proof.
  intros Hm Ht Hid Hok Hne Hr.
  apply (mid_task k0 c w c' slot t t' (set_endpoints (clear_waits slot (endpoints k)) k)); try done.
  - by apply mid_clear.
  - ksimpl. apply eps_clear; [by destruct Hm as [[] _]|by eapply lookup_lt_Some].
Qed.

Lemma wp_rearm k0 c w slot t k : Mid k0 c w k -> tasks k !! slot = Some t -> t_state t <> Empty ->
  c <> Some slot -> wp (rearm slot) (fun _ => Mid k0 c w) (Safe k0) k.
Proof.
  intros Hm Ht Hne Hc. pose proof Hm as (W & _ & _ & _ & Hrun & _).
  pose proof (proj2 (wf_tasks _ _ _ _ _ _ _ _ _ _ W) slot t Ht) as Hok.
  pose proof (lookup_lt_Some _ _ _ Ht) as Hl.
  unfold rearm. kstep. apply (wp_task slot t); [done|]. kstep.
  apply wp_fresh_frame; [by apply Hok|]. intros f Hf _ _.
  kstep. apply (wp_upd_task slot t); [done|]. kstep.
  eapply wp_upd_task; [ksimpl; by apply list_lookup_insert_eq|]. ksimpl. rewrite list_insert_insert_eq.
  kstep. apply wp_ep_clear; [by destruct Hm as [[_ [] _] _]|]. ksimpl.
  eapply wp_upd_task; [ksimpl; by apply list_lookup_insert_eq|]. ksimpl. rewrite list_insert_insert_eq.
  apply (mid_reset k0 c c w slot t (with_state Ready (with_pending None (with_frame f t))) k); try done.
  - destruct Hok as (? & ? & ? & ?). split; [done|]. split; [done|]. by split.
  - by apply run_is_insert.
Qed.

(** ** Starting a service *)

Lemma build_any l TS i entry stack r : TS !! i = Some fresh_tables -> length TS = MAX_USER_AS ->
  build_service_address_space l (replicate MAX_USER_AS fresh_tables) i entry stack = Val r ->
  exists tabs, build_service_address_space l TS i entry stack = Val (r.1, <[i := tabs]> TS) /\
    entry_va r.1 ∈ᵤ 64 /\ stack_top_va r.1 ∈ᵤ 64.
Proof.
  intros HT HL. unfold build_service_address_space. case_decide as Hi; [|done].
  rewrite (arr_get_lookup _ _ _ HT).
  rewrite (arr_get_lookup (replicate _ _) i fresh_tables) by (by apply lookup_replicate_2). ostep.
  destruct (map_kernel_regions _ _) as [a1|]; [ostep|done].
  destruct (map_pages a1 _ _ _ _) as [a2|]; [ostep|done].
  destruct (map_pages a2 _ _ _ _) as [a3|]; [ostep|done].
  destruct (map_one a3 _ _ _) as [a4|]; [ostep|done].
  rewrite !arr_set_lt by (rewrite ?length_replicate; lia). ostep. intros [= <-].
  eexists. split; [reflexivity|]. cbn [fst entry_va stack_top_va]. split; [|by vm_compute].
  unfold wrapping, uint. apply Z.mod_pos_bound. lia.
Qed.

Lemma mid_started k0 c w slot t T tb d ut k : Mid k0 c w k -> tasks k = tasks k0 ->
  tasks k !! slot = Some t -> t_state t = Empty -> service_table k0 = Some tb -> d ∈ tb ->
  sd_slot d = slot -> tcb_ok T -> t_state T = Ready -> started_from d T -> length ut = MAX_USER_AS ->
  (forall j, j <> slot -> ut !! j = user_tables k !! j) ->
  Mid k0 c w (set_tasks (<[slot := T]> (tasks k)) (set_user_tables ut k)).
Proof.
  intros (W & [H1 H2 H3 H4 H5] & Hs & Hc & Hr & Hw) E0 Ht He Htb Hd Hsl Hok HT Hst Hlu Hut.
  pose proof (lookup_lt_Some _ _ _ Ht) as Hl. split; [|split; [|split; [done|split; [done|split; [|done]]]]].
  - destruct W as [[Lt Ft] We ? ? ? ? ? [Lu Fu] ? ?]. split; try done; ksimpl.
    + split; [by rewrite length_insert|]. intros j tj [[_ ->]|[_ Hj]]%insert_lookup_cases; [done|by eapply Ft].
    + apply eps_task; [done|done|]. right. eapply no_waits; [done..|by rewrite He].
    + split; [done|]. intros j tj [[_ ->]|[Hne Hj]]%insert_lookup_cases Hem; [congruence|].
      rewrite Hut by done. by eapply Fu.
  - split; try done. ksimpl. intros j tj [[-> ->]|[_ Hj]]%insert_lookup_cases; [|by apply H1].
    exists t. split; [congruence|]. right. split; [done|]. by exists tb, d.
  - ksimpl. apply run_is_insert; [done|by rewrite HT|done|]. intros ->. apply Hr in Ht as [_ Hx].
    rewrite Hx in He; done.
Qed.

Lemma wp_announce k0 c w slot k : Mid k0 c w k -> (slot < MAX_TASKS)%nat ->
  wp (announce_device_grants slot) (fun _ => Mid k0 c w) (Safe k0) k.
Proof.
  intros Hm Hs. destruct (mid_lookup k0 c w slot k Hm Hs) as (t & Ht & Hok).
  destruct Hok as (_ & [Lc Fc] & _).
  unfold announce_device_grants. kstep. apply (wp_task slot t); [done|]. apply wp_for_each; [done|].
  clear Hm k Ht. intros i k Hi%elem_of_seq Hm.
  destruct (lookup_lt_is_Some_2 (t_caps t) i) as [oc Hc]; [lia|].
  kstep. apply (wp_lift _ oc); [by apply arr_get_lookup|]. destruct oc as [cp|]; [|by kstep].
  destruct (Fc cp (list_elem_of_lookup_2 _ _ _ Hc)) as [Hid _]. cbn [announce_grant].
  case_match eqn:Eb; [|by kstep]. apply andb_true_iff in Eb as [_ Hlt]. apply Z.ltb_lt in Hlt.
  kstep. apply wp_device; [lia|]. intros d _ _. kstep.
  apply (wp_mono _ (fun _ => Mid k0 c w) _ (Safe k0)); [|cbv beta; intros ? k1 Hm1|done].
  - case_match; [|by kstep]. destruct (mid_route _ _ _ (Z.to_nat (object_id cp)) k Hm) as (r & Hr & Hrl); [lia|].
    kstep. apply (wp_irq_route _ r); [done|]. apply wp_irq_route_set; [done|].
    apply mid_routes; [done|]. rewrite length_insert. by destruct Hm as [[] _].
  - ksteps. exact Hm1.
Qed.

Lemma sys_started k0 slot name k : KInv k0 -> Mid k0 (Some (current k0)) 0 k -> (slot < MAX_TASKS)%nat ->
  wp (ring_push EV_STARTED slot ;; emit "SERVICE started=" name ;; mret (Z.of_nat slot))
    (fun _ => Mid k0 (Some (current k0)) 0) (Safe k0) k.
Proof. intros K Hm Hs. kstep. kuse wp_ring_push. intros Hm'. ksteps. exact Hm'. Qed.

Lemma wp_start_service k0 index k : KInv k0 -> Mid k0 (Some (current k0)) 0 k -> tasks k = tasks k0 ->
  wp (start_service index) (fun _ => Mid k0 (Some (current k0)) 0) (Safe k0) k.
Proof.
  intros K Hm E0. unfold start_service. do 2 kstep. case_match eqn:Ed; [|by kstep].
  apply bind_Some in Ed as (tb & Htb & Ed). case_match; [|done].
  apply list_elem_of_lookup_2 in Ed as Hin. pose proof Hm as (W & S & _ & _ & Hrun & _).
  destruct (wf_services _ _ _ _ _ _ _ _ _ _ W tb s Htb Hin) as (Hsl & Hcaps & r & Hbuild).
  destruct (mid_lookup k0 _ 0 _ k Hm Hsl) as (t & Ht & Hok).
  kstep. apply (wp_task _ t); [done|]. destruct (t_state t) eqn:Est.
  - destruct (wf_spaces _ _ _ _ _ _ _ _ _ _ W) as [Lu Fu].
    destruct (build_any linker (user_tables k) (sd_slot s) (sd_entry s) (sd_stack_phys s) r
      (Fu _ t Ht Est) Lu Hbuild) as (tabs & Hb & He & Hst).
    kstep. unfold build_space. kstep. do 2 kstep. eapply wp_lift; [exact Hb|]. do 3 kstep. kstep.
    unfold register_task. kstep. apply wp_fresh_frame; [done|]. intros f Hf _ _.
    apply wp_put_task; [by eapply lookup_lt_Some|]. kstep.
    eapply wp_upd_task; [ksimpl; apply list_lookup_insert_eq; by eapply lookup_lt_Some|]. ksimpl.
    rewrite list_insert_insert_eq. kstep. kuse (wp_announce k0 (Some (current k0)) 0);
      [|intros Hm2; by apply sys_started].
    cbn [fst snd].
    apply (mid_started k0 _ 0 (sd_slot s) t _ tb s (<[sd_slot s := tabs]> (user_tables k)) k); try done.
    + by rewrite <- (sf_table _ _ _ _ _ _ _ S).
    + by rewrite length_insert.
    + intros j Hj. by rewrite list_lookup_insert_ne.
  - by kstep.
  - by kstep.
  - by kstep.
  - kstep. kuse (wp_rearm k0 (Some (current k0)) 0 (sd_slot s) t); [by rewrite Est| |intros Hm2; by apply sys_started].
    intros [= Hx]. rewrite <- Hx in Ht. apply Hrun in Ht as [_ Hy]. rewrite Hy in Est; done.
  - kstep. kuse (wp_rearm k0 (Some (current k0)) 0 (sd_slot s) t); [by rewrite Est| |intros Hm2; by apply sys_started].
    intros [= Hx]. rewrite <- Hx in Ht. apply Hrun in Ht as [_ Hy]. rewrite Hy in Est; done.
Qed.

(** ** The control calls *)

Lemma sys_task_start_ok k0 k : KInv k0 -> Mid k0 (Some (current k0)) 0 k -> tasks k = tasks k0 ->
  wp sys_task_start (fun _ => Done k0) (Safe k0) k.
Proof.
  intros K Hm E0. destruct (sys_current k0 _ _ k K Hm) as (t & Hcur & _ & _ & Hc).
  unfold sys_task_start. do 2 kstep. rewrite Hcur. apply sys_authority; [done..|]. do 2 kstep.
  kstep. kuse wp_start_service. intros Hm'. by apply finish_a0.
Qed.

Lemma sys_task_kill_ok : Sys sys_task_kill.
Proof.
  intros k0 k K Hm. destruct (sys_current k0 _ _ k K Hm) as (t & Hcur & _ & _ & Hc).
  unfold sys_task_kill. do 2 kstep. rewrite Hcur. apply sys_authority; [done..|]. do 2 kstep.
  pose proof (mid_reg k0 _ 0 9 k Hm) as [Hs0 _]. case_match eqn:Es; [by apply finish_a0|].
  apply Z.leb_gt in Es. set (slot := Z.to_nat (reg (live k) 9)).
  assert (slot < MAX_TASKS)%nat as Hsl by lia.
  destruct (mid_lookup k0 _ 0 slot k Hm Hsl) as (tk & Htk & Hok).
  kstep. apply (wp_task slot tk); [done|]. case_match eqn:Ee; [by apply finish_a0|].
  pose proof (lookup_lt_Some _ _ _ Htk) as Hl.
  kstep. apply (wp_upd_task slot tk); [done|]. kstep.
  eapply wp_upd_task; [ksimpl; by apply list_lookup_insert_eq|]. ksimpl. rewrite list_insert_insert_eq.
  kstep. apply wp_ep_clear; [by destruct Hm as [[_ [] _] _]|]. ksimpl.
  set (tk' := with_pending None (with_state Killed tk)).
  set (c' := if decide (slot = current k0) then None else Some (current k0)).
  assert (Mid k0 c' 0 (set_endpoints (clear_waits slot (endpoints k)) (set_tasks (<[slot := tk']> (tasks k)) k))) as Hm1.
  { apply (mid_reset k0 (Some (current k0)) c' 0 slot tk tk' k); try done.
    - destruct Hok as (? & ? & ? & ?). split; [done|]. split; [done|]. by split.
    - pose proof Hm as (_ & _ & _ & _ & Hrun & _). unfold c'. destruct (decide (slot = current k0)) as [Hd|Hd].
      + apply run_is_stop; [done|]. by rewrite Hd.
      + apply run_is_insert; [done..|]. congruence. }
  kstep. kuse (wp_irq_drop k0 c' 0). intros Hm2. kstep. kuse (wp_ring_push k0 c' 0). intros Hm3.
  do 2 kstep. case_match eqn:Eb; bool_facts.
  - assert (c' = None) as Hc' by (unfold c'; by rewrite decide_True). rewrite Hc' in Hm3.
    apply (wp_reschedule k0 0); [apply halts_idle|exact Hm3].
  - assert (c' = Some (current k0)) as Hc' by (unfold c'; by rewrite decide_False). rewrite Hc' in Hm3.
    by apply finish_a0.
Qed.

Lemma sys_task_restart_ok : Sys sys_task_restart.
Proof.
  intros k0 k K Hm. destruct (sys_current k0 _ _ k K Hm) as (t & Hcur & _ & _ & Hc).
  unfold sys_task_restart. do 2 kstep. rewrite Hcur. apply sys_authority; [done..|]. do 2 kstep.
  pose proof (mid_reg k0 _ 0 9 k Hm) as [Hs0 _]. case_match eqn:Es; [by apply finish_a0|].
  apply orb_false_iff in Es as [Es Hne]. apply Z.leb_gt in Es. apply Z.eqb_neq in Hne.
  destruct (mid_lookup k0 _ 0 (Z.to_nat (reg (live k) 9)) k Hm) as (tk & Htk & Hok); [lia|].
  kstep. apply (wp_task _ tk); [done|]. case_match eqn:Ee; [by apply finish_a0|].
  apply orb_false_iff in Ee as [Ee _]. apply bool_decide_eq_false in Ee.
  kstep. kuse (wp_rearm k0 (Some (current k0)) 0); [intros [= Hx]; lia|]. intros Hm1.
  kstep. kuse (wp_ring_push k0 (Some (current k0)) 0); [lia|]. intros Hm2. do 2 kstep. by apply finish_a0.
Qed.

Lemma sys_shutdown_ok : Sys sys_shutdown.
Proof.
  intros k0 k K Hm. destruct (sys_current k0 _ _ k K Hm) as (t & Hcur & Ht & _ & Hc).
  unfold sys_shutdown. do 2 kstep. rewrite Hcur. apply sys_authority; [done..|]. do 2 kstep.
  kstep. apply (wp_task _ t); [done|]. do 5 kstep. by destruct Hm as (_ & ? & _).
Qed.

Lemma syscall_body_ok num body k0 k : syscall_body num = Some body -> KInv k0 ->
  Mid k0 (Some (current k0)) 0 k -> tasks k = tasks k0 ->
  wp body (fun _ => Done k0) (Safe k0) k.
Proof.
  unfold syscall_body. intros E K Hm E0.
  destruct (num =? SYS_YIELD); [injection E as <-; by eapply wp_switch|].
  destruct (num =? SYS_EXIT); [injection E as <-; by eapply wp_switch|].
  destruct (num =? SYS_SEND); [injection E as <-; by apply sys_ipc_send|].
  destruct (num =? SYS_RECV); [injection E as <-; by apply sys_ipc_recv|].
  destruct (num =? SYS_FAULT_ACK); [injection E as <-; by apply sys_fault_ack|].
  destruct (num =? SYS_TASK_START); [injection E as <-; by apply sys_task_start_ok|].
  destruct (num =? SYS_CON_WRITE); [injection E as <-; by apply sys_con_write_ok|].
  destruct (num =? SYS_CON_READ); [injection E as <-; by apply sys_con_read_ok|].
  destruct (num =? SYS_INFO); [injection E as <-; by apply sys_info_ok|].
  destruct (num =? SYS_TASK_KILL); [injection E as <-; by apply sys_task_kill_ok|].
  destruct (num =? SYS_TASK_RESTART); [injection E as <-; by apply sys_task_restart_ok|].
  destruct (num =? SYS_SHUTDOWN); [injection E as <-; by apply sys_shutdown_ok|].
  destruct (num =? SYS_DEVICE_INFO); [injection E as <-; by apply sys_device_info_ok|].
  destruct (num =? SYS_MMIO_READ); [injection E as <-; by apply sys_mmio_read_ok|].
  destruct (num =? SYS_MMIO_WRITE); [injection E as <-; by apply sys_mmio_write_ok|].
  destruct (num =? SYS_DMA_READ); [injection E as <-; by apply (sys_dma DEV_RIGHT_DMA_READ false)|].
  destruct (num =? SYS_DMA_WRITE); [injection E as <-; by apply (sys_dma DEV_RIGHT_DMA_WRITE true)|].
  destruct (num =? SYS_IRQ_RAISE); [injection E as <-; by apply sys_irq_raise_ok|].
  discriminate.
Qed.

(** An unknown number is left to the trap layer, unchanged but for the
    watchdog check-in. *)
Lemma wp_on_syscall num k : KInv k ->
  wp (on_syscall num) (fun _ => Done k) (Safe k) k.
Proof.
  intros K. pose proof (kinv_mid k K) as Hm. pose proof K as (_ & Ha & _).
  unfold on_syscall. do 2 kstep. rewrite Ha. cbn [negb]. do 2 kstep.
  assert (Mid k (Some (current k)) 0 (set_watchdog_miss 0 k)) as Hm1 by exact (mid_counters _ _ _ 0 (ticks k) k Hm).
  destruct (syscall_body num) as [body|] eqn:Eb; [|kstep; by apply finish].
  kstep. kuse (syscall_body_ok num body k). intros Hd. by kstep.
Qed.

End ctl.
