(* ===== verification/Trap.v ===== *)
(** * Trap entry, timer and the boot-phase system calls

    Models [trap.rs] (the central handler and the containment of a user
    fault outside the dispatcher), [timer.rs] (the tick) and
    [syscall/mod.rs] (the fail-closed system calls answered when the
    dispatcher does not consume a number). *)

From stdpp Require Import strings sets base decidable numbers option tactics list.
From S2P Require Import Prelude Bytes Caps Memory Sv39 Paging PagingHw Device Kernel Dispatch.
Local Open Scope Z_scope.

(** ** [syscall/mod.rs] *)

Definition SYS_REPLY : Z := 5.
Definition SYS_CAP_QUERY : Z := 6.
Definition ERR_INVALID_SYSCALL : Z := -1.
Definition ERR_NOT_IMPLEMENTED : Z := -9.

Definition stub (name : string) : M Z :=
  put_str "SYSCALL name=" ;; put_str name ;;
  put_line " status=stub result=ERR_NOT_IMPLEMENTED" ;;
  mret ERR_NOT_IMPLEMENTED.

Definition BOOT_CAP_TABLE : CapTable.t := CapTable.new.

Definition map_cap_error (err : CapError) : Z :=
  match err with
  | InvalidIndex | EmptySlot => ERR_INVALID_CAP
  | WrongObjectType => ERR_WRONG_OBJECT_TYPE
  | InsufficientRights => ERR_INSUFFICIENT_RIGHTS
  | SlotOccupied => ERR_INVALID_CAP
  end.

Definition ipc_capability_gate (name : string) (cap_index : Z) (required : Rights.t) : M Z :=
  r ← lift (CapTable.lookup BOOT_CAP_TABLE (Z.to_nat cap_index) OEndpoint required);
  match r with
  | Ok _ => stub name
  | Err err =>
      put_str "CAP_DENIED syscall=" ;; put_str name ;;
      put_line " reason=no_valid_capability result=ERR" ;;
      mret (map_cap_error err)
  end.

Definition dispatch (number : Z) : M Z :=
  a0 ← arg 9;
  if number =? SYS_YIELD then stub "sys_yield"
  else if number =? SYS_EXIT then stub "sys_exit"
  else if number =? SYS_SEND then ipc_capability_gate "sys_send" a0 Rights.SEND
  else if number =? SYS_RECV then ipc_capability_gate "sys_recv" a0 Rights.RECEIVE
  else if number =? SYS_REPLY then stub "sys_reply"
  else if number =? SYS_CAP_QUERY then stub "sys_cap_query"
  else if number =? SYS_FAULT_ACK then stub "sys_fault_ack"
  else
    put_line "SYSCALL name=unknown status=rejected result=ERR_INVALID_SYSCALL" ;;
    mret ERR_INVALID_SYSCALL.

(** ** [timer.rs] *)

Definition TIMER_INTERVAL : Z := 100000.

Section Trap.
Context {P : Platform}.
(** The [time] register. *)
Context (read_time : Kernel -> Z).

Definition arm_next : M () :=
  t ← get read_time; modify (set_stimer (wrapping_add 64 t TIMER_INTERVAL)).

Definition on_timer_interrupt : M () :=
  n0 ← get timer_ticks;
  let n := wrapping 64 (n0 + 1) in
  modify (set_timer_ticks n) ;;
  (if n <=? 3 then put_str "TIMER tick=" ;; put_dec n ;; put_str nl else mret tt) ;;
  arm_next ;;
  contained ← watchdog_tick;
  if negb contained then preempt else mret tt.

(** ** [trap.rs] *)

Definition CAUSE_ILLEGAL_INSTRUCTION : Z := 2.
Definition CAUSE_ECALL_FROM_U : Z := 8.
Definition CAUSE_ECALL_FROM_S : Z := 9.
Definition CAUSE_INSTRUCTION_PAGE_FAULT : Z := 12.
Definition CAUSE_LOAD_PAGE_FAULT : Z := 13.
Definition CAUSE_STORE_PAGE_FAULT : Z := 15.
Definition INTERRUPT_BIT : Z := 1 .<< 63.
Definition CAUSE_SUPERVISOR_TIMER : Z := 5.
Definition KERNEL_BASE : Z := 0x80200000.

Definition set_user_fault_continuation (pc sp : Z) : M () :=
  modify (set_cont_pc pc) ;; modify (set_cont_sp sp).

Definition contain_user_fault (reason : string) : M bool :=
  pc ← get cont_pc; sp ← get cont_sp;
  if (pc =? 0) || (sp =? 0) then mret false
  else
    put_str "CONTAIN scope=user reason=" ;; put_str reason ;;
    put_line " action=terminate_task kernel=alive" ;;
    f ← get live;
    modify (set_live (mkFrame (<[1%nat := sp]> (regs f)) pc (sstatus f .| SSTATUS_SPP))) ;;
    mret true.

(** [trap.rs]'s [put_hex]: sixteen digits, most significant first. *)
Definition put_hex16 (value : Z) : M () :=
  put_str "0x" ;;
  for_each (fun i : nat =>
    let digit := (value .>> (Z.of_nat (15 - i) * 4)) .& 0xf in
    put_byte (if digit <? 10 then 48 + digit else 97 + digit - 10)) (seq 0 16).

Definition report (kind : string) (cause stval : Z) : M () :=
  put_str "TRAP kind=" ;; put_str kind ;; put_str " cause=" ;; put_hex16 cause ;;
  put_str " sepc=" ;; f ← get live; put_hex16 (sepc f) ;;
  put_str " stval=" ;; put_hex16 stval ;; put_str nl.

Definition page_fault_reason (scause fault_addr : Z) : string :=
  if KERNEL_BASE <=? fault_addr then "user_access_kernel_memory"
  else if scause =? CAUSE_INSTRUCTION_PAGE_FAULT then "user_execute_nonexecutable"
  else "user_access_unmapped".

(** [put_str(line); halt()] *)
Definition halt_with (line : string) : M () := put_line line ;; stop IdleLoop.

(** A fault from user mode: to the dispatcher, else to the continuation,
    else (and from kernel mode) a halt. *)
Definition fault_path (reason line : string) : M () :=
  f ← get live;
  if is_from_user f then
    c ← contain_fault reason;
    if (c : bool) then mret tt
    else
      c ← contain_user_fault reason;
      if (c : bool) then mret tt else halt_with line
  else halt_with line.

Definition trap_handler (scause stval : Z) : M () :=
  if negb ((scause .& INTERRUPT_BIT) =? 0) then
    if (scause .& 0xff) =? CAUSE_SUPERVISOR_TIMER then on_timer_interrupt
    else
      report "unexpected-interrupt" scause stval ;;
      halt_with "PANIC kernel=axiomrt reason=unexpected_interrupt phase=trap"
  else if scause =? CAUSE_ILLEGAL_INSTRUCTION then
    report "illegal-instruction" scause stval ;;
    fault_path "illegal_instruction" "HALT reason=illegal_instruction phase=trap"
  else if scause =? CAUSE_ECALL_FROM_U then
    f ← get live;
    let num := a7 f in
    modify (set_live (mkFrame (regs f) (wrapping_add 64 (sepc f) 4) (sstatus f))) ;;
    consumed ← on_syscall num;
    if negb consumed then result ← dispatch num; set_a0 result else mret tt
  else if scause =? CAUSE_ECALL_FROM_S then
    report "smode-ecall-misdelegated" scause stval ;;
    halt_with "PANIC kernel=axiomrt reason=smode_ecall_misdelegated phase=trap"
  else if (scause =? CAUSE_INSTRUCTION_PAGE_FAULT) || (scause =? CAUSE_LOAD_PAGE_FAULT)
          || (scause =? CAUSE_STORE_PAGE_FAULT) then
    report "page-fault" scause stval ;;
    fault_path (page_fault_reason scause stval) "PANIC kernel=axiomrt reason=kernel_page_fault phase=trap"
  else
    report "unknown" scause stval ;;
    fault_path "exception" "PANIC kernel=axiomrt reason=unknown_trap phase=trap".

End Trap.
