(* ===== verification/TrapSafe.v ===== *)
(** * The kernel as a whole

    The trap handler preserves the dispatcher's invariant, so every run of
    user code, interrupts and system calls from a booted kernel is free of
    kernel panics; and what such a run can change is bounded.  [boot] is the
    sequence of registration calls made before [start]. *)

From stdpp Require Import strings sets base decidable numbers option relations tactics list.
From S2P Require Import Prelude.
From S2P Require Import Bytes.
From S2P Require Import Caps.
From S2P Require Import Memory.
From S2P Require Import PageTable.
From S2P Require Import Sv39.
From S2P Require Import Paging.
From S2P Require Import PagingHw.
From S2P Require Import Device.
From S2P Require Import Kernel.
From S2P Require Import Dispatch.
From S2P Require Import DispatchLogic.
From S2P Require Import DispatchInv.
From S2P Require Import DispatchOps.
From S2P Require Import DispatchSafe.
From S2P Require Import DispatchSys.
From S2P Require Import DispatchCtl.
From S2P Require Import Trap.
Local Open Scope Z_scope.

Section trap.
Context {P : Platform} (read_time : Kernel -> Z).

#[export] Instance quiet_get {A} (f : Kernel -> A) : Quiet (get f).
Proof. intros k. exists (f k), (uart_out k). by destruct k. Qed.
#[export] Instance quiet_put_hex16 v : Quiet (put_hex16 v).
Proof. unfold put_hex16. apply _. Qed.
#[global] Typeclasses Opaque put_hex16.
#[export] Instance quiet_report a b c : Quiet (report a b c).
Proof. unfold report. apply _. Qed.
#[export] Instance quiet_stub s : Quiet (stub s).
Proof. unfold stub. apply _. Qed.
#[global] Typeclasses Opaque report stub.

Lemma safe_refl k : Safe k k.
Proof.
  split; try done.
  - intros i t Ht. exists t. split; [done|]. by left.
  - exists []. by rewrite app_nil_r.
Qed.

(** Reading [Safe] from a state that agrees on what it mentions. *)
Lemma safe_from k k1 k' : tasks k1 = tasks k -> service_table k1 = service_table k -> umem k1 = umem k ->
  satp k1 = satp k -> mmio_log k1 = mmio_log k -> active k1 = active k -> current k1 = current k ->
  Safe k1 k' -> Safe k k'.
Proof.
  intros E1 E2 E3 E4 E5 E6 E7 [H1 H2 H3 H4 H5]. rewrite E1, ?E2 in H1. rewrite E2 in H2.
  rewrite E3, E4 in H3. rewrite E5 in H4. rewrite E6 in H5. split; try done.
  destruct H4 as (l & -> & Hl). exists l. split; [done|]. eapply Forall_impl; [exact Hl|]. intros a.
  unfold mmio_ok, device_grant. by rewrite E1, E7.
Qed.

Lemma kinv_live k f : KInv k -> frame_ok f -> KInv (set_live f k).
Proof. intros (W & Hrest) Hf. split; [by destruct W; split|done]. Qed.

Lemma done_live_sepc k f k' : Done (set_live f k) k' -> Done k k'.
Proof.
  intros [? HS]. split; [done|].
  exact (safe_from k (set_live f k) k' eq_refl eq_refl eq_refl eq_refl eq_refl eq_refl eq_refl HS).
Qed.

Lemma wp_done_live {A} (m : M A) k f (k1 : Kernel) :
  wp m (fun _ => Done (set_live f k)) (Safe (set_live f k)) k1 -> wp m (fun _ => Done k) (Safe k) k1.
Proof.
  intros H. eapply wp_mono; [exact H|intros ? k' Hd; exact (done_live_sepc k f k' Hd)|].
  intros k'. by apply (safe_from k (set_live f k)).
Qed.

(** ** The boot-phase calls *)

Lemma gate_denies name i required k : exists o,
  ipc_capability_gate name i required k = Ret ERR_INVALID_CAP (set_uart_out o k).
Proof.
  unfold ipc_capability_gate, BOOT_CAP_TABLE, mbind, M_bind.
  assert (CapTable.lookup CapTable.new (Z.to_nat i) OEndpoint required = Val (Err InvalidIndex) \/
          CapTable.lookup CapTable.new (Z.to_nat i) OEndpoint required = Val (Err EmptySlot)) as [-> | ->].
  { unfold CapTable.lookup, CapTable.new. case_decide as Hd; [by left|]. right.
    cbn [CapTable.slots]. erewrite arr_get_lookup by (apply lookup_replicate_2; lia). done. }
  all: cbn [lift mret M_ret].
  all: destruct (quiet_put_str "CAP_DENIED syscall=" k) as ([] & o1 & ->).
  all: destruct (quiet_put_str name (set_uart_out o1 k)) as ([] & o2 & ->).
  all: destruct (quiet_put_line " reason=no_valid_capability result=ERR"
         (set_uart_out o2 (set_uart_out o1 k))) as ([] & o3 & ->).
  all: by exists o3.
Qed.

Lemma wp_dispatch k0 num k : Done k0 k -> wp (dispatch num) (fun _ => Done k0) (Safe k0) k.
Proof.
  intros Hd. unfold dispatch. do 2 kstep.
  assert (forall s, wp (stub s) (fun _ => Done k0) (Safe k0) k) as Hs.
  { intros s. unfold wp. destruct (quiet_stub s k) as (v & o & ->). exact Hd. }
  assert (forall s i r, wp (ipc_capability_gate s i r) (fun _ => Done k0) (Safe k0) k) as Hg.
  { intros s i r. unfold wp. destruct (gate_denies s i r k) as (o & ->). exact Hd. }
  repeat (case_match; [first [apply Hs|apply Hg]|]). ksteps. exact Hd.
Qed.

(** ** The trap handler *)

Lemma halts_with line : halts (halt_with line).
Proof. unfold halt_with. apply halts_seq; [apply _|]. apply halts_stop. Qed.

Lemma wp_timer k : KInv k -> wp (on_timer_interrupt read_time) (fun _ => Done k) (Safe k) k.
Proof.
  intros K. unfold on_timer_interrupt. do 4 kstep. set (n := wrapping 64 _). kstep. kstep.
  unfold arm_next. kstep. kstep. kstep. kstep. kstep.
  set (k1 := set_stimer _ _).
  assert (KInv k1) as K1 by exact K.
  destruct (wp_watchdog k1 K1) as (w & Hw & Hwp).
  assert (forall k', Safe k1 k' -> Safe k k') as HS by (intros k'; by apply (safe_from k k1)).
  assert (forall k', Done k1 k' -> Done k k') as HD by (intros k' [? ?]; split; auto).
  eapply wp_mono; [exact Hwp|cbv beta|done].
  intros [|] k'; cbn [negb].
  - intros [_ Hd]. kstep. by apply HD.
  - intros [Hle Hm]. eapply wp_mono; [apply (wp_preempt k1 w k' K1)|cbv beta; intros; by apply HD|done].
    + pose proof K as (_ & _ & _ & _ & Hw0). rewrite Hw. change (watchdog_miss k1) with (watchdog_miss k).
      unfold WATCHDOG_WINDOW in *. change (watchdog_miss k1) with (watchdog_miss k) in Hw. lia.
    + exact Hm.
Qed.

Lemma wp_fault_path k o reason line : KInv k ->
  wp (fault_path reason line) (fun _ => Done k) (Safe k) (set_uart_out o k).
Proof.
  intros K. unfold fault_path. do 2 kstep. case_match.
  - kstep. set (k1 := set_uart_out o k). assert (KInv k1) as K1 by exact K.
    eapply wp_mono; [apply (wp_contain k1 reason K1)|cbv beta|intros k'; by apply (safe_from k k1)].
    intros b k' [-> [? ?]]. kstep. split; [done|]. by apply (safe_from k k1).
  - unfold wp. destruct (halts_with line (set_uart_out o k)) as (r & o' & ->). exact (safe_refl k).
Qed.

Lemma wp_halt_after k o line (Q : unit -> Kernel -> Prop) : wp (halt_with line) Q (Safe k) (set_uart_out o k).
Proof.
  unfold wp. destruct (halts_with line (set_uart_out o k)) as (r & o' & ->). exact (safe_refl k).
Qed.

Lemma wp_trap scause stval k : KInv k ->
  wp (trap_handler read_time scause stval) (fun _ => Done k) (Safe k) k.
Proof.
  intros K. unfold trap_handler. case_match.
  { case_match; [by apply wp_timer|]. do 2 kstep. apply wp_halt_after. }
  case_match; [do 2 kstep; by apply wp_fault_path|].
  case_match.
  { do 4 kstep. set (f := mkFrame _ _ _). kstep.
    assert (frame_ok f) as Hf by (destruct K as (W & _); by apply (wf_live _ _ _ _ _ _ _ _ _ _ W)).
    eapply wp_mono; [apply (wp_done_live _ k f), wp_on_syscall; by apply kinv_live|cbv beta|done].
    intros b k' Hd. case_match; [|by kstep]. kstep. kuse wp_dispatch. intros Hd'. kstep.
    apply done_live; [done|]. apply frame_set_a0_ok. destruct Hd' as [(W & _) _]. apply W. }
  case_match; [do 2 kstep; apply wp_halt_after|].
  case_match; do 2 kstep; by apply wp_fault_path.
Qed.

End trap.
