(* ===== verification/System.v ===== *)
(** * The booted system

    The static state, the boot sequence that ends in [start], and runs: user
    code of the current task alternates with traps.  The theorems are about
    every run. *)

From stdpp Require Import strings sets base decidable numbers option relations tactics list.
From S2P Require Import Prelude.
From S2P Require Import Bytes.
From S2P Require Import Caps.
From S2P Require Import Memory.
From S2P Require Import PageTable.
From S2P Require Import Sv39.
From S2P Require Import Paging.
From S2P Require Import PagingHw.
From S2P Require Import Device.
From S2P Require Import Kernel.
From S2P Require Import Dispatch.
From S2P Require Import DispatchLogic.
From S2P Require Import DispatchInv.
From S2P Require Import DispatchOps.
From S2P Require Import DispatchSafe.
From S2P Require Import DispatchSys.
From S2P Require Import DispatchCtl.
From S2P Require Import Trap.
From S2P Require Import TrapSafe.
Local Open Scope Z_scope.

(** The statics before [main] runs; the memory's contents are arbitrary. *)
Definition static_state (um : Z -> Z -> Z) : Kernel :=
  mkKernel (replicate MAX_TASKS EMPTY_TCB) 0 false 0 (replicate NUM_ENDPOINTS EpIdle)
    (replicate (Z.to_nat IPC_MSG_MAX) 0) (replicate 2 (mkRoute MAX_TASKS false)) (replicate 4096 0)
    0 0 (replicate RING_LEN (0, 0)) 0 None (replicate MAX_USER_AS fresh_tables)
    (mkFrame (replicate 31 0) 0 0) 0 um [] [] [] 0 0 0 0.

(** The calls made between boot and [start]. *)
Inductive BootOp :=
| BTask (idx : nat) (name : string) (prio : Z) (root : PhysAddr) (entry sp : Z)
| BEndpointCap (idx slot : nat) (object_id rights : Z)
| BBootCap (idx : nat) (cap : Cap)
| BServices (table : list ServiceDef).

Section booting.
Context {P : Platform}.

Definition boot_op (o : BootOp) : M () :=
  match o with
  | BTask idx name prio root entry sp => register_task idx name prio root entry sp
  | BEndpointCap idx slot id r => set_endpoint_cap idx slot id r
  | BBootCap idx cap => set_boot_cap idx cap
  | BServices table => set_service_table table
  end.

Definition boot (ops : list BootOp) : M (Z * Z) := for_each boot_op ops ;; start.

(** The arguments are in range. *)
Definition boot_op_ok (o : BootOp) : Prop :=
  match o with
  | BTask idx _ _ _ entry sp => (idx < MAX_TASKS)%nat /\ entry ∈ᵤ 64 /\ sp ∈ᵤ 64
  | BEndpointCap idx slot id _ =>
      (idx < MAX_TASKS)%nat /\ (slot < CAPS_PER_TASK)%nat /\ 0 <= id < Z.of_nat NUM_ENDPOINTS
  | BBootCap idx cap => (idx < MAX_TASKS)%nat /\ cap_ok cap
  | BServices table => forall d, d ∈ table -> service_ok d
  end.

(** ** Boot *)

Definition boot_inv (k : Kernel) : Prop :=
  Wf k /\ run_is (tasks k) None /\ (forall j tid, ~ waits (endpoints k) j tid) /\
  watchdog_miss k = 0.

Lemma static_inv um : boot_inv (static_state um).
Proof.
  assert (forall i t, replicate MAX_TASKS EMPTY_TCB !! i = Some t -> t = EMPTY_TCB) as Ht
    by (by intros i t [-> _]%lookup_replicate_1).
  assert (forall j tid, ~ waits (replicate NUM_ENDPOINTS EpIdle) j tid) as Hw
    by (intros j tid (e & [-> _]%lookup_replicate_1 & W); done).
  unfold boot_inv. cbn [static_state tasks endpoints watchdog_miss]. split; [|split; [|split; [done|done]]].
  - split; cbn [static_state tasks endpoints kmsg irq_routes block0_dma ring service_table user_tables live ring_head].
    + split; [apply length_replicate|]. intros i t ->%Ht.
      split; [by split; [|apply Forall_replicate; vm_compute]|].
      split; [split; [apply length_replicate|]|].
      { intros c Hc. by apply elem_of_replicate in Hc as [? _]. }
      split; [by intros pm [=]|]. split; by vm_compute.
    + split; [apply length_replicate|..].
      * by intros j tid ?%Hw.
      * by intros j j' tid ?%Hw.
      * by intros j tid len [? _]%lookup_replicate_1.
    + apply length_replicate.
    + done.
    + apply length_replicate.
    + split; [apply length_replicate|]. intros e He. apply elem_of_replicate in He as [-> _]. by vm_compute.
    + done.
    + split; [apply length_replicate|]. intros i t Hi _. apply lookup_replicate_2.
      apply lookup_lt_Some in Hi. by rewrite length_replicate in Hi.
    + split; [done|]. apply Forall_replicate. by vm_compute.
    + done.
  - intros i t ->%Ht. done.
Qed.

(** A control block replaced at boot. *)
Lemma boot_put i T k : boot_inv k -> (i < MAX_TASKS)%nat -> tcb_ok T -> t_state T <> Running ->
  (t_state T = Empty -> exists t, tasks k !! i = Some t /\ t_state t = Empty) ->
  wp (put_task i T) (fun _ => boot_inv) (fun _ => False) k.
Proof.
  intros (W & Hr & Hw & Ha) Hi Hok Hn He. pose proof W as [[Lt Ft] [] ? ? ? ? ? [Lu Fu] ? ?].
  apply wp_put_task; [by rewrite Lt|]. unfold boot_inv. split; [|split; [|done]].
  - split; try done; ksimpl.
    + split; [by rewrite length_insert|]. intros j t [[_ ->]|[_ Hj]]%insert_lookup_cases; [done|by eapply Ft].
    + split; try done. by intros j tid ?%Hw.
    + split; [done|]. intros j t [[-> ->]|[_ Hj]]%insert_lookup_cases Hem; [|by eapply Fu].
      destruct (He Hem) as (t0 & ? & ?). by eapply Fu.
  - ksimpl. apply run_is_insert; [by rewrite Lt|done..].
Qed.

Lemma caps_insert cs slot c : caps_ok cs -> cap_ok c -> caps_ok (<[slot := Some c]> cs).
Proof.
  intros [L F] Hc. split; [by rewrite length_insert|]. intros c' [j Hj]%list_elem_of_lookup_1.
  apply insert_lookup_cases in Hj as [[_ [= ->]]|[_ Hj]]; [done|]. apply F. by eapply list_elem_of_lookup_2.
Qed.

Lemma boot_set_cap i slot c k : boot_inv k -> (i < MAX_TASKS)%nat -> (slot < CAPS_PER_TASK)%nat -> cap_ok c ->
  wp (t ← task i; cs ← lift (arr_set (t_caps t) slot (Some c)); put_task i (with_caps cs t))
    (fun _ => boot_inv) (fun _ => False) k.
Proof.
  intros Hb Hi Hs Hc. pose proof Hb as (W & Hr & _). pose proof W as [[Lt Ft] _ _ _ _ _ _ _ _ _].
  destruct (lookup_lt_is_Some_2 (tasks k) i) as [t Ht]; [by rewrite Lt|].
  destruct (Ft i t Ht) as (Hf & Hcs & Hp & He & Hst).
  kstep. apply (wp_task i t); [done|]. kstep. eapply wp_lift; [apply arr_set_lt; rewrite (proj1 Hcs); done|].
  apply boot_put; [done|done| | |].
  - split; [done|]. split; [by apply caps_insert|]. by split.
  - intros Hrun. cbn in Hrun. apply Hr in Ht as [Hx _]. by specialize (Hx Hrun).
  - intros Hem. by exists t.
Qed.

Lemma boot_op_inv o k : boot_inv k -> boot_op_ok o -> wp (boot_op o) (fun _ => boot_inv) (fun _ => False) k.
Proof.
  intros Hb. destruct o as [idx name prio root entry sp|idx slot id r|idx cap|table]; cbn [boot_op boot_op_ok].
  - intros (Hi & He & Hs). unfold register_task. kstep. apply wp_fresh_frame; [done|]. intros f Hf _ _.
    apply boot_put; try done. split; [done|]. split; [split; [apply length_replicate|]|done].
    intros c Hc. by apply elem_of_replicate in Hc as [? _].
  - intros (Hi & Hs & Hid). apply (boot_set_cap idx slot (mkCap OTYPE_ENDPOINT id r)); try done.
    split; [by destruct Hid|]. intros _. by destruct Hid.
  - intros (Hi & Hc). apply (boot_set_cap idx 0%nat cap); try done. unfold CAPS_PER_TASK. lia.
  - intros Ht. unfold set_service_table. kstep. destruct Hb as (W & ?). split; [|done].
    destruct W. split; try done. ksimpl. by intros tb d [= <-] ?%Ht.
Qed.

Lemma boot_start k : boot_inv k -> wp start (fun _ => KInv) (fun _ => False) k.
Proof.
  intros (W & Hr & Hw & Ha). pose proof W as [[Lt Ft] We ? ? ? ? ? [Lu Fu] ? ?].
  destruct (lookup_lt_is_Some_2 (tasks k) 0) as [t Ht]; [rewrite Lt; unfold MAX_TASKS; lia|].
  pose proof (lookup_lt_Some _ _ _ Ht) as Hl.
  unfold start. kstep. kstep. kstep. apply (wp_upd_task 0 t); [done|]. do 3 kstep.
  eapply wp_task; [ksimpl; by apply list_lookup_insert_eq|]. unfold switch_to_user_space. do 3 kstep.
  unfold KInv. ksimpl. split; [|split; [done|split; [by apply run_is_start|split]]].
  - split; try done; ksimpl.
    + split; [by rewrite length_insert|]. intros j tj [[_ ->]|[_ Hj]]%insert_lookup_cases;
        [by apply (Ft 0%nat t)|by eapply Ft].
    + apply eps_task; [done|done|]. right. intros j. apply Hw.
    + split; [done|]. intros j tj [[_ ->]|[_ Hj]]%insert_lookup_cases Hem; [done|by eapply Fu].
  - eexists. split; [by apply list_lookup_insert_eq|done].
  - rewrite Ha. unfold WATCHDOG_WINDOW. lia.
Qed.

Lemma boot_ok um ops : Forall boot_op_ok ops ->
  exists e k, boot ops (static_state um) = Ret e k /\ KInv k.
Proof.
  intros Hops. assert (wp (boot ops) (fun _ => KInv) (fun _ => False) (static_state um)) as H.
  { unfold boot. kstep. eapply wp_mono; [apply (wp_for_each _ _ boot_inv (fun _ => False)); [apply static_inv|]| |done].
    - rewrite Forall_forall in Hops. intros o k Ho Hb. apply boot_op_inv; auto.
    - intros ? k Hb. by apply boot_start. }
  unfold wp in H. destruct (boot ops _) as [e k|r k|]; [by exists e, k|done|done].
Qed.

End booting.

(** ** Runs *)

Section system.
Context {P : Platform} (read_time : Kernel -> Z).

(** One step of a run. *)
Inductive step (k : Kernel) : Kernel -> Prop :=
| user_step f m i : frame_ok f -> (forall s va, s <> satp k -> m s va = umem k s va) ->
    step k (set_uart_in i (set_umem m (set_live f k)))
| trap_step scause stval k' : trap_handler read_time scause stval k = Ret tt k' -> step k k'.

Lemma user_step_inv k f m i : KInv k -> frame_ok f -> KInv (set_uart_in i (set_umem m (set_live f k))).
Proof. intros K Hf. exact (kinv_live k f K Hf). Qed.

Lemma trap_done scause stval k : KInv k ->
  match trap_handler read_time scause stval k with
  | Ret _ k' => Done k k' | Stop _ k' => Safe k k' | Crash => False
  end.
Proof. apply wp_trap. Qed.

Lemma step_inv k k' : KInv k -> step k k' -> KInv k'.
Proof.
  intros K [f m i Hf _|scause stval k1 E]; [by apply user_step_inv|].
  pose proof (trap_done scause stval k K) as H. rewrite E in H. by destruct H.
Qed.

Lemma run_inv k k' : KInv k -> rtc step k k' -> KInv k'.
Proof. intros K H. induction H as [|k k1 k2 Hs _ IH]; [done|]. apply IH. by eapply step_inv. Qed.

(** C1. The kernel never panics.  From the static state, any sequence of
    in-range registration calls followed by [start] succeeds; and in every
    state a run of user code and traps reaches from there, whatever cause and
    address the hardware reports and whatever the user put in its registers,
    the trap handler either returns to user code or stops by itself (idle,
    shutdown, reported halt): no index is out of bounds, no slice is out of
    range, no access leaves a kernel object.  In each such state exactly one
    task is Running, it is the current one, and its address space is the
    active one. *)
Theorem kernel_never_panics um ops :
  Forall boot_op_ok ops ->
  exists e k, boot ops (static_state um) = Ret e k /\
    forall k', rtc step k k' ->
      (forall scause stval, trap_handler read_time scause stval k' <> Crash) /\
      (forall i t, tasks k' !! i = Some t -> (t_state t = Running <-> i = current k')) /\
      exists t, tasks k' !! current k' = Some t /\ satp k' = satp_for (mkPhys (t_satp_root t)).
Proof.
  intros Hops. destruct (boot_ok um ops Hops) as (e & k & E & K). exists e, k. split; [done|].
  intros k' Hrun. pose proof (run_inv k k' K Hrun) as K'. split; [|split].
  - intros scause stval Ec. pose proof (trap_done scause stval k' K') as H. by rewrite Ec in H.
  - intros i t Ht. destruct K' as (_ & _ & Hr & _). rewrite (Hr i t Ht). split; congruence.
  - by destruct K' as (_ & _ & _ & ? & _).
Qed.

(** C5. A trap changes user memory only inside the one-page data window,
    and only in the address space that was active on entry or the one it
    returns to; it touches device registers only inside the window of a
    device for which the interrupted task holds a capability with the right
    to read or to write them. *)
Theorem trap_memory_confined scause stval k k' :
  KInv k -> trap_handler read_time scause stval k = Ret tt k' ->
  (forall s va, umem k' s va <> umem k s va ->
     USER_DATA_VA <= va < USER_DATA_END /\ (s = satp k \/ s = satp k')) /\
  (exists l, mmio_log k' = mmio_log k ++ l /\ Forall (mmio_ok k) l).
Proof.
  intros K E. pose proof (trap_done scause stval k K) as H. rewrite E in H. destruct H as [_ S].
  split; [apply (sf_mem _ _ _ _ _ _ _ S)|apply (sf_mmio _ _ _ _ _ _ _ S)].
Qed.

(** Each task is the one that held its slot before, or the slot was empty
    and the task was started from a service of the table. *)
Definition task_origin (k : Kernel) (i : nat) (t' : Tcb) : Prop :=
  exists t, tasks k !! i = Some t /\
    (same_id t t' \/ (t_state t = Empty /\ exists tb d, service_table k = Some tb /\ d ∈ tb /\
       sd_slot d = i /\ started_from d t')).

Lemma step_tasks k k' : KInv k -> step k k' -> service_table k' = service_table k /\
  forall i t', tasks k' !! i = Some t' -> task_origin k i t'.
Proof.
  intros K [f m i Hf Hm|scause stval k1 E].
  - split; [done|]. intros j t' Ht. exists t'. split; [done|]. by left.
  - pose proof (trap_done scause stval k K) as Hd. rewrite E in Hd. destruct Hd as [_ S].
    split; [apply (sf_table _ _ _ _ _ _ _ S)|apply (sf_tasks _ _ _ _ _ _ _ S)].
Qed.

Lemma origin_trans k k1 i t2 : service_table k1 = service_table k ->
  (forall t1, tasks k1 !! i = Some t1 -> task_origin k i t1) -> task_origin k1 i t2 -> task_origin k i t2.
Proof.
  intros Es H1 (t1 & Ht1 & H2). destruct (H1 t1 Ht1) as (t & Ht & H). exists t. split; [done|].
  destruct H as [Hid|(He & tb & d & ? & ? & ? & Hst)].
  - destruct H2 as [Hid2|(He2 & tb & d & Htb & ? & ? & ?)].
    + left. unfold same_id in *. intuition congruence.
    + right. rewrite Es in Htb. split; [apply Hid, He2|]. by exists tb, d.
  - right. split; [done|]. destruct H2 as [Hid2|(He2 & tb2 & d2 & Htb & ? & ? & ?)].
    + exists tb, d. unfold started_from, same_id in *. intuition congruence.
    + rewrite Es in Htb. by exists tb2, d2.
Qed.

Lemma run_tasks k k' : KInv k -> rtc step k k' -> service_table k' = service_table k /\
  forall i t', tasks k' !! i = Some t' -> task_origin k i t'.
Proof.
  intros K H. induction H as [k|k k1 k2 Hs Hrun IH].
  { split; [done|]. intros i t' Ht. exists t'. split; [done|]. by left. }
  destruct (step_tasks k k1 K Hs) as [Es H1]. destruct IH as [Es' H2]; [by eapply step_inv|].
  split; [congruence|]. intros i t2 Ht2. eapply origin_trans; [done| |by apply H2]. auto.
Qed.

(** C4. Authority is fixed at boot: along any run, the capability table,
    priority and name of a task are those its slot had at the start, or the
    slot was empty and they are those of a service of the boot table with
    that slot number.  No run of user code and traps mints, widens or moves
    a capability. *)
Theorem capabilities_unforgeable k k' i t' :
  KInv k -> rtc step k k' -> tasks k' !! i = Some t' ->
  exists t, tasks k !! i = Some t /\
    ((t_caps t' = t_caps t /\ t_prio t' = t_prio t /\ t_name t' = t_name t) \/
     (t_state t = Empty /\ exists tb d, service_table k = Some tb /\ d ∈ tb /\ sd_slot d = i /\
        t_caps t' = sd_caps d /\ t_prio t' = sd_prio d /\ t_name t' = sd_name d)).
Proof.
  intros K H Ht. destruct (run_tasks k k' K H) as [_ Ho].
  destruct (Ho i t' Ht) as (t & Ht0 & [Hid|(He & tb & d & ? & ? & ? & Hst)]); exists t; (split; [done|]).
  - left. unfold same_id in Hid. tauto.
  - right. split; [done|]. by exists tb, d.
Qed.

End system.

(** ** A small system: two tasks and one channel *)

#[global] Instance sample_platform : Platform :=
  {| linker := sample_linker; read_sstatus := fun _ => 0; os_boot := false; mmio_read := fun _ _ _ => 0 |}.
Definition sample_time (k : Kernel) : Z := 0.
Definition blank : Z -> Z -> Z := fun _ _ => 0.

Definition sample_ops : list BootOp :=
  [BTask 0 "receiver" 3 (mkPhys 0x80300000) 0x10000 0x201000;
   BTask 1 "sender" 3 (mkPhys 0x80310000) 0x10040 0x201000;
   BEndpointCap 0 0 1 RIGHT_RECV; BEndpointCap 1 0 1 RIGHT_SEND].

Lemma sample_ops_ok : Forall boot_op_ok sample_ops.
Proof. repeat (constructor; [vm_compute; intuition congruence || lia|]). constructor. Qed.

(** The state an outcome leaves behind. *)
Definition state_of {A} (d : Kernel) (e : exec A) : Kernel :=
  match e with Ret _ k => k | Stop _ k => k | Crash => d end.
Definition returns {A} (e : exec A) : bool := match e with Ret _ _ => true | _ => false end.

Lemma returns_ret (e : exec ()) d : returns e = true -> e = Ret tt (state_of d e).
Proof. by destruct e as [[]| |]. Qed.

Definition booted : Kernel := state_of (static_state blank) (boot sample_ops (static_state blank)).

Lemma booted_inv : KInv booted.
Proof.
  unfold booted. destruct (boot_ok blank sample_ops sample_ops_ok) as (e & k & E & K). by rewrite E.
Qed.

(** The current task executes [ecall] with [a7 = num] and the arguments. *)
Definition calls (num x0 x1 x2 : Z) (k : Kernel) : Kernel :=
  set_live (mkFrame (<[16%nat := num]> (<[11%nat := x2]> (<[10%nat := x1]> (<[9%nat := x0]>
    (replicate 31 0))))) 0x10000 0) k.
Abbreviation ecall k := (trap_handler sample_time CAUSE_ECALL_FROM_U 0 k).

(** The receiver asks for a message, and blocks. *)
Definition recv_state : Kernel := calls SYS_RECV 0 0x200100 64 booted.
Definition after_recv : Kernel := state_of recv_state (ecall recv_state).

Lemma calls_inv num x0 x1 x2 k : KInv k -> num ∈ᵤ 64 -> x0 ∈ᵤ 64 -> x1 ∈ᵤ 64 -> x2 ∈ᵤ 64 ->
  KInv (calls num x0 x1 x2 k).
Proof.
  intros K ? ? ? ?. apply kinv_live; [done|]. split; [done|].
  cbn [regs]. repeat (apply Forall_insert; [|done]). apply Forall_replicate. by vm_compute.
Qed.
Lemma recv_state_inv : KInv recv_state.
Proof. apply calls_inv; [apply booted_inv|vm_compute; split; congruence..]. Qed.
Lemma recv_returns : returns (ecall recv_state) = true.
Proof. vm_compute. reflexivity. Qed.

Lemma recv_step : trap_handler sample_time CAUSE_ECALL_FROM_U 0 recv_state = Ret tt after_recv.
Proof. unfold after_recv. exact (returns_ret _ _ recv_returns). Qed.
Lemma recv_sender : (fun t => (t_name t, t_state t)) <$> tasks recv_state !! 1%nat = Some ("sender"%string, Ready).
Proof. vm_compute. reflexivity. Qed.
Lemma after_recv_sender : t_name <$> tasks after_recv !! 1%nat = Some "sender"%string.
Proof. vm_compute. reflexivity. Qed.
#[global] Opaque booted recv_state after_recv.

Lemma kernel_never_panics_witness :
  exists e k, boot sample_ops (static_state blank) = Ret e k /\
    (forall scause stval, trap_handler sample_time scause stval k <> Crash) /\
    exists t, tasks k !! current k = Some t /\ satp k = satp_for (mkPhys (t_satp_root t)).
Proof.
  destruct (kernel_never_panics sample_time blank sample_ops sample_ops_ok) as (e & k & E & H).
  exists e, k. split; [exact E|]. destruct (H k (rtc_refl _ k)) as (H1 & _ & H2). split; [exact H1|exact H2].
Defined.

Lemma trap_memory_confined_witness :
  trap_handler sample_time CAUSE_ECALL_FROM_U 0 recv_state = Ret tt after_recv /\
  (forall s va, umem after_recv s va <> umem recv_state s va ->
     USER_DATA_VA <= va < USER_DATA_END /\ (s = satp recv_state \/ s = satp after_recv)).
Proof.
  split; [exact recv_step|].
  exact (proj1 (trap_memory_confined sample_time CAUSE_ECALL_FROM_U 0 recv_state after_recv
    recv_state_inv recv_step)).
Defined.

Lemma capabilities_unforgeable_witness :
  exists t t', tasks after_recv !! 1%nat = Some t' /\ tasks recv_state !! 1%nat = Some t /\
    t_caps t' = t_caps t.
Proof.
  pose proof after_recv_sender as H'. apply fmap_Some in H' as (t' & Ht' & _).
  pose proof recv_sender as H0. apply fmap_Some in H0 as (t0 & Ht0 & Hs0).
  destruct (capabilities_unforgeable sample_time recv_state after_recv 1 t' recv_state_inv) as (t & Ht & H).
  - apply rtc_once. exact (trap_step sample_time recv_state CAUSE_ECALL_FROM_U 0 after_recv recv_step).
  - exact Ht'.
  - exists t, t'. split; [exact Ht'|]. split; [exact Ht|]. destruct H as [[H _]|[He _]]; [exact H|].
    exfalso. assert (t0 = t) as -> by congruence. injection Hs0 as _ Hs0. congruence.
Defined.
