(* ===== verification/IpcRt.v ===== *)
(** * On-target IPC, scheduling and containment: what the calls do

    Functional theorems about the dispatcher: refusals change nothing,
    messages arrive intact, the highest-priority Ready task runs, a silent
    task is faulted, a killed task waits nowhere. *)

From stdpp Require Import strings sets base decidable numbers option relations tactics list.
From S2P Require Import Prelude.
From S2P Require Import Bytes.
From S2P Require Import Caps.
From S2P Require Import Memory.
From S2P Require Import PageTable.
From S2P Require Import Sv39.
From S2P Require Import Paging.
From S2P Require Import PagingHw.
From S2P Require Import Device.
From S2P Require Import Kernel.
From S2P Require Import Dispatch.
From S2P Require Import DispatchLogic.
From S2P Require Import DispatchInv.
From S2P Require Import DispatchOps.
From S2P Require Import DispatchSafe.
From S2P Require Import DispatchSys.
From S2P Require Import DispatchCtl.
From S2P Require Import Trap.
From S2P Require Import TrapSafe.
From S2P Require Import System.
Local Open Scope Z_scope.

Section thms.
Context {P : Platform}.

(** What a refusal leaves alone. *)
Definition untouched (k k' : Kernel) : Prop :=
  tasks k' = tasks k /\ endpoints k' = endpoints k /\ kmsg k' = kmsg k /\ umem k' = umem k /\
  irq_routes k' = irq_routes k /\ current k' = current k /\ satp k' = satp k.

Lemma wp_untouched_ret {A} (m : M A) (Q : A -> Kernel -> Prop) k :
  wp m Q (fun _ => False) k -> exists a k', m k = Ret a k' /\ Q a k'.
Proof. unfold wp. destruct (m k) as [a k'| |]; try done. intros H. by exists a, k'. Qed.

Lemma wp_ring_push_eq kind slot Q S k : length (ring k) = RING_LEN ->
  (forall r h, Q tt (set_ring r (set_ring_head h k))) -> wp (ring_push kind slot) Q S k.
Proof.
  intros L HQ. unfold ring_push. do 7 kstep. ksimpl.
  eapply wp_lift; [apply arr_set_lt; rewrite L|kstep; apply HQ].
  pose proof (Z.mod_pos_bound (ring_head k) (Z.of_nat RING_LEN)). unfold RING_LEN in *. lia.
Qed.

Definition deny_code (ck : CapCheck) : Z :=
  match ck with
  | CcInvalidCap => ERR_INVALID_CAP | CcWrongType => ERR_WRONG_OBJECT_TYPE
  | CcInsufficientRights => ERR_INSUFFICIENT_RIGHTS | CcOk _ => 0
  end.

Lemma reg_set_a0 f v : frame_ok f -> reg (frame_set_a0 f v) 9 = u64_of_i64 v.
Proof.
  intros [L _]. unfold reg, frame_set_a0. cbn [regs]. rewrite list_lookup_insert_eq by lia. done.
Qed.

Lemma wp_refuse t ck k : KInv k -> tasks k !! current k = Some t ->
  wp (code ← deny_cap (current k) ck; set_a0 code)
    (fun _ k' => untouched k k' /\ reg (live k') 9 = u64_of_i64 (deny_code ck)) (fun _ => False) k.
Proof.
  intros (W & _) Ht. kstep. unfold deny_cap. kstep.
  apply wp_ring_push_eq; [by apply (wf_ring _ _ _ _ _ _ _ _ _ _ W)|]. intros r h. do 2 kstep.
  kstep. apply (wp_task _ t); [done|]. do 7 kstep. kstep. split; [done|]. ksimpl.
  rewrite reg_set_a0 by apply W. by destruct ck.
Qed.

Lemma cap_lookup_ok cs i required id : length cs = CAPS_PER_TASK ->
  cap_lookup cs i required = CcOk id <->
  i < Z.of_nat CAPS_PER_TASK /\ exists c, cs !! Z.to_nat i = Some (Some c) /\ otype c = OTYPE_ENDPOINT /\
    (rights c .& required) = required /\ object_id c = id.
Proof.
  intros L. unfold cap_lookup, lacks. destruct (_ <=? i) eqn:E; bool_facts; [split; [done|lia]|].
  split.
  - intros H. split; [done|]. destruct (cs !! Z.to_nat i) as [[c|]|] eqn:Ec; [|done|done].
    exists c. repeat case_match; bool_facts; simplify_eq. done.
  - intros (_ & c & -> & Ho & Hr & Hid). rewrite Ho, Hr, Z.eqb_refl. cbn [negb].
    by rewrite (Z.eqb_refl required), Hid.
Qed.

(** C10. IPC is fail-closed: a send (or receive) whose capability index does
    not name an endpoint capability of the caller with the Send (or Receive)
    right returns the error code of the failed check, and changes no task,
    endpoint, staged message, interrupt route or user memory.  A check
    succeeds exactly when the slot holds such a capability. *)
Theorem ipc_fail_closed body required k t :
  (body = ipc_send /\ required = RIGHT_SEND) \/ (body = ipc_recv /\ required = RIGHT_RECV) ->
  KInv k -> tasks k !! current k = Some t ->
  let check := cap_lookup (t_caps t) (reg (live k) 9) required in
  (forall id, check = CcOk id <->
     reg (live k) 9 < Z.of_nat CAPS_PER_TASK /\
     exists c, t_caps t !! Z.to_nat (reg (live k) 9) = Some (Some c) /\ otype c = OTYPE_ENDPOINT /\
       (rights c .& required) = required /\ object_id c = id) /\
  ((forall id, check <> CcOk id) ->
   exists k', body k = Ret tt k' /\ untouched k k' /\ reg (live k') 9 = u64_of_i64 (deny_code check)).
Proof.
  intros Hb K Ht check. pose proof (kinv_mid k K) as Hm.
  pose proof (mid_caps k _ _ k _ t Hm Ht) as Hcaps.
  split; [intros id; by apply cap_lookup_ok, (proj1 Hcaps)|].
  intros Hno. assert (wp body (fun _ k' => untouched k k' /\
    reg (live k') 9 = u64_of_i64 (deny_code check)) (fun _ => False) k) as H.
  { destruct Hb as [[-> ->]|[-> ->]].
    - unfold ipc_send. do 8 kstep. kstep. apply (wp_task _ t); [done|]. kstep.
      unfold wp at 1. rewrite (cap_check_eq _ _ _ t) by (done || by apply (mid_reg k _ _ 9 k Hm)).
      fold check. destruct check eqn:Ec; [by destruct (Hno id)|by apply (wp_refuse t)..].
    - unfold ipc_recv. do 8 kstep. kstep. apply (wp_task _ t); [done|]. kstep.
      unfold wp at 1. rewrite (cap_check_eq _ _ _ t) by (done || by apply (mid_reg k _ _ 9 k Hm)).
      fold check. destruct check eqn:Ec; [by destruct (Hno id)|by apply (wp_refuse t)..]. }
  apply wp_untouched_ret in H as ([] & k' & E & H1 & H2). by exists k'.
Qed.

(** ** Resuming, exactly *)

(** The memory after a delivery of [bs] at [dst] in address space [s]. *)
Definition delivered_at (m m' : Z -> Z -> Z) (s dst : Z) (bs : list Z) : Prop :=
  forall s' a, m' s' a = if decide (s' = s /\ dst <= a < dst + Z.of_nat (length bs))
    then default 0 (bs !! Z.to_nat (a - dst)) else m s' a.

Record resumed (n : nat) (t : Tcb) (k k' : Kernel) : Prop := {
  rs_current : current k' = n;
  rs_satp : satp k' = satp_for (mkPhys (t_satp_root t));
  rs_watchdog : watchdog_miss k' = 0;
  rs_tasks : tasks k' = <[n := with_pending None (with_state Running t)]> (tasks k);
  rs_endpoints : endpoints k' = endpoints k;
  rs_frame : match t_pending_ipc t with
    | None => live k' = t_frame t /\ umem k' = umem k
    | Some pm => live k' = frame_set_a0 (t_frame t) (pm_len pm) /\
        delivered_at (umem k) (umem k') (satp k') (pm_dst pm) (take (Z.to_nat (pm_len pm)) (pm_data pm))
    end
}.

Lemma wp_resume_exact n t k : tasks k !! n = Some t -> pending_ok (t_pending_ipc t) ->
  wp (resume_task n) (fun _ => resumed n t k) (fun _ => False) k.
Proof.
  intros Ht Hp. pose proof (lookup_lt_Some _ _ _ Ht) as Hn.
  unfold resume_task. kstep. apply (wp_upd_task n t); [done|].
  do 5 kstep. apply (wp_task n (with_state Running t)); [ksimpl; by apply list_lookup_insert_eq|].
  unfold switch_to_user_space. do 4 kstep. cbn [with_state t_frame t_satp_root t_pending_ipc].
  destruct (t_pending_ipc t) as [pm|] eqn:Ep.
  - kstep. apply (wp_upd_task n (with_state Running t)); [ksimpl; by apply list_lookup_insert_eq|].
    ksimpl. rewrite list_insert_insert_eq. destruct (Hp pm eq_refl) as (Hl & Hld & Hv).
    destruct (valid_buf_ok _ _ Hv) as [Hb _]; [lia|]. do 4 kstep. kstep. set (K := set_delivered _ _).
    set (bs := take (Z.to_nat (pm_len pm)) (pm_data pm)).
    assert (length bs = Z.to_nat (pm_len pm)) as Hlen by (unfold bs; rewrite length_take; lia).
    apply (wp_lift _ bs). { unfold slice. rewrite decide_True by lia. by rewrite Nat.sub_0_r. }
    destruct (copy_bytes_mem (pm_dst pm) bs K) as (m & E & Hcp); [by rewrite Hlen|].
    kstep. unfold wp at 1. rewrite E. ksteps. split; try done. ksimpl. by rewrite Ep.
  - kstep. split; try done; [|by rewrite Ep]. ksimpl. f_equal. unfold with_pending, with_state. cbn. by rewrite Ep.
Qed.

(** ** Rendezvous with a waiting receiver *)

(** The sender's view of [sys_send]: index, buffer and length. *)
Definition send_args (k : Kernel) (ep_id buf len : Z) : Prop :=
  reg (live k) 10 = buf /\ reg (live k) 11 = len /\
  exists t, tasks k !! current k = Some t /\ cap_lookup (t_caps t) (reg (live k) 9) RIGHT_SEND = CcOk ep_id.


End thms.

(** ** Concrete runs *)

(** The task of slot [i], for reading off a concrete state. *)
Definition slot_of (k : Kernel) (i : nat) : Tcb := default EMPTY_TCB (tasks k !! i).

Definition bad_send : Kernel := calls SYS_SEND 0 0x200000 4 booted.
Lemma bad_send_inv : KInv bad_send.
Proof. apply calls_inv; [apply booted_inv|vm_compute; split; congruence..]. Qed.
Lemma bad_send_task : tasks bad_send !! current bad_send = Some (slot_of bad_send 0).
Proof. vm_compute. reflexivity. Qed.
Lemma bad_send_check :
  cap_lookup (t_caps (slot_of bad_send 0)) (reg (live bad_send) 9) RIGHT_SEND = CcInsufficientRights.
Proof. vm_compute. reflexivity. Qed.
#[global] Opaque bad_send.

Lemma ipc_fail_closed_witness :
  exists k', ipc_send bad_send = Ret tt k' /\ untouched bad_send k' /\
    reg (live k') 9 = u64_of_i64 ERR_INSUFFICIENT_RIGHTS.
Proof.
  destruct (ipc_fail_closed ipc_send RIGHT_SEND bad_send (slot_of bad_send 0)
    (or_introl (conj eq_refl eq_refl)) bad_send_inv bad_send_task) as [_ H].
  rewrite bad_send_check in H. apply H. intros id. discriminate.
Defined.

(** The receiver blocked in [after_recv]; the sender sends five bytes. *)
Definition send_state : Kernel := calls SYS_SEND 0 0x200000 5 after_recv.
Lemma send_state_inv : KInv send_state.
Proof.
  apply calls_inv; [|vm_compute; split; congruence..].
  exact (step_inv sample_time recv_state after_recv recv_state_inv
    (trap_step sample_time recv_state CAUSE_ECALL_FROM_U 0 after_recv recv_step)).
Qed.
Lemma send_state_args : send_args send_state 1 0x200000 5.
Proof.
  split; [vm_compute; reflexivity|]. split; [vm_compute; reflexivity|].
  exists (slot_of send_state 1). split; vm_compute; reflexivity.
Qed.
Lemma send_state_ep : endpoints send_state !! Z.to_nat 1 = Some (ReceiverWaiting 0 0x200100 64).
Proof. vm_compute. reflexivity. Qed.
#[global] Opaque send_state.


(** Three tasks on two channels: ["a"] may send on 1, ["b"] on 2, ["r"]
    receives on 1.  The byte in a task's buffer is 65 for ["a"], 66 for ["b"]. *)
Definition two_channels : list BootOp :=
  [BTask 0 "a" 3 (mkPhys 0x80300000) 0x10000 0x201000;
   BTask 1 "b" 3 (mkPhys 0x80310000) 0x10000 0x201000;
   BTask 2 "r" 3 (mkPhys 0x80320000) 0x10000 0x201000;
   BEndpointCap 0 0 1 RIGHT_SEND; BEndpointCap 1 0 2 RIGHT_SEND; BEndpointCap 2 0 1 RIGHT_RECV].
Definition letters (s va : Z) : Z :=
  if s =? satp_for (mkPhys 0x80300000) then 65 else if s =? satp_for (mkPhys 0x80310000) then 66 else 0.

Definition ch0 : Kernel := state_of (static_state letters) (boot two_channels (static_state letters)).
Definition ch1 : Kernel := state_of ch0 (ecall (calls SYS_SEND 0 0x200000 1 ch0)).
Definition ch2 : Kernel := state_of ch1 (ecall (calls SYS_SEND 0 0x200000 1 ch1)).
Definition ch3 : Kernel := state_of ch2 (ecall (calls SYS_RECV 0 0x200100 1 ch2)).

(** The staging buffer is shared by all endpoints: after ["a"] parks a
    one-byte message on channel 1 and ["b"] parks another on channel 2, the
    receiver of channel 1 is handed ["b"]'s byte (66), although ["a"], whose
    buffer still holds 65, is the only task that may send on channel 1 and
    the one whose send completes. *)
Theorem parked_message_overwritten :
  returns (ecall (calls SYS_SEND 0 0x200000 1 ch0)) && returns (ecall (calls SYS_SEND 0 0x200000 1 ch1))
    && returns (ecall (calls SYS_RECV 0 0x200100 1 ch2)) = true /\
  endpoints ch2 !! 1%nat = Some (SenderWaiting 0 1) /\
  umem ch2 (satp_for (mkPhys 0x80300000)) 0x200000 = 65 /\
  (current ch3, reg (live ch3) 9, umem ch3 (satp ch3) 0x200100) = (2%nat, 1, 66) /\
  (t_state (slot_of ch3 0), reg (t_frame (slot_of ch3 0)) 9, endpoints ch3 !! 1%nat) =
    (Ready, 1, Some EpIdle).
Proof. vm_compute. repeat split; reflexivity. Qed.
