(* ===== verification/SchedRt.v ===== *)
(** * On-target scheduling, watchdog, kill and boot-phase calls

    What yielding, a missed watchdog window and [sys_task_kill] do to the
    tasks, and that the calls answered before the dispatcher is active
    refuse everything. *)

From stdpp Require Import strings sets base decidable numbers option relations tactics list.
From S2P Require Import Prelude.
From S2P Require Import Bytes.
From S2P Require Import Caps.
From S2P Require Import Memory.
From S2P Require Import PageTable.
From S2P Require Import Sv39.
From S2P Require Import Paging.
From S2P Require Import PagingHw.
From S2P Require Import Device.
From S2P Require Import Kernel.
From S2P Require Import Dispatch.
From S2P Require Import DispatchLogic.
From S2P Require Import DispatchInv.
From S2P Require Import DispatchOps.
From S2P Require Import DispatchSafe.
From S2P Require Import DispatchSys.
From S2P Require Import DispatchCtl.
From S2P Require Import Trap.
From S2P Require Import TrapSafe.
From S2P Require Import System.
From S2P Require Import IpcRt.
Local Open Scope Z_scope.

Lemma wp_and {A} (m : M A) Q1 Q2 S1 S2 k : wp m Q1 S1 k -> wp m Q2 S2 k ->
  wp m (fun a k' => Q1 a k' /\ Q2 a k') (fun k' => S1 k' /\ S2 k') k.
Proof. unfold wp. by destruct (m k). Qed.

(** ** The watchdog credit *)

(** Only the watchdog counts: every other function of the dispatcher leaves
    a count of zero at zero, however it returns. *)
Definition credit {A} (m : M A) : Prop := forall k, watchdog_miss k = 0 ->
  match m k with Ret _ k' => watchdog_miss k' = 0 | _ => True end.

Lemma credit_ret {A} (a : A) : credit (mret a).
Proof. by intros k Hk. Qed.
Lemma credit_get {A} (f : Kernel -> A) : credit (get f).
Proof. by intros k Hk. Qed.
Lemma credit_stop {A} r : credit (stop r : M A).
Proof. by intros k Hk. Qed.
Lemma credit_lift {A} (o : outcome A) : credit (lift o).
Proof. intros k Hk. by destruct o. Qed.
Lemma credit_modify f : (forall k, watchdog_miss k = 0 -> watchdog_miss (f k) = 0) -> credit (modify f).
Proof. intros H k. apply H. Qed.
Lemma credit_bind {A B} (m : M A) (f : A -> M B) : credit m -> (forall a, credit (f a)) -> credit (m ≫= f).
Proof.
  intros Hm Hf k Hk. specialize (Hm k Hk). unfold mbind, M_bind. destruct (m k) as [a k'| |]; [|done..]. by apply Hf.
Qed.
Lemma credit_for_each {A} (f : A -> M ()) l : (forall a, credit (f a)) -> credit (for_each f l).
Proof. intros H. induction l as [|a l IH]; [by intros k Hk|]. apply credit_bind; [apply H|intros _; exact IH]. Qed.

Create HintDb credit.
#[local] Hint Resolve credit_ret credit_get credit_stop credit_lift : credit.

Ltac head_of f := match f with ?g _ => head_of g | _ => f end.
Ltac credit := repeat (cbv zeta beta; match goal with
  | |- credit (mbind _ _) => apply credit_bind; [|intros ?]
  | |- credit (modify _) => apply credit_modify; by intros
  | |- credit (for_each _ _) => apply credit_for_each; intros ?
  | |- credit (match ?x with _ => _ end) => destruct x
  | |- credit _ => solve [auto with credit]
  | |- credit ?m => let h := head_of m in unfold h
  end).

Section credit.
Context {P : Platform}.

Lemma credit_put_str s : credit (put_str s).
Proof. credit. Qed.
#[local] Hint Resolve credit_put_str : credit.
Lemma credit_emit a b : credit (emit a b).
Proof. credit. Qed.
Lemma credit_put_line a : credit (put_line a).
Proof. credit. Qed.
Lemma credit_irq_search ep cur l : credit (irq_search ep cur l).
Proof. induction l as [|d l IH]; cbn [irq_search]; credit; exact IH. Qed.
Lemma credit_con_read n va i : credit (con_read_loop n va i).
Proof. revert i. induction n as [|n IH]; intros i; cbn [con_read_loop]; credit; apply IH. Qed.
#[local] Hint Resolve credit_emit credit_put_line credit_irq_search credit_con_read : credit.
Lemma credit_resume n : credit (resume_task n).
Proof. credit. Qed.
#[local] Hint Resolve credit_resume : credit.

Lemma credit_syscall num body : syscall_body num = Some body -> credit body.
Proof.
  unfold syscall_body. intros E.
  repeat (match type of E with (if ?b then _ else _) = _ => destruct b; [injection E as <-; solve [credit]|] end).
  discriminate.
Qed.
Lemma on_syscall_credit num k : active k = true ->
  match on_syscall num k with Ret _ k' => watchdog_miss k' = 0 | _ => True end.
Proof.
  intros Ha. unfold on_syscall, mbind, M_bind, get, modify. rewrite Ha. cbn [negb].
  destruct (syscall_body num) as [body|] eqn:E; [|done].
  pose proof (credit_syscall num body E (set_watchdog_miss 0 k) eq_refl) as H. by destruct (body _).
Qed.

End credit.

Section thms.
Context {P : Platform}.

Lemma same_but_output n t k k1 k' : tasks k1 = tasks k -> endpoints k1 = endpoints k -> umem k1 = umem k ->
  resumed n t k1 k' -> resumed n t k k'.
Proof. intros E1 E2 E3 []. split; try congruence. by rewrite <- E3. Qed.

(** C11. Yielding runs the most urgent task: the caller is saved and made
    Ready, and the kernel resumes, among all Ready tasks (the caller
    included), one of the highest priority, the first of them in round-robin
    order after the caller; it continues with exactly its saved registers
    (and its message, if one was waiting), in its own address space. *)
Theorem yield_runs_highest k t :
  KInv k -> tasks k !! current k = Some t ->
  let ts := <[current k := with_state Ready (with_frame (live k) t)]> (tasks k) in
  exists n tn k', switch false k = Ret tt k' /\ ts !! n = Some tn /\
    chosen ts (scan_order (current k)) (Some n) /\
    (forall j tj, ts !! j = Some tj -> t_state tj = Ready -> t_prio tj <= t_prio tn) /\
    resumed n tn (set_tasks ts k) k'.
Proof.
  intros K Ht ts. pose proof (kinv_mid k K) as Hm. pose proof (lookup_lt_Some _ _ _ Ht) as Hl.
  pose proof Hm as (W & _). pose proof (wf_tasks _ _ _ _ _ _ _ _ _ _ W) as [Lt Ft].
  assert (Mid k None (watchdog_miss k) (set_tasks ts k)) as Hm1.
  { apply (mid_stop k _ (current k) t (with_state Ready (with_frame (live k) t)) k); try done.
    apply frame_tcb_ok; [by apply (Ft _ _ Ht)|apply W]. }
  assert (wp (switch false) (fun _ k' => exists n tn, ts !! n = Some tn /\
    chosen ts (scan_order (current k)) (Some n) /\ resumed n tn (set_tasks ts k) k') (fun _ => False) k) as H.
  { unfold switch. do 3 kstep. apply (wp_task _ t); [done|]. kstep. do 2 kstep. kstep.
    apply (wp_upd_task _ t); [done|].
    eapply wp_upd_task; [ksimpl; by apply list_lookup_insert_eq|]. ksimpl. rewrite list_insert_insert_eq.
    fold ts. kstep. eapply wp_select; [exact Hm1|]. intros [n|] Hc.
    - pose proof (chosen_ready _ _ _ Hc) as (tn & Htn & _).
      assert (pending_ok (t_pending_ipc tn)) as Hpn.
      { destruct Hm1 as (W1 & _). by apply (proj2 (wf_tasks _ _ _ _ _ _ _ _ _ _ W1) n tn Htn). }
      assert (forall o, wp (resume_task n) (fun _ k' => exists n tn, ts !! n = Some tn /\
        chosen ts (scan_order (current k)) (Some n) /\ resumed n tn (set_tasks ts k) k') (fun _ => False)
        (set_uart_out o (set_tasks ts k))) as Hres.
      { intros o. eapply wp_mono; [apply (wp_resume_exact n tn); [done|done]|cbv beta|done].
        intros _ k' Hr. exists n, tn. split; [done|]. split; [done|].
        by apply (same_but_output n tn (set_tasks ts k) (set_uart_out o (set_tasks ts k))). }
      kstep. case_match.
      + do 2 kstep. kstep. apply (wp_task n tn); [done|]. kstep. apply Hres.
      + kstep. apply (Hres (uart_out k)).
    - exfalso. apply (Hc (current k) (t_prio t)).
      + apply scan_order_all. by rewrite <- Lt.
      + exists (with_state Ready (with_frame (live k) t)). unfold ts. ksimpl. by rewrite list_lookup_insert_eq. }
  apply wp_untouched_ret in H as ([] & k' & E & n & tn & Htn & Hc & Hr).
  exists n, tn, k'. split; [done|]. split; [done|]. split; [done|]. split; [|done].
  intros j tj Htj Hs. pose proof Hc as (p & l1 & l2 & El & (t1 & Ht1 & _ & Hp) & H1 & H2).
  assert (is_ready ts j (t_prio tj)) as Hj by (by exists tj).
  assert (j ∈ scan_order (current k)) as Hin.
  { apply scan_order_all. rewrite <- Lt. apply lookup_lt_Some in Htj. unfold ts in Htj. by rewrite length_insert in Htj. }
  assert (t1 = tn) as -> by congruence. rewrite El in Hin.
  apply elem_of_app in Hin as [Hin|[->|Hin]%elem_of_cons].
  - specialize (H1 j _ Hin Hj). lia.
  - assert (tj = tn) by congruence. subst. lia.
  - specialize (H2 j _ Hin Hj). lia.
Qed.

(** ** Tasks that are not waiting are left alone *)

Definition keeps (k k' : Kernel) : Prop :=
  forall i t, tasks k !! i = Some t -> t_state t <> Blocked -> tasks k' !! i = Some t.

Lemma keeps_same k k1 k' : tasks k1 = tasks k -> keeps k k' -> keeps k1 k'.
Proof. intros E H i t. rewrite E. apply H. Qed.
Lemma keeps_trans k k1 k' : keeps k k1 -> keeps k1 k' -> keeps k k'.
Proof. intros H1 H2 i t Hi Hb. apply H2; [|done]. by apply H1. Qed.

Lemma wp_irq_drop_keeps k0 c w slot S k : Mid k0 c w k ->
  wp (irq_drop_for_task slot) (fun _ k' => Mid k0 c w k' /\ tasks k' = tasks k /\
     endpoints k' = endpoints k) S k.
Proof.
  intros Hm. apply (wp_for_each _ _ (fun k' => Mid k0 c w k' /\ tasks k' = tasks k /\ endpoints k' = endpoints k));
    [done|]. intros i k1 Hi (Hm1 & E1 & E2). apply elem_of_seq in Hi.
  destruct (mid_route k0 c w i k1 Hm1) as (r & Hr & Hl); [lia|].
  kstep. apply (wp_irq_route i r); [done|]. case_match; [|by kstep].
  kstep. apply wp_irq_route_set; [done|]. ksteps. split; [|done].
  apply (mid_routes k0 c w (<[i := mkRoute (receiver r) false]> (irq_routes k1)) k1 Hm1).
  rewrite length_insert. by destruct Hm1 as [[] _].
Qed.

Lemma wp_notify_keeps k0 c w ep_id code S k : Mid k0 c w k -> 0 <= ep_id < Z.of_nat NUM_ENDPOINTS ->
  wp (notify_endpoint ep_id code) (fun _ k' => keeps k k') S k.
Proof.
  intros Hm Hid. destruct (mid_ep k0 c w ep_id k Hm Hid) as (e & He & Hl).
  unfold notify_endpoint. kstep. apply (wp_ep_get ep_id e); [done|].
  destruct e as [|? ?|tid dst cap]; [kstep; by intros i ti ? ?..|].
  destruct (waiter_task k0 c w _ _ tid k Hm He eq_refl) as (t & Ht & _ & Hb).
  pose proof (lookup_lt_Some _ _ _ Ht) as Hlt. kstep. case_match.
  - kstep. apply (wp_upd_task tid t); [done|].
    eapply wp_upd_task; [ksimpl; by apply list_lookup_insert_eq|].
    kstep. apply wp_ep_set; [done|]. kstep. intros i ti Hi Hnb. ksimpl.
    rewrite !list_lookup_insert_ne; [done|intros ->; congruence..].
  - kstep. kstep. apply wp_ep_set; [done|]. kstep. by intros i ti ? ?.
Qed.

Lemma wp_notify_both_keeps k0 c w name S k : Mid k0 c w k ->
  wp (notify_supervisor_and_logger name) (fun _ k' => Mid k0 c w k' /\ keeps k k') S k.
Proof.
  intros Hm. unfold notify_supervisor_and_logger. kstep.
  eapply wp_mono; [apply (wp_and _ (fun _ => Mid k0 c w) (fun _ => keeps k) S S);
      [by apply (wp_notify k0 c w)|by apply (wp_notify_keeps k0 c w)]|cbv beta; intros n1 k1 [Hm1 Hk1]|by intros ? [? _]].
  kstep. kstep. kstep. set (k2 := set_uart_out o k1).
  eapply wp_mono; [apply (wp_and _ (fun _ => Mid k0 c w) (fun _ => keeps k2) S S);
      [by apply (wp_notify k0 c w)|by apply (wp_notify_keeps k0 c w)]|cbv beta; intros n2 k3 [Hm3 Hk3]|by intros ? [? _]].
  assert (keeps k k3) as Hk by (by eapply keeps_trans).
  case_match; ksteps; split; try exact Hm3; exact Hk.
Qed.

(** A task that is not Ready is untouched by the reschedule. *)
Lemma wp_reschedule_keeps k0 w cur t (halt : M ()) k : halts halt -> Mid k0 None w k ->
  t_state t <> Ready -> tasks k !! cur = Some t ->
  wp (n ← select_highest cur;
      match n with Some next => select_and_resume next | None => halt end)
    (fun _ k' => (tasks k' !! cur = Some t /\ endpoints k' = endpoints k) /\ current k' <> cur)
    (fun k' => tasks k' !! cur = Some t /\ endpoints k' = endpoints k) k.
Proof.
  intros Hh Hm Hs Ht. kstep. eapply wp_select; [done|]. intros [n|] Hc.
  - apply chosen_ready in Hc as (tn & Htn & Hr). assert (n <> cur) as Hne by congruence.
    unfold select_and_resume. kstep. apply (wp_task n tn); [done|]. do 2 kstep.
    eapply wp_mono; [apply (wp_resume_exact n tn); [done|]|cbv beta|done].
    + destruct Hm as (W & _). by apply (proj2 (wf_tasks _ _ _ _ _ _ _ _ _ _ W) n tn).
    + intros _ k' [R1 _ _ R2 R3 _]. rewrite R1, R2, R3. ksimpl. by rewrite list_lookup_insert_ne.
  - unfold wp. by destruct (Hh k) as (r & o & ->).
Qed.

Definition parked_as (cur : nat) (s : RtState) (k : Kernel) : Prop :=
  exists t, tasks k !! cur = Some t /\ t_state t = s.

(** The end of both containment paths: the faulted task stays Faulted. *)
Lemma wp_fault_exact k0 w cur name k : Mid k0 (Some cur) w k -> (cur < MAX_TASKS)%nat ->
  wp (fault_and_switch cur name)
    (fun _ k' => parked_as cur Faulted k' /\ current k' <> cur) (parked_as cur Faulted) k.
Proof.
  intros Hm Hc. destruct (mid_lookup k0 _ w cur k Hm Hc) as (t & Ht & Hok).
  pose proof (lookup_lt_Some _ _ _ Ht) as Hl.
  unfold fault_and_switch. kstep. apply (wp_upd_task cur t); [done|].
  set (k1 := set_tasks (<[cur := with_state Faulted t]> (tasks k)) k).
  assert (Mid k0 None w k1) as Hm1 by (by eapply mid_stop).
  assert (tasks k1 !! cur = Some (with_state Faulted t)) as Hf by (unfold k1; ksimpl; by apply list_lookup_insert_eq).
  kstep. kuse (wp_irq_drop_keeps k0 None w). intros (Hm2 & E2 & _).
  kstep. kuse (wp_notify_both_keeps k0 None w). intros [Hm3 Hk3].
  eapply wp_mono; [apply (wp_reschedule_keeps k0 w cur (with_state Faulted t)); [apply halts_spin|done|done|]|..].
  - apply Hk3; [by rewrite E2|done].
  - intros _ k' [[? _] ?]. split; [|done]. by exists (with_state Faulted t).
  - intros k' [? _]. by exists (with_state Faulted t).
Qed.

(** C20. The watchdog bounds silence: a tick within the window only counts;
    the tick after [WATCHDOG_WINDOW] missed ones faults the running task,
    which is then not resumed: either another task runs or the kernel
    idles.  Every system call, known or not, returns with the count at zero
    (or halts the machine for good). *)
Theorem watchdog_bounds_silence k : KInv k ->
  (watchdog_miss k < WATCHDOG_WINDOW ->
     exists k', watchdog_tick k = Ret false k' /\ tasks k' = tasks k /\ current k' = current k /\
       watchdog_miss k' = watchdog_miss k + 1) /\
  (watchdog_miss k = WATCHDOG_WINDOW ->
     match watchdog_tick k with
     | Ret b k' => b = true /\ parked_as (current k) Faulted k' /\ current k' <> current k
     | Stop _ k' => parked_as (current k) Faulted k'
     | Crash => False
     end) /\
  (forall num, match on_syscall num k with
     | Ret known k' => watchdog_miss k' = 0 /\ known = bool_decide (is_Some (syscall_body num))
     | Stop _ _ => is_Some (syscall_body num)
     | Crash => False
     end).
Proof.
  intros K. pose proof (kinv_mid k K) as Hm. pose proof (kinv_current k K) as Hc.
  pose proof K as (_ & Ha & _ & _ & Hw). unfold WATCHDOG_WINDOW in *.
  assert (wrapping 64 (watchdog_miss k + 1) = watchdog_miss k + 1) as Ew
    by (unfold wrapping; apply Z.mod_small; change (2 ^ 64) with 18446744073709551616; lia).
  split; [|split].
  - intros Hlt. unfold watchdog_tick, mbind, M_bind, get, modify. rewrite Ha. cbn [negb]. ksimpl. rewrite Ew.
    unfold WATCHDOG_WINDOW. destruct (_ <=? 4) eqn:E; bool_facts; [|lia]. eexists. split; [reflexivity|]. done.
  - intros Heq. set (tk := wrapping 64 (ticks k + 1)).
    pose proof (mid_counters _ _ _ 5 tk k Hm) as Hm1.
    destruct (mid_lookup _ _ _ _ _ Hm1 Hc) as (t & Ht & _).
    apply (wp_mono watchdog_tick (fun b k' => b = true /\ parked_as (current k) Faulted k' /\
      current k' <> current k) _ (parked_as (current k) Faulted)); [|done|done].
    unfold watchdog_tick. do 2 kstep. rewrite Ha. cbn [negb]. do 8 kstep. rewrite Ew.
    replace (watchdog_miss k + 1) with 5 by lia. change (5 <=? WATCHDOG_WINDOW) with false. cbv iota beta.
    do 3 kstep. apply (wp_task _ t); [done|]. kstep.
    kuse (wp_ring_push k (Some (current k)) 5). intros Hm2. do 4 kstep. kstep.
    eapply wp_mono; [apply (wp_fault_exact k 5); [exact Hm2|done]|cbv beta|done].
    intros _ k' [? ?]. by kstep.
  - intros num. pose proof (on_syscall_credit num k Ha) as Hz. pose proof (wp_on_syscall num k K) as Hs.
    unfold wp in Hs. revert Hz Hs. unfold on_syscall, mbind, M_bind, get, modify. rewrite Ha. cbn [negb].
    destruct (syscall_body num) as [body|]; [|by intros].
    destruct (body _); [|by eexists|done]. by rewrite bool_decide_eq_true_2 by (by eexists).
Qed.

(** ** Task control *)

(** Killed, with nothing pending, and no endpoint holds it waiting. *)
Definition gone (slot : nat) (k : Kernel) : Prop :=
  (exists t, tasks k !! slot = Some t /\ t_state t = Killed /\ t_pending_ipc t = None) /\
  forall j, ~ waits (endpoints k) j slot.

(** Killing a task detaches it: with the control capability and the
    slot of a task that was started, the task is Killed, its pending message
    is gone, no endpoint keeps it as a waiting sender or receiver, and it is
    not the task that runs next (a task that kills itself gives up the
    processor, or the kernel idles). *)
Theorem kill_detaches k t slot ts :
  KInv k -> tasks k !! current k = Some t ->
  holds_cap (t_caps t) OTYPE_CONTROL RIGHT_CONTROL = true ->
  reg (live k) 9 = Z.of_nat slot -> tasks k !! slot = Some ts -> t_state ts <> Empty ->
  match sys_task_kill k with
  | Ret _ k' => gone slot k' /\ current k' <> slot
  | Stop _ k' => gone slot k'
  | Crash => False
  end.
Proof.
  intros K Ht Hcap Hreg Hts Hne. pose proof (kinv_mid k K) as Hm.
  pose proof (lookup_lt_Some _ _ _ Hts) as Hl. pose proof Hm as (W & _ & _ & _ & Hrun & _).
  pose proof (wf_tasks _ _ _ _ _ _ _ _ _ _ W) as [Lt Ft]. pose proof (Ft _ _ Hts) as Hok.
  set (tk := with_pending None (with_state Killed ts)).
  assert (forall k', tasks k' !! slot = Some tk -> endpoints k' = clear_waits slot (endpoints k) -> gone slot k') as Hg.
  { intros k' H1 H2. split; [by exists tk|]. intros j. rewrite H2. by intros [? _]%clear_waits_spec. }
  apply (wp_mono sys_task_kill (fun _ k' => gone slot k' /\ current k' <> slot) _ (gone slot)); [|done|done].
  unfold sys_task_kill. do 2 kstep. kstep. unfold wp at 1. rewrite (cap_find_eq _ _ _ t), Hcap by done. cbn [negb].
  do 2 kstep. rewrite Hreg, Nat2Z.id. destruct (Z.of_nat MAX_TASKS <=? Z.of_nat slot) eqn:E; bool_facts; [lia|].
  kstep. apply (wp_task slot ts); [done|]. rewrite bool_decide_false by done.
  kstep. apply (wp_upd_task slot ts); [done|]. kstep.
  eapply wp_upd_task; [ksimpl; by apply list_lookup_insert_eq|]. ksimpl. rewrite list_insert_insert_eq.
  kstep. apply wp_ep_clear; [apply (eo_len _ _ (wf_eps _ _ _ _ _ _ _ _ _ _ W))|]. ksimpl. fold tk.
  set (c' := if decide (slot = current k) then None else Some (current k)).
  assert (Mid k c' (watchdog_miss k)
    (set_endpoints (clear_waits slot (endpoints k)) (set_tasks (<[slot := tk]> (tasks k)) k))) as Hm1.
  { apply (mid_reset k (Some (current k)) c' _ slot ts tk k); try done.
    - destruct Hok as (? & ? & ? & ?). split; [done|]. split; [done|]. by split.
    - unfold c'. destruct (decide (slot = current k)) as [Hd|Hd].
      + apply run_is_stop; [done|]. by rewrite Hd.
      + apply run_is_insert; [done..|]. congruence. }
  kstep. kuse (wp_irq_drop_keeps k c' (watchdog_miss k)). ksimpl. intros (Hm2 & E1 & E2).
  kstep. eapply wp_mono; [apply (wp_and _ (fun _ => Mid k c' (watchdog_miss k)) (fun _ k' =>
    tasks k' = tasks k0 /\ endpoints k' = endpoints k0) (gone slot) (gone slot));
      [by apply wp_ring_push; [|rewrite <- Lt]|]|cbv beta|by intros ? [? _]].
  { apply wp_ring_push_eq; [destruct Hm2 as (W2 & _); apply (wf_ring _ _ _ _ _ _ _ _ _ _ W2)|]. by intros r h. }
  intros _ k3 (Hm3 & E3 & E4). do 2 kstep.
  assert (tasks k3 !! slot = Some tk) as Htk by (rewrite E3, E1; by apply list_lookup_insert_eq).
  destruct (bool_decide (slot = current k)) eqn:Ed; bool_facts.
  - assert (c' = None) as Hc' by (unfold c'; by rewrite decide_True). rewrite Hc' in Hm3. rewrite <- Ed.
    eapply wp_mono; [apply (wp_reschedule_keeps k (watchdog_miss k) slot tk); [apply halts_idle|exact Hm3|done|done]|..].
    + ksimpl. intros _ k' [[? ?] ?]. split; [apply Hg; congruence|done].
    + ksimpl. intros k' [? ?]. apply Hg; congruence.
  - kstep. split; [apply Hg; ksimpl; congruence|]. ksimpl. destruct (mid_active _ _ _ _ Hm3) as [_ ->]. congruence.
Qed.

(** The calls whose authority is a property of the task, with the object
    type and the right each requires. *)
Inductive AuthorityCall := ATaskStart | ATaskKill | ATaskRestart | AShutdown | AConWrite | AConRead | AInfo.
Definition call_body (a : AuthorityCall) : M () :=
  match a with
  | ATaskStart => sys_task_start | ATaskKill => sys_task_kill | ATaskRestart => sys_task_restart
  | AShutdown => sys_shutdown | AConWrite => sys_con_write | AConRead => sys_con_read | AInfo => sys_info
  end.
Definition call_authority (a : AuthorityCall) : Z * Z :=
  match a with
  | ATaskStart | ATaskKill | ATaskRestart | AShutdown => (OTYPE_CONTROL, RIGHT_CONTROL)
  | AConWrite => (OTYPE_CONSOLE, RIGHT_SEND) | AConRead => (OTYPE_CONSOLE, RIGHT_RECV)
  | AInfo => (OTYPE_INFO, RIGHT_RECV)
  end.

Lemma wp_refuse_authority t what ot required (body : nat -> M ()) k : KInv k -> tasks k !! current k = Some t ->
  holds_cap (t_caps t) ot required = false ->
  wp (cur ← get current; ok ← cap_find cur ot required;
      if negb ok then code ← deny_authority cur what; set_a0 code else body cur)
    (fun _ k' => untouched k k' /\ reg (live k') 9 = u64_of_i64 ERR_INVALID_CAP) (fun _ => False) k.
Proof.
  intros (W & _) Ht Hh. do 2 kstep. kstep. unfold wp at 1. rewrite (cap_find_eq _ _ _ t), Hh by done. cbn [negb].
  kstep. unfold deny_authority. kstep. apply wp_ring_push_eq; [by apply (wf_ring _ _ _ _ _ _ _ _ _ _ W)|].
  intros r h. do 2 kstep. kstep. apply (wp_task _ t); [done|]. do 9 kstep. kstep. split; [done|]. ksimpl.
  rewrite reg_set_a0 by apply W. done.
Qed.

(** C19. Task control, console and introspection are deny-by-default: a task
    whose table holds no capability of the required type with the required
    right gets the invalid-capability code, and no task, endpoint, message,
    interrupt route or user memory changes; in particular it cannot start,
    kill or restart a task, or shut the machine down. *)
Theorem authority_fail_closed a k t :
  KInv k -> tasks k !! current k = Some t ->
  (forall c, Some c ∈ t_caps t -> otype c = (call_authority a).1 ->
     (rights c .& (call_authority a).2) <> (call_authority a).2) ->
  exists k', call_body a k = Ret tt k' /\ untouched k k' /\ reg (live k') 9 = u64_of_i64 ERR_INVALID_CAP.
Proof.
  intros K Ht Hno.
  assert (holds_cap (t_caps t) (call_authority a).1 (call_authority a).2 = false) as Hh.
  { unfold holds_cap. destruct (existsb _ _) eqn:E; [|done]. apply existsb_exists in E as ([c|] & Hc & Hx); [|done].
    unfold lacks in Hx. rewrite negb_involutive in Hx. apply andb_true_iff in Hx as [H1%Z.eqb_eq H2%Z.eqb_eq].
    destruct (Hno c); [by apply list_elem_of_In|done|done]. }
  assert (wp (call_body a) (fun _ k' => untouched k k' /\ reg (live k') 9 = u64_of_i64 ERR_INVALID_CAP)
    (fun _ => False) k) as H.
  { destruct a; cbn [call_body call_authority fst snd] in *;
      unfold sys_task_start, sys_task_kill, sys_task_restart, sys_shutdown, sys_con_write, sys_con_read, sys_info;
      apply (wp_refuse_authority t); assumption. }
  apply wp_untouched_ret in H as ([] & k' & E & ? & ?). by exists k'.
Qed.

(** ** The bounce page *)

Definition dma_args (k : Kernel) (required offset width : Z) (d : DeviceDef) : Prop :=
  reg (live k) 10 = offset /\ reg (live k) 11 = width /\
  exists t id, tasks k !! current k = Some t /\
    device_lookup (t_caps t) (reg (live k) 9) required = CcOk id /\ DEVICES !! Z.to_nat id = Some d.

Lemma dma_bounds k required offset width d : KInv k -> dma_args k required offset width d ->
  access_in_bounds (d_dma_size d) offset width = true ->
  length (block0_dma k) = 4096%nat /\ 0 <= offset /\ (Z.to_nat offset + width_bytes width <= 4096)%nat.
Proof.
  intros K (Ho & _ & t & id & _ & _ & Hd) [Hw Hb]%in_bounds. pose proof (kinv_mid k K) as Hm.
  pose proof (width_bytes_eq _ Hw) as Hwb. pose proof (device_dma d (list_elem_of_lookup_2 _ _ _ Hd)) as Hds.
  pose proof (mid_reg k _ _ 10 k Hm) as [Ho0 _]. destruct Hm as (W & _). split; [apply W|]. lia.
Qed.

Lemma wp_dma_call k required offset width d (write : bool) (Q : () -> Kernel -> Prop) S : KInv k -> dma_args k required offset width d ->
  access_in_bounds (d_dma_size d) offset width = true ->
  wp (if write then dma_store offset width (reg (live k) 12) ;; set_a0 0
      else v ← dma_load offset width; set_a0 v) Q S k ->
  wp (dma_access required write) Q S k.
Proof.
  intros K (Ho & Hwd & t & id & Ht & Hl & Hd) Hb H. pose proof (kinv_mid k K) as Hm.
  pose proof (mid_caps k _ _ k _ t Hm Ht) as Hcaps. unfold dma_access. do 10 kstep. kstep.
  unfold wp at 1. rewrite (device_cap_check_eq _ _ _ t) by (done || by apply (mid_reg k _ _ 9 k Hm)).
  rewrite Hl. kstep. unfold device. eapply wp_lift; [by apply arr_get_lookup|]. rewrite Ho, Hwd, Hb. done.
Qed.

(** The DMA calls are a memory: an authorised in-bounds write succeeds
    and changes only the addressed bytes of the bounce page; an authorised
    read of the same place, from any later state with that page, returns the
    value written, truncated to the access width. *)
Theorem dma_write_read k offset width d :
  KInv k -> dma_args k DEV_RIGHT_DMA_WRITE offset width d ->
  access_in_bounds (d_dma_size d) offset width = true ->
  exists k', sys_dma_write k = Ret tt k' /\ reg (live k') 9 = 0 /\
    (forall i, ~ (offset <= Z.of_nat i < offset + width) -> block0_dma k' !! i = block0_dma k !! i) /\
    forall k2, KInv k2 -> block0_dma k2 = block0_dma k' -> dma_args k2 DEV_RIGHT_DMA_READ offset width d ->
      exists k3, sys_dma_read k2 = Ret tt k3 /\ block0_dma k3 = block0_dma k2 /\
        reg (live k3) 9 = wrapping (8 * width) (reg (live k) 12).
Proof.
  intros K Ha Hb. destruct (dma_bounds k _ _ _ _ K Ha Hb) as (Hl & H0 & Hle).
  pose proof (in_bounds _ _ _ Hb) as [Hw _]. pose proof (width_bytes_eq _ Hw) as Hwb.
  set (v := reg (live k) 12). set (n := width_bytes width) in *. set (o := Z.to_nat offset) in *.
  set (page := take o (block0_dma k) ++ to_le_bytes n v ++ drop (o + n) (block0_dma k)).
  pose proof (length_to_le_bytes n v) as Hlen.
  assert (wp sys_dma_write (fun _ k' => reg (live k') 9 = 0 /\ block0_dma k' = page) (fun _ => False) k) as H.
  { apply (wp_dma_call k _ offset width d); [done..|]. unfold dma_store. kstep. do 2 kstep. kstep. eapply wp_lift.
    { unfold copy_at. by rewrite decide_True by (rewrite length_to_le_bytes; fold n o; lia). }
    do 2 kstep. split; [|done]. apply reg_set_a0. by destruct K as [[] _]. }
  apply wp_untouched_ret in H as ([] & k' & E & Hr & Hp). exists k'. split; [done|]. split; [done|]. split.
  - intros i Hi. rewrite Hp. unfold page. destruct (decide (i < o)%nat).
    + rewrite lookup_app_l by (rewrite length_take; lia). by rewrite lookup_take_lt.
    + rewrite lookup_app_r, length_take, Nat.min_l by (rewrite ?length_take; lia).
      rewrite lookup_app_r, Hlen, lookup_drop by (rewrite Hlen; lia). f_equal. lia.
  - intros k2 K2 Hp2 Ha2. destruct (dma_bounds k2 _ _ _ _ K2 Ha2 Hb) as (Hl2 & _ & _).
    assert (wp sys_dma_read (fun _ k3 => block0_dma k3 = block0_dma k2 /\
      reg (live k3) 9 = wrapping (8 * width) v) (fun _ => False) k2) as H.
    { apply (wp_dma_call k2 _ offset width d); [done..|]. unfold dma_load. kstep. do 2 kstep. kstep.
      eapply wp_lift; [unfold slice; fold n o; by rewrite decide_True by lia|].
      do 2 kstep. split; [done|]. ksimpl. rewrite reg_set_a0 by (by destruct K2 as [[] _]).
      rewrite Hp2, Hp. unfold page.
      rewrite drop_app_ge, length_take, Nat.min_l, Nat.sub_diag, drop_0 by (rewrite ?length_take; lia).
      replace (o + n - o)%nat with n by lia. rewrite take_app_le, take_ge by lia.
      rewrite le_bytes_wrap, Hwb. apply u64_narrow. destruct Hw as [-> | [-> | ->]]; lia. }
    apply wp_untouched_ret in H as ([] & k3 & E3 & ? & ?). by exists k3.
Qed.

End thms.

(** ** The fault notification and a zero-capacity receiver *)

(** A task waiting on the fault channel with capacity 0 is taken off the
    endpoint and reported as notified, but neither woken nor handed the
    code: it stays Blocked with nothing left to wake it. *)
Theorem zero_capacity_waiter_lost (k : Kernel) tid dst :
  endpoints k !! Z.to_nat EP_FAULT = Some (ReceiverWaiting tid dst 0) ->
  exists k', notify_endpoint EP_FAULT FAULT_CODE_WATCHDOG k = Ret (Some tid) k' /\
    tasks k' = tasks k /\ endpoints k' !! Z.to_nat EP_FAULT = Some EpIdle.
Proof.
  intros He. pose proof (lookup_lt_Some _ _ _ He) as Hl.
  assert (wp (notify_endpoint EP_FAULT FAULT_CODE_WATCHDOG) (fun r k' => r = Some tid /\ tasks k' = tasks k /\
    endpoints k' !! Z.to_nat EP_FAULT = Some EpIdle) (fun _ => False) k) as H.
  { unfold notify_endpoint. kstep. eapply wp_ep_get; [done|]. cbv beta iota. kstep.
    change (1 <=? 0) with false. cbv beta iota. kstep. kstep. apply wp_ep_set; [done|]. kstep.
    split; [done|]. split; [done|]. ksimpl. by apply list_lookup_insert_eq. }
  unfold wp in H. destruct (notify_endpoint _ _ k) as [r k'| |] eqn:E; [|done..].
  destruct H as (-> & ? & ?). by exists k'.
Qed.

(** ** Concrete runs *)

Lemma booted_task : tasks booted !! current booted = Some (slot_of booted 0).
Proof. vm_compute. reflexivity. Qed.

Lemma yield_runs_highest_witness :
  let ts := <[current booted := with_state Ready (with_frame (live booted) (slot_of booted 0))]> (tasks booted) in
  exists n tn k', switch false booted = Ret tt k' /\ ts !! n = Some tn /\
    (forall j tj, ts !! j = Some tj -> t_state tj = Ready -> t_prio tj <= t_prio tn).
Proof.
  destruct (yield_runs_highest booted (slot_of booted 0) booted_inv booted_task)
    as (n & tn & k' & E & Ht & _ & Hp & _).
  exists n, tn, k'. split; [exact E|]. split; [exact Ht|exact Hp].
Defined.

Definition stuck : Kernel := set_watchdog_miss WATCHDOG_WINDOW booted.
Lemma stuck_inv : KInv stuck.
Proof.
  destruct booted_inv as (W & Ha & Hr & Hc & _). split; [exact W|]. split; [exact Ha|]. split; [exact Hr|].
  split; [exact Hc|]. vm_compute. split; congruence.
Qed.

Lemma watchdog_bounds_silence_witness :
  match watchdog_tick stuck with
  | Ret b k' => b = true /\ parked_as (current stuck) Faulted k' /\ current k' <> current stuck
  | Stop _ k' => parked_as (current stuck) Faulted k'
  | Crash => False
  end.
Proof. exact (proj1 (proj2 (watchdog_bounds_silence stuck stuck_inv)) eq_refl). Defined.

(** A manager with task control and the block device's buffer. *)
Definition manager_ops (cap : Cap) : list BootOp :=
  [BTask 0 "manager" 3 (mkPhys 0x80300000) 0x10000 0x201000;
   BTask 1 "worker" 3 (mkPhys 0x80310000) 0x10040 0x201000; BBootCap 0 cap].
Definition managed (cap : Cap) : Kernel :=
  state_of (static_state blank) (boot (manager_ops cap) (static_state blank)).
Lemma managed_inv cap : cap_ok cap -> KInv (managed cap).
Proof.
  intros Hc. unfold managed. destruct (boot_ok blank (manager_ops cap)) as (e & k & E & K); [|by rewrite E].
  constructor; [vm_compute; intuition congruence || lia|]. constructor; [vm_compute; intuition congruence || lia|].
  constructor; [split; [unfold MAX_TASKS; lia|exact Hc]|constructor].
Qed.

Definition killing : Kernel := calls SYS_TASK_KILL 1 0 0 (managed cap_control).
Lemma killing_inv : KInv killing.
Proof.
  apply calls_inv; [apply managed_inv; vm_compute; split; congruence|vm_compute; split; congruence..].
Qed.
Lemma killing_tasks : tasks killing !! current killing = Some (slot_of killing 0) /\
  tasks killing !! 1%nat = Some (slot_of killing 1).
Proof. vm_compute. split; reflexivity. Qed.
Lemma killing_caps : holds_cap (t_caps (slot_of killing 0)) OTYPE_CONTROL RIGHT_CONTROL = true /\
  reg (live killing) 9 = Z.of_nat 1 /\ t_state (slot_of killing 1) = Ready.
Proof. vm_compute. repeat split; reflexivity. Qed.
#[global] Opaque killing.

Lemma kill_detaches_witness :
  match sys_task_kill killing with
  | Ret _ k' => gone 1 k' /\ current k' <> 1%nat
  | Stop _ k' => gone 1 k'
  | Crash => False
  end.
Proof.
  destruct killing_tasks as [H0 H1]. destruct killing_caps as (Hc & Hr & Hs).
  apply (kill_detaches killing (slot_of killing 0) 1 (slot_of killing 1) killing_inv H0 Hc Hr H1).
  rewrite Hs. discriminate.
Defined.

Lemma booted_caps : t_caps (slot_of booted 0) = Some (mkCap OTYPE_ENDPOINT 1 RIGHT_RECV) :: replicate 8 None.
Proof. vm_compute. reflexivity. Qed.

Lemma authority_fail_closed_witness :
  exists k', call_body AShutdown booted = Ret tt k' /\ untouched booted k' /\
    reg (live k') 9 = u64_of_i64 ERR_INVALID_CAP.
Proof.
  apply (authority_fail_closed AShutdown booted (slot_of booted 0) booted_inv booted_task).
  rewrite booted_caps. intros c Hc Ho.
  apply elem_of_cons in Hc as [[= ->]|Hc]; [discriminate Ho|].
  apply elem_of_replicate in Hc as [Hc _]. discriminate Hc.
Defined.

Definition dma_cap : Cap := cap_device 0 (DEV_RIGHT_DMA_READ .| DEV_RIGHT_DMA_WRITE).
Definition writing : Kernel := calls SYS_DMA_WRITE 0 16 4 (managed dma_cap).
Lemma writing_inv : KInv writing.
Proof.
  apply calls_inv; [apply managed_inv; vm_compute; split; congruence|vm_compute; split; congruence..].
Qed.
Definition block0 : DeviceDef := default (mkDeviceDef "" "" "" 0 0 0 "" "" 0) (DEVICES !! 0%nat).
Lemma writing_args : dma_args writing DEV_RIGHT_DMA_WRITE 16 4 block0.
Proof.
  split; [vm_compute; reflexivity|]. split; [vm_compute; reflexivity|].
  exists (slot_of writing 0), 0. split; [vm_compute; reflexivity|]. split; vm_compute; reflexivity.
Qed.
#[global] Opaque writing.

Lemma dma_write_read_witness :
  access_in_bounds (d_dma_size block0) 16 4 = true /\
  exists k', sys_dma_write writing = Ret tt k' /\ reg (live k') 9 = 0.
Proof.
  split; [reflexivity|].
  destruct (dma_write_read writing 16 4 block0 writing_inv writing_args) as (k' & E & Hr & _); [reflexivity|].
  exists k'. split; [exact E|exact Hr].
Defined.
