(* ===== verification/Interrupts.v ===== *)
(** * Interrupt events and restarts

    A device interrupt is an event for the driver registered for the device
    ([docs/31] section 9): it wakes the driver if it waits, is kept as one
    pending bit if the driver is busy, and is dropped if the driver is dead.
    This file shows what [irq_raise] does on each branch and that an event
    kept is received exactly once; and what a restart makes of a task, a
    pending event of which it leaves in place. *)

From stdpp Require Import strings sets base decidable numbers option relations tactics list.
From S2P Require Import Prelude Bytes Caps Memory PageTable Sv39 Paging PagingHw Device Kernel Dispatch.
From S2P Require Import DispatchLogic DispatchInv DispatchOps DispatchSafe DispatchSys DispatchCtl Trap TrapSafe System.
From S2P Require Import IpcRt SchedRt.
Local Open Scope Z_scope.

Section irq.
Context {P : Platform}.

(** The driver registered for a route cannot take events. *)
Definition route_dead (k : Kernel) (r : IrqRoute) : bool :=
  match tasks k !! receiver r with
  | Some t => bool_decide (MAX_TASKS <= receiver r)%nat || is_dead (t_state t)
  | None => true
  end.
Definition no_receiver (k : Kernel) (id : Z) : Prop :=
  forall tid dst cap, endpoints k !! Z.to_nat id <> Some (ReceiverWaiting tid dst cap).
Definition set_pending (dev : nat) (r : IrqRoute) (b : bool) (k : Kernel) : Kernel :=
  set_irq_routes (<[dev := mkRoute (receiver r) b]> (irq_routes k)) k.

(** The first steps of [irq_raise]: is the driver dead? *)
Lemma wp_irq_alive k r Q S : KInv k -> Q (route_dead k r) k ->
  wp (if decide (MAX_TASKS <= receiver r)%nat then mret true
      else t ← task (receiver r); mret (is_dead (t_state t))) Q S k.
Proof.
  intros K HQ. pose proof (kinv_mid k K) as Hm. unfold route_dead in HQ.
  destruct (decide (MAX_TASKS <= receiver r)%nat) as [Hd|Hd].
  - apply wp_ret. rewrite bool_decide_true in HQ by done. cbn [orb] in HQ. by destruct (tasks k !! receiver r).
  - destruct (mid_lookup _ _ _ (receiver r) k Hm) as (t & Ht & _); [lia|]. rewrite Ht in HQ.
    rewrite bool_decide_false in HQ by done. kstep. apply (wp_task _ t); [done|]. by kstep.
Qed.

Section raise.
Context (k : Kernel) (dev : nat) (d : DeviceDef) (r : IrqRoute).
Hypothesis (K : KInv k) (Hd : DEVICES !! dev = Some d) (Hr : irq_routes k !! dev = Some r).

Lemma wp_raise Q S :
  wp (if route_dead k r then
        irq_route_set dev (mkRoute (receiver r) false) ;; put_line "IRQ_DROPPED reason=driver_not_ready" ;; mret ERR_NO_SLOT
      else e ← ep_get (d_irq_endpoint d);
        match e with
        | ReceiverWaiting tid dst cap =>
            if bool_decide (tid = receiver r) && (1 <=? cap) && valid_user_buf dst 1 then
              upd_task tid (with_pending (Some (one_byte dst IRQ_EVENT_CODE))) ;; upd_task tid (with_state Ready) ;;
              ep_set (d_irq_endpoint d) EpIdle ;; t ← task tid; emit_irq_delivered (t_name t) (d_name d) ;; mret 0
            else put_line "IRQ_DROPPED reason=unauthorized_receiver" ;; mret ERR_NO_SLOT
        | _ => irq_route_set dev (mkRoute (receiver r) true) ;; mret IRQ_PENDING
        end) Q S k -> wp (irq_raise dev) Q S k.
Proof using K Hd Hr.
  intros H. unfold irq_raise. kstep. unfold device. eapply wp_lift; [by apply arr_get_lookup|].
  kstep. apply (wp_irq_route dev r); [done|]. kstep. by apply wp_irq_alive.
Qed.

Lemma route_lt : (dev < length (irq_routes k))%nat.
Proof using Hr. by eapply lookup_lt_Some. Qed.
Lemma irq_ep_ok : exists e, endpoints k !! Z.to_nat (d_irq_endpoint d) = Some e /\
  (Z.to_nat (d_irq_endpoint d) < length (endpoints k))%nat.
Proof using K Hd. apply (mid_ep _ _ _ _ k (kinv_mid k K)), device_eps. by eapply list_elem_of_lookup_2. Qed.

(** Dead: dropped, and nothing stays pending. *)
Lemma raise_dead : route_dead k r = true ->
  exists o, irq_raise dev k = Ret ERR_NO_SLOT (set_uart_out o (set_pending dev r false k)).
Proof using K Hd Hr.
  intros Hdead. assert (wp (irq_raise dev) (fun c k' => c = ERR_NO_SLOT /\ exists o, k' = set_uart_out o (set_pending dev r false k))
    (fun _ => False) k) as H.
  { apply wp_raise. rewrite Hdead. kstep. apply wp_irq_route_set; [apply route_lt|]. ksteps. split; [done|]. by eexists. }
  apply wp_untouched_ret in H as (c & k' & E & -> & o & ->). by exists o.
Qed.

(** Busy: one bit is set. *)
Lemma raise_busy : route_dead k r = false -> no_receiver k (d_irq_endpoint d) ->
  irq_raise dev k = Ret IRQ_PENDING (set_pending dev r true k).
Proof using K Hd Hr.
  intros Hdead Hn. assert (wp (irq_raise dev) (fun c k' => c = IRQ_PENDING /\ k' = set_pending dev r true k) (fun _ => False) k) as H.
  { apply wp_raise. rewrite Hdead. destruct irq_ep_ok as (e & He & _). kstep. apply (wp_ep_get _ e); [done|].
    destruct e as [| |tid dst cap]; [..|by destruct (Hn _ _ _ He)];
      (kstep; apply wp_irq_route_set; [apply route_lt|]; by kstep). }
  by apply wp_untouched_ret in H as (c & k' & E & -> & ->).
Qed.

(** Waiting: the driver is woken with the event, or an unsuitable waiter
    refused. *)
Lemma raise_waiting tid dst cap t : route_dead k r = false ->
  endpoints k !! Z.to_nat (d_irq_endpoint d) = Some (ReceiverWaiting tid dst cap) -> tasks k !! tid = Some t ->
  exists o, if bool_decide (tid = receiver r) && (1 <=? cap) && valid_user_buf dst 1
  then irq_raise dev k = Ret 0 (set_uart_out o (set_endpoints (<[Z.to_nat (d_irq_endpoint d) := EpIdle]> (endpoints k))
         (set_tasks (<[tid := with_state Ready (with_pending (Some (one_byte dst IRQ_EVENT_CODE)) t)]> (tasks k)) k)))
  else irq_raise dev k = Ret ERR_NO_SLOT (set_uart_out o k).
Proof using K Hd Hr.
  intros Hdead He Ht. pose proof (lookup_lt_Some _ _ _ Ht) as Hl. destruct (bool_decide _ && _ && _) eqn:Eb.
  - assert (wp (irq_raise dev) (fun c k' => c = 0 /\ exists o, k' = set_uart_out o (set_endpoints (<[Z.to_nat (d_irq_endpoint d) := EpIdle]> (endpoints k))
         (set_tasks (<[tid := with_state Ready (with_pending (Some (one_byte dst IRQ_EVENT_CODE)) t)]> (tasks k)) k))) (fun _ => False) k) as H.
    { apply wp_raise. rewrite Hdead. kstep. apply (wp_ep_get _ _ _ _ _ He). cbv beta iota. rewrite Eb.
      kstep. apply (wp_upd_task tid t); [done|]. kstep.
      eapply wp_upd_task; [ksimpl; by apply list_lookup_insert_eq|]. ksimpl. rewrite list_insert_insert_eq.
      kstep. apply wp_ep_set; [by eapply lookup_lt_Some|]. kstep.
      eapply wp_task; [ksimpl; by apply list_lookup_insert_eq|]. ksteps. split; [done|]. by eexists. }
    apply wp_untouched_ret in H as (c & k' & E & -> & o & ->). by exists o.
  - assert (wp (irq_raise dev) (fun c k' => c = ERR_NO_SLOT /\ exists o, k' = set_uart_out o k) (fun _ => False) k) as H.
    { apply wp_raise. rewrite Hdead. kstep. apply (wp_ep_get _ _ _ _ _ He). cbv beta iota. rewrite Eb. ksteps. split; [done|]. by eexists. }
    apply wp_untouched_ret in H as (c & k' & E & -> & o & ->). by exists o.
Qed.

End raise.
(** ** Receiving a pending event *)

(** The caller's view of [sys_recv]: a Receive right on the endpoint and a
    buffer with room for the event. *)
Definition recv_args (k : Kernel) (ep_id dst : Z) : Prop :=
  reg (live k) 10 = dst /\ 1 <= reg (live k) 11 /\ valid_user_buf dst 1 = true /\
  exists t, tasks k !! current k = Some t /\ cap_lookup (t_caps t) (reg (live k) 9) RIGHT_RECV = CcOk ep_id.

(** The devices have different endpoints. *)
Lemma devices_distinct i j d e : DEVICES !! i = Some d -> DEVICES !! j = Some e -> d_irq_endpoint d = d_irq_endpoint e -> i = j.
Proof. destruct i as [|[|i]], j as [|[|j]]; cbn; try done; by intros [= <-] [= <-]. Qed.

Lemma wp_irq_found k dev d r c Q S : DEVICES !! dev = Some d -> irq_routes k !! dev = Some r -> length (irq_routes k) = length DEVICES ->
  pending r = true -> receiver r = c -> Q (Some dev) k -> wp (irq_pending_for (d_irq_endpoint d) c) Q S k.
Proof.
  intros Hd Hr Hl Hp Hc HQ. unfold irq_pending_for. pose proof (lookup_lt_Some _ _ _ Hd) as Hlt.
  assert (dev ∈ seq 0 (length DEVICES)) as Hin by (apply elem_of_seq; lia).
  assert (forall i, i ∈ seq 0 (length DEVICES) -> (i < length DEVICES)%nat) as Hb by (intros i Hi%elem_of_seq; lia).
  revert Hin Hb. generalize (seq 0 (length DEVICES)). intros l. induction l as [|i l IH]; intros Hin Hb; [by apply elem_of_nil in Hin|].
  cbn [irq_search]. destruct (lookup_lt_is_Some_2 DEVICES i) as [e He]; [apply Hb; left|].
  kstep. unfold device. eapply wp_lift; [by apply arr_get_lookup|]. destruct (d_irq_endpoint e =? d_irq_endpoint d) eqn:Ee.
  - apply Z.eqb_eq in Ee. assert (i = dev) as -> by (by eapply devices_distinct). kstep. apply (wp_irq_route dev r); [done|].
    rewrite Hp, bool_decide_true by done. exact HQ.
  - apply elem_of_cons in Hin as [<- |Hin]; [|apply IH; [done|intros; apply Hb; by right]].
    rewrite Hd in He. injection He as <-. by rewrite Z.eqb_refl in Ee.
Qed.

Lemma recv_pending k dev d r dst : KInv k -> DEVICES !! dev = Some d -> irq_routes k !! dev = Some r -> pending r = true ->
  receiver r = current k -> recv_args k (d_irq_endpoint d) dst ->
  exists k', ipc_recv k = Ret tt k' /\ reg (live k') 9 = 1 /\
    delivered_at (umem k) (umem k') (satp k') dst [IRQ_EVENT_CODE] /\
    tasks k' = tasks k /\ endpoints k' = endpoints k /\ current k' = current k /\
    irq_routes k' = <[dev := mkRoute (current k) false]> (irq_routes k).
Proof.
  intros K Hd Hr Hp Hc (Ed & Hcap & Hv & t & Ht & Hck). pose proof (kinv_mid k K) as Hm. pose proof Hm as (W & _).
  pose proof (mid_caps k _ _ k _ t Hm Ht) as Hcaps. destruct (valid_buf_ok _ _ Hv) as [Hb _]; [lia|].
  assert (wp ipc_recv (fun _ k' => reg (live k') 9 = 1 /\ delivered_at (umem k) (umem k') (satp k') dst [IRQ_EVENT_CODE] /\
    tasks k' = tasks k /\ endpoints k' = endpoints k /\ current k' = current k /\
    irq_routes k' = <[dev := mkRoute (current k) false]> (irq_routes k)) (fun _ => False) k) as H.
  { unfold ipc_recv. do 8 kstep. kstep. apply (wp_task _ t); [done|]. kstep.
    unfold wp at 1. rewrite (cap_check_eq _ _ _ t) by (done || by apply (mid_reg k _ _ 9 k Hm)). rewrite Hck.
    kstep. apply (wp_irq_found k dev d r); try done; [apply W|]. cbv beta iota.
    rewrite Ed, Hv. replace (reg (live k) 11 <? 1) with false by lia. cbn [orb negb].
    kstep. apply wp_irq_route_set; [by eapply lookup_lt_Some|]. kstep. set (K1 := set_irq_routes _ _).
    destruct (copy_bytes_mem dst [IRQ_EVENT_CODE] K1) as (m & E & Hcp); [done|]. unfold wp at 1. rewrite E.
    kstep. unfold device. eapply wp_lift; [by apply arr_get_lookup|]. ksteps.
    split; [|done]. rewrite reg_set_a0; [done|]. unfold K1. ksimpl. apply W. }
  apply wp_untouched_ret in H as ([] & k' & E & H). by exists k'.
Qed.

Fixpoint raises (n : nat) (dev : nat) : M () := match n with O => mret tt | S n => irq_raise dev ;; raises n dev end.

Lemma pending_inv dev r k b : KInv k -> KInv (set_pending dev r b k).
Proof.
  intros (W & Ha & Hr & Hc & Hw). split; [|done]. destruct W; split; try done. unfold set_pending. ksimpl. by rewrite length_insert.
Qed.

Lemma raises_busy n k dev d r : KInv k -> DEVICES !! dev = Some d -> irq_routes k !! dev = Some r ->
  route_dead k r = false -> no_receiver k (d_irq_endpoint d) ->
  raises (S n) dev k = Ret tt (set_pending dev r true k).
Proof.
  intros K Hd Hr Hl Hn. cbn [raises]. unfold mbind, M_bind. rewrite (raise_busy k dev d r K Hd Hr Hl Hn).
  pose proof (lookup_lt_Some _ _ _ Hr) as Hlt.
  set (k1 := set_pending dev r true k). assert (irq_routes k1 !! dev = Some (mkRoute (receiver r) true)) as Hr1 by (by apply list_lookup_insert_eq).
  induction n as [|n IH]; [done|]. cbn [raises]. unfold mbind, M_bind.
  rewrite (raise_busy k1 dev d _ (pending_inv _ _ _ _ K) Hd Hr1 Hl Hn).
  replace (set_pending dev (mkRoute (receiver r) true) true k1) with k1; [done|].
  unfold k1, set_pending. ksimpl. by rewrite list_insert_insert_eq.
Qed.

(** C40. An interrupt raised while its driver is alive but not waiting is kept,
    however often it is raised, and is received once: the driver's next
    receive on the device's endpoint returns at once with the one-byte event
    in its buffer, neither blocking nor taking a message, and clears it. *)
Theorem irq_event_once n k dev d r : KInv k -> DEVICES !! dev = Some d -> irq_routes k !! dev = Some r ->
  route_dead k r = false -> no_receiver k (d_irq_endpoint d) ->
  exists k1, raises (S n) dev k = Ret tt k1 /\ tasks k1 = tasks k /\ endpoints k1 = endpoints k /\ umem k1 = umem k /\
  forall k2 dst, KInv k2 -> irq_routes k2 = irq_routes k1 -> current k2 = receiver r -> recv_args k2 (d_irq_endpoint d) dst ->
    exists k3, ipc_recv k2 = Ret tt k3 /\ reg (live k3) 9 = 1 /\
      delivered_at (umem k2) (umem k3) (satp k3) dst [IRQ_EVENT_CODE] /\
      tasks k3 = tasks k2 /\ endpoints k3 = endpoints k2 /\ current k3 = current k2 /\
      irq_routes k3 !! dev = Some (mkRoute (receiver r) false).
Proof.
  intros K Hd Hr Hl Hn. exists (set_pending dev r true k). split; [by apply (raises_busy n k dev d r)|].
  split; [done|]. split; [done|]. split; [done|]. intros k2 dst K2 E2 Hc Ha. pose proof (lookup_lt_Some _ _ _ Hr) as Hlt.
  destruct (recv_pending k2 dev d (mkRoute (receiver r) true) dst) as (k3 & E & H1 & H2 & H3 & H4 & H5 & H6); try done.
  { rewrite E2. by apply list_lookup_insert_eq. }
  exists k3. split_and!; try done. rewrite H6, Hc. apply list_lookup_insert_eq. rewrite E2. unfold set_pending. ksimpl. by rewrite length_insert.
Qed.

(** ** Restart *)

(** The re-arm, exactly. *)
Definition armed (f : TrapFrame) (t : Tcb) : Tcb := with_state Ready (with_pending None (with_frame f t)).
Definition initial_frame (k : Kernel) (t : Tcb) : TrapFrame :=
  mkFrame (regs (new_user (t_entry_va t) (t_stack_top_va t))) (t_entry_va t) (user_sstatus (read_sstatus k)).

Lemma wp_rearm_eq slot t Q S k : tasks k !! slot = Some t -> length (endpoints k) = NUM_ENDPOINTS ->
  Q tt (set_endpoints (clear_waits slot (endpoints k)) (set_tasks (<[slot := armed (initial_frame k t) t]> (tasks k)) k)) ->
  wp (rearm slot) Q S k.
Proof.
  intros Ht Le HQ. pose proof (lookup_lt_Some _ _ _ Ht) as Hl.
  unfold rearm. kstep. apply (wp_task slot t); [done|]. kstep. unfold fresh_frame. do 3 kstep.
  kstep. apply (wp_upd_task slot t); [done|]. kstep.
  eapply wp_upd_task; [ksimpl; by apply list_lookup_insert_eq|]. ksimpl. rewrite list_insert_insert_eq.
  kstep. apply wp_ep_clear; [done|]. ksimpl.
  eapply wp_upd_task; [ksimpl; by apply list_lookup_insert_eq|]. ksimpl. rewrite list_insert_insert_eq. exact HQ.
Qed.

(** C21. Restarting a task gives it a clean start and no more authority: it
    becomes Ready with its initial registers (all zero but the stack
    pointer), its entry address and no pending message; it waits on no
    endpoint, the other waiters stay where they were; its capabilities,
    priority, name and address space are those it had, no other task
    changes, and neither does user memory or the pending interrupts. *)
Theorem restart_fresh k c s t : KInv k -> tasks k !! current k = Some c ->
  holds_cap (t_caps c) OTYPE_CONTROL RIGHT_CONTROL = true ->
  reg (live k) 9 = Z.of_nat s -> s <> current k -> tasks k !! s = Some t -> t_state t <> Empty -> t_entry_va t <> 0 ->
  exists f k', sys_task_restart k = Ret tt k' /\ reg (live k') 9 = 0 /\
    tasks k' = <[s := mkTcb Ready (t_prio t) (t_satp_root t) f None (t_caps t) (t_name t) (t_entry_va t) (t_stack_top_va t)]> (tasks k) /\
    regs f = <[1%nat := t_stack_top_va t]> (replicate 31 0) /\ sepc f = t_entry_va t /\
    (forall id e, endpoints k !! id = Some e -> endpoints k' !! id = Some (if decide (waiter e = Some s) then EpIdle else e)) /\
    irq_routes k' = irq_routes k /\ umem k' = umem k /\ current k' = current k /\ satp k' = satp k.
Proof.
  intros K Hc Hh Hs Hne Ht He Hen. pose proof (kinv_mid k K) as Hm. pose proof Hm as (W & _).
  pose proof (lookup_lt_Some _ _ _ Ht) as Hl. rewrite (proj1 (wf_tasks _ _ _ _ _ _ _ _ _ _ W)) in Hl.
  assert (wp sys_task_restart (fun _ k' => reg (live k') 9 = 0 /\
    tasks k' = <[s := armed (initial_frame k t) t]> (tasks k) /\ endpoints k' = clear_waits s (endpoints k) /\
    irq_routes k' = irq_routes k /\ umem k' = umem k /\ current k' = current k /\ satp k' = satp k) (fun _ => False) k) as H.
  { unfold sys_task_restart. do 2 kstep. kstep. unfold wp at 1. rewrite (cap_find_eq _ _ _ c), Hh by done. cbn [negb].
    do 2 kstep. rewrite Hs, Nat2Z.id. replace (Z.of_nat MAX_TASKS <=? Z.of_nat s) with false by lia.
    replace (Z.of_nat s =? Z.of_nat (current k)) with false by lia. cbn [orb].
    kstep. apply (wp_task s t); [done|]. rewrite bool_decide_false by done. replace (t_entry_va t =? 0) with false by lia. cbn [orb].
    kstep. apply (wp_rearm_eq s t); [done|apply (eo_len _ _ (wf_eps _ _ _ _ _ _ _ _ _ _ W))|].
    kstep. apply wp_ring_push_eq; [ksimpl; apply W|]. intros r h. ksteps. split; [|done].
    rewrite reg_set_a0; [done|]. ksimpl. apply W. }
  apply wp_untouched_ret in H as ([] & k' & E & Ha & Hts & Hes & Hi & Hu & Hc' & Hsp). exists (initial_frame k t), k'.
  split_and!; try done. intros id e Hid. rewrite Hes. unfold clear_waits. by rewrite list_lookup_fmap, Hid.
Qed.

End irq.

(** ** A driver that is busy when its device interrupts *)

Definition driver : Kernel :=
  set_pending 0 (mkRoute 0 false) false
    (calls SYS_RECV 0 0x200100 64 (managed (mkCap OTYPE_ENDPOINT (d_irq_endpoint block0) RIGHT_RECV))).
Lemma driver_inv : KInv driver.
Proof.
  apply pending_inv, calls_inv; [apply managed_inv; vm_compute; split; congruence|vm_compute; split; congruence..].
Qed.
Lemma driver_route : irq_routes driver !! 0%nat = Some (mkRoute 0 false) /\ route_dead driver (mkRoute 0 false) = false.
Proof. vm_compute. by split. Qed.
Lemma driver_busy : no_receiver driver (d_irq_endpoint block0).
Proof. intros tid dst cap. vm_compute. discriminate. Qed.
Lemma driver_args : recv_args driver (d_irq_endpoint block0) 0x200100.
Proof.
  split; [vm_compute; reflexivity|]. split; [by vm_compute|]. split; [vm_compute; reflexivity|].
  exists (slot_of driver 0). split; vm_compute; reflexivity.
Qed.

Lemma irq_event_once_witness :
  exists k1, raises 3 0 driver = Ret tt k1 /\ exists k3, ipc_recv k1 = Ret tt k3 /\ reg (live k3) 9 = 1.
Proof.
  destruct driver_route as [Hr Hl].
  destruct (irq_event_once 2 driver 0 block0 (mkRoute 0 false) driver_inv eq_refl Hr Hl driver_busy) as (k1 & E & Ht & He & Hu & H).
  exists k1. split; [exact E|].
  rewrite (raises_busy 2 driver 0 block0 (mkRoute 0 false) driver_inv eq_refl Hr Hl driver_busy) in E. injection E as <-.
  destruct (H (set_pending 0 (mkRoute 0 false) true driver) 0x200100) as (k3 & E3 & R & _);
    [apply pending_inv, driver_inv|reflexivity|vm_compute; reflexivity|exact driver_args|].
  exists k3. split; [exact E3|exact R].
Defined.

(** ** A manager restarts a worker *)

Definition restarting : Kernel := calls SYS_TASK_RESTART 1 0 0 (managed cap_control).
Lemma restarting_inv : KInv restarting.
Proof.
  apply calls_inv; [apply managed_inv; vm_compute; split; congruence|vm_compute; split; congruence..].
Qed.
Lemma restarting_tasks : tasks restarting !! current restarting = Some (slot_of restarting 0) /\
  tasks restarting !! 1%nat = Some (slot_of restarting 1) /\ current restarting = 0%nat.
Proof. vm_compute. by repeat split. Qed.
Lemma restarting_caps : holds_cap (t_caps (slot_of restarting 0)) OTYPE_CONTROL RIGHT_CONTROL = true /\
  reg (live restarting) 9 = Z.of_nat 1 /\ t_state (slot_of restarting 1) = Ready /\ t_entry_va (slot_of restarting 1) = 0x10040.
Proof. vm_compute. repeat split; reflexivity. Qed.
#[global] Opaque restarting.

Lemma restart_fresh_witness : exists f k', sys_task_restart restarting = Ret tt k' /\
  t_frame <$> tasks k' !! 1%nat = Some f /\ sepc f = 0x10040.
Proof.
  destruct restarting_tasks as (H0 & H1 & Hn). destruct restarting_caps as (Hc & Hr & Hs & He).
  destruct (restart_fresh restarting (slot_of restarting 0) 1 (slot_of restarting 1) restarting_inv H0 Hc Hr)
    as (f & k' & E & _ & Ht & _ & Hf & _); [rewrite Hn; discriminate|exact H1|rewrite Hs; discriminate|rewrite He; discriminate|].
  exists f, k'. split; [exact E|]. rewrite Ht, list_lookup_insert_eq by (by eapply lookup_lt_Some).
  split; [reflexivity|by rewrite Hf, He].
Defined.
