(* ===== verification/UserText.v ===== *)
(** * The services' message constants

    Every [umsg!] of [kernel/src/arch/riscv64/os_boot.rs], in source order: a
    byte string in the mapped user region; its length constant is [length]. *)

From stdpp Require Import strings base list.
From S2P Require Import Prelude Bytes.
Local Open Scope Z_scope.

Definition M_NL : list Z := [10].
Definition M_BS : list Z := [8] ++ bstr " " ++ [8].
Definition A_LIST : list Z := bstr "apps: hello fault_demo counter".
Definition A_HELLO : list Z := bstr "hello".
Definition A_FAULT : list Z := bstr "fault_demo".
Definition A_COUNTER : list Z := bstr "counter".
Definition AI_HELLO : list Z := bstr "hello: greeter prio=2 caps=console restart=rerun".
Definition AI_FAULT : list Z := bstr "fault_demo: containment demo prio=2 caps=none".
Definition AI_COUNTER : list Z := bstr "counter: progress demo prio=2 caps=console".
Definition A_STARTED : list Z := bstr "started".
Definition A_ERR : list Z := bstr "error: cannot start".
Definition A_UNKNOWN : list Z := bstr "unknown app".
Definition A_BADCMD : list Z := bstr "unknown app command".
Definition PL_LIST : list Z := bstr "APP_LIST".
Definition PL_INFO : list Z := bstr "APP_INFO ".
Definition PL_LOAD : list Z := bstr "APP_LOAD ".
Definition PL_RUN : list Z := bstr "APP_RUN ".
Definition PL_UNLOAD : list Z := bstr "APP_UNLOAD ".
Definition PL_STATE : list Z := bstr "APP_STATE ".
Definition LD_BIN_PRE : list Z := bstr "CAT /bin/".
Definition LD_APP_SUF : list Z := bstr ".app".
Definition LD_ERRPRE : list Z := bstr "ERR".
Definition R_ENOTLD : list Z := bstr "ERR not_loaded".
Definition R_EBADIMG : list Z := bstr "ERR bad_image".
Definition R_EBADSUM : list Z := bstr "ERR bad_checksum".
Definition R_EDENCAP : list Z := bstr "ERR denied_capability".
Definition RP_LOADED : list Z := bstr "OK loaded ".
Definition R_ELOADED : list Z := bstr "ERR already_loaded".
Definition RP_RUNNING : list Z := bstr "OK running ".
Definition RP_UNLOAD : list Z := bstr "OK unloaded ".
Definition ST_AVAIL : list Z := bstr "state=available".
Definition ST_LOADED : list Z := bstr "state=loaded".
Definition ST_RUN : list Z := bstr "state=running".
Definition ST_EXITED : list Z := bstr "state=exited".
Definition ST_FAULTED : list Z := bstr "state=faulted".
Definition KW_KILLED : list Z := bstr "killed".
Definition KW_FAULTED : list Z := bstr "faulted".
Definition LD_MAGIC : list Z := bstr "AXAPP1 ".
Definition W_CONSOLE : list Z := bstr "console".
Definition W_NONE : list Z := bstr "none".
Definition L_OK : list Z := bstr "APP_IMAGE loaded=".
Definition L_SRC : list Z := bstr " source=/bin/".
Definition L_REJ : list Z := bstr "APP_IMAGE rejected=".
Definition L_RSN : list Z := bstr " reason=".
Definition W_BADIMG : list Z := bstr "bad_image".
Definition W_BADSUM : list Z := bstr "bad_checksum".
Definition W_DENCAP : list Z := bstr "denied_capability".
Definition W_MALF : list Z := bstr "malformed".
Definition M_HELLO_OUT : list Z := bstr "hello from app: hello" ++ [10].
Definition M_CNT_PRE : list Z := bstr "APP counter progress=".
Definition M_CNT_DONE : list Z := bstr "APP counter done" ++ [10].
Definition P_LS : list Z := bstr "LS ".
Definition P_CAT : list Z := bstr "CAT ".
Definition F_ROOT : list Z := bstr "/".
Definition F_ETC : list Z := bstr "/etc".
Definition F_APPS : list Z := bstr "/apps".
Definition F_DOCS : list Z := bstr "/docs".
Definition F_VERSION : list Z := bstr "/etc/version".
Definition F_LIMITS : list Z := bstr "/etc/limitations".
Definition F_MHELLO : list Z := bstr "/apps/hello.manifest".
Definition F_MCOUNTER : list Z := bstr "/apps/counter.manifest".
Definition F_MFAULT : list Z := bstr "/apps/fault_demo.manifest".
Definition F_ABOUT : list Z := bstr "/docs/about".
Definition F_STORV : list Z := bstr "/storage/version".
Definition Q_BLOCK1 : list Z := bstr "READ block=1".
Definition F_BIN : list Z := bstr "/bin".
Definition F_BHELLO : list Z := bstr "/bin/hello.app".
Definition F_BCOUNTER : list Z := bstr "/bin/counter.app".
Definition F_BFAULT : list Z := bstr "/bin/fault_demo.app".
Definition F_BBADMAGIC : list Z := bstr "/bin/invalid_bad_magic.app".
Definition F_BBADCAP : list Z := bstr "/bin/invalid_bad_cap.app".
Definition F_BBADSUM : list Z := bstr "/bin/invalid_bad_checksum.app".
Definition Q_BLOCK4 : list Z := bstr "READ block=4".
Definition Q_BLOCK5 : list Z := bstr "READ block=5".
Definition Q_BLOCK6 : list Z := bstr "READ block=6".
Definition A_BADMAGIC : list Z := bstr "BXAPP1 invalid_bad_magic 0 4096 4096 1 none 8192 0000".
Definition A_BADCAP : list Z := bstr "AXAPP1 invalid_bad_cap 0 4096 4096 1 mmio 8192 0d18".
Definition A_BADSUM : list Z := bstr "AXAPP1 invalid_bad_checksum 0 4096 4096 1 none 8192 0000".
Definition R_BIN : list Z :=
  bstr "OK hello.app counter.app fault_demo.app invalid_bad_magic.app invalid_bad_cap.app invalid_bad_checksum.app".
Definition R_ROOT : list Z := bstr "OK etc apps docs bin".
Definition R_ETC : list Z := bstr "OK version limitations".
Definition R_APPS : list Z := bstr "OK hello.manifest counter.manifest fault_demo.manifest".
Definition R_DOCS : list Z := bstr "OK about".
Definition R_VERSION : list Z := bstr "OK AxiomRT v1.6-storage-backed-loader RISC-V 64 eval stage".
Definition R_LIMITS : list Z := bstr "OK emulator-only read-only evaluation build no cert claim".
Definition R_MHELLO : list Z := bstr "OK hello: prio=2 caps=console restart=rerun".
Definition R_MCOUNTER : list Z := bstr "OK counter: prio=2 caps=console restart=rerun".
Definition R_MFAULT : list Z := bstr "OK fault_demo: prio=2 caps=none restart=rerun".
Definition R_ABOUT : list Z := bstr "OK AxiomRT v1.6-storage-backed-loader see docs/INDEX.md".
Definition E_NOTFOUND : list Z := bstr "ERR not_found".
Definition E_BADPATH : list Z := bstr "ERR bad_path".
Definition S_INFO : list Z := bstr "INFO".
Definition S_READ : list Z := bstr "READ block=".
Definition S_RANGE : list Z := bstr "READ_RANGE start=".
Definition S_COUNT : list Z := bstr " count=".
Definition S_R_INFO : list Z := bstr "OK block_size=48 blocks=8 readonly=true".
Definition S_R_DATA : list Z := bstr "OK data=".
Definition S_E_BLOCK : list Z := bstr "ERR bad_block".
Definition S_E_MANY : list Z := bstr "ERR too_many_blocks".
Definition S_E_MAL : list Z := bstr "ERR malformed".
Definition B0 : list Z := bstr "AXSTOR v1 blocks=8 bs=48 ro=1".
Definition B1 : list Z := bstr "AxiomRT v1.6-storage-backed-loader eval stage".
Definition B2 : list Z := bstr "AxiomRT microkernel safety runtime".
Definition B3 : list Z := bstr "apps: hello counter fault_demo prio=2".
Definition BH4 : list Z := bstr "AXAPP1 hello 0 4096 4096 1 console 8192 0a6d".
Definition BC5 : list Z := bstr "AXAPP1 counter 0 4096 4096 1 console 8192 0b59".
Definition BF6 : list Z := bstr "AXAPP1 fault_demo 0 4096 4096 1 none 8192 0b36".
Definition BRES : list Z := bstr "reserved".
Definition BD_STATUS : list Z := bstr "kind=block_skeleton state=running mmio=granted irq=registered".
Definition BD_ERR : list Z := bstr "ERR unknown_driver_command".
Definition BDC_STATUS : list Z := bstr "STATUS".
Definition BDC_FAULT : list Z := bstr "FAULT".
Definition ND_STARTED : list Z := bstr "NET_DRIVER started=net_driver_service" ++ [10].
Definition ND_TX_EVENT : list Z := bstr "NET_DRIVER tx_test bytes=64" ++ [10].
Definition ND_BAD : list Z := bstr "ERR malformed".
Definition ND_UNSUPPORTED : list Z := bstr "ERR unsupported".
Definition ND_TOO_LARGE : list Z := bstr "ERR too_large".
Definition ND_TX_REPLY : list Z := bstr "OK sent test_packet bytes=64".
Definition ND_STATUS_P : list Z := bstr "OK driver=running tx=".
Definition ND_RX_MID : list Z := bstr " rx=".
Definition ND_MODE : list Z := bstr " mode=synthetic".
Definition ND_RX_REPLY_P : list Z := bstr "OK rx_count=".
Definition ND_RX_EVENT_P : list Z := bstr "NET_DRIVER rx_count=".
Definition NDC_STATUS : list Z := bstr "DRV_STATUS".
Definition NDC_TX : list Z := bstr "DRV_TX_TEST".
Definition NDC_RX : list Z := bstr "DRV_RX_COUNT".
Definition NDC_FAULT : list Z := bstr "DRV_FAULT".
Definition NDC_RESTART : list Z := bstr "DRV_RESTART".
Definition NS_STARTED : list Z := bstr "NET_SERVICE state=up mode=synthetic" ++ [10].
Definition NS_BAD_EVENT : list Z := bstr "NET_DENIED reason=malformed" ++ [10].
Definition NS_BAD : list Z := bstr "ERR malformed".
Definition NS_DOWN : list Z := bstr "ERR driver_down".
Definition NS_OK : list Z := bstr "OK".
Definition NS_STATUS_P : list Z := bstr "OK net state=up driver=running tx=".
Definition NS_STATS_P : list Z := bstr "OK tx=".
Definition NS_RX_MID : list Z := bstr " rx=".
Definition NS_MODE : list Z := bstr " mode=synthetic".
Definition NS_TX_EVENT_P : list Z := bstr "NET_TX bytes=64 tx=".
Definition NS_RX_EVENT_P : list Z := bstr "NET_RX rx=".
Definition NSC_STATUS : list Z := bstr "NET_STATUS".
Definition NSC_STATS : list Z := bstr "NET_STATS".
Definition NSC_TX : list Z := bstr "NET_SEND_TEST".
Definition NSC_RX : list Z := bstr "NET_RX_COUNT".
Definition NSC_FAULT : list Z := bstr "NET_FAULT".
Definition NSC_RESTART : list Z := bstr "NET_RESTART".
Definition NSM_FAULT : list Z := bstr "NET_MGR_FAULT".
Definition NSM_RESTART : list Z := bstr "NET_MGR_RESTART".
Definition DM_STARTED : list Z := bstr "DRIVER started=block_driver_service" ++ [10].
Definition DM_STARTFAIL : list Z := bstr "DRIVER start_failed=block_driver_service" ++ [10].
Definition DM_RESTARTED : list Z := bstr "DRIVER restarted=block_driver_service" ++ [10].
Definition DM_OBSERVED : list Z := bstr "DRIVER_MANAGER observed=fault driver=block_driver_service" ++ [10].
Definition DM_LINE_RUN : list Z :=
  bstr "driver name=block_driver_service state=running kind=block_skeleton" ++ [10].
Definition DM_LINE_FLT : list Z :=
  bstr "driver name=block_driver_service state=faulted kind=block_skeleton" ++ [10].
Definition DM_LINE_STOP : list Z :=
  bstr "driver name=block_driver_service state=stopped kind=block_skeleton" ++ [10].
Definition DMR_RUN : list Z := bstr "block_driver_service running".
Definition DMR_FLT : list Z := bstr "block_driver_service faulted".
Definition DMR_STOP : list Z := bstr "block_driver_service stopped".
Definition DMR_INFO_FLT : list Z := bstr "kind=block_skeleton state=faulted".
Definition DMR_INFO_STOP : list Z := bstr "kind=block_skeleton state=stopped".
Definition DM_NET_LINE_RUN : list Z :=
  bstr "driver name=net_driver_service state=running kind=network_synthetic" ++ [10].
Definition DM_NET_LINE_FLT : list Z :=
  bstr "driver name=net_driver_service state=faulted kind=network_synthetic" ++ [10].
Definition DM_NET_LINE_STOP : list Z :=
  bstr "driver name=net_driver_service state=stopped kind=network_synthetic" ++ [10].
Definition DM_NET_STARTED : list Z := bstr "DRIVER started=net_driver_service" ++ [10].
Definition DMR_RESTARTED : list Z := bstr "restarted".
Definition DM_NET_OBSERVED : list Z := bstr "DRIVER_MANAGER observed=fault driver=net_driver_service" ++ [10].
Definition DM_NET_FAULTED : list Z := bstr "NET_DRIVER state=faulted" ++ [10].
Definition DM_NET_RESTARTED : list Z := bstr "NET_DRIVER restarted=net_driver_service" ++ [10].
Definition DMR_NET_FAULTED : list Z := bstr "OK network fault contained".
Definition DMR_NET_RESTARTED : list Z := bstr "OK restarted".
Definition DMR_NET_NOTRUN : list Z := bstr "ERR driver_down".
Definition DMR_NET_RESTART_ERR : list Z := bstr "ERR unsupported".
Definition DMR_RESTART_ERR : list Z := bstr "error: cannot restart".
Definition DMR_FAULTED : list Z := bstr "faulted (contained)".
Definition DMR_FAULTREQ : list Z := bstr "fault requested".
Definition DMR_NOTRUN : list Z := bstr "driver not running".
Definition DMR_BADCMD : list Z := bstr "unknown driver command".
Definition DM_Q_STATUS : list Z := bstr "STATUS".
Definition DM_Q_FAULT : list Z := bstr "FAULT".
Definition DMC_LIST : list Z := bstr "drivers".
Definition DMC_INFO : list Z := bstr "driver info block".
Definition DMC_RESTART : list Z := bstr "driver restart block".
Definition DMC_FAULT : list Z := bstr "driver fault block".
Definition M_BANNER : list Z := bstr "AxiomRT shell ready (evaluation stage, no certification claim)" ++ [10].
Definition M_PROMPT : list Z := bstr "axiom> ".
Definition M_HELP : list Z :=
  bstr "commands: help version tasks faults ipc caps memory uptime events" ++ [10] ++
  bstr "          run demo | kill <idx> | restart <idx> | clear | shutdown" ++ [10] ++
  bstr "          drivers | driver <info|restart|fault> block" ++ [10] ++
  bstr "          bin | app <load|unload|state> <name> | run loaded <name>" ++ [10] ++
  bstr "          net <status|stats|send-test|rx-count|fault|restart>" ++ [10].
Definition M_VERSION : list Z := bstr "AxiomRT v1.7-minimal-network-service RISC-V 64 (QEMU eval)" ++ [10].
Definition M_UNKNOWN : list Z := bstr "unknown command (try: help)" ++ [10].
Definition M_ERR : list Z := bstr "error" ++ [10].
Definition M_OK : list Z := bstr "ok" ++ [10].
Definition M_DEMO : list Z := bstr "demo: starting faulty_task (watch containment + recovery)" ++ [10].
Definition M_CLEAR : list Z := [27] ++ bstr "[2J" ++ [27] ++ bstr "[H".
Definition M_BYE : list Z := bstr "shutting down" ++ [10].
Definition C_HELP : list Z := bstr "help".
Definition C_VERSION : list Z := bstr "version".
Definition C_TASKS : list Z := bstr "tasks".
Definition C_FAULTS : list Z := bstr "faults".
Definition C_IPC : list Z := bstr "ipc".
Definition C_CAPS : list Z := bstr "caps".
Definition C_MEMORY : list Z := bstr "memory".
Definition C_UPTIME : list Z := bstr "uptime".
Definition C_EVENTS : list Z := bstr "events".
Definition C_RUN_DEMO : list Z := bstr "run demo".
Definition C_BIN : list Z := bstr "bin".
Definition C_APPLOAD : list Z := bstr "app load ".
Definition C_APPUNLOAD : list Z := bstr "app unload ".
Definition C_APPSTATE : list Z := bstr "app state ".
Definition C_RUNLOADED : list Z := bstr "run loaded ".
Definition C_DRIVERS : list Z := bstr "drivers".
Definition C_DRIVERSP : list Z := bstr "driver ".
Definition C_NET_STATUS : list Z := bstr "net status".
Definition C_NET_STATS : list Z := bstr "net stats".
Definition C_NET_SEND : list Z := bstr "net send-test".
Definition C_NET_RX : list Z := bstr "net rx-count".
Definition C_NET_FAULT : list Z := bstr "net fault".
Definition C_NET_RESTART : list Z := bstr "net restart".
Definition C_NET_PREFIX : list Z := bstr "net ".
Definition C_STORI : list Z := bstr "storage info".
Definition C_STORR : list Z := bstr "storage read ".
Definition C_LS : list Z := bstr "ls".
Definition C_LSSP : list Z := bstr "ls ".
Definition C_CATSP : list Z := bstr "cat ".
Definition C_APPS : list Z := bstr "apps".
Definition C_APPINFO : list Z := bstr "app info ".
Definition C_RUNSP : list Z := bstr "run ".
Definition C_KILL : list Z := bstr "kill ".
Definition C_RESTART : list Z := bstr "restart ".
Definition C_CLEAR : list Z := bstr "clear".
Definition C_SHUTDOWN : list Z := bstr "shutdown".
