(* ===== verification/UserProg.v ===== *)
(** * Programs of the U-mode services

    The services of [kernel/src/arch/riscv64/os_boot.rs] are loops of system
    calls over raw-pointer buffers on their own stacks.  A program here is a
    tree of calls: one node per [ecall], the continuation taking the kernel's
    answer (the value in [a0] and the bytes stored at the pointer passed).
    The tree of one turn of a service's [loop] is finite.

    A buffer is a list of bytes that may be uninitialised ([MaybeUninit]); a
    pointer is what lies between it and the end of its object.  Reading or
    writing outside the object, reading a byte never written and a
    subtraction below zero are [Panic] in a pure function and [PWild] in a
    program.

    [uwp] is the weakest precondition of a program over the calls it makes,
    against every answer the kernel's contract [answers] allows. *)

From stdpp Require Import strings base decidable numbers option tactics list.
From S2P Require Import Prelude Bytes.
Local Open Scope Z_scope.

(** ** Buffers and pointers *)

Abbreviation ptr := (list (option Z)).

(** A message constant of the user region, and a fresh stack buffer. *)
Definition stat (m : list Z) : ptr := Some <$> m.
Definition uninit (n : nat) : ptr := replicate n None.

(** [p.add(i)] *)
Definition padd (p : ptr) (i : nat) : outcome ptr :=
  if decide (i <= length p)%nat then mret (drop i p) else Panic.
(** [read_volatile(p.add(i))] and [write_volatile(p.add(i), b)] *)
Definition rd (p : ptr) (i : nat) : outcome Z :=
  match p !! i with Some (Some b) => mret b | _ => Panic end.
Definition wr (p : ptr) (i : nat) (b : Z) : outcome ptr :=
  if decide (i < length p)%nat then mret (<[i := Some b]> p) else Panic.
(** [n - m] of [usize] *)
Definition usub (n m : nat) : outcome nat :=
  if decide (m <= n)%nat then mret (n - m)%nat else Panic.

(** The [n] bytes at a pointer, as the kernel reads them. *)
Fixpoint rdn (p : ptr) (n : nat) {struct n} : outcome (list Z) :=
  match n, p with
  | O, _ => mret []
  | S n, Some b :: p => l ← rdn p n; mret (b :: l)
  | S _, _ => Panic
  end.

(** The kernel stores [d] at a pointer. *)
Definition fill (p : ptr) (d : list Z) : outcome ptr :=
  if decide (length d <= length p)%nat then mret ((Some <$> d) ++ drop (length d) p) else Panic.

(** ** Calls, answers, programs *)

(** A system call with the memory its pointer argument designates: the bytes
    sent, or the room for the answer. *)
Inductive call :=
| UYield
| UExit
| USend (cap : Z) (bytes : list Z)
| URecv (cap : Z) (max : nat)
| UFaultAck (decision : Z)
| UTaskStart (index : Z)
| UConWrite (bytes : list Z)
| UConRead (max : nat)
| UInfo (kind : Z) (max : nat) (arg : Z)
| UTaskKill (slot : Z)
| UTaskRestart (slot : Z)
| UShutdown
| UDeviceInfo (cap : Z) (max : nat)
| UMmioRead (cap offset width : Z)
| UMmioWrite (cap offset width value : Z)
| UDmaRead (cap offset width : Z)
| UDmaWrite (cap offset width value : Z)
| UIrqRaise (cap : Z).
#[export] Instance call_eq_dec : EqDecision call.
Proof. solve_decision. Defined.

Record answer := mkAns { ret : Z; data : list Z }.

Inductive prog (A : Type) : Type :=
| PRet (a : A)
| PCall (c : call) (k : answer -> prog A)
| PWild (** undefined behaviour *)
| PDie (** a deliberate fault or endless loop: the task never continues *).
Arguments PRet {A} a.
Arguments PCall {A} c k.
Arguments PWild {A}.
Arguments PDie {A}.

#[export] Instance prog_ret : MRet prog := @PRet.
Fixpoint prog_bind_ {A B} (f : A -> prog B) (p : prog A) : prog B :=
  match p with
  | PRet a => f a
  | PCall c k => PCall c (fun a => prog_bind_ f (k a))
  | PWild => PWild
  | PDie => PDie
  end.
#[export] Instance prog_bind : MBind prog := @prog_bind_.

Definition ulift {A} (o : outcome A) : prog A :=
  match o with Val a => PRet a | Panic => PWild end.

(** [sys3]/[sys4] with no memory argument: the result. *)
Definition sys (c : call) : prog Z := PCall c (fun a => PRet (ret a)).
(** The kernel reads [len] bytes at [p]. *)
Definition sys_in (c : list Z -> call) (p : ptr) (len : nat) : prog Z :=
  bs ← ulift (rdn p len); sys (c bs).
(** The kernel writes at the start of [buf]. *)
Definition sys_out (c : call) (buf : ptr) : prog (Z * ptr) :=
  PCall c (fun a => b ← ulift (fill buf (data a)); PRet (ret a, b)).

(** The system call number of each call. *)
Definition sysno (c : call) : Z :=
  match c with
  | UYield => 1 | UExit => 2 | USend _ _ => 3 | URecv _ _ => 4 | UFaultAck _ => 7
  | UTaskStart _ => 8 | UConWrite _ => 9 | UConRead _ => 10 | UInfo _ _ _ => 11
  | UTaskKill _ => 12 | UTaskRestart _ => 13 | UShutdown => 14 | UDeviceInfo _ _ => 15
  | UMmioRead _ _ _ => 16 | UMmioWrite _ _ _ _ => 17 | UDmaRead _ _ _ => 18
  | UDmaWrite _ _ _ _ => 19 | UIrqRaise _ => 20
  end.

(** [n] turns of a service's [loop]. *)
Fixpoint turns {S} (turn : S -> prog S) (n : nat) (s : S) : prog S :=
  match n with O => PRet s | S n => s' ← turn s; turns turn n s' end.

(** Run against given answers: the calls made, and how it ended. *)
Inductive ending (A : Type) := EDone (a : A) | EWild | EDied | EWaiting (c : call).
Arguments EDone {A} a.
Arguments EWild {A}.
Arguments EDied {A}.
Arguments EWaiting {A} c.
Fixpoint uexec {A} (p : prog A) (ans : list answer) : list call * ending A :=
  match p with
  | PRet a => ([], EDone a)
  | PWild => ([], EWild)
  | PDie => ([], EDied)
  | PCall c k =>
      match ans with
      | [] => ([], EWaiting c)
      | a :: ans => let '(t, e) := uexec (k a) ans in (c :: t, e)
      end
  end.

(** ** The kernel's contract and the services' obligations *)

(** The room a call offers for the answer's bytes. *)
Definition room (c : call) : option nat :=
  match c with
  | URecv _ max | UConRead max | UInfo _ max _ | UDeviceInfo _ max => Some max
  | _ => None
  end.

(** A positive result of a reading call counts the bytes stored, which fit. *)
Definition answers (c : call) (a : answer) : Prop :=
  - 2 ^ 63 <= ret a < 2 ^ 63 /\ bytes_ok (data a) /\
  match room c with
  | Some max => Z.of_nat (length (data a)) = Z.max 0 (ret a) /\ (length (data a) <= max)%nat
  | None => data a = []
  end.

(** The sizes the kernel refuses: a service never passes them. *)
Definition call_ok (c : call) : Prop :=
  match c with
  | USend _ bs => (length bs <= 128)%nat
  | URecv _ max | UConRead max => (max <= 128)%nat
  | UConWrite bs => (length bs <= 256)%nat
  | UInfo _ max _ | UDeviceInfo _ max => (max <= 768)%nat
  | _ => True
  end.

Abbreviation trace := (list (call * answer)).

Fixpoint uwp {A} (p : prog A) (Q : A -> trace -> Prop) (D : trace -> Prop) : Prop :=
  match p with
  | PRet a => Q a []
  | PCall c k => call_ok c /\ forall a, answers c a ->
      uwp (k a) (fun x t => Q x ((c, a) :: t)) (fun t => D ((c, a) :: t))
  | PWild => False
  | PDie => D []
  end.

(** Never wild, whatever the kernel answers. *)
Definition usafe {A} (p : prog A) (Inv : A -> Prop) : Prop :=
  uwp p (fun a _ => Inv a) (fun _ => True).

(** ** Rules *)

Lemma uwp_mono {A} (p : prog A) (Q Q' : A -> trace -> Prop) (D D' : trace -> Prop) :
  uwp p Q D -> (forall a t, Q a t -> Q' a t) -> (forall t, D t -> D' t) -> uwp p Q' D'.
Proof.
  revert Q Q' D D'; induction p as [a|c k IH| |]; intros Q Q' D D' H HQ HD; cbn [uwp] in *; eauto.
  destruct H as [Hc H]. split; [done|]. intros a Ha. eapply IH; [by apply H|..]; eauto.
Qed.

Lemma uwp_bind {A B} (p : prog A) (f : A -> prog B) Q D :
  uwp p (fun a t => uwp (f a) (fun b t' => Q b (t ++ t')) (fun t' => D (t ++ t'))) D ->
  uwp (p ≫= f) Q D.
Proof.
  unfold mbind, prog_bind. revert Q D; induction p as [a|c k IH| |]; intros Q D H; cbn [uwp prog_bind_] in *; eauto.
  destruct H as [Hc H]. split; [done|]. intros a Ha. apply IH. by apply H.
Qed.

Lemma uwp_ulift {A} (o : outcome A) x Q D : o = Val x -> Q x [] -> uwp (ulift o) Q D.
Proof. by intros ->. Qed.

Lemma uwp_sys c Q D : call_ok c -> (forall a, answers c a -> Q (ret a) [(c, a)]) -> uwp (sys c) Q D.
Proof. intros Hc H. split; [done|]. intros a Ha. cbn. by apply H. Qed.

Lemma usafe_bind {A B} (p : prog A) (f : A -> prog B) (I : A -> Prop) (J : B -> Prop) :
  usafe p I -> (forall a, I a -> usafe (f a) J) -> usafe (p ≫= f) J.
Proof.
  intros Hp Hf. apply uwp_bind. eapply uwp_mono; [exact Hp| |done]. intros a t Ha. by apply Hf.
Qed.
Lemma usafe_mono {A} (p : prog A) (I J : A -> Prop) : usafe p I -> (forall a, I a -> J a) -> usafe p J.
Proof. intros H HI. eapply uwp_mono; [exact H|intros a t; apply HI|done]. Qed.
Lemma usafe_ret {A} (a : A) (I : A -> Prop) : I a -> usafe (PRet a) I.
Proof. done. Qed.
Lemma usafe_ulift {A} (o : outcome A) x (I : A -> Prop) : o = Val x -> I x -> usafe (ulift o) I.
Proof. by intros ->. Qed.
Lemma usafe_sys c (I : Z -> Prop) : call_ok c -> (forall r, I r) -> usafe (sys c) I.
Proof. intros Hc H. apply uwp_sys; [done|]. intros; apply H. Qed.

Lemma usafe_turns {S} (turn : S -> prog S) (I : S -> Prop) n s :
  (forall s, I s -> usafe (turn s) I) -> I s -> usafe (turns turn n s) I.
Proof.
  intros Ht. revert s; induction n as [|n IH]; intros s Hs; cbn [turns]; [done|].
  eapply usafe_bind; [by apply Ht|]. intros s' Hs'. by apply IH.
Qed.

(** An invariant of the state and of the calls made so far. *)
Lemma uwp_turns {S} (turn : S -> prog S) (I : S -> trace -> Prop) n s T :
  (forall s T, I s T -> uwp (turn s) (fun s' t => I s' (T ++ t)) (fun _ => False)) -> I s T ->
  uwp (turns turn n s) (fun s' t => I s' (T ++ t)) (fun _ => False).
Proof.
  intros Ht. revert s T; induction n as [|n IH]; intros s T Hs; cbn [turns uwp]; [by rewrite app_nil_r|].
  apply uwp_bind. eapply uwp_mono; [by apply Ht| |done]. intros s' t Hs'.
  eapply uwp_mono; [by apply (IH s' (T ++ t))| |done]. intros s2 t2. by rewrite app_assoc.
Qed.

(** The precondition speaks about real executions. *)
Lemma uwp_uexec {A} (p : prog A) Q D ans cs e : uwp p Q D -> uexec p ans = (cs, e) ->
  Forall2 answers cs (take (length cs) ans) ->
  match e with
  | EDone a => Q a (zip cs ans)
  | EDied => D (zip cs ans)
  | EWaiting c => call_ok c
  | EWild => False
  end.
Proof.
  revert Q D ans cs e; induction p as [a|c k IH| |]; intros Q D ans cs e H E F; cbn [uwp uexec] in *; simplify_eq; try done.
  destruct H as [Hc H]. destruct ans as [|a ans]; simplify_eq; [done|].
  destruct (uexec (k a) ans) as [t e'] eqn:E'. simplify_eq. cbn [length take] in F. inversion F; subst.
  specialize (IH a _ _ ans t e (H a ltac:(done)) E' ltac:(done)). by destruct e.
Qed.

(** A finished run with its calls and answers. *)
Definition runs {A} (p : prog A) (t : trace) (x : A) : Prop :=
  uexec p t.*2 = (t.*1, EDone x) /\ Forall (fun ca => answers ca.1 ca.2) t.

Lemma uwp_runs {A} (p : prog A) Q D t x : uwp p Q D -> runs p t x -> Q x t.
Proof.
  intros H [E F]. pose proof (uwp_uexec p Q D _ _ _ H E) as Hx. cbn in Hx.
  rewrite zip_fst_snd in Hx. apply Hx. rewrite take_ge by (by rewrite !length_fmap).
  clear -F. induction F; cbn; by constructor.
Qed.

(** The kernel can answer any call, so a run can always be completed, and
    what holds of the completed runs holds of those still waiting. *)
Lemma answers_zero c : answers c (mkAns 0 []).
Proof. split; [by vm_compute|]. split; [constructor|]. destruct (room c); [|done]. cbn. lia. Qed.
Lemma uwp_ends {A} (p : prog A) Q : uwp p Q (fun _ => False) -> exists x t, Q x t.
Proof.
  revert Q. induction p as [a|c k IH| |]; intros Q H; cbn [uwp] in H; [by exists a, []| |done|done].
  destruct H as [_ H]. destruct (IH _ _ (H _ (answers_zero c))) as (x & t & Hq). eauto.
Qed.
Lemma uwp_waiting {A} (p : prog A) Q ans cs c : uwp p Q (fun _ => False) -> uexec p ans = (cs, EWaiting c) ->
  Forall2 answers cs (take (length cs) ans) -> exists x a t, Q x (zip cs ans ++ (c, a) :: t).
Proof.
  revert Q ans cs. induction p as [a|c' k IH| |]; intros Q ans cs H E F; cbn [uwp uexec] in *; try done.
  destruct H as [_ H]. destruct ans as [|a ans].
  - injection E as <- <-. destruct (uwp_ends _ _ (H _ (answers_zero c'))) as (x & t & Hq). by exists x, (mkAns 0 []), t.
  - destruct (uexec (k a) ans) as [cs' e] eqn:E'. injection E as <- ->. cbn [length take] in F. inversion F; subst.
    destruct (IH a _ ans cs' (H a ltac:(done)) E' ltac:(done)) as (x & b & t & Hq). by exists x, b, t.
Qed.

(** Concrete runs: a received message, the trace under given answers, and a
    proof that the answers keep the contract. *)
Definition says (m : list Z) : answer := mkAns (Z.of_nat (length m)) m.
Definition done_trace {A} (p : prog A) (ans : list answer) : trace := zip (uexec p ans).1 ans.
Ltac all_answered :=
  repeat (constructor; [split; [by vm_compute|split;
    [repeat (constructor; [by vm_compute|]); constructor|by vm_compute; repeat constructor]]|]); constructor.
