(* ===== verification/UserLib.v ===== *)
(** * The services' shared helpers

    The U-mode support functions of [kernel/src/arch/riscv64/os_boot.rs]:
    console output in chunks, byte comparison, decimal and hexadecimal
    parsing, bounded copies into reply buffers and decimal output.  Each has
    a specification on byte strings, which the services' proofs use. *)

From stdpp Require Import strings base decidable numbers option tactics list.
From S2P Require Import Prelude Bytes Monitor UserText UserProg.
Local Open Scope Z_scope.

Definition u64_MAX : Z := 2 ^ 64 - 1.
Definition u32_MAX : Z := 2 ^ 32 - 1.

(** [while off < len]: at most one turn per byte. *)
Fixpoint uwrite_loop (fuel : nat) (p : ptr) (off len : nat) : prog () :=
  match fuel with
  | O => mret tt
  | S fuel =>
      if decide (off < len)%nat then
        let chunk := Nat.min (len - off) 256 in
        q ← ulift (padd p off);
        r ← sys_in UConWrite q chunk;
        if r <=? 0 then mret tt else uwrite_loop fuel p (off + chunk) len
      else mret tt
  end.
Definition uwrite_ptr (p : ptr) (len : nat) : prog () := uwrite_loop len p 0 len.

(** [uput!] *)
Definition uput (m : list Z) : prog () := uwrite_ptr (stat m) (length m).

(** [while i < n] from [i = n - todo] *)
Fixpoint eqs_loop (p q : ptr) (i todo : nat) : outcome bool :=
  match todo with
  | O => mret true
  | S todo =>
      a ← rd p i; b ← rd q i;
      if negb (a =? b) then mret false else eqs_loop p q (i + 1) todo
  end.
Definition eqs (p : ptr) (n : nat) (q : ptr) (m : nat) : outcome bool :=
  if negb (bool_decide (n = m)) then mret false else eqs_loop p q 0 n.
Definition starts_with (p : ptr) (n : nat) (q : ptr) (m : nat) : outcome bool :=
  if decide (n < m)%nat then mret false else eqs p m q m.

(** Comparison with a message constant, the form every service uses. *)
Definition is_cmd (p : ptr) (n : nat) (m : list Z) : prog bool :=
  ulift (eqs p n (stat m) (length m)).
Definition has_prefix (p : ptr) (n : nat) (m : list Z) : prog bool :=
  ulift (starts_with p n (stat m) (length m)).

Definition is_digit (b : Z) : bool := (48 <=? b) && (b <=? 57).

Fixpoint parse_dec_loop (p : ptr) (i todo : nat) (v : Z) : outcome Z :=
  match todo with
  | O => mret v
  | S todo =>
      b ← rd p i;
      if negb (is_digit b) then mret u64_MAX
      else parse_dec_loop p (i + 1) todo (wrapping_add 64 (wrapping_mul 64 v 10) (b - 48))
  end.
Definition parse_dec (p : ptr) (from n : nat) : outcome Z :=
  if decide (n <= from)%nat then mret u64_MAX else parse_dec_loop p from (n - from) 0.

Fixpoint parse_dec_stop_loop (p : ptr) (i todo : nat) (v : Z) (any : bool) : outcome (Z * nat) :=
  match todo with
  | O => mret (if any then v else u64_MAX, i)
  | S todo =>
      b ← rd p i;
      if (b <? 48) || (57 <? b) then mret (if any then v else u64_MAX, i)
      else parse_dec_stop_loop p (i + 1) todo
             (wrapping_add 64 (wrapping_mul 64 v 10) (b - 48)) true
  end.
Definition parse_dec_stop (p : ptr) (from n : nat) : outcome (Z * nat) :=
  parse_dec_stop_loop p from (n - from) 0 false.

(** [while i < len && q < limit] copying into [dst] from offset [q]: the
    loop of [ld_append] (63), [nd_copy] (64), [storage_send_block] (64) and
    of the shell's request builders (63). *)
Fixpoint copy_bounded (limit : nat) (dst : ptr) (q : nat) (src : ptr) (i todo : nat)
    : outcome (ptr * nat) :=
  match todo with
  | O => mret (dst, q)
  | S todo =>
      if decide (q < limit)%nat then
        b ← rd src i; dst ← wr dst q b;
        copy_bounded limit dst (q + 1) src (i + 1) todo
      else mret (dst, q)
  end.

(** [while q < len] copying a prefix with no other bound. *)
Fixpoint copy_prefix (dst : ptr) (src : ptr) (q todo : nat) : outcome (ptr * nat) :=
  match todo with
  | O => mret (dst, q)
  | S todo => b ← rd src q; dst ← wr dst q b; copy_prefix dst src (q + 1) todo
  end.

Definition ld_append (dst : ptr) (at_ : nat) (src : ptr) (len : nat) : outcome (ptr * nat) :=
  copy_bounded 63 dst at_ src 0 len.
Definition nd_copy (dst : ptr) (at_ : nat) (src : ptr) (len : nat) : outcome (ptr * nat) :=
  copy_bounded 64 dst at_ src 0 len.

(** [while value > 0 && n < 20]: the digits, least significant first. *)
Fixpoint nd_digits (room : nat) (tmp : ptr) (n : nat) (value : Z) : outcome (ptr * nat) :=
  match room with
  | O => mret (tmp, n)
  | S room =>
      if 0 <? value then
        tmp ← wr tmp n (48 + value mod 10);
        nd_digits room tmp (n + 1) (value / 10)
      else mret (tmp, n)
  end.
(** [while n > 0 && at < 64]: copied out in reverse. *)
Fixpoint nd_reverse (dst tmp : ptr) (n at_ : nat) : outcome (ptr * nat) :=
  match n with
  | O => mret (dst, at_)
  | S n =>
      if decide (at_ < 64)%nat then
        b ← rd tmp n; dst ← wr dst at_ b; nd_reverse dst tmp n (at_ + 1)
      else mret (dst, at_)
  end.
Definition nd_dec (dst : ptr) (at_ : nat) (value : Z) : outcome (ptr * nat) :=
  if value =? 0 then
    if decide (at_ < 64)%nat then dst ← wr dst at_ 48; mret (dst, (at_ + 1)%nat)
    else mret (dst, at_)
  else
    r ← nd_digits 20 (uninit 20) 0 value;
    nd_reverse dst r.1 r.2 at_.

(** ** Specifications on byte strings *)

(** The bytes [m] lie at the pointer. *)
Definition holds (p : ptr) (m : list Z) : Prop := exists r, p = stat m ++ r.

(** A buffer of [cap] bytes filled with [m] so far: the offset is its length. *)
Record built (cap : nat) (r : ptr * nat) (m : list Z) : Prop := {
  bt_at : r.2 = length m;
  bt_holds : holds r.1 m;
  bt_cap : length r.1 = cap
}.

Lemma length_stat m : length (stat m) = length m.
Proof. apply length_fmap. Qed.
Lemma holds_stat m : holds (stat m) m.
Proof. exists []. by rewrite app_nil_r. Qed.
Lemma holds_length p m : holds p m -> (length m <= length p)%nat.
Proof. intros [r ->]. rewrite length_app, length_stat. lia. Qed.
Lemma holds_take p m n : holds p m -> holds p (take n m).
Proof.
  intros [r ->]. exists (stat (drop n m) ++ r). rewrite app_assoc. f_equal. unfold stat.
  by rewrite <- fmap_app, take_drop.
Qed.
Lemma holds_drop p m i : holds p m -> holds (drop i p) (drop i m).
Proof.
  intros [r ->]. destruct (decide (i <= length m)%nat).
  - exists r. rewrite drop_app_le by (rewrite length_stat; done). unfold stat. by rewrite fmap_drop.
  - rewrite (drop_ge m) by lia. eexists. reflexivity.
Qed.
Lemma holds_nil p : holds p [].
Proof. by exists p. Qed.
#[export] Hint Resolve holds_stat holds_nil : axiomrt.

Lemma rd_holds p m i b : holds p m -> m !! i = Some b -> rd p i = Val b.
Proof.
  intros [r ->] H. unfold rd. rewrite lookup_app_l by (rewrite length_stat; by eapply lookup_lt_Some).
  unfold stat. by rewrite list_lookup_fmap, H.
Qed.
Lemma padd_holds p m i : holds p m -> (i <= length m)%nat ->
  padd p i = Val (drop i p) /\ holds (drop i p) (drop i m).
Proof.
  intros H Hi. pose proof (holds_length _ _ H). unfold padd. rewrite decide_True by lia.
  split; [done|by apply holds_drop].
Qed.
Lemma rdn_holds p m n : holds p m -> (n <= length m)%nat -> rdn p n = Val (take n m).
Proof.
  revert p m; induction n as [|n IH]; intros p m H Hn; [done|].
  destruct m as [|b m]; cbn in Hn; [lia|]. destruct H as [r ->].
  change (stat (b :: m) ++ r) with (Some b :: (stat m ++ r)). cbn [rdn].
  rewrite (IH (stat m ++ r) m); [done|by exists r|lia].
Qed.
Lemma fill_holds p d : (length d <= length p)%nat ->
  exists p', fill p d = Val p' /\ holds p' d /\ length p' = length p.
Proof.
  intros H. unfold fill. rewrite decide_True by done. eexists. split; [done|].
  split; [by eexists|]. rewrite length_app, length_fmap, length_drop. lia.
Qed.

Lemma eqs_loop_holds p q m l i todo : holds p m -> holds q l ->
  (i + todo <= length m)%nat -> (i + todo <= length l)%nat ->
  eqs_loop p q i todo = Val (bool_decide (take todo (drop i m) = take todo (drop i l))).
Proof.
  intros Hp Hq. revert i; induction todo as [|todo IH]; intros i H1 H2; [done|].
  destruct (lookup_lt_is_Some_2 m i) as [a Ha]; [lia|].
  destruct (lookup_lt_is_Some_2 l i) as [b Hb]; [lia|].
  cbn [eqs_loop]. rewrite (rd_holds p m i a), (rd_holds q l i b) by done. cbn.
  rewrite (drop_S _ _ _ Ha), (drop_S _ _ _ Hb). cbn [take].
  destruct (Z.eqb_spec a b) as [->|Hn]; cbn.
  - rewrite Nat.add_1_r, IH by lia. f_equal. apply bool_decide_ext. split; congruence.
  - rewrite bool_decide_eq_false_2; [done|congruence].
Qed.

Lemma eqs_holds p m q : holds p m ->
  eqs p (length m) (stat q) (length q) = Val (bool_decide (m = q)).
Proof.
  intros H. unfold eqs. case_bool_decide as E; cbn.
  - rewrite (eqs_loop_holds p (stat q) m q) by (eauto with axiomrt || lia).
    f_equal. apply bool_decide_ext. by rewrite !drop_0, !take_ge by lia.
  - by rewrite bool_decide_eq_false_2 by congruence.
Qed.
Lemma starts_with_holds p m q : holds p m ->
  starts_with p (length m) (stat q) (length q) = Val (bool_decide (q `prefix_of` m)).
Proof.
  intros H. unfold starts_with. case_decide as E.
  - rewrite bool_decide_eq_false_2; [done|]. intros Hp%prefix_length. lia.
  - unfold eqs. rewrite bool_decide_eq_true_2 by done. cbn.
    rewrite (eqs_loop_holds p (stat q) m q) by (eauto with axiomrt || lia).
    rewrite !drop_0. f_equal. apply bool_decide_ext. rewrite (take_ge q) by lia. split.
    + intros <-. exists (drop (length q) m). by rewrite take_drop.
    + intros [k ->]. by rewrite take_app_length.
Qed.

(** A read at the first [n] bytes of a longer message. *)
Lemma eqs_holds_n p m n q : holds p m -> n = length m ->
  eqs p n (stat q) (length q) = Val (bool_decide (m = q)).
Proof. intros H ->. by apply eqs_holds. Qed.
Lemma starts_with_holds_n p m n q : holds p m -> n = length m ->
  starts_with p n (stat q) (length q) = Val (bool_decide (q `prefix_of` m)).
Proof. intros H ->. by apply starts_with_holds. Qed.

(** ** Bounded copies *)

Lemma wr_built cap dst q m b : built cap (dst, q) m -> (q < cap)%nat ->
  exists dst', wr dst q b = Val dst' /\ built cap (dst', (q + 1)%nat) (m ++ [b]).
Proof.
  intros [Hq [r Hr] Hc] Hlt. cbn in *. unfold wr. rewrite decide_True by lia.
  eexists. split; [done|]. subst q. split; cbn.
  - rewrite length_app. done.
  - subst dst. rewrite length_app, length_stat in Hc. destruct r as [|x r]; cbn in Hc; [lia|].
    exists r. rewrite insert_app_r_alt by (rewrite length_stat; done).
    rewrite length_stat, Nat.sub_diag. cbn. unfold stat. rewrite fmap_app, <- app_assoc. done.
  - by rewrite length_insert.
Qed.

Lemma copy_bounded_built limit cap dst q src m s i todo :
  built cap (dst, q) m -> (length m <= limit)%nat -> (limit <= cap)%nat ->
  holds src s -> (i + todo <= length s)%nat ->
  exists r, copy_bounded limit dst q src i todo = Val r /\
    built cap r (take limit (m ++ take todo (drop i s))).
Proof.
  intros Hb Hm Hl Hs. revert dst q m i Hb Hm. induction todo as [|todo IH]; intros dst q m i Hb Hm Hi; cbn [copy_bounded].
  { eexists. split; [done|]. cbn [take]. by rewrite app_nil_r, take_ge by done. }
  destruct (lookup_lt_is_Some_2 s i) as [b Hb']; [lia|].
  pose proof (bt_at _ _ _ Hb) as Hq. cbn in Hq. case_decide as Hlt.
  - rewrite (rd_holds src s i b) by done. cbn.
    destruct (wr_built cap dst q m b Hb) as (dst' & -> & Hb2); [lia|]. cbn.
    destruct (IH dst' (q + 1)%nat (m ++ [b]) (i + 1)%nat Hb2) as (r & -> & Hr); [rewrite length_app; cbn; lia|lia|].
    exists r. split; [done|]. rewrite (drop_S _ _ _ Hb'). cbn [take].
    by rewrite <- app_assoc, Nat.add_1_r in Hr.
  - eexists. split; [done|]. rewrite take_app_le by lia. by rewrite take_ge by lia.
Qed.

(** Copying a whole constant after what is there. *)
Lemma copy_all_built limit cap dst q src m s :
  built cap (dst, q) m -> (length m <= limit)%nat -> (limit <= cap)%nat -> holds src s ->
  exists r, copy_bounded limit dst q src 0 (length s) = Val r /\ built cap r (take limit (m ++ s)).
Proof.
  intros. destruct (copy_bounded_built limit cap dst q src m s 0 (length s)) as (r & E & Hr); try done.
  exists r. split; [done|]. by rewrite drop_0, (take_ge s) in Hr by lia.
Qed.

Lemma copy_prefix_built cap dst src m s todo :
  built cap (dst, length m) m -> m ++ take todo (drop (length m) s) = take (length m + todo) s ->
  holds src s -> (length m + todo <= length s)%nat -> (length m + todo <= cap)%nat ->
  exists r, copy_prefix dst src (length m) todo = Val r /\ built cap r (take (length m + todo) s).
Proof.
  revert dst m. induction todo as [|todo IH]; intros dst m Hb He Hs Hl Hc; cbn [copy_prefix].
  { eexists. split; [done|]. rewrite <- He. cbn. by rewrite app_nil_r. }
  destruct (lookup_lt_is_Some_2 s (length m)) as [b Hb']; [lia|].
  rewrite (rd_holds src s (length m) b) by done. cbn.
  destruct (wr_built cap dst (length m) m b Hb) as (dst' & -> & Hb2); [lia|]. cbn.
  assert (length (m ++ [b]) = length m + 1)%nat as Hm' by (rewrite length_app; done).
  destruct (IH dst' (m ++ [b])) as (r & E & Hr).
  - by rewrite Hm'.
  - rewrite (drop_S _ _ _ Hb') in He. cbn [take] in He.
    rewrite Hm', Nat.add_1_r, <- app_assoc. cbn. rewrite He. f_equal. lia.
  - done.
  - lia.
  - lia.
  - rewrite Hm' in E, Hr. exists r. split; [done|]. by replace (length m + S todo)%nat with (length m + 1 + todo)%nat by lia.
Qed.
Lemma copy_prefix_all cap dst src s : length dst = cap -> holds src s -> (length s <= cap)%nat ->
  exists r, copy_prefix dst src 0 (length s) = Val r /\ built cap r s.
Proof.
  intros Hd Hs Hc. destruct (copy_prefix_built cap dst src [] s (length s)) as (r & E & Hr); try done.
  - split; [done|by apply holds_nil|done].
  - exists r. split; [done|]. by rewrite take_ge in Hr by (cbn; lia).
Qed.

Lemma built_fresh cap dst : length dst = cap -> built cap (dst, 0%nat) [].
Proof. intros H. split; [done|apply holds_nil|done]. Qed.

(** ** Console output *)

(** The chunks a console write is split into, and what reaches the console
    when every write is accepted. *)
Definition con_bytes (t : trace) : list Z :=
  concat ((fun ca : call * answer => match ca.1 with UConWrite bs => bs | _ => [] end) <$> t).
Definition con_only (t : trace) : Prop :=
  Forall (fun ca : call * answer => exists bs, ca.1 = UConWrite bs) t.

Lemma uwp_sys_in c p m n Q D : holds p m -> (n <= length m)%nat -> call_ok (c (take n m)) ->
  (forall a, answers (c (take n m)) a -> Q (ret a) [(c (take n m), a)]) -> uwp (sys_in c p n) Q D.
Proof.
  intros Hp Hn Hc H. unfold sys_in. rewrite (rdn_holds _ _ _ Hp Hn). cbn. split; [done|].
  intros a Ha. by apply H.
Qed.

Lemma uwrite_loop_wp fuel p m off : holds p m -> (length m - off <= fuel)%nat -> (off <= length m)%nat ->
  uwp (uwrite_loop fuel p off (length m)) (fun _ t => con_only t /\
    (Forall (fun ca : call * answer => 0 < ret ca.2) t -> con_bytes t = drop off m)) (fun _ => False).
Proof.
  intros Hp. revert off; induction fuel as [|fuel IH]; intros off Hf Ho; cbn [uwrite_loop].
  { split; [constructor|]. intros _. by rewrite drop_ge by lia. }
  case_decide as Hlt; [|split; [constructor|]; intros _; by rewrite drop_ge by lia].
  destruct (padd_holds p m off Hp Ho) as [-> Hq]. cbn [ulift]. apply uwp_bind. cbn [uwp].
  set (chunk := Nat.min (length m - off) 256). apply uwp_bind.
  eapply uwp_sys_in; [exact Hq|rewrite length_drop; lia|cbn; rewrite length_take, length_drop; lia|].
  intros a _. cbn [ret]. destruct (Z.leb_spec (ret a) 0) as [Hr|Hr].
  - split; [repeat constructor; by eexists|]. intros F. inversion F; subst. cbn in *. lia.
  - eapply uwp_mono; [apply (IH (off + chunk)%nat); lia| |done]. intros _ t [Hc Hb]. cbn [app].
    split; [constructor; [by eexists|done]|]. intros F. inversion F; subst. unfold con_bytes. cbn.
    fold (con_bytes t). rewrite Hb by done. rewrite <- drop_drop. apply take_drop.
Qed.

Lemma uwrite_wp p m : holds p m ->
  uwp (uwrite_ptr p (length m)) (fun _ t => con_only t /\
    (Forall (fun ca : call * answer => 0 < ret ca.2) t -> con_bytes t = m)) (fun _ => False).
Proof.
  intros Hp. unfold uwrite_ptr. eapply uwp_mono; [apply uwrite_loop_wp; [done|lia..]| |done].
  cbn. intros _ t. by rewrite drop_0.
Qed.

(** Output before [k]: the console writes only lengthen the trace. *)
Lemma uwp_con {B} p m n (k : prog B) Q D : holds p m -> n = length m ->
  (forall b t tc, con_only tc -> Q b t -> Q b (tc ++ t)) -> uwp k Q (fun _ => False) ->
  uwp (uwrite_ptr p n ;; k) Q D.
Proof.
  intros Hp -> HQ Hk. apply uwp_bind. eapply uwp_mono; [by apply uwrite_wp| |done].
  intros _ tc [Hc _]. eapply uwp_mono; [exact Hk|intros b t; by apply HQ|done].
Qed.

Lemma uwrite_safe p m n (I : () -> Prop) : holds p m -> n = length m -> I tt -> usafe (uwrite_ptr p n) I.
Proof. intros Hp -> HI. eapply uwp_mono; [by apply uwrite_wp|by intros [] ?|done]. Qed.
Lemma uput_safe m (I : () -> Prop) : I tt -> usafe (uput m) I.
Proof. intros HI. by eapply uwrite_safe; [apply holds_stat|..]. Qed.

(** ** Calls on buffers *)

Lemma usafe_in c p m n (I : Z -> Prop) : holds p m -> (n <= length m)%nat -> call_ok (c (take n m)) ->
  (forall r, I r) -> usafe (sys_in c p n) I.
Proof. intros Hp Hn Hc HI. eapply uwp_sys_in; eauto. Qed.

(** A reading call: a positive result is the length of the message at the
    start of the buffer, whose size does not change. *)
Lemma uwp_out c b max Q D : room c = Some max -> (max <= length b)%nat -> call_ok c ->
  (forall a b', answers c a -> holds b' (data a) -> length b' = length b ->
     (0 < ret a -> Z.to_nat (ret a) = length (data a)) ->
     (length (data a) <= max)%nat -> Q (ret a, b') [(c, a)]) ->
  uwp (sys_out c b) Q D.
Proof.
  intros Hr Hb Hc H. split; [done|]. intros a Ha. pose proof Ha as (_ & _ & Hd). rewrite Hr in Hd.
  destruct Hd as [Hl Hm]. destruct (fill_holds b (data a)) as (b' & -> & Hh & Hlen); [lia|]. cbn.
  apply H; try done. lia.
Qed.
Lemma usafe_out c b max (I : Z * ptr -> Prop) : room c = Some max -> (max <= length b)%nat -> call_ok c ->
  (forall r b' m, holds b' m -> length b' = length b -> (length m <= max)%nat ->
     (0 < r -> Z.to_nat r = length m) -> I (r, b')) ->
  usafe (sys_out c b) I.
Proof. intros Hr Hb Hc H. eapply uwp_out; eauto. Qed.

Lemma is_cmd_wp p m n c Q D : holds p m -> n = length m -> Q (bool_decide (m = c)) [] ->
  uwp (is_cmd p n c) Q D.
Proof. intros Hp -> HQ. eapply uwp_ulift; [by apply eqs_holds|done]. Qed.
Lemma has_prefix_wp p m n c Q D : holds p m -> n = length m -> Q (bool_decide (c `prefix_of` m)) [] ->
  uwp (has_prefix p n c) Q D.
Proof. intros Hp -> HQ. eapply uwp_ulift; [by apply starts_with_holds|done]. Qed.

(** ** Decimal output *)

(** The digits of [v], least significant first. *)
Fixpoint rdigits (fuel : nat) (v : Z) : list Z :=
  match fuel with
  | O => []
  | S fuel => if 0 <? v then (48 + v mod 10) :: rdigits fuel (v / 10) else []
  end.

Lemma rdigits_dec fuel v acc : 0 < v -> reverse (rdigits fuel v) ++ acc = dec_digits fuel v acc.
Proof.
  revert v acc; induction fuel as [|fuel IH]; intros v acc Hv; [done|]. cbn [rdigits dec_digits].
  rewrite (proj2 (Z.ltb_lt 0 v)) by done. rewrite reverse_cons, <- app_assoc. cbn [app].
  destruct (Z.eqb_spec (v / 10) 0) as [Hz|Hz].
  - rewrite Hz. by destruct fuel.
  - apply IH. assert (0 <= v / 10) by (apply Z.div_pos; lia). lia.
Qed.
Lemma rdigits_length fuel v : (length (rdigits fuel v) <= fuel)%nat.
Proof. revert v; induction fuel; intros v; cbn; [done|]. case_match; cbn; [|lia]. specialize (IHfuel (v / 10)). lia. Qed.

Lemma nd_digits_built room tmp n value ds : built 20 (tmp, n) ds -> (n + room <= 20)%nat ->
  exists r, nd_digits room tmp n value = Val r /\ built 20 r (ds ++ rdigits room value).
Proof.
  revert tmp n value ds; induction room as [|room IH]; intros tmp n value ds Hb Hn; cbn [nd_digits rdigits].
  { eexists. split; [done|]. by rewrite app_nil_r. }
  case_match; [|eexists; split; [done|]; by rewrite app_nil_r].
  destruct (wr_built 20 tmp n ds (48 + value mod 10) Hb) as (tmp' & -> & Hb'); [lia|]. cbn.
  destruct (IH tmp' (n + 1)%nat (value / 10) _ Hb') as (r & -> & Hr); [lia|].
  exists r. split; [done|]. by rewrite <- app_assoc in Hr.
Qed.

Lemma nd_reverse_built dst tmp n at_ m ds : built 64 (dst, at_) m -> (length m <= 64)%nat ->
  holds tmp ds -> (n <= length ds)%nat ->
  exists r, nd_reverse dst tmp n at_ = Val r /\ built 64 r (take 64 (m ++ reverse (take n ds))).
Proof.
  revert dst at_ m; induction n as [|n IH]; intros dst at_ m Hb Hm Ht Hn; cbn [nd_reverse].
  { eexists. split; [done|]. cbn. by rewrite app_nil_r, take_ge. }
  destruct (lookup_lt_is_Some_2 ds n) as [b Hd]; [lia|].
  pose proof (bt_at _ _ _ Hb) as Hq. cbn in Hq. case_decide as Hlt.
  - rewrite (rd_holds tmp ds n b) by done. cbn.
    destruct (wr_built 64 dst at_ m b Hb) as (dst' & -> & Hb'); [lia|]. cbn.
    destruct (IH dst' (at_ + 1)%nat (m ++ [b]) Hb') as (r & -> & Hr); [rewrite length_app; cbn; lia|done|lia|].
    exists r. split; [done|]. rewrite (take_S_r _ _ _ Hd), reverse_snoc. by rewrite <- app_assoc in Hr.
  - eexists. split; [done|]. rewrite take_app_le by lia. by rewrite take_ge by lia.
Qed.

Lemma nd_dec_built dst at_ value m : built 64 (dst, at_) m -> (length m <= 64)%nat -> value ∈ᵤ 64 ->
  exists r, nd_dec dst at_ value = Val r /\ built 64 r (take 64 (m ++ dec value)).
Proof.
  intros Hb Hm [H0 _]. unfold nd_dec. pose proof (bt_at _ _ _ Hb) as Hq. cbn in Hq.
  destruct (Z.eqb_spec value 0) as [->|Hv].
  - change (dec 0) with [48]. case_decide as Hlt.
    + destruct (wr_built 64 dst at_ m 48 Hb) as (dst' & -> & Hb'); [lia|]. cbn. eexists. split; [done|].
      by rewrite take_ge by (rewrite length_app; cbn; lia).
    + eexists. split; [done|]. rewrite take_app_le by lia. by rewrite take_ge by lia.
  - destruct (nd_digits_built 20 (uninit 20) 0 value [] (built_fresh 20 (uninit 20) eq_refl)) as ([tmp n] & -> & Hd); [lia|].
    unfold mbind at 1, outcome_bind at 1. cbn [fst snd]. destruct Hd as [Hn Ht _]. cbn [fst snd app] in Hn, Ht.
    destruct (nd_reverse_built dst tmp n at_ m _ Hb Hm Ht) as (r & -> & Hr); [lia|].
    exists r. split; [done|]. unfold dec. rewrite <- (rdigits_dec 20 value []) by lia.
    rewrite Hn, (take_ge (rdigits 20 value)) in Hr by done. by rewrite app_nil_r.
Qed.

(** ** Parsing decimal numbers *)

(** The value of a digit string with the wrap-around of [u64]. *)
Definition wrap_value (v : Z) (ds : list Z) : Z :=
  foldl (fun v d => wrapping_add 64 (wrapping_mul 64 v 10) (d - 48)) v ds.

(** The longest digit prefix. *)
Fixpoint digits_of (l : list Z) : list Z :=
  match l with
  | [] => []
  | b :: l => if is_digit b then b :: digits_of l else []
  end.

Lemma digits_of_length l : (length (digits_of l) <= length l)%nat.
Proof. induction l; cbn; [done|]. case_match; cbn; lia. Qed.
Lemma digits_of_app ds l : Forall (fun b => is_digit b = true) ds ->
  (forall b l', l = b :: l' -> is_digit b = false) -> digits_of (ds ++ l) = ds.
Proof.
  intros Hd Hl. induction Hd as [|b ds Hb _ IH]; cbn.
  - destruct l as [|b l]; [done|]. cbn. by rewrite (Hl b l eq_refl).
  - by rewrite Hb, IH.
Qed.

Lemma parse_dec_stop_holds p m i : holds p m ->
  parse_dec_stop p i (length m) =
    let ds := digits_of (drop i m) in
    Val (match ds with [] => u64_MAX | _ => wrap_value 0 ds end, (i + length ds)%nat).
Proof.
  intros Hp. unfold parse_dec_stop.
  assert (forall todo i v any, todo = (length m - i)%nat ->
    parse_dec_stop_loop p i todo v any =
      let ds := digits_of (drop i m) in
      Val (if any || negb (bool_decide (ds = [])) then wrap_value v ds else u64_MAX, (i + length ds)%nat)) as H.
  { clear i. induction todo as [|todo IH]; intros i v any Ht; cbn [parse_dec_stop_loop].
    { rewrite drop_ge by lia. cbn. rewrite Nat.add_0_r. by destruct any. }
    destruct (lookup_lt_is_Some_2 m i) as [b Hb]; [lia|].
    rewrite (rd_holds p m i b) by done. rewrite (drop_S _ _ _ Hb). cbn.
    assert ((b <? 48) || (57 <? b) = negb (is_digit b)) as ->
      by (unfold is_digit; by rewrite negb_andb, !Z.leb_antisym, !negb_involutive).
    destruct (is_digit b) eqn:Ed; cbn.
    - rewrite Nat.add_1_r, IH by lia. cbn. rewrite orb_true_r, Nat.add_succ_r. done.
    - rewrite Nat.add_0_r. by destruct any. }
  rewrite H by done. cbn. by destruct (digits_of (drop i m)).
Qed.

Lemma parse_dec_holds p m i : holds p m ->
  parse_dec p i (length m) =
    Val (if bool_decide (drop i m <> [] /\ Forall (fun b => is_digit b = true) (drop i m))
         then wrap_value 0 (drop i m) else u64_MAX).
Proof.
  intros Hp. unfold parse_dec. case_decide as Hi.
  { rewrite drop_ge by done. by rewrite bool_decide_eq_false_2 by (by intros [? _]). }
  assert (forall todo i v, todo = (length m - i)%nat -> (i <= length m)%nat ->
    parse_dec_loop p i todo v = Val (if bool_decide (Forall (fun b => is_digit b = true) (drop i m))
      then wrap_value v (drop i m) else u64_MAX)) as H.
  { clear i Hi. induction todo as [|todo IH]; intros i v Ht Hi; cbn [parse_dec_loop].
    { rewrite drop_ge by lia. by rewrite bool_decide_eq_true_2 by constructor. }
    destruct (lookup_lt_is_Some_2 m i) as [b Hb]; [lia|].
    rewrite (rd_holds p m i b) by done. rewrite (drop_S _ _ _ Hb). cbn -[bool_decide].
    destruct (is_digit b) eqn:Ed; cbn -[bool_decide].
    - rewrite Nat.add_1_r, IH by lia. cbn -[bool_decide]. f_equal.
      rewrite (bool_decide_ext _ (Forall (fun b => is_digit b = true) (b :: drop (S i) m))); [done|].
      rewrite Forall_cons. tauto.
    - rewrite bool_decide_eq_false_2; [done|]. rewrite Forall_cons. intros [? _]. congruence. }
  rewrite H by lia. f_equal. destruct (drop i m) as [|b l] eqn:E.
  { apply (f_equal length) in E. rewrite length_drop in E. cbn in E. lia. }
  rewrite (bool_decide_ext _ (b :: l <> [] /\ Forall (fun b => is_digit b = true) (b :: l))); [done|].
  split; [by split|tauto].
Qed.

(** Without overflow the value is the decimal value. *)
Lemma dec_value_bound ds : Forall (fun b => is_digit b = true) ds ->
  0 <= dec_value ds < 10 ^ Z.of_nat (length ds).
Proof.
  unfold dec_value. induction ds as [|d ds IH] using rev_ind; intros H; [done|].
  apply Forall_app in H as [H Hd]. inversion Hd; subst. specialize (IH H). unfold is_digit in *. bool_facts.
  rewrite foldl_snoc, length_app. replace (Z.of_nat (length ds + length [d])) with (Z.of_nat (length ds) + 1) by (cbn; lia).
  rewrite Z.pow_add_r by lia. lia.
Qed.
Lemma wrap_value_mod ds v : Forall (fun b => is_digit b = true) ds -> v ∈ᵤ 64 ->
  wrap_value v ds = foldl (fun v d => 10 * v + (d - 48)) v ds mod 2 ^ 64.
Proof.
  intros Hd Hv. unfold wrap_value.
  assert (forall v', v = v' mod 2 ^ 64 -> foldl (fun v d => wrapping_add 64 (wrapping_mul 64 v 10) (d - 48)) v ds =
    foldl (fun v d => 10 * v + (d - 48)) v' ds mod 2 ^ 64) as H.
  { clear Hv. revert v; induction ds as [|d ds IH]; intros v v' ->; [done|]. cbn.
    apply IH; [by inversion Hd|]. unfold wrapping_add, wrapping_mul, wrapping.
    rewrite Z.mul_mod_idemp_l, Zplus_mod_idemp_l by lia. f_equal. lia. }
  apply H. by rewrite Z.mod_small.
Qed.

(** ** Symbolic execution *)

(** One call, with this as the only entry of the trace. *)
Definition sent (c : call) (t : trace) : Prop := exists b, t = [(c, b)].

Lemma uwp_send c m (Q : () -> trace -> Prop) D : call_ok (c m) -> (forall b, Q tt [(c m, b)]) ->
  uwp (sys_in c (stat m) (length m) ;; mret tt) Q D.
Proof.
  intros Hc HQ. apply uwp_bind. eapply uwp_sys_in; [apply holds_stat|done|by rewrite take_ge by done|].
  intros a _. rewrite take_ge by done. cbn. apply HQ.
Qed.
Lemma uwp_send_built c cap r m (Q : Z -> trace -> Prop) D : built cap r m -> call_ok (c m) ->
  (forall b, answers (c m) b -> Q (ret b) [(c m, b)]) -> uwp (sys_in c r.1 r.2) Q D.
Proof.
  intros [Hn Hh _] Hc HQ. rewrite Hn. eapply uwp_sys_in; [done|done|by rewrite take_ge by done|].
  intros a Ha. rewrite take_ge in * by done. by apply HQ.
Qed.
Lemma uwp_lift_bind {A B} (o : outcome A) x (f : A -> prog B) Q D : o = Val x -> uwp (f x) Q D ->
  uwp (ulift o ≫= f) Q D.
Proof. by intros ->. Qed.
Lemma uwp_cmd {B} p m n c (f : bool -> prog B) Q D : holds p m -> n = length m ->
  uwp (f (bool_decide (m = c))) Q D -> uwp (is_cmd p n c ≫= f) Q D.
Proof. intros Hp -> HQ. unfold is_cmd. by rewrite eqs_holds by done. Qed.
Lemma uwp_prefix {B} p m n c (f : bool -> prog B) Q D : holds p m -> n = length m ->
  uwp (f (bool_decide (c `prefix_of` m))) Q D -> uwp (has_prefix p n c ≫= f) Q D.
Proof. intros Hp -> HQ. unfold has_prefix. by rewrite starts_with_holds by done. Qed.

(** The rest of a message after a prefix. *)
Definition strip (q m : list Z) : option (list Z) :=
  if decide (q `prefix_of` m) then Some (drop (length q) m) else None.
Lemma strip_app q m : strip q (q ++ m) = Some m.
Proof. unfold strip. rewrite decide_True by (by exists m). by rewrite drop_app_length. Qed.
Lemma strip_Some q m r : strip q m = Some r <-> m = q ++ r.
Proof.
  unfold strip. split; [|intros ->; apply strip_app]. case_decide as H; [|done]. intros [= <-].
  destruct H as [k ->]. by rewrite drop_app_length.
Qed.

(** A decimal number as the services read it: digits only, at least one, the
    value modulo [2^64], and not the failure sentinel. *)
Definition number (l : list Z) : option Z :=
  if decide (l <> [] /\ digits_of l = l /\ wrap_value 0 l <> u64_MAX) then Some (wrap_value 0 l) else None.

Lemma digits_of_all l : digits_of l = l <-> Forall (fun b => is_digit b = true) l.
Proof.
  induction l as [|b l IH]; cbn; [done|]. rewrite Forall_cons, <- IH. destruct (is_digit b); [|naive_solver].
  split; [intros [= ?]|intros [_ ->]]; done.
Qed.

Lemma wrap_value_range l : wrap_value 0 l ∈ᵤ 64.
Proof.
  unfold wrap_value. induction l as [|d l _] using rev_ind; [by vm_compute|]. rewrite foldl_snoc.
  unfold wrapping_add, wrapping. apply Z.mod_pos_bound. lia.
Qed.
Lemma number_range l n : number l = Some n -> 0 <= n < u64_MAX.
Proof.
  unfold number. case_decide as H; [|done]. intros [= <-]. pose proof (wrap_value_range l) as [? ?].
  unfold u64_MAX in *. lia.
Qed.

(** Digits, then the tests [v == u64::MAX || end != n]. *)
Lemma parse_stop_number p m i : holds p m -> (i <= length m)%nat ->
  exists v j, parse_dec_stop p i (length m) = Val (v, j) /\
    (v =? u64_MAX) || negb (bool_decide (j = length m)) = bool_decide (number (drop i m) = None) /\
    (forall n, number (drop i m) = Some n -> v = n).
Proof.
  intros Hp Hi. rewrite parse_dec_stop_holds by done. do 2 eexists. split; [done|].
  set (ds := digits_of (drop i m)). pose proof (digits_of_length (drop i m)) as Hl. fold ds in Hl.
  assert (i + length ds = length m <-> ds = drop i m)%nat as Hfull.
  { rewrite length_drop in Hl. split; [|intros ->; rewrite length_drop; lia]. intros E.
    unfold ds in *. clear -E. assert (forall l, length (digits_of l) = length l -> digits_of l = l) as H.
    { induction l as [|b l IH]; cbn; [done|]. destruct (is_digit b); cbn; [|done]. intros [= ?]. by rewrite IH. }
    apply H. rewrite length_drop. lia. }
  unfold number. fold ds. split.
  - case_decide as H.
    + destruct H as (Hn & Hd & Hv). rewrite (bool_decide_eq_false_2 (Some _ = None)) by done.
      rewrite bool_decide_eq_true_2 by (by apply Hfull). rewrite Hd. destruct (drop i m); [done|].
      rewrite orb_false_r. by apply Z.eqb_neq.
    + rewrite (bool_decide_eq_true_2 (None = None)) by done.
      destruct (decide (ds = drop i m)) as [Hd|Hd].
      * rewrite Hd. destruct (drop i m) as [|b l] eqn:El; [by rewrite Z.eqb_refl|].
        destruct (Z.eqb_spec (wrap_value 0 (b :: l)) u64_MAX) as [|Hv]; [done|]. destruct H. by rewrite Hd.
      * rewrite (bool_decide_eq_false_2 (_ = length m)) by (by rewrite Hfull). apply orb_true_r.
  - intros n. case_decide as H; [|done]. intros [= <-]. destruct H as (Hn & Hd & Hv). rewrite Hd.
    by destruct (drop i m).
Qed.

(** ** The receive loop *)

(** [let r = sys3(SYS_RECV, 0, buf, max); if r <= 0 { continue; } let n = r as usize; ..] *)
Definition serve {S} (max : nat) (buf : ptr) (idle : ptr -> S) (body : ptr -> nat -> prog S) : prog S :=
  r ← sys_out (URecv 0 max) buf;
  let '(r, bp) := r in
  if r <=? 0 then mret (idle bp) else body bp (Z.to_nat r).

Lemma uwp_serve {S} max buf (idle : ptr -> S) body Q D : (max <= length buf)%nat -> (max <= 128)%nat ->
  (forall a bp, ret a <= 0 -> length bp = length buf -> Q (idle bp) [(URecv 0 max, a)]) ->
  (forall a bp, 0 < ret a -> holds bp (data a) -> length bp = length buf -> (length (data a) <= max)%nat ->
     bytes_ok (data a) -> uwp (body bp (length (data a)))
       (fun s t => Q s ((URecv 0 max, a) :: t)) (fun t => D ((URecv 0 max, a) :: t))) ->
  uwp (serve max buf idle body) Q D.
Proof.
  intros Hb Hm H0 H1. unfold serve. apply uwp_bind. eapply (uwp_out _ _ max); [done|done|done|].
  intros a bp Ha Hh Hl Hn Hd. cbv beta iota. destruct (Z.leb_spec (ret a) 0) as [Hr|Hr].
  { by apply H0. }
  rewrite (Hn Hr). apply H1; try done. by destruct Ha as (_ & ? & _).
Qed.

(** A message was received on slot 0 and exactly the reply [f] gives it was
    sent back there, or nothing was received and nothing sent. *)
Definition one_reply (max : nat) (f : list Z -> list Z) (t : trace) : Prop :=
  exists a, (ret a <= 0 /\ t = [(URecv 0 max, a)]) \/
    (0 < ret a /\ exists b, t = [(URecv 0 max, a); (USend 0 (f (data a)), b)]).

(** ** Services that talk to each other *)

(** A turn that took the message [m], and one that ended by replying [r]. *)
Definition asked (max : nat) (m : list Z) (t : trace) : Prop :=
  exists a t', t = (URecv 0 max, a) :: t' /\ 0 < ret a /\ data a = m.
Definition replied (r : list Z) (t : trace) : Prop := exists t0 b, t = t0 ++ [(USend 0 r, b)].
(** The requests on [cap] are taken, and each is answered as [X] allows. *)
Definition served_by (cap : Z) (X : list Z -> list Z -> Prop) (t : trace) : Prop :=
  (forall q b, (USend cap q, b) ∈ t -> 0 <= ret b) /\
  (forall t1 q b d t2, t = t1 ++ (USend cap q, b) :: (URecv cap 64, d) :: t2 -> X q (data d)).

Lemma replied_unique r r' t : replied r t -> replied r' t -> r = r'.
Proof. intros (t0 & b & ->) (t1 & b' & E). apply app_inj_2 in E as [_ E]; [|done]. by injection E. Qed.

(** The exchanges of a concrete trace. *)
Fixpoint exchanges (cap : Z) (t : trace) : list (list Z * list Z) :=
  match t with
  | [] => []
  | ca :: t' =>
      match ca.1, t' with
      | USend c q, (URecv c' 64, d) :: _ => if (c =? cap) && (c' =? cap) then [(q, data d)] else []
      | _, _ => []
      end ++ exchanges cap t'
  end.
Definition taken (cap : Z) (ca : call * answer) : bool :=
  match ca.1 with USend c _ => negb (c =? cap) || (0 <=? ret ca.2) | _ => true end.
Lemma served_by_intro cap X t : forallb (taken cap) t = true ->
  Forall (fun qd => X qd.1 qd.2) (exchanges cap t) -> served_by cap X t.
Proof.
  intros H1 H2. split.
  - intros q b Hin%list_elem_of_In. rewrite forallb_forall in H1. apply H1 in Hin. unfold taken in Hin. cbn in Hin.
    rewrite Z.eqb_refl in Hin. by apply Z.leb_le.
  - intros t1 q b d t2 ->. clear H1. induction t1 as [|x t1 IH]; cbn [app exchanges] in H2; apply Forall_app in H2 as [H2 H3].
    + cbn [fst] in H2. rewrite Z.eqb_refl in H2. cbn [andb] in H2. by inversion H2.
    + by apply IH.
Qed.

(** ** Decimal text is read back *)

Lemma dec_digit x : Forall (fun b => is_digit b = true) (dec x).
Proof.
  eapply Forall_impl; [apply dec_range|]. cbn; intros d Hd. apply andb_true_iff. split; apply Z.leb_le; lia.
Qed.
Lemma dec_nonempty x : x ∈ᵤ 64 -> dec x <> [].
Proof.
  intros Hx E. pose proof (dec_roundtrip x Hx) as Hr. rewrite E in Hr. change (dec_value []) with 0 in Hr. by subst x.
Qed.
Lemma wrap_value_dec ds : Forall (fun b => is_digit b = true) ds -> wrap_value 0 ds = dec_value ds mod 2 ^ 64.
Proof. intros H. by rewrite wrap_value_mod by (done || by vm_compute). Qed.
Lemma number_digits ds : ds <> [] -> Forall (fun b => is_digit b = true) ds -> dec_value ds mod 2 ^ 64 <> u64_MAX ->
  number ds = Some (dec_value ds mod 2 ^ 64).
Proof.
  intros Hn Hd Hv. unfold number. rewrite decide_True; [by rewrite wrap_value_dec|].
  split; [done|]. split; [by apply digits_of_all|]. by rewrite wrap_value_dec.
Qed.
Lemma number_dec n : 0 <= n < u64_MAX -> number (dec n) = Some n.
Proof.
  unfold u64_MAX. intros Hn. assert (n ∈ᵤ 64) as Hu by (unfold uint; lia).
  assert (dec_value (dec n) mod 2 ^ 64 = n) as E by (rewrite dec_roundtrip by done; by apply Z.mod_small).
  rewrite number_digits; [by rewrite E|by apply dec_nonempty|apply dec_digit|]. rewrite E. unfold u64_MAX. lia.
Qed.

(** ** Replies on the service's own channel *)

(** [sys3(SYS_SEND, 0, addr_of!(M), M_LEN)] *)
Definition send0 (m : list Z) : prog () := sys_in (USend 0) (stat m) (length m) ;; mret tt.

Lemma send0_wp m (Q : () -> trace -> Prop) D : (length m <= 128)%nat ->
  (forall b, Q tt [(USend 0 m, b)]) -> uwp (send0 m) Q D.
Proof. intros Hm HQ. by apply uwp_send. Qed.
Lemma say_wp m D : (length m <= 128)%nat -> uwp (send0 m) (fun _ t => sent (USend 0 m) t) D.
Proof. intros Hm. apply send0_wp; [done|]. intros b. by eexists. Qed.

(** Console output, then one reply. *)
Definition spoke (m : list Z) (t : trace) : Prop :=
  exists tc b, con_only tc /\ t = tc ++ [(USend 0 m, b)].
Lemma spoke_con m t tc : con_only tc -> spoke m t -> spoke m (tc ++ t).
Proof.
  intros Hc (tc' & b & Hc' & ->). exists (tc ++ tc'), b. split; [by apply Forall_app|by rewrite app_assoc].
Qed.
Lemma sent_spoke m t : sent (USend 0 m) t -> spoke m t.
Proof. intros [b ->]. exists [], b. split; [constructor|done]. Qed.

Lemma uput_then m r (k : prog ()) D : (forall D, uwp k (fun _ t => spoke r t) D) ->
  uwp (uput m ;; k) (fun _ t => spoke r t) D.
Proof.
  intros Hk. unfold uput. eapply uwp_con; [apply holds_stat|done|intros _ t tc; apply spoke_con|apply Hk].
Qed.

(** A service's state after a handler that keeps it. *)
Lemma uwp_then_ret {A B} (p : prog A) (x : A -> B) (P : A -> trace -> Prop) (Q : B -> trace -> Prop) D :
  (forall D, uwp p P D) -> (forall a t, P a t -> Q (x a) t) -> uwp (a ← p; mret (x a)) Q D.
Proof.
  intros Hp HQ. apply uwp_bind. eapply uwp_mono; [apply (Hp (fun _ => False))| |done]. intros a t Ht.
  unfold mret, prog_ret. cbn [uwp]. rewrite app_nil_r. by apply HQ.
Qed.
