(* ===== verification/SvcStorage.v ===== *)
(** * The storage and filesystem services

    [storage_body] and [fs_body] of [kernel/src/arch/riscv64/os_boot.rs] with
    their helpers, one definition per turn of the service's [loop].  The
    reference definitions [storage_answer] and [fs_plan] give the replies as
    functions of the request's bytes. *)

From stdpp Require Import strings base decidable numbers option tactics list.
From S2P Require Import Prelude Bytes Monitor UserText UserProg UserLib.
Local Open Scope Z_scope.

(** ** [storage_service] *)

Definition storage_send_block (qp bp : ptr) (blen : nat) : prog ptr :=
  r ← ulift (copy_prefix qp (stat S_R_DATA) 0 (length S_R_DATA));
  r ← ulift (copy_bounded 64 r.1 r.2 bp 0 blen);
  sys_in (USend 0) r.1 r.2 ;; mret r.1.

Definition block_reply_hi (qp : ptr) (n : Z) : prog ptr :=
  if n =? 4 then storage_send_block qp (stat BH4) (length BH4)
  else if n =? 5 then storage_send_block qp (stat BC5) (length BC5)
  else if n =? 6 then storage_send_block qp (stat BF6) (length BF6)
  else storage_send_block qp (stat BRES) (length BRES).

Definition block_reply (qp : ptr) (n : Z) : prog ptr :=
  if n =? 0 then storage_send_block qp (stat B0) (length B0)
  else if n =? 1 then storage_send_block qp (stat B1) (length B1)
  else if n =? 2 then storage_send_block qp (stat B2) (length B2)
  else if n =? 3 then storage_send_block qp (stat B3) (length B3)
  else if n <=? 7 then block_reply_hi qp n
  else send0 S_E_BLOCK ;; mret qp.

(** The buffers [buf] and [rep]. *)
Record storage_st := mkStorage { so_buf : ptr; so_rep : ptr }.
Definition storage_init : storage_st := mkStorage (uninit 64) (uninit 64).

(** The tests [start == u64::MAX || after > n || !eqs(bp.add(i), ..)] of
    [READ_RANGE], in order. *)
Definition range_bad (bp : ptr) (start : Z) (i after n : nat) : prog bool :=
  if start =? u64_MAX then mret true
  else if decide (n < after)%nat then mret true
  else
    p ← ulift (padd bp i);
    b ← ulift (eqs p (length S_COUNT) (stat S_COUNT) (length S_COUNT));
    mret (negb b).

Definition storage_range (bp qp : ptr) (n : nat) : prog ptr :=
  r ← ulift (parse_dec_stop bp (length S_RANGE) n);
  let '(start, i) := r in
  let after := (i + length S_COUNT)%nat in
  bad ← range_bad bp start i after n;
  if (bad : bool) then send0 S_E_MAL ;; mret qp
  else
    r ← ulift (parse_dec_stop bp after n);
    let '(count, end_) := r in
    if (count =? u64_MAX) || negb (bool_decide (end_ = n)) then send0 S_E_MAL ;; mret qp
    else if negb (count =? 1) then send0 S_E_MANY ;; mret qp
    else block_reply qp start.

Definition storage_turn (s : storage_st) : prog storage_st :=
  let qp := so_rep s in
  serve 64 (so_buf s) (fun bp => mkStorage bp qp) (fun bp n =>
    b ← is_cmd bp n S_INFO;
    if (b : bool) then send0 S_R_INFO ;; mret (mkStorage bp qp)
    else
      b ← has_prefix bp n S_READ;
      if (b : bool) then
        r ← ulift (parse_dec_stop bp (length S_READ) n);
        let '(blk, end_) := r in
        if (blk =? u64_MAX) || negb (bool_decide (end_ = n))
        then send0 S_E_MAL ;; mret (mkStorage bp qp)
        else qp ← block_reply qp blk; mret (mkStorage bp qp)
      else
        b ← has_prefix bp n S_RANGE;
        if (b : bool) then qp ← storage_range bp qp n; mret (mkStorage bp qp)
        else send0 S_E_MAL ;; mret (mkStorage bp qp)).

(** ** [fs_service] *)

Definition fs_reply (p : ptr) (len : nat) : prog () := sys_in (USend 0) p len ;; mret tt.
Definition fs_say (m : list Z) : prog () := fs_reply (stat m) (length m).

Definition fs_stor_record (q : list Z) : prog () :=
  r ← sys_in (USend 1) (stat q) (length q);
  if r <? 0 then fs_say E_NOTFOUND
  else
    r ← sys_out (URecv 1 64) (uninit 64);
    let '(sr, sp) := r in
    ok ← (if Z.of_nat (length S_R_DATA) <? sr then has_prefix sp (Z.to_nat sr) S_R_DATA
          else mret false);
    if (ok : bool) then
      p ← ulift (padd sp (length S_R_DATA));
      len ← ulift (usub (Z.to_nat sr) (length S_R_DATA));
      fs_reply p len
    else fs_say E_NOTFOUND.

(** The [/storage/version] arm: the storage reply is forwarded whole. *)
Definition fs_stor_version : prog () :=
  r ← sys_in (USend 1) (stat Q_BLOCK1) (length Q_BLOCK1);
  if r <? 0 then fs_say E_NOTFOUND
  else
    r ← sys_out (URecv 1 64) (uninit 64);
    let '(sr, sp) := r in
    if 0 <? sr then fs_reply sp (Z.to_nat sr) else fs_say E_NOTFOUND.

(** An [if eqs(..) { .. } else if ..] chain: the first matching path acts. *)
Fixpoint branch (p : ptr) (m : nat) (arms : list (list Z * prog ())) (other : prog ()) : prog () :=
  match arms with
  | [] => other
  | (path, act) :: arms =>
      b ← is_cmd p m path;
      if (b : bool) then act else branch p m arms other
  end.

Definition fs_ls : list (list Z * prog ()) :=
  [(F_ROOT, fs_say R_ROOT); (F_ETC, fs_say R_ETC); (F_APPS, fs_say R_APPS);
   (F_DOCS, fs_say R_DOCS); (F_BIN, fs_say R_BIN)].

Definition fs_cat : list (list Z * prog ()) :=
  [(F_VERSION, fs_say R_VERSION); (F_LIMITS, fs_say R_LIMITS); (F_MHELLO, fs_say R_MHELLO);
   (F_MCOUNTER, fs_say R_MCOUNTER); (F_MFAULT, fs_say R_MFAULT); (F_ABOUT, fs_say R_ABOUT);
   (F_BHELLO, fs_stor_record Q_BLOCK4); (F_BCOUNTER, fs_stor_record Q_BLOCK5);
   (F_BFAULT, fs_stor_record Q_BLOCK6); (F_BBADMAGIC, fs_say A_BADMAGIC);
   (F_BBADCAP, fs_say A_BADCAP); (F_BBADSUM, fs_say A_BADSUM); (F_STORV, fs_stor_version)].

Definition fs_turn (buf : ptr) : prog ptr :=
  serve 64 buf id (fun bp n =>
    b ← has_prefix bp n P_LS;
    if (b : bool) then
      p ← ulift (padd bp (length P_LS)); m ← ulift (usub n (length P_LS));
      branch p m fs_ls (fs_say E_NOTFOUND) ;; mret bp
    else
      b ← has_prefix bp n P_CAT;
      if (b : bool) then
        p ← ulift (padd bp (length P_CAT)); m ← ulift (usub n (length P_CAT));
        branch p m fs_cat (fs_say E_NOTFOUND) ;; mret bp
      else fs_say E_BADPATH ;; mret bp).

(** ** The storage protocol *)

Definition blocks : list (list Z) := [B0; B1; B2; B3; BH4; BC5; BF6; BRES].

Definition block_answer (n : Z) : list Z :=
  match blocks !! Z.to_nat n with Some b => S_R_DATA ++ b | None => S_E_BLOCK end.

(** The reply to a request, as a function of its bytes. *)
Definition storage_answer (m : list Z) : list Z :=
  if decide (m = S_INFO) then S_R_INFO
  else match strip S_READ m with
  | Some r => match number r with Some n => block_answer n | None => S_E_MAL end
  | None =>
      match strip S_RANGE m with
      | Some r =>
          match number (digits_of r), strip S_COUNT (drop (length (digits_of r)) r) with
          | Some start, Some c =>
              match number c with
              | None => S_E_MAL
              | Some count => if count =? 1 then block_answer start else S_E_MANY
              end
          | _, _ => S_E_MAL
          end
      | None => S_E_MAL
      end
  end.

(** After a reply the reply buffer still has its size. *)
Definition answered (m : list Z) (q : ptr) (t : trace) : Prop :=
  length q = 64%nat /\ sent (USend 0 m) t.

Lemma say0_wp m q D : (length m <= 128)%nat -> length q = 64%nat ->
  uwp (send0 m ;; mret q) (answered m) D.
Proof. intros Hm Hq. apply uwp_bind, send0_wp; [done|]. intros b. split; [done|by eexists]. Qed.

Lemma send_block_wp q s D : length q = 64%nat -> (length s <= 56)%nat ->
  uwp (storage_send_block q (stat s) (length s)) (answered (S_R_DATA ++ s)) D.
Proof.
  intros Hq Hs. unfold storage_send_block.
  destruct (copy_prefix_all 64 q (stat S_R_DATA) S_R_DATA) as ([p1 n1] & E1 & H1); [done|apply holds_stat|by vm_compute; lia|].
  eapply uwp_lift_bind; [exact E1|]. cbn [fst snd].
  destruct (copy_all_built 64 64 p1 n1 (stat s) S_R_DATA s) as (r & E2 & H2); [done|by vm_compute; lia|done|apply holds_stat|].
  eapply uwp_lift_bind; [exact E2|].
  assert (length (S_R_DATA ++ s) <= 64)%nat as Hl by (rewrite length_app; change (length S_R_DATA) with 8%nat; lia).
  rewrite take_ge in H2 by done. apply uwp_bind. eapply uwp_send_built; [exact H2|cbn; lia|].
  intros b _. split; [apply H2|by eexists].
Qed.

Lemma block_reply_wp q n D : length q = 64%nat -> 0 <= n ->
  uwp (block_reply q n) (answered (block_answer n)) D.
Proof.
  intros Hq Hn. unfold block_reply, block_reply_hi, block_answer.
  repeat (match goal with |- context [if ?a =? ?b then _ else _] => destruct (Z.eqb_spec a b) as [->|] end;
    [apply send_block_wp; [done|vm_compute; lia]|]).
  destruct (Z.leb_spec n 7).
  - repeat (match goal with |- context [if ?a =? ?b then _ else _] => destruct (Z.eqb_spec a b) as [->|] end;
      [apply send_block_wp; [done|vm_compute; lia]|]).
    assert (n = 7) as -> by lia. apply send_block_wp; [done|vm_compute; lia].
  - rewrite lookup_ge_None_2 by (change (length blocks) with 8%nat; lia).
    apply say0_wp; [vm_compute; lia|done].
Qed.

Lemma range_bad_wp bp m start i Q D : holds bp m -> (i <= length m)%nat ->
  Q ((start =? u64_MAX) || negb (bool_decide (S_COUNT `prefix_of` drop i m))) [] ->
  uwp (range_bad bp start i (i + length S_COUNT) (length m)) Q D.
Proof.
  intros Hb Hi HQ. unfold range_bad. case_match; cbn [orb] in HQ; [done|].
  destruct (decide (length m < i + length S_COUNT)%nat) as [Hn|Hn].
  { rewrite bool_decide_eq_false_2 in HQ; [exact HQ|]. intros Hp%prefix_length. rewrite length_drop in Hp. lia. }
  destruct (padd_holds bp m i Hb Hi) as [E Hd]. eapply uwp_lift_bind; [exact E|].
  pose proof (starts_with_holds _ _ S_COUNT Hd) as Hs. unfold starts_with in Hs.
  rewrite decide_False in Hs by (rewrite length_drop; lia).
  eapply uwp_lift_bind; [exact Hs|]. exact HQ.
Qed.

Lemma storage_range_wp bp m q r D : holds bp m -> length q = 64%nat -> strip S_READ m = None ->
  m <> S_INFO -> strip S_RANGE m = Some r ->
  uwp (storage_range bp q (length m)) (answered (storage_answer m)) D.
Proof.
  intros Hb Hq Hread Hinfo Hrange. unfold storage_answer. rewrite decide_False, Hread, Hrange by done.
  apply strip_Some in Hrange as ->. unfold storage_range.
  eapply uwp_lift_bind; [by apply parse_dec_stop_holds|]. rewrite drop_app_length. cbv zeta beta iota.
  set (ds := digits_of r). set (i := (length S_RANGE + length ds)%nat).
  pose proof (digits_of_length r) as Hl. fold ds in Hl.
  assert (drop i (S_RANGE ++ r) = drop (length ds) r) as Hdrop
    by (unfold i; by rewrite <- drop_drop, drop_app_length).
  set (start := match ds with [] => u64_MAX | _ => wrap_value 0 ds end).
  assert ((start =? u64_MAX) = bool_decide (number ds = None) /\ (forall n, number ds = Some n -> start = n)) as [Hs Hsn].
  { unfold start, number. assert (digits_of ds = ds) as Hdd.
    { apply digits_of_all. unfold ds. clear. induction r; cbn; [done|]. case_match; by constructor. }
    case_decide as H; [|].
    - destruct H as (? & _ & ?). destruct ds; [done|]. split; [|congruence]. by apply Z.eqb_neq.
    - split; [|done]. destruct ds as [|x ds']; [done|]. rewrite bool_decide_eq_true_2 by done. apply Z.eqb_eq.
      destruct (decide (wrap_value 0 (x :: ds') = u64_MAX)); [done|]. by destruct H. }
  apply uwp_bind. eapply range_bad_wp; [exact Hb|unfold i; rewrite length_app; lia|].
  rewrite Hs, Hdrop. destruct (number ds) as [n|] eqn:En; cbv beta.
  2:{ rewrite (bool_decide_eq_true_2 (None = None)) by done. by apply say0_wp; [vm_compute; lia|]. }
  rewrite (bool_decide_eq_false_2 (Some n = None)) by done. unfold strip at 1. cbn [orb].
  destruct (decide (S_COUNT `prefix_of` drop (length ds) r)) as [Hc|Hc].
  2:{ rewrite bool_decide_eq_false_2 by done. by apply say0_wp; [vm_compute; lia|]. }
  rewrite bool_decide_eq_true_2 by done. cbn [negb].
  set (cs := drop (length S_COUNT) (drop (length ds) r)).
  pose proof (prefix_length _ _ Hc) as Hcl. rewrite length_drop in Hcl.
  destruct (parse_stop_number bp (S_RANGE ++ r) (i + length S_COUNT) Hb) as (v & j & E & Ht & Hv);
    [unfold i; rewrite length_app; lia|].
  assert (drop (i + length S_COUNT) (S_RANGE ++ r) = cs) as Hcs
    by (unfold cs; by rewrite <- Hdrop, drop_drop).
  rewrite Hcs in Ht, Hv. eapply uwp_lift_bind; [exact E|]. cbv zeta beta iota. rewrite Ht.
  destruct (number cs) as [count|].
  2:{ rewrite bool_decide_eq_true_2 by done. by apply say0_wp; [vm_compute; lia|]. }
  rewrite bool_decide_eq_false_2 by done. rewrite (Hv count eq_refl).
  destruct (count =? 1); cbn [negb]; [|by apply say0_wp; [vm_compute; lia|]].
  rewrite (Hsn n eq_refl). apply block_reply_wp; [done|]. by destruct (number_range _ _ En).
Qed.

Definition storage_ok (s : storage_st) : Prop :=
  length (so_buf s) = 64%nat /\ length (so_rep s) = 64%nat.

(** What every path of a turn ends in. *)
Definition storage_end (a : answer) (s : storage_st) (t : trace) : Prop :=
  storage_ok s /\ sent (USend 0 (storage_answer (data a))) t.

Lemma storage_say bp q a m D : length bp = 64%nat -> length q = 64%nat -> (length m <= 128)%nat ->
  storage_answer (data a) = m -> uwp (send0 m ;; mret (mkStorage bp q)) (storage_end a) D.
Proof.
  intros Hb Hq Hm E. apply uwp_bind, send0_wp; [done|]. intros b. rewrite <- E. split; [done|by eexists].
Qed.
Lemma storage_after bp a (p : prog ptr) D : length bp = 64%nat -> (forall D, uwp p (answered (storage_answer (data a))) D) ->
  uwp (q ← p; mret (mkStorage bp q)) (storage_end a) D.
Proof.
  intros Hb Hp. apply uwp_bind. eapply uwp_mono; [apply (Hp (fun _ => False))| |done].
  intros q t [Hq Hs]. unfold mret, prog_ret. cbn [uwp]. rewrite app_nil_r. done.
Qed.

Lemma storage_read_wp bp q a r D : length bp = 64%nat -> length q = 64%nat -> holds bp (data a) ->
  data a <> S_INFO -> data a = S_READ ++ r ->
  uwp (r ← ulift (parse_dec_stop bp (length S_READ) (length (data a)));
       let '(blk, end_) := r in
       if (blk =? u64_MAX) || negb (bool_decide (end_ = length (data a)))
       then send0 S_E_MAL ;; mret (mkStorage bp q)
       else q ← block_reply q blk; mret (mkStorage bp q)) (storage_end a) D.
Proof.
  intros Hb Hq Hh Hi Er. pose proof (strip_app S_READ r) as Hst. rewrite <- Er in Hst.
  assert (drop (length S_READ) (data a) = r) as Hd by (by rewrite Er, drop_app_length).
  destruct (parse_stop_number bp (data a) (length S_READ) Hh) as (v & j & E & Ht & Hv);
    [rewrite Er, length_app; lia|].
  assert (storage_answer (data a) = match number r with Some n => block_answer n | None => S_E_MAL end) as Ha
    by (unfold storage_answer; by rewrite decide_False, Hst).
  eapply uwp_lift_bind; [exact E|]. cbv beta iota. rewrite Ht, Hd in *.
  destruct (number r) as [n|] eqn:En.
  - rewrite bool_decide_eq_false_2 by done. rewrite (Hv n eq_refl). apply storage_after; [done|].
    intros D'. rewrite Ha. apply block_reply_wp; [done|by destruct (number_range _ _ En)].
  - rewrite bool_decide_eq_true_2 by done. apply storage_say; [done|done|vm_compute; lia|done].
Qed.

Lemma storage_turn_wp s D : storage_ok s ->
  uwp (storage_turn s) (fun s' t => storage_ok s' /\ one_reply 64 storage_answer t) D.
Proof.
  intros [Hb Hq]. unfold storage_turn. apply uwp_serve; [lia|lia|..].
  { intros a bp Hr Hl. split; [split; cbn; congruence|]. exists a. by left. }
  intros a bp Hr Hh Hl Hm _. rewrite Hb in Hl.
  eapply uwp_mono with (Q := storage_end a) (D := fun _ => False); [|intros s' t [Ho [b ->]]|done].
  2:{ split; [done|]. exists a. right. split; [done|by exists b]. }
  eapply uwp_cmd; [exact Hh|done|]. case_bool_decide as Hi.
  { apply storage_say; [done|done|vm_compute; lia|]. unfold storage_answer. by rewrite decide_True. }
  eapply uwp_prefix; [exact Hh|done|]. case_bool_decide as Hread.
  { destruct Hread as [r Er]. by eapply storage_read_wp. }
  assert (strip S_READ (data a) = None) as Hno by (unfold strip; by rewrite decide_False).
  eapply uwp_prefix; [exact Hh|done|]. case_bool_decide as Hrange.
  - destruct Hrange as [r Er]. pose proof (strip_app S_RANGE r) as Hst. rewrite <- Er in Hst.
    apply storage_after; [done|]. intros D'. by eapply storage_range_wp.
  - apply storage_say; [done|done|vm_compute; lia|]. unfold storage_answer. rewrite decide_False, Hno by done.
    unfold strip. by rewrite decide_False.
Qed.

Lemma read_no_range r : strip S_RANGE (S_READ ++ r) = None.
Proof. unfold strip. rewrite decide_False; [done|]. intros [k E]. by vm_compute in E. Qed.
Lemma range_no_read r : strip S_READ (S_RANGE ++ r) = None.
Proof. unfold strip. rewrite decide_False; [done|]. intros [k E]. by vm_compute in E. Qed.

Lemma storage_answer_read r : storage_answer (S_READ ++ r) =
  match number r with Some n => block_answer n | None => S_E_MAL end.
Proof. unfold storage_answer. rewrite decide_False by (intros E; by vm_compute in E). by rewrite strip_app. Qed.

Lemma storage_answer_range n c : 0 <= n < u64_MAX -> 0 <= c < u64_MAX ->
  storage_answer (S_RANGE ++ dec n ++ S_COUNT ++ dec c) = if c =? 1 then block_answer n else S_E_MANY.
Proof.
  intros Hn Hc. unfold storage_answer. rewrite decide_False.
  2:{ intros E%(f_equal head). by change (Some 82 = Some 73) in E. }
  rewrite range_no_read, strip_app.
  rewrite digits_of_app; [|apply dec_digit|].
  2:{ intros b l E%(f_equal head). change (head (S_COUNT ++ dec c)) with (Some 32) in E. by injection E as <-. }
  rewrite number_dec, drop_app_length, strip_app, number_dec by done. done.
Qed.

Lemma block_answer_length n : (length (block_answer n) <= 56)%nat.
Proof.
  unfold block_answer. destruct (blocks !! Z.to_nat n) as [b|] eqn:E; [|vm_compute; lia].
  assert (Forall (fun b => length b <= 48)%nat blocks) as F by (repeat constructor; vm_compute; lia).
  rewrite Forall_lookup in F. apply F in E. rewrite length_app. change (length S_R_DATA) with 8%nat. lia.
Qed.
Lemma storage_answer_length m : (length (storage_answer m) <= 56)%nat.
Proof.
  unfold storage_answer. repeat case_match; try apply block_answer_length; vm_compute; lia.
Qed.

(** C28. The storage service.  A turn never leaves its buffers and, whatever
    the kernel answers, sends back exactly one reply of at most 64 bytes to
    each message it receives.  A [READ] of decimal digits answers the block
    whose number is their value modulo 2^64 (so an overlong number wraps
    instead of being refused), [READ_RANGE] answers the block only for a
    count of one, and any reply other than [ERR malformed] means that the
    request was [INFO] or had one of these two forms. *)
Theorem storage_serves s : storage_ok s ->
  uwp (storage_turn s) (fun s' t => storage_ok s' /\ one_reply 64 storage_answer t) (fun _ => False) /\
  (forall m, (length (storage_answer m) <= 64)%nat) /\
  (forall ds, ds <> [] -> Forall (fun b => is_digit b = true) ds -> dec_value ds mod 2 ^ 64 <> u64_MAX ->
     storage_answer (S_READ ++ ds) = block_answer (dec_value ds mod 2 ^ 64)) /\
  (forall n c, 0 <= n < u64_MAX -> 0 <= c < u64_MAX ->
     storage_answer (S_RANGE ++ dec n ++ S_COUNT ++ dec c) = if c =? 1 then block_answer n else S_E_MANY) /\
  (forall m, storage_answer m <> S_E_MAL -> m = S_INFO \/
     (exists ds, m = S_READ ++ ds /\ number ds <> None) \/
     (exists ds cs, m = S_RANGE ++ ds ++ S_COUNT ++ cs /\ number ds <> None /\ number cs <> None)).
Proof.
  intros Hs. split; [by apply storage_turn_wp|]. split; [|split; [|split]].
  - intros m. pose proof (storage_answer_length m). lia.
  - intros ds Hn Hd Hv. by rewrite storage_answer_read, number_digits.
  - apply storage_answer_range.
  - intros m. unfold storage_answer. case_decide as Hi; [by left|]. intros H. right.
    destruct (strip S_READ m) as [r|] eqn:Er.
    { apply strip_Some in Er as ->. left. exists r. split; [done|]. by destruct (number r). }
    destruct (strip S_RANGE m) as [r|] eqn:Eg; [|done]. apply strip_Some in Eg as ->.
    destruct (number (digits_of r)) eqn:E1; [|done].
    destruct (strip S_COUNT _) as [c|] eqn:E2; [|done]. destruct (number c) eqn:E3; [|done].
    right. exists (digits_of r), c. rewrite E1, E3. split; [|done]. f_equal.
    apply strip_Some in E2. rewrite <- E2. clear. induction r as [|b r IH]; [done|]. cbn.
    case_match; [|done]. cbn. by rewrite <- IH.
Qed.

Lemma storage_serves_witness :
  fst (uexec (storage_turn storage_init) [mkAns 12 (S_READ ++ [53]); mkAns 54 []]) =
    [URecv 0 64; USend 0 (S_R_DATA ++ BC5)] /\
  storage_answer (S_READ ++ bstr "18446744073709551620") = S_R_DATA ++ BH4.
Proof.
  split; [vm_compute; reflexivity|].
  destruct (storage_serves storage_init) as (_ & _ & H & _); [by vm_compute|].
  rewrite H; [vm_compute; reflexivity|done| |by vm_compute].
  repeat constructor.
Defined.

(** ** The filesystem protocol *)

Inductive fs_act := FsSay (m : list Z) | FsRecord (q : list Z) | FsWhole (q : list Z).

(** The files and directories, and what serves each. *)
Definition fs_dirs : list (list Z * fs_act) :=
  [(F_ROOT, FsSay R_ROOT); (F_ETC, FsSay R_ETC); (F_APPS, FsSay R_APPS); (F_DOCS, FsSay R_DOCS);
   (F_BIN, FsSay R_BIN)].
Definition fs_files : list (list Z * fs_act) :=
  [(F_VERSION, FsSay R_VERSION); (F_LIMITS, FsSay R_LIMITS); (F_MHELLO, FsSay R_MHELLO);
   (F_MCOUNTER, FsSay R_MCOUNTER); (F_MFAULT, FsSay R_MFAULT); (F_ABOUT, FsSay R_ABOUT);
   (F_BHELLO, FsRecord Q_BLOCK4); (F_BCOUNTER, FsRecord Q_BLOCK5); (F_BFAULT, FsRecord Q_BLOCK6);
   (F_BBADMAGIC, FsSay A_BADMAGIC); (F_BBADCAP, FsSay A_BADCAP); (F_BBADSUM, FsSay A_BADSUM);
   (F_STORV, FsWhole Q_BLOCK1)].

Fixpoint assoc {A} (l : list (list Z * A)) (other : A) (k : list Z) : A :=
  match l with
  | [] => other
  | (k', v) :: l => if decide (k = k') then v else assoc l other k
  end.

Definition fs_plan (m : list Z) : fs_act :=
  match strip P_LS m with
  | Some path => assoc fs_dirs (FsSay E_NOTFOUND) path
  | None =>
      match strip P_CAT m with
      | Some path => assoc fs_files (FsSay E_NOTFOUND) path
      | None => FsSay E_BADPATH
      end
  end.

(** The reply, given the storage service's answers. *)
Definition fs_record (m : list Z) : list Z :=
  match strip S_R_DATA m with Some (b :: r) => b :: r | _ => E_NOTFOUND end.
Definition fs_whole (m : list Z) : list Z := match m with [] => E_NOTFOUND | _ => m end.
Definition fs_answer (storage : list Z -> list Z) (m : list Z) : list Z :=
  match fs_plan m with
  | FsSay r => r
  | FsRecord q => fs_record (storage q)
  | FsWhole q => fs_whole (storage q)
  end.

(** The calls that answer one request: at most one exchange with storage,
    whose failure is reported, and one reply. *)
Definition fs_replied (act : fs_act) (t : trace) : Prop :=
  match act with
  | FsSay r => sent (USend 0 r) t
  | FsRecord q | FsWhole q =>
      exists b c, (ret b < 0 /\ t = [(USend 1 q, b); (USend 0 E_NOTFOUND, c)]) \/
        (0 <= ret b /\ exists d, t = [(USend 1 q, b); (URecv 1 64, d);
           (USend 0 (match act with FsWhole _ => fs_whole (data d) | _ => fs_record (data d) end), c)])
  end.

Definition fs_do (a : fs_act) : prog () :=
  match a with
  | FsSay m => fs_say m
  | FsRecord q => fs_stor_record q
  | FsWhole _ => fs_stor_version
  end.

Lemma branch_wp p m arms other Q D : holds p m ->
  uwp (assoc arms other m) Q D -> uwp (branch p (length m) arms other) Q D.
Proof.
  intros Hp. induction arms as [|[k act] arms IH]; cbn [branch assoc]; [done|]. intros H.
  eapply uwp_cmd; [exact Hp|done|]. case_decide; [by rewrite bool_decide_eq_true_2|].
  rewrite bool_decide_eq_false_2 by done. by apply IH.
Qed.
Lemma assoc_map {A B} (f : A -> B) l other k :
  assoc ((fun kv : list Z * A => (kv.1, f kv.2)) <$> l) (f other) k = f (assoc l other k).
Proof. induction l as [|[k' v] l IH]; cbn; [done|]. by case_decide. Qed.

Lemma fs_say_wp m (Q : () -> trace -> Prop) D : (length m <= 128)%nat ->
  (forall b, Q tt [(USend 0 m, b)]) -> uwp (fs_say m) Q D.
Proof. intros Hm HQ. by apply uwp_send. Qed.
Lemma fs_reply_wp p m n (Q : () -> trace -> Prop) D : holds p m -> n = length m -> (n <= 128)%nat ->
  (forall b, Q tt [(USend 0 m, b)]) -> uwp (fs_reply p n) Q D.
Proof.
  intros Hp -> Hm HQ. unfold fs_reply. apply uwp_bind. eapply uwp_sys_in; [done|done|by rewrite take_ge|].
  intros a _. rewrite take_ge by done. apply HQ.
Qed.

(** The exchange with storage, up to the reply. *)
Lemma fs_exchange_wp q (f : Z * ptr -> prog ()) Q D : (length q <= 128)%nat ->
  (forall b, ret b < 0 -> uwp (fs_say E_NOTFOUND) (fun u t => Q u ((USend 1 q, b) :: t)) (fun t => D ((USend 1 q, b) :: t))) ->
  (forall b d sp, 0 <= ret b -> holds sp (data d) -> (length (data d) <= 64)%nat -> length sp = 64%nat ->
     Z.of_nat (length (data d)) = Z.max 0 (ret d) ->
     uwp (f (ret d, sp)) (fun u t => Q u ((USend 1 q, b) :: (URecv 1 64, d) :: t))
       (fun t => D ((USend 1 q, b) :: (URecv 1 64, d) :: t))) ->
  uwp (r ← sys_in (USend 1) (stat q) (length q);
       if r <? 0 then fs_say E_NOTFOUND else r ← sys_out (URecv 1 64) (uninit 64); f r) Q D.
Proof.
  intros Hq H1 H2. apply uwp_bind. eapply uwp_sys_in; [apply holds_stat|done|by rewrite take_ge|].
  intros b _. rewrite take_ge by done. destruct (Z.ltb_spec (ret b) 0); [by apply H1|].
  apply uwp_bind. eapply (uwp_out _ _ 64); [done|by vm_compute|cbn; lia|].
  intros d sp Hd Hh Hl _ Hm. apply H2; try done. by destruct Hd as (_ & _ & ? & _).
Qed.

Lemma fs_record_wp q D : (length q <= 128)%nat ->
  uwp (fs_stor_record q) (fun _ t => fs_replied (FsRecord q) t) D.
Proof.
  intros Hq. apply (fs_exchange_wp q (fun r : Z * ptr => let '(sr, sp) := r in _)); [done|..].
  { intros b Hb. apply fs_say_wp; [vm_compute; lia|]. intros c. exists b, c. by left. }
  intros b d sp Hb Hh Hm Hl Hr. cbv beta iota.
  assert (forall c m, fs_record (data d) = m ->
    fs_replied (FsRecord q) ((USend 1 q, b) :: (URecv 1 64, d) :: [(USend 0 m, c)])) as Hend.
  { intros c m <-. exists b, c. right. split; [done|by exists d]. }
  apply uwp_bind. destruct (Z.ltb_spec (Z.of_nat (length S_R_DATA)) (ret d)) as [Hlt|Hge].
  2:{ cbn -[S_R_DATA E_NOTFOUND]. apply fs_say_wp; [vm_compute; lia|]. intros c. apply Hend. unfold fs_record.
      destruct (strip S_R_DATA (data d)) as [[|x r]|] eqn:E; try done. apply strip_Some in E. rewrite E in Hr.
      rewrite length_app in Hr. cbn [length] in Hr. lia. }
  eapply has_prefix_wp; [exact Hh|lia|]. case_bool_decide as Hp.
  - destruct Hp as [r E]. assert (length (data d) = length S_R_DATA + length r)%nat as Hlen by (by rewrite E, length_app).
    destruct (padd_holds sp (data d) (length S_R_DATA) Hh) as [Ep Hd]; [lia|].
    eapply uwp_lift_bind; [exact Ep|]. rewrite E, drop_app_length in Hd.
    eapply uwp_lift_bind; [unfold usub; rewrite decide_True by lia; done|].
    eapply fs_reply_wp; [exact Hd|lia|lia|]. intros c. apply Hend. unfold fs_record. rewrite E, strip_app.
    destruct r; [cbn [length] in Hlen; lia|done].
  - apply fs_say_wp; [vm_compute; lia|]. intros c. apply Hend. unfold fs_record, strip. by rewrite decide_False.
Qed.

Lemma fs_version_wp D : uwp fs_stor_version (fun _ t => fs_replied (FsWhole Q_BLOCK1) t) D.
Proof.
  apply (fs_exchange_wp Q_BLOCK1 (fun r : Z * ptr => let '(sr, sp) := r in _)); [vm_compute; lia|..].
  { intros b Hb. apply fs_say_wp; [vm_compute; lia|]. intros c. exists b, c. by left. }
  intros b d sp Hb Hh Hm Hl Hr. cbv beta iota.
  destruct (Z.ltb_spec 0 (ret d)).
  - eapply fs_reply_wp; [exact Hh|lia|lia|]. intros c. exists b, c. right. split; [done|]. exists d.
    destruct (data d); [cbn in *; lia|done].
  - apply fs_say_wp; [vm_compute; lia|]. intros c. exists b, c. right. split; [done|]. exists d.
    destruct (data d); [done|cbn in *; lia].
Qed.

Lemma fs_do_wp act D : (act ∈ FsSay E_NOTFOUND :: FsSay E_BADPATH :: (snd <$> fs_dirs ++ fs_files)) ->
  uwp (fs_do act) (fun _ t => fs_replied act t) D.
Proof.
  intros H. assert (Forall (fun a => match a with FsSay m => (length m <= 128)%nat
      | FsRecord q => (length q <= 128)%nat | FsWhole q => q = Q_BLOCK1 end)
    (FsSay E_NOTFOUND :: FsSay E_BADPATH :: (snd <$> fs_dirs ++ fs_files))) as F
    by (repeat constructor; vm_compute; lia).
  rewrite Forall_forall in F. specialize (F _ H). destruct act as [m|q|q]; cbn [fs_do].
  - apply fs_say_wp; [done|]. intros b. by exists b.
  - by apply fs_record_wp.
  - subst q. apply fs_version_wp.
Qed.

Lemma assoc_elem {A} (l : list (list Z * A)) other k : assoc l other k ∈ other :: (snd <$> l).
Proof.
  induction l as [|[k' v] l IH]; cbn; [left|]. case_decide; [right; left|].
  apply elem_of_cons in IH as [->|IH]; [left|right; by right].
Qed.

Lemma fs_lookup_wp bp (p : ptr) m pre (fsl : list (list Z * fs_act)) r D :
  holds bp m -> m = pre ++ r -> assoc fsl (FsSay E_NOTFOUND) r = fs_plan m ->
  fsl = fs_dirs \/ fsl = fs_files ->
  uwp (p ← ulift (padd bp (length pre)); n ← ulift (usub (length m) (length pre));
       branch p n ((fun kv : list Z * fs_act => (kv.1, fs_do kv.2)) <$> fsl) (fs_say E_NOTFOUND) ;; mret bp)
    (fun b t => b = bp /\ fs_replied (fs_plan m) t) D.
Proof.
  intros Hh -> Hp Hl. destruct (padd_holds bp (pre ++ r) (length pre) Hh) as [Ep Hd]; [rewrite length_app; lia|].
  eapply uwp_lift_bind; [exact Ep|]. rewrite drop_app_length in Hd.
  eapply uwp_lift_bind; [unfold usub; rewrite decide_True by (rewrite length_app; lia); done|].
  rewrite length_app, Nat.add_comm, Nat.add_sub. apply uwp_bind. apply branch_wp; [done|].
  change (fs_say E_NOTFOUND) with (fs_do (FsSay E_NOTFOUND)). rewrite assoc_map, Hp.
  eapply uwp_mono; [apply fs_do_wp| |].
  - rewrite <- Hp. pose proof (assoc_elem fsl (FsSay E_NOTFOUND) r) as He.
    apply elem_of_cons in He as [->|He]; [left|]. right. right. rewrite fmap_app. apply elem_of_app.
    destruct Hl as [->| ->]; [by left|by right].
  - intros [] t Ht. unfold mret, prog_ret. cbn [uwp]. by rewrite app_nil_r.
  - intros t Ht. exact Ht.
Qed.

Lemma fs_turn_wp buf D : length buf = 64%nat ->
  uwp (fs_turn buf) (fun b t => length b = 64%nat /\ exists a, (ret a <= 0 /\ t = [(URecv 0 64, a)]) \/
    (0 < ret a /\ exists t', t = (URecv 0 64, a) :: t' /\ fs_replied (fs_plan (data a)) t')) D.
Proof.
  intros Hb. unfold fs_turn. apply uwp_serve; [lia|lia|..].
  { intros a bp Hr Hl. split; [unfold id; congruence|]. exists a. by left. }
  intros a bp Hr Hh Hl Hm _.
  eapply uwp_mono with (Q := fun b t => b = bp /\ fs_replied (fs_plan (data a)) t) (D := fun _ => False);
    [|intros b t [-> Ht]|done].
  2:{ split; [congruence|]. exists a. right. split; [done|by exists t]. }
  eapply uwp_prefix; [exact Hh|done|]. case_bool_decide as Hls.
  { destruct Hls as [r E]. eapply (fs_lookup_wp bp [] (data a) P_LS fs_dirs r); [done|done| |by left].
    unfold fs_plan. by rewrite E, strip_app. }
  assert (strip P_LS (data a) = None) as Hn by (unfold strip; by rewrite decide_False).
  eapply uwp_prefix; [exact Hh|done|]. case_bool_decide as Hcat.
  { destruct Hcat as [r E]. eapply (fs_lookup_wp bp [] (data a) P_CAT fs_files r); [done|done| |by right].
    unfold fs_plan. by rewrite Hn, E, strip_app. }
  apply uwp_bind. apply fs_say_wp; [vm_compute; lia|]. intros b. unfold mret, prog_ret. cbn [uwp].
  split; [done|]. unfold fs_plan. rewrite Hn. unfold strip. rewrite decide_False by done. by eexists.
Qed.

(** In an exchange where storage accepted the request and answered by
    [storage], the filesystem's reply is [fs_answer]. *)
Lemma fs_replied_answer storage m t : fs_replied (fs_plan m) t ->
  (forall q b d t', t = (USend 1 q, b) :: (URecv 1 64, d) :: t' -> data d = storage q) ->
  (forall q b t', t = (USend 1 q, b) :: t' -> 0 <= ret b) ->
  exists t' b, t = t' ++ [(USend 0 (fs_answer storage m), b)].
Proof.
  unfold fs_answer. intros H Hd Hb.
  destruct (fs_plan m) as [r|q|q]; [destruct H as [b ->]; by exists [], b|..];
    destruct H as (b & c & [[Hlt ->]|[Hge [d ->]]]).
  - specialize (Hb _ _ _ eq_refl). lia.
  - rewrite <- (Hd _ _ _ _ eq_refl). by exists [(USend 1 q, b); (URecv 1 64, d)], c.
  - specialize (Hb _ _ _ eq_refl). lia.
  - rewrite <- (Hd _ _ _ _ eq_refl). by exists [(USend 1 q, b); (URecv 1 64, d)], c.
Qed.

Lemma assoc_cases {A} (l : list (list Z * A)) other k : k ∈ l.*1 \/ assoc l other k = other.
Proof.
  induction l as [|[k' v] l IH]; cbn; [by right|]. case_decide as E; [left; rewrite E; left|].
  destruct IH as [IH|IH]; [left; by right|by right].
Qed.
Lemma fs_plan_cases m :
  (exists path, m = P_LS ++ path /\ path ∈ fs_dirs.*1) \/ (exists path, m = P_CAT ++ path /\ path ∈ fs_files.*1) \/
  fs_plan m = FsSay E_NOTFOUND \/ fs_plan m = FsSay E_BADPATH.
Proof.
  unfold fs_plan. destruct (strip P_LS m) as [path|] eqn:E1.
  { apply strip_Some in E1. destruct (assoc_cases fs_dirs (FsSay E_NOTFOUND) path); [left; by exists path|tauto]. }
  destruct (strip P_CAT m) as [path|] eqn:E2; [|tauto]. apply strip_Some in E2.
  destruct (assoc_cases fs_files (FsSay E_NOTFOUND) path); [right; left; by exists path|tauto].
Qed.
Lemma fs_answer_short m : m <> P_LS ++ F_BIN -> (length (fs_answer storage_answer m) <= 64)%nat.
Proof.
  intros Hm. destruct (fs_plan_cases m) as [(path & -> & Hin)|[(path & -> & Hin)|[E|E]]].
  - assert (Forall (fun path => path = F_BIN \/ length (fs_answer storage_answer (P_LS ++ path)) <= 64)%nat fs_dirs.*1) as F
      by (repeat (constructor; [first [right; vm_compute; lia|by left]|]); constructor).
    rewrite Forall_forall in F. destruct (F _ Hin) as [->|]; done.
  - assert (Forall (fun path => length (fs_answer storage_answer (P_CAT ++ path)) <= 64)%nat fs_files.*1) as F
      by (repeat (constructor; [vm_compute; lia|]); constructor).
    rewrite Forall_forall in F. by apply F.
  - unfold fs_answer. rewrite E. vm_compute. lia.
  - unfold fs_answer. rewrite E. vm_compute. lia.
Qed.

(** An exchange with the storage service, and with the filesystem service
    over it, as their code runs. *)
Definition storage_exchange (m r : list Z) : Prop :=
  exists s t s', storage_ok s /\ runs (storage_turn s) t s' /\ asked 64 m t /\ replied r t.
Definition fs_exchange (m r : list Z) : Prop :=
  exists buf t buf', length buf = 64%nat /\ runs (fs_turn buf) t buf' /\ asked 64 m t /\
    served_by 1 storage_exchange t /\ replied r t.

Lemma storage_exchange_answer m r : storage_exchange m r -> r = storage_answer m.
Proof.
  intros (s & t & s' & Hs & Hr & (a & t' & E & Ha & <-) & Hp). subst t.
  destruct (uwp_runs _ _ _ _ _ (storage_turn_wp s (fun _ => False) Hs) Hr) as [_ (a' & [[H0 E]|(_ & b & E)])].
  - injection E as -> ->. lia.
  - injection E as -> ->. eapply replied_unique; [exact Hp|]. by eexists [_], b.
Qed.
Lemma fs_exchange_answer m r : fs_exchange m r -> r = fs_answer storage_answer m.
Proof.
  intros (buf & t & buf' & Hb & Hr & (a & t' & E & Ha & <-) & [H1 H2] & Hp). subst t.
  destruct (uwp_runs _ _ _ _ _ (fs_turn_wp buf (fun _ => False) Hb) Hr) as [_ (a' & [[H0 E]|(_ & t2 & E & Hf)])].
  - injection E as -> ->. lia.
  - injection E as -> ->. destruct (fs_replied_answer storage_answer _ _ Hf) as (t0 & b & ->).
    + intros q b d t3 ->. apply storage_exchange_answer. by eapply (H2 [_]).
    + intros q b t3 ->. apply (H1 q). right. left.
    + eapply replied_unique; [exact Hp|]. by eexists (_ :: t0), b.
Qed.

(** The path of an application image. *)
Definition bin_path (name : list Z) : list Z := LD_BIN_PRE ++ name ++ LD_APP_SUF.

(** The filesystem service over storage.  A turn never leaves its
    buffers; to each message it sends exactly one reply on its own channel,
    after at most one exchange with storage, and a failed exchange is
    answered [ERR not_found].  When storage follows its protocol the reply
    is [fs_answer]: every path but the documented ones is refused, each of
    the three applications' images is its storage block without the frame,
    and every reply but the listing of [/bin] fits the 64-byte buffers of
    the clients. *)
Theorem fs_serves buf : length buf = 64%nat ->
  uwp (fs_turn buf) (fun b t => length b = 64%nat /\ exists a, (ret a <= 0 /\ t = [(URecv 0 64, a)]) \/
    (0 < ret a /\ exists t', t = (URecv 0 64, a) :: t' /\ fs_replied (fs_plan (data a)) t' /\
       ((forall q b d t2, t' = (USend 1 q, b) :: (URecv 1 64, d) :: t2 -> data d = storage_answer q) ->
        (forall q b t2, t' = (USend 1 q, b) :: t2 -> 0 <= ret b) ->
        exists t2 c, t' = t2 ++ [(USend 0 (fs_answer storage_answer (data a)), c)]))) (fun _ => False) /\
  fs_answer storage_answer (bin_path A_HELLO) = BH4 /\
  fs_answer storage_answer (bin_path A_COUNTER) = BC5 /\
  fs_answer storage_answer (bin_path A_FAULT) = BF6 /\
  (forall m, m <> P_LS ++ F_BIN -> (length (fs_answer storage_answer m) <= 64)%nat) /\
  (forall m, fs_answer storage_answer m <> E_NOTFOUND -> fs_answer storage_answer m <> E_BADPATH ->
     exists path, (m = P_LS ++ path /\ path ∈ fs_dirs.*1) \/ (m = P_CAT ++ path /\ path ∈ fs_files.*1)).
Proof.
  intros Hb. split; [|split; [|split; [|split; [|split]]]].
  - eapply uwp_mono; [by apply (fs_turn_wp buf (fun _ => False))| |done]. intros b t [Hl (a & H)]. split; [done|].
    exists a. destruct H as [H|(Hr & t' & -> & Ht)]; [by left|]. right. split; [done|]. exists t'. split; [done|].
    split; [done|]. by apply fs_replied_answer.
  - vm_compute. reflexivity.
  - vm_compute. reflexivity.
  - vm_compute. reflexivity.
  - apply fs_answer_short.
  - intros m H1 H2. destruct (fs_plan_cases m) as [(path & E & Hin)|[(path & E & Hin)|[E|E]]].
    + exists path. by left.
    + exists path. by right.
    + destruct H1. unfold fs_answer. by rewrite E.
    + destruct H2. unfold fs_answer. by rewrite E.
Qed.

Lemma fs_serves_witness :
  fst (uexec (fs_turn (uninit 64))
    [mkAns 18 (bin_path A_HELLO); mkAns 12 []; mkAns 52 (storage_answer Q_BLOCK4); mkAns 44 []]) =
    [URecv 0 64; USend 1 Q_BLOCK4; URecv 1 64; USend 0 BH4] /\
  fs_answer storage_answer (bin_path A_HELLO) = BH4.
Proof.
  split; [vm_compute; reflexivity|]. destruct (fs_serves (uninit 64)) as (_ & H & _); [reflexivity|exact H].
Defined.
