(* ===== verification/AppImage.v ===== *)
(** * Application image records

    The [AXAPP1] record reader and validator of the application loader
    ([kernel/src/arch/riscv64/os_boot.rs], [tok_end] to [ld_validate]): the
    bounded cursor code over a raw buffer, a reference validator on byte
    strings that reads the fields one after the other, and the grammar of the
    accepted records. *)

From stdpp Require Import strings base decidable numbers option tactics list.
From S2P Require Import Prelude Bytes Monitor UserText UserProg UserLib.
Local Open Scope Z_scope.

(** ** Reading a record *)

Fixpoint tok_end_loop (p : ptr) (j todo : nat) : outcome nat :=
  match todo with
  | O => mret j
  | S todo => b ← rd p j; if b =? 32 then mret j else tok_end_loop p (j + 1) todo
  end.
Definition tok_end (p : ptr) (i n : nat) : outcome nat := tok_end_loop p i (n - i).

Definition hex_digit (b : Z) : option Z :=
  if (48 <=? b) && (b <=? 57) then Some (b - 48)
  else if (97 <=? b) && (b <=? 102) then Some (b - 97 + 10)
  else None.
Fixpoint parse_hex4_loop (p : ptr) (i todo : nat) (v : Z) : outcome Z :=
  match todo with
  | O => mret v
  | S todo =>
      b ← rd p i;
      match hex_digit b with
      | None => mret u32_MAX
      | Some d => parse_hex4_loop p (i + 1) todo (wrapping 32 (v .<< 4) .| d)
      end
  end.
Definition parse_hex4 (p : ptr) (i : nat) : outcome Z := parse_hex4_loop p i 4 0.

Fixpoint ck_sum_loop (p : ptr) (i todo : nat) (s : Z) : outcome Z :=
  match todo with
  | O => mret s
  | S todo => b ← rd p i; ck_sum_loop p (i + 1) todo ((s + b) .& 0xffff)
  end.
Definition ck_sum (p : ptr) (end_ : nat) : outcome Z := ck_sum_loop p 0 end_ 0.

Definition ld_num_after (p : ptr) (j n : nat) : outcome (Z * nat) :=
  if decide (n <= j)%nat then mret (u64_MAX, j)
  else
    b ← rd p j;
    if negb (b =? 32) then mret (u64_MAX, j) else parse_dec_stop p (j + 1) n.

(** [eqs(p, n, addr_of!(M), M_LEN)] in a pure function. *)
Definition eq_msg (p : ptr) (n : nat) (m : list Z) : outcome bool := eqs p n (stat m) (length m).

(** Rules (6) and (7): the capability word and the application's policy. *)
Definition ld_policy (cp : ptr) (cl : nat) (name : ptr) (nl : nat) : outcome Z :=
  want_console ← eq_msg cp cl W_CONSOLE;
  none ← (if (want_console : bool) then mret true else eq_msg cp cl W_NONE);
  if negb none then mret 3
  else
    hello ← eq_msg name nl A_HELLO;
    known ← (if (hello : bool) then mret true else eq_msg name nl A_COUNTER);
    if (known : bool) then mret 0
    else
      fault ← eq_msg name nl A_FAULT;
      if (fault : bool) then mret (if (want_console : bool) then 3 else 0) else mret 5.

(** Rules (3) and (5): the fields after the name, and the layout. *)
Definition ld_fields (rp : ptr) (rl i1 : nat) (name : ptr) (nl : nat) : outcome Z :=
  r1 ← ld_num_after rp i1 rl;
  r2 ← ld_num_after rp r1.2 rl;
  r3 ← ld_num_after rp r2.2 rl;
  r4 ← ld_num_after rp r3.2 rl;
  let '(e, t, rd_, s, j4) := (r1.1, r2.1, r3.1, r4.1, r4.2) in
  if (e =? u64_MAX) || (t =? u64_MAX) || (rd_ =? u64_MAX) || (s =? u64_MAX) then mret 4
  else if decide (rl <= j4)%nat then mret 4
  else
    b ← rd rp j4;
    if negb (b =? 32) then mret 4
    else
      let c0 := (j4 + 1)%nat in
      c1 ← tok_end rp c0 rl;
      if decide (c1 <= c0)%nat then mret 4
      else
        r5 ← ld_num_after rp c1 rl;
        let '(z, j5) := r5 in
        if (z =? u64_MAX) || negb (bool_decide (j5 = rl - 5)%nat) then mret 4
        else if (t =? 0) || (65536 <? t) || (65536 <? rd_) || negb (z =? t + rd_) || (131072 <? z)
                || (t <=? e) || negb (s =? 1) then mret 1
        else cp ← padd rp c0; ld_policy cp (c1 - c0) name nl.

Definition ld_validate (rp : ptr) (rl : nat) (name : ptr) (nl : nat) : outcome Z :=
  if decide (rl < length LD_MAGIC + 6)%nat then mret 4
  else
    magic ← starts_with rp rl (stat LD_MAGIC) (length LD_MAGIC);
    if negb magic then mret 1
    else
      b ← rd rp (rl - 5);
      if negb (b =? 32) then mret 4
      else
        want ← parse_hex4 rp (rl - 4);
        if want =? u32_MAX then mret 4
        else
          sum ← ck_sum rp (rl - 5);
          if negb (sum =? want) then mret 2
          else
            let i0 := length LD_MAGIC in
            i1 ← tok_end rp i0 rl;
            if decide (i1 <= i0)%nat then mret 4
            else
              p ← padd rp i0;
              same ← eqs p (i1 - i0) name nl;
              if negb same then mret 1 else ld_fields rp rl i1 name nl.

(** ** The reference validator *)

(** The bytes up to the next space. *)
Fixpoint token (l : list Z) : list Z :=
  match l with
  | [] => []
  | b :: l => if b =? 32 then [] else b :: token l
  end.
Definition after_token (l : list Z) : list Z := drop (length (token l)) l.

(** A space and a number: its value and the rest. *)
Definition num_field (l : list Z) : option (Z * list Z) :=
  match l with
  | b :: r => if b =? 32 then (fun v => (v, drop (length (digits_of r)) r)) <$> number (digits_of r) else None
  | [] => None
  end.

Fixpoint hex_value (l : list Z) (v : Z) : option Z :=
  match l with
  | [] => Some v
  | b :: l => d ← hex_digit b; hex_value l (16 * v + d)
  end.
(** The sum of the bytes, modulo [2^16]. *)
Definition byte_sum (l : list Z) : Z := foldl Z.add 0 l mod 2 ^ 16.

Definition layout_bad (e t r s z : Z) : bool :=
  (t =? 0) || (65536 <? t) || (65536 <? r) || negb (z =? t + r) || (131072 <? z) || (t <=? e) || negb (s =? 1).

(** The loader's verdict on a capability word for an application. *)
Definition policy_code (cap name : list Z) : Z :=
  if decide (cap = W_CONSOLE \/ cap = W_NONE) then
    if decide (name = A_HELLO \/ name = A_COUNTER) then 0
    else if decide (name = A_FAULT) then (if decide (cap = W_CONSOLE) then 3 else 0) else 5
  else 3.

(** The fields after the name. *)
Definition fields_code (l name : list Z) : Z :=
  match
    f1 ← num_field l; f2 ← num_field f1.2; f3 ← num_field f2.2; f4 ← num_field f3.2;
    match f4.2 with
    | b :: c =>
        if negb (b =? 32) || bool_decide (token c = []) then None
        else
          f5 ← num_field (after_token c);
          if decide (length f5.2 = 5%nat) then Some (f1.1, f2.1, f3.1, f4.1, token c, f5.1) else None
    | [] => None
    end
  with
  | None => 4
  | Some (e, t, r, s, cap, z) => if layout_bad e t r s z then 1 else policy_code cap name
  end.

Definition image_code (m name : list Z) : Z :=
  let body := take (length m - 5) m in
  let tail := drop (length m - 5) m in
  if decide (length m < 13)%nat then 4
  else match strip LD_MAGIC m with
  | None => 1
  | Some l =>
      match tail with
      | b :: h =>
          if negb (b =? 32) then 4
          else match hex_value h 0 with
          | None => 4
          | Some want =>
              if negb (byte_sum body =? want) then 2
              else if decide (token l = []) then 4
              else if decide (token l = name) then fields_code (after_token l) name else 1
          end
      | [] => 4
      end
  end.

(** ** The cursor code computes the reference *)

Lemma token_length l : (length (token l) <= length l)%nat.
Proof. induction l; cbn; [done|]. case_match; cbn; lia. Qed.
Lemma take_token l : take (length (token l)) l = token l.
Proof. induction l; cbn; [done|]. case_match; cbn; [done|]. by f_equal. Qed.

Lemma tok_end_holds p m i : holds p m -> (i <= length m)%nat ->
  tok_end p i (length m) = Val (i + length (token (drop i m)))%nat.
Proof.
  intros Hp Hi. unfold tok_end. remember (length m - i)%nat as todo eqn:Ht. revert i Hi Ht.
  induction todo as [|todo IH]; intros i Hi Ht; cbn [tok_end_loop].
  { rewrite drop_ge by lia. cbn. by rewrite Nat.add_0_r. }
  destruct (lookup_lt_is_Some_2 m i) as [b Hb]; [lia|].
  rewrite (rd_holds p m i b) by done. rewrite (drop_S _ _ _ Hb). cbn.
  case_match; cbn; [by rewrite Nat.add_0_r|]. rewrite Nat.add_1_r, IH by lia. f_equal. lia.
Qed.

Lemma hex_digit_range b d : hex_digit b = Some d -> 0 <= d < 16.
Proof. unfold hex_digit. repeat case_match; intros [= <-]; bool_facts; lia. Qed.
Lemma hex_value_range l v w : hex_value l v = Some w -> 0 <= v ->
  0 <= w < 16 ^ Z.of_nat (length l) * (v + 1).
Proof.
  revert v; induction l as [|b l IH]; intros v H Hv; cbn [hex_value] in H.
  { injection H as <-. cbn. lia. }
  destruct (hex_digit b) as [d|] eqn:Ed; [|done]. apply hex_digit_range in Ed. cbn in H.
  apply IH in H; [|lia]. cbn [length]. rewrite Nat2Z.inj_succ, Z.pow_succ_r by lia. nia.
Qed.

Lemma shift4_or v d : 0 <= v < 2 ^ 28 -> 0 <= d < 16 -> wrapping 32 (v .<< 4) .| d = 16 * v + d.
Proof.
  intros Hv Hd. unfold wrapping. rewrite Z.mod_small by (rewrite Z.shiftl_mul_pow2; lia).
  assert (Z.land (v .<< 4) d = 0) as Hz.
  { apply Z.bits_inj'. intros n Hn. rewrite Z.land_spec, Z.bits_0, Z.shiftl_spec by done.
    destruct (Z.ltb_spec n 4); [by rewrite Z.testbit_neg_r by lia|].
    rewrite <- (Z.mod_small d (2 ^ 4)) by lia. rewrite Z.mod_pow2_bits_high by lia. apply andb_false_r. }
  rewrite <- Z.lxor_lor, <- Z.add_nocarry_lxor by done. rewrite Z.shiftl_mul_pow2; lia.
Qed.

Lemma parse_hex4_holds p m i : holds p m -> (i + 4 = length m)%nat ->
  parse_hex4 p i = Val (default u32_MAX (hex_value (drop i m) 0)) /\
  hex_value (drop i m) 0 <> Some u32_MAX.
Proof.
  intros Hp Hi. split.
  - unfold parse_hex4.
    assert (forall todo i v, (i + todo)%nat = length m -> (todo <= 4)%nat -> 0 <= v < 16 ^ (4 - Z.of_nat todo) ->
      parse_hex4_loop p i todo v = Val (default u32_MAX (hex_value (drop i m) v))) as H.
    { clear i Hi. induction todo as [|todo IH]; intros i v Hi Ht Hv; cbn [parse_hex4_loop].
      { by rewrite drop_ge by lia. }
      destruct (lookup_lt_is_Some_2 m i) as [b Hb]; [lia|].
      rewrite (rd_holds p m i b) by done. rewrite (drop_S _ _ _ Hb). cbn -[Z.pow].
      destruct (hex_digit b) as [d|] eqn:Ed; [|done]. apply hex_digit_range in Ed. cbn -[Z.pow].
      assert (16 ^ (4 - Z.of_nat todo) = 16 * 16 ^ (4 - Z.of_nat (S todo))) as Hpow
        by (rewrite <- Z.pow_succ_r by lia; f_equal; lia).
      assert (16 ^ (4 - Z.of_nat (S todo)) <= 16 ^ 3) by (apply Z.pow_le_mono_r; lia).
      rewrite shift4_or by lia. rewrite IH, Nat.add_1_r; [done|lia|lia|lia]. }
    apply H; [done|lia|cbn; lia].
  - intros E. apply hex_value_range in E; [|done]. rewrite length_drop in E.
    replace (length m - i)%nat with 4%nat in E by lia. unfold u32_MAX in E. cbn in E. lia.
Qed.

Lemma ck_sum_holds p m e : holds p m -> bytes_ok m -> (e <= length m)%nat ->
  ck_sum p e = Val (byte_sum (take e m)).
Proof.
  intros Hp Hm He. unfold ck_sum, byte_sum.
  assert (forall todo i s, (i + todo <= length m)%nat ->
    ck_sum_loop p i todo (s mod 2 ^ 16) = Val (foldl Z.add s (take todo (drop i m)) mod 2 ^ 16)) as H.
  { clear e He. induction todo as [|todo IH]; intros i s Hi; cbn [ck_sum_loop]; [done|].
    destruct (lookup_lt_is_Some_2 m i) as [b Hb]; [lia|].
    rewrite (rd_holds p m i b) by done. rewrite (drop_S _ _ _ Hb). cbn -[Z.pow Z.modulo].
    change 65535 with (Z.ones 16). rewrite Z.land_ones, Zplus_mod_idemp_l by lia.
    rewrite IH by lia. by rewrite Nat.add_1_r. }
  apply (H e 0%nat 0). lia.
Qed.

Lemma number_stop ds : digits_of ds = ds ->
  (match ds with [] => u64_MAX | _ => wrap_value 0 ds end) = default u64_MAX (number ds).
Proof.
  intros Hd. unfold number. case_decide as H.
  - by destruct ds as [|x ds]; [destruct H|].
  - destruct ds as [|x ds]; [done|]. cbn [default from_option]. destruct (decide (wrap_value 0 (x :: ds) = u64_MAX)); [done|].
    by destruct H.
Qed.
Lemma digits_of_idem l : digits_of (digits_of l) = digits_of l.
Proof. induction l; cbn; [done|]. destruct (is_digit a) eqn:E; cbn; [|done]. by rewrite E, IHl. Qed.
Lemma number_max ds : number ds <> Some u64_MAX.
Proof. intros H%number_range. lia. Qed.

Lemma ld_num_after_holds p m j : holds p m -> (j <= length m)%nat ->
  exists v j', ld_num_after p j (length m) = Val (v, j') /\ (j' <= length m)%nat /\
    (v =? u64_MAX) = bool_decide (num_field (drop j m) = None) /\
    (forall x r, num_field (drop j m) = Some (x, r) -> v = x /\ drop j' m = r).
Proof.
  intros Hp Hj. unfold ld_num_after, num_field. case_decide as Hlt.
  { rewrite drop_ge by done. exists u64_MAX, j. done. }
  destruct (lookup_lt_is_Some_2 m j) as [b Hb]; [lia|].
  rewrite (rd_holds p m j b) by done. rewrite (drop_S _ _ _ Hb). cbn -[parse_dec_stop].
  destruct (Z.eqb_spec b 32) as [->|Hn]; cbn -[parse_dec_stop].
  2:{ exists u64_MAX, j. split; [done|]. split; [lia|done]. }
  rewrite Nat.add_1_r, parse_dec_stop_holds by done. cbv zeta.
  set (r := drop (S j) m). pose proof (digits_of_length r) as Hl.
  rewrite number_stop by apply digits_of_idem. do 2 eexists. split; [done|].
  assert (length r = length m - S j)%nat as Hr by apply length_drop. split; [lia|].
  pose proof (number_max (digits_of r)). destruct (number (digits_of r)) as [v|]; cbn.
  - split; [apply Z.eqb_neq; congruence|]. intros x r' [= <- <-]. split; [done|]. unfold r. by rewrite drop_drop.
  - done.
Qed.

(** Comparison with a name at a pointer. *)
Lemma eqs_holds2 p m q nm n : holds p m -> holds q nm -> n = length m ->
  eqs p n q (length nm) = Val (bool_decide (m = nm)).
Proof.
  intros Hp Hq ->. unfold eqs. case_bool_decide as E; cbn.
  - rewrite (eqs_loop_holds p q m nm) by (done || lia).
    f_equal. apply bool_decide_ext. by rewrite !drop_0, !take_ge by lia.
  - by rewrite bool_decide_eq_false_2 by congruence.
Qed.
Lemma eq_msg_holds p m n q : holds p m -> n = length m -> eq_msg p n q = Val (bool_decide (m = q)).
Proof. intros Hp ->. by apply eqs_holds. Qed.

Lemma ld_policy_holds cp cap n name nm nl : holds cp cap -> n = length cap -> holds name nm -> nl = length nm ->
  ld_policy cp n name nl = Val (policy_code cap nm).
Proof.
  intros Hc -> Hn ->. unfold ld_policy, policy_code. ounfold.
  rewrite !(eq_msg_holds cp cap), !(eq_msg_holds name nm) by done.
  destruct (decide (cap = W_CONSOLE)) as [->|].
  - rewrite (bool_decide_eq_true_2 (W_CONSOLE = W_CONSOLE)), (decide_True (P := W_CONSOLE = W_CONSOLE \/ _)) by tauto.
    cbn [negb]. destruct (decide (nm = A_HELLO)) as [->|];
      [by rewrite bool_decide_eq_true_2, decide_True by tauto|rewrite (bool_decide_eq_false_2 (nm = A_HELLO)) by done].
    destruct (decide (nm = A_COUNTER)) as [->|];
      [by rewrite bool_decide_eq_true_2, decide_True by tauto|rewrite (bool_decide_eq_false_2 (nm = A_COUNTER)) by done].
    rewrite (decide_False (P := nm = A_HELLO \/ _)) by tauto. by case_bool_decide; case_decide.
  - rewrite (bool_decide_eq_false_2 (cap = W_CONSOLE)) by done.
    destruct (decide (cap = W_NONE)) as [->|].
    2:{ rewrite bool_decide_eq_false_2, decide_False by tauto. done. }
    rewrite bool_decide_eq_true_2, (decide_True (P := W_NONE = W_CONSOLE \/ _)) by tauto. cbn [negb].
    destruct (decide (nm = A_HELLO)) as [->|];
      [by rewrite bool_decide_eq_true_2, decide_True by tauto|rewrite (bool_decide_eq_false_2 (nm = A_HELLO)) by done].
    destruct (decide (nm = A_COUNTER)) as [->|];
      [by rewrite bool_decide_eq_true_2, decide_True by tauto|rewrite (bool_decide_eq_false_2 (nm = A_COUNTER)) by done].
    rewrite (decide_False (P := nm = A_HELLO \/ _)) by tauto. by case_bool_decide; case_decide.
Qed.

Lemma drop_cons_bound {A} j (m : list A) b c : drop j m = b :: c ->
  (j < length m)%nat /\ m !! j = Some b /\ drop (j + 1) m = c.
Proof.
  intros H. assert (j < length m)%nat by (apply (f_equal length) in H; rewrite length_drop in H; cbn in H; lia).
  split; [done|]. destruct (lookup_lt_is_Some_2 m j) as [x Hx]; [done|]. rewrite (drop_S _ _ _ Hx) in H.
  injection H as -> <-. by rewrite Nat.add_1_r.
Qed.

(** The capability word and the size, from the position after the stack. *)
Lemma ld_tail_holds rp m j4 (F : nat -> nat -> Z -> outcome Z) (K : list Z -> Z -> Z) :
  holds rp m -> (5 <= length m)%nat -> (j4 <= length m)%nat ->
  (forall c0 c1 z, (c0 <= c1 <= length m)%nat -> F c0 c1 z = Val (K (take (c1 - c0) (drop c0 m)) z)) ->
  (if decide (length m <= j4)%nat then mret 4
   else
    b ← rd rp j4;
    if negb (b =? 32) then mret 4
    else
      let c0 := (j4 + 1)%nat in
      c1 ← tok_end rp c0 (length m);
      if decide (c1 <= c0)%nat then mret 4
      else
        r5 ← ld_num_after rp c1 (length m);
        let '(z, j5) := r5 in
        if (z =? u64_MAX) || negb (bool_decide (j5 = length m - 5)%nat) then mret 4
        else F c0 c1 z) =
  Val match drop j4 m with
      | b :: c => if negb (b =? 32) || bool_decide (token c = []) then 4
                  else match num_field (after_token c) with
                  | Some (z, r) => if decide (length r = 5%nat) then K (token c) z else 4
                  | None => 4
                  end
      | [] => 4
      end.
Proof.
  intros Hp H5 Hj HF. case_decide as Hlt; [by rewrite drop_ge by lia|].
  destruct (drop j4 m) as [|b c] eqn:Ed.
  { apply (f_equal length) in Ed. rewrite length_drop in Ed. cbn in Ed. lia. }
  apply drop_cons_bound in Ed as (Hjm & Hb & Hc). rewrite (rd_holds rp m j4 b) by done. cbn [mbind outcome_bind].
  unfold mbind, outcome_bind. destruct (b =? 32); cbn [negb orb]; [|done].
  rewrite tok_end_holds, Hc by (done || lia). pose proof (token_length c).
  assert (length c = length m - (j4 + 1))%nat as Hlc by (rewrite <- Hc; apply length_drop).
  destruct (decide (token c = [])) as [E|E].
  { rewrite E, bool_decide_eq_true_2 by done. rewrite decide_True by (cbn; lia). done. }
  rewrite bool_decide_eq_false_2 by done.
  assert (0 < length (token c))%nat by (destruct (token c); [done|cbn; lia]).
  rewrite decide_False by lia.
  destruct (ld_num_after_holds rp m (j4 + 1 + length (token c)) Hp) as (z & j5 & -> & Hj5 & Hm & Hv); [lia|].
  rewrite <- drop_drop, Hc in Hm, Hv. fold (after_token c) in Hm, Hv. rewrite Hm.
  destruct (num_field (after_token c)) as [[x r]|] eqn:En; [|by rewrite bool_decide_eq_true_2 by done].
  rewrite (bool_decide_eq_false_2 (Some _ = None)) by done. cbn [orb]. destruct (Hv x r eq_refl) as [-> <-].
  rewrite length_drop. destruct (decide (j5 = length m - 5)%nat) as [E5|E5].
  - rewrite bool_decide_eq_true_2, decide_True by lia. cbn [negb]. rewrite HF, Hc by lia.
    replace (j4 + 1 + length (token c) - (j4 + 1))%nat with (length (token c)) by lia.
    by rewrite take_token.
  - by rewrite bool_decide_eq_false_2, decide_False by lia.
Qed.

Lemma ld_fields_holds rp m i1 name nm nl : holds rp m -> (5 <= length m)%nat -> (i1 <= length m)%nat ->
  holds name nm -> nl = length nm ->
  ld_fields rp (length m) i1 name nl = Val (fields_code (drop i1 m) nm).
Proof.
  intros Hp H5 Hi Hn ->. unfold ld_fields, fields_code.
  destruct (ld_num_after_holds rp m i1 Hp Hi) as (v1 & j1 & -> & Hj1 & Hm1 & Hv1). unfold mbind at 1, outcome_bind at 1.
  destruct (ld_num_after_holds rp m j1 Hp Hj1) as (v2 & j2 & E2 & Hj2 & Hm2 & Hv2).
  destruct (ld_num_after_holds rp m j2 Hp Hj2) as (v3 & j3 & E3 & Hj3 & Hm3 & Hv3).
  destruct (ld_num_after_holds rp m j3 Hp Hj3) as (v4 & j4 & E4 & Hj4 & Hm4 & Hv4).
  cbn [fst snd]. rewrite E2. unfold mbind at 1, outcome_bind at 1. cbn [fst snd].
  rewrite E3. unfold mbind at 1, outcome_bind at 1. cbn [fst snd].
  rewrite E4. unfold mbind at 1, outcome_bind at 1. cbn [fst snd]. rewrite Hm1, Hm2, Hm3, Hm4.
  destruct (num_field (drop i1 m)) as [[e r1]|]; [|by rewrite bool_decide_eq_true_2]. destruct (Hv1 _ _ eq_refl) as [-> <-].
  cbn [mbind option_bind fst snd].
  destruct (num_field (drop j1 m)) as [[t r2]|]; [|by rewrite (bool_decide_eq_true_2 (None = None)), ?orb_true_r]. destruct (Hv2 _ _ eq_refl) as [-> <-].
  cbn [mbind option_bind fst snd].
  destruct (num_field (drop j2 m)) as [[r r3]|]; [|by rewrite (bool_decide_eq_true_2 (None = None)), ?orb_true_r]. destruct (Hv3 _ _ eq_refl) as [-> <-].
  cbn [mbind option_bind fst snd].
  destruct (num_field (drop j3 m)) as [[s r4]|]; [|by rewrite (bool_decide_eq_true_2 (None = None)), ?orb_true_r]. destruct (Hv4 _ _ eq_refl) as [-> <-].
  cbn [mbind option_bind fst snd].
  rewrite !(bool_decide_eq_false_2 (Some _ = None)) by done. cbn [orb].
  set (K cap z := if layout_bad e t r s z then 1 else policy_code cap nm).
  etrans; [apply (ld_tail_holds rp m j4 (fun c0 c1 z => if layout_bad e t r s z then mret 1
    else cp ← padd rp c0; ld_policy cp (c1 - c0) name (length nm)) K); [done..|]|].
  2:{ f_equal. destruct (drop j4 m) as [|b c]; [done|]. case_match; [done|].
    destruct (num_field (after_token c)) as [[z r5]|]; [|done]. cbn. by case_decide. }
  intros c0 c1 z Hc. unfold K. case_match; [done|].
  destruct (padd_holds rp m c0 Hp) as [-> Hd]; [lia|].
  apply ld_policy_holds; [by apply holds_take|rewrite length_take, length_drop; lia|done|done].
Qed.

(** The reading code and the reference agree on every record and name. *)
Lemma ld_validate_holds rp m name nm n nl : holds rp m -> bytes_ok m -> n = length m -> holds name nm -> nl = length nm ->
  ld_validate rp n name nl = Val (image_code m nm).
Proof.
  intros Hp Hb -> Hn ->. unfold ld_validate, image_code. cbv zeta. change (length LD_MAGIC + 6)%nat with 13%nat.
  case_decide as Hl; [done|]. rewrite starts_with_holds by done.
  unfold mbind at 1, outcome_bind at 1. unfold strip. case_bool_decide as Hm; [rewrite decide_True by done|by rewrite decide_False].
  cbn [negb]. destruct Hm as [l Em].
  destruct (drop (length m - 5) m) as [|b h] eqn:Ed.
  { apply (f_equal length) in Ed. rewrite length_drop in Ed. cbn in Ed. lia. }
  apply drop_cons_bound in Ed as (_ & Hlb & Hh). rewrite (rd_holds rp m _ b) by done.
  unfold mbind at 1, outcome_bind at 1. case_match; [done|].
  destruct (parse_hex4_holds rp m (length m - 4) Hp) as [-> Hne]; [lia|].
  replace (length m - 4)%nat with (length m - 5 + 1)%nat in * by lia. rewrite Hh in *.
  unfold mbind at 1, outcome_bind at 1. destruct (hex_value h 0) as [want|]; [|done]. change (default u32_MAX (Some want)) with want.
  destruct (Z.eqb_spec want u32_MAX) as [->|_]; [done|].
  rewrite (ck_sum_holds rp m) by (done || lia). unfold mbind at 1, outcome_bind at 1. case_match; [done|].
  assert (length m = length LD_MAGIC + length l)%nat as Hlen by (by rewrite Em, length_app).
  rewrite tok_end_holds by (done || lia). unfold mbind at 1, outcome_bind at 1.
  assert (drop (length LD_MAGIC) m = l) as Hdl by (by rewrite Em, drop_app_length). rewrite Hdl.
  case_decide as Ht; [rewrite decide_True; [done|]|rewrite decide_False].
  { apply nil_length_inv. lia. }
  2:{ intros E. rewrite E in Ht. cbn in Ht. lia. }
  destruct (padd_holds rp m (length LD_MAGIC) Hp) as [-> Hd]; [lia|]. unfold mbind at 1, outcome_bind at 1.
  rewrite Hdl in Hd. pose proof (token_length l).
  rewrite (eqs_holds2 _ (token l) _ nm); [|rewrite <- take_token; by apply holds_take|done|lia].
  unfold mbind at 1, outcome_bind at 1. case_bool_decide; [rewrite decide_True by done|by rewrite decide_False].
  cbn [negb]. rewrite (ld_fields_holds rp m _ name nm) by (done || lia). f_equal. f_equal.
  by rewrite <- drop_drop, Hdl.
Qed.

(** ** The accepted records *)

Lemma token_app t r : 32 ∉ t -> (forall b l, r = b :: l -> b = 32) ->
  token (t ++ r) = t /\ after_token (t ++ r) = r.
Proof.
  intros Ht Hr. unfold after_token. assert (token (t ++ r) = t) as E.
  { induction t as [|b t IH]; cbn.
    - destruct r as [|b r]; [done|]. cbn. by rewrite (Hr b r eq_refl).
    - rewrite elem_of_cons in Ht. destruct (Z.eqb_spec b 32); [subst; tauto|]. f_equal. apply IH. tauto. }
  split; [done|]. by rewrite E, drop_app_length.
Qed.
Lemma token_split l : l = token l ++ after_token l.
Proof. unfold after_token. etrans; [symmetry; apply (take_drop (length (token l)))|]. by rewrite take_token. Qed.

Lemma digits_split l : l = digits_of l ++ drop (length (digits_of l)) l.
Proof. induction l as [|b l IH]; cbn; [done|]. case_match; cbn; [by f_equal|done]. Qed.

Lemma num_field_split l v r : num_field l = Some (v, r) -> exists ds, l = 32 :: ds ++ r /\ number ds = Some v.
Proof.
  destruct l as [|b l]; [done|]. cbn. destruct (Z.eqb_spec b 32) as [->|]; [|done].
  destruct (number (digits_of l)) as [x|] eqn:E; [|done]. intros [= -> <-]. exists (digits_of l).
  by rewrite <- digits_split.
Qed.
Lemma number_digit ds v : number ds = Some v -> Forall (fun b => is_digit b = true) ds.
Proof. unfold number. case_decide as H; [|done]. intros _. apply digits_of_all, H. Qed.
Lemma num_field_app ds v r : number ds = Some v -> num_field (32 :: ds ++ 32 :: r) = Some (v, 32 :: r).
Proof.
  intros H. cbn [num_field]. rewrite digits_of_app; [|exact (number_digit _ _ H)|by intros b l [= <- _]].
  cbn. by rewrite H, drop_app_length.
Qed.

(** An image record: the fields as text, before the checksum. *)
Definition image_body (name e t r s cap z : list Z) : list Z :=
  LD_MAGIC ++ name ++ 32 :: e ++ 32 :: t ++ 32 :: r ++ 32 :: s ++ 32 :: cap ++ 32 :: z.

(** A record [m] of the application [name] that the image policy admits. *)
Definition image_admitted (m name : list Z) : Prop :=
  exists e t r s cap z h ve vt vr vz,
    m = image_body name e t r s cap z ++ 32 :: h /\
    (length h = 4%nat /\ hex_value h 0 = Some (byte_sum (image_body name e t r s cap z))) /\
    (number e = Some ve /\ number t = Some vt /\ number r = Some vr /\ number s = Some 1 /\ number z = Some vz) /\
    (ve < vt <= 65536 /\ vr <= 65536 /\ vz = vt + vr) /\
    name ∈ [A_HELLO; A_COUNTER; A_FAULT] /\ cap ∈ [W_CONSOLE; W_NONE] /\ (name = A_FAULT -> cap = W_NONE).

Lemma layout_ok e t r s z : 0 <= e -> 0 <= r ->
  layout_bad e t r s z = false <-> (e < t <= 65536 /\ r <= 65536 /\ z = t + r) /\ s = 1.
Proof.
  intros He Hr. unfold layout_bad. split.
  - intros H. bool_facts. lia.
  - intros [(H1 & H2 & ->) ->]. rewrite !orb_false_iff. repeat split; bool_facts; try (apply Z.eqb_neq || apply Z.ltb_ge || apply Z.leb_gt); try lia. 
Qed.
Lemma policy_ok cap name : policy_code cap name = 0 <->
  name ∈ [A_HELLO; A_COUNTER; A_FAULT] /\ cap ∈ [W_CONSOLE; W_NONE] /\ (name = A_FAULT -> cap = W_NONE).
Proof.
  unfold policy_code. rewrite !elem_of_cons, !elem_of_nil. repeat case_decide; split; try done; intros; subst; try naive_solver.
  all: repeat match goal with H : _ /\ _ |- _ => destruct H end; try naive_solver.
Qed.

Lemma name_plain name : name ∈ [A_HELLO; A_COUNTER; A_FAULT] -> (32 ∉ name) /\ name <> [].
Proof.
  rewrite !elem_of_cons, elem_of_nil. intros [->|[->|[->|[]]]]; (split; [by apply (bool_decide_unpack _); vm_compute|done]).
Qed.
Lemma cap_plain cap : cap ∈ [W_CONSOLE; W_NONE] -> (32 ∉ cap) /\ cap <> [].
Proof.
  rewrite !elem_of_cons, elem_of_nil. intros [->|[->|[]]]; (split; [by apply (bool_decide_unpack _); vm_compute|done]).
Qed.

Lemma fields_code_form l name e t r s cap z h ve vt vr vs vz :
  number e = Some ve -> number t = Some vt -> number r = Some vr -> number s = Some vs -> number z = Some vz ->
  32 ∉ cap -> cap <> [] -> length h = 4%nat ->
  l = 32 :: e ++ 32 :: t ++ 32 :: r ++ 32 :: s ++ 32 :: cap ++ 32 :: z ++ 32 :: h ->
  fields_code l name = if layout_bad ve vt vr vs vz then 1 else policy_code cap name.
Proof.
  intros He Ht Hr Hs Hz Hc Hc' Hh ->. unfold fields_code.
  rewrite (num_field_app e ve) by done. cbn [mbind option_bind fst snd].
  rewrite (num_field_app t vt) by done. cbn [mbind option_bind fst snd].
  rewrite (num_field_app r vr) by done. cbn [mbind option_bind fst snd].
  rewrite (num_field_app s vs) by done. cbn [mbind option_bind fst snd].
  destruct (token_app cap (32 :: z ++ 32 :: h) Hc) as [-> ->]; [intros b l E; by injection E|].
  rewrite Z.eqb_refl, bool_decide_eq_false_2 by done. cbn [negb orb].
  rewrite (num_field_app z vz) by done. cbn [mbind option_bind fst snd]. by rewrite decide_True by (cbn; lia).
Qed.

Lemma fields_code_split l name : fields_code l name = 0 -> exists e t r s cap z h ve vt vr vs vz,
  l = 32 :: e ++ 32 :: t ++ 32 :: r ++ 32 :: s ++ 32 :: cap ++ 32 :: z ++ h /\ length h = 5%nat /\
  (number e = Some ve /\ number t = Some vt /\ number r = Some vr /\ number s = Some vs /\ number z = Some vz) /\
  layout_bad ve vt vr vs vz = false /\ policy_code cap name = 0.
Proof.
  unfold fields_code. intros H.
  destruct (num_field l) as [[ve r1]|] eqn:E1; [|done]. cbn [mbind option_bind fst snd] in H.
  destruct (num_field r1) as [[vt r2]|] eqn:E2; [|done]. cbn [mbind option_bind fst snd] in H.
  destruct (num_field r2) as [[vr r3]|] eqn:E3; [|done]. cbn [mbind option_bind fst snd] in H.
  destruct (num_field r3) as [[vs [|b c]]|] eqn:E4; [done| |done]. cbn [mbind option_bind fst snd] in H.
  destruct (Z.eqb_spec b 32) as [->|]; [|done]. cbn [negb orb] in H. case_bool_decide; [done|].
  destruct (num_field (after_token c)) as [[vz r5]|] eqn:E5; [|done]. cbn [mbind option_bind fst snd] in H.
  case_decide as Hl; [|done]. destruct (layout_bad ve vt vr vs vz) eqn:Hb; [done|].
  apply num_field_split in E1 as (e & -> & ?), E2 as (t & -> & ?), E3 as (r & -> & ?), E4 as (s & -> & ?), E5 as (z & E5 & ?).
  exists e, t, r, s, (token c), z, r5, ve, vt, vr, vs, vz. split; [|done].
  by rewrite (token_split c), E5 at 1.
Qed.

Lemma image_code_admitted m name : image_code m name = 0 <-> image_admitted m name.
Proof.
  unfold image_code. cbv zeta. split.
  - case_decide; [done|]. destruct (strip LD_MAGIC m) as [l|] eqn:El; [|done]. apply strip_Some in El.
    destruct (drop (length m - 5) m) as [|b h] eqn:Ed; [done|]. destruct (Z.eqb_spec b 32) as [->|]; [|done]. cbn [negb].
    destruct (hex_value h 0) as [want|] eqn:Eh; [|done]. destruct (Z.eqb_spec (byte_sum (take (length m - 5) m)) want) as [Ew|]; [|done].
    cbn [negb]. case_decide; [done|]. case_decide as Hn; [|done].
    intros (e & t & r & s & cap & z & h' & ve & vt & vr & vs & vz & E & Hh & Hnum & Hlay & Hpol)%fields_code_split.
    destruct Hnum as (He & Ht & Hr & Hs & Hz). apply layout_ok in Hlay as [Hlay ->]; [|apply (number_range _ _ He)|apply (number_range _ _ Hr)].
    apply policy_ok in Hpol.
    assert (m = image_body name e t r s cap z ++ h') as Em.
    { rewrite El, (token_split l), E, Hn. unfold image_body. by repeat (rewrite <- ?app_assoc; cbn [app]). }
    assert (length m - 5 = length (image_body name e t r s cap z))%nat as Hlen by (rewrite Em, length_app; lia).
    rewrite Hlen, Em, drop_app_length in Ed. rewrite Hlen, Em, take_app_length in Ew. subst h' want.
    exists e, t, r, s, cap, z, h, ve, vt, vr, vz. split; [done|]. split; [cbn in Hh; split; [lia|done]|]. done.
  - intros (e & t & r & s & cap & z & h & ve & vt & vr & vz & -> & (Hh & Hx) & (He & Ht & Hr & Hs & Hz) & Hlay & Hpol).
    pose proof (proj2 (policy_ok cap name) Hpol) as Hcode.
    destruct Hpol as (Hname & Hcap & _). destruct (name_plain _ Hname) as [Hn1 Hn2], (cap_plain _ Hcap) as [Hc1 Hc2].
    set (body := image_body name e t r s cap z) in *.
    set (l := 32 :: e ++ 32 :: t ++ 32 :: r ++ 32 :: s ++ 32 :: cap ++ 32 :: z ++ 32 :: h).
    assert (body ++ 32 :: h = LD_MAGIC ++ name ++ l) as Em
      by (unfold body, image_body, l; by repeat (rewrite <- ?app_assoc; cbn [app])).
    assert ((length (body ++ 32%Z :: h) - 5)%nat = length body) as -> by (rewrite length_app; cbn; lia).
    rewrite drop_app_length, take_app_length, Z.eqb_refl, Hx, Z.eqb_refl. cbn [negb].
    rewrite Em, strip_app. destruct (token_app name l Hn1) as [-> ->]; [intros b l' E; by injection E|].
    rewrite decide_False. 2:{ unfold l. repeat (rewrite ?length_app; cbn [length]). change (length LD_MAGIC) with 7%nat. lia. }
    rewrite decide_False, decide_True by done.
    rewrite (fields_code_form l name e t r s cap z h ve vt vr 1 vz) by done.
    by rewrite (proj2 (layout_ok ve vt vr 1 vz (proj1 (number_range _ _ He)) (proj1 (number_range _ _ Hr)))).
Qed.

(** ** Checksums *)

Lemma hex_digit_inj a b d : hex_digit a = Some d -> hex_digit b = Some d -> a = b.
Proof. unfold hex_digit. repeat case_match; intros [= <-] [= ?]; bool_facts; lia. Qed.
Lemma hex_value_inj l l' v v' w : length l = length l' -> hex_value l v = Some w -> hex_value l' v' = Some w ->
  l = l' /\ v = v'.
Proof.
  revert l' v v'; induction l as [|a l IH]; intros [|b l'] v v' Hl H H'; try done; cbn [hex_value] in *.
  { by simplify_eq. }
  destruct (hex_digit a) as [d|] eqn:Ea; [|done]. destruct (hex_digit b) as [d'|] eqn:Eb; [|done].
  cbn [mbind option_bind] in *. destruct (IH l' (16 * v + d) (16 * v' + d')) as [-> E]; [by injection Hl|done|done|].
  pose proof (hex_digit_range _ _ Ea). pose proof (hex_digit_range _ _ Eb). assert (d = d') as <- by lia.
  split; [f_equal; by eapply hex_digit_inj|lia].
Qed.

Lemma foldl_add v l : foldl Z.add v l = v + foldl Z.add 0 l.
Proof.
  revert v; induction l as [|x l IH]; intros v; cbn [foldl]; [lia|]. rewrite IH, (IH (0 + x)). lia.
Qed.
Lemma sum_insert l i x y : l !! i = Some x ->
  foldl Z.add 0 (<[i := y]> l) = foldl Z.add 0 l - x + y.
Proof.
  revert i; induction l as [|z l IH]; intros [|i] H; [done|done|..]; cbn in H |- *.
  - injection H as ->. rewrite (foldl_add (0 + y)), (foldl_add (0 + x)). lia.
  - rewrite (foldl_add (0 + z)), (foldl_add (0 + z) l), IH by done. lia.
Qed.
(** Changing one byte changes the sum. *)
Lemma byte_sum_insert l i x y : bytes_ok l -> 0 <= y < 256 -> l !! i = Some x -> x <> y ->
  byte_sum (<[i := y]> l) <> byte_sum l.
Proof.
  intros Hl Hy Hi Hn E. unfold byte_sum in E. rewrite (sum_insert l i x y Hi) in E.
  assert (0 <= x < 256) by (by apply (Forall_lookup_1 _ _ _ _ Hl Hi)).
  set (s := foldl Z.add 0 l) in *. assert ((s - x + y - s) mod 2 ^ 16 = 0) as Hz
    by (rewrite Zminus_mod, E; by rewrite Z.sub_diag).
  apply Z.mod_divide in Hz as [k Hk]; lia.
Qed.

(** The tail an accepted record ends in. *)
Lemma admitted_tail m name : image_admitted m name -> exists body h,
  m = body ++ 32 :: h /\ length h = 4%nat /\ hex_value h 0 = Some (byte_sum body).
Proof. intros (e & t & r & s & cap & z & h & _ & _ & _ & _ & -> & [Hh Hx] & _). by exists (image_body name e t r s cap z), h. Qed.

Lemma corrupted_refused m name i x y : image_admitted m name -> bytes_ok m -> 0 <= y < 256 ->
  m !! i = Some x -> x <> y -> image_admitted (<[i := y]> m) name -> False.
Proof.
  intros (body & h & -> & Hh & Hx)%admitted_tail Hb Hy Hi Hn (body' & h' & E & Hh' & Hx')%admitted_tail.
  apply Forall_app in Hb as [Hb _].
  assert (length body = length body') as Hl.
  { apply (f_equal length) in E. rewrite length_insert, !length_app in E. cbn in E. lia. }
  destruct (decide (i < length body)%nat) as [Hlt|Hge].
  - rewrite insert_app_l in E by done. apply app_inj_1 in E as [<- E]; [|by rewrite length_insert].
    injection E as <-. rewrite lookup_app_l in Hi by done. rewrite Hx in Hx'. injection Hx' as Hx'.
    by apply (byte_sum_insert body i x y).
  - rewrite insert_app_r_alt in E by lia. apply app_inj_1 in E as [<- E]; [|done].
    rewrite lookup_app_r in Hi by lia. destruct (i - length body)%nat as [|k]; cbn in E, Hi.
    { simplify_eq. }
    injection E as <-. destruct (hex_value_inj h (<[k := y]> h) 0 0 _ ltac:(by rewrite length_insert) Hx Hx') as [Eh _].
    change (h !! k = Some x) in Hi. pose proof (list_lookup_insert_eq h k y (lookup_lt_Some _ _ _ Hi)) as Hy'.
    rewrite <- Eh in Hy'. congruence.
Qed.

(** ** Building a record *)

Definition hex_char (d : Z) : Z := if d <? 10 then 48 + d else 97 + (d - 10).
Definition hex4 (v : Z) : list Z :=
  hex_char <$> [v / 4096 mod 16; v / 256 mod 16; v / 16 mod 16; v mod 16].

Lemma hex_digit_char d : 0 <= d < 16 -> hex_digit (hex_char d) = Some d.
Proof.
  intros Hd. unfold hex_digit, hex_char. destruct (Z.ltb_spec d 10).
  - replace ((48 <=? 48 + d) && (48 + d <=? 57)) with true by (symmetry; rewrite andb_true_iff, !Z.leb_le; lia). f_equal. lia.
  - replace ((48 <=? 97 + (d - 10)) && (97 + (d - 10) <=? 57)) with false
      by (symmetry; rewrite andb_false_iff, !Z.leb_gt; lia).
    replace ((97 <=? 97 + (d - 10)) && (97 + (d - 10) <=? 102)) with true
      by (symmetry; rewrite andb_true_iff, !Z.leb_le; lia). f_equal. lia.
Qed.
Lemma hex_value_hex4 v : 0 <= v < 65536 -> hex_value (hex4 v) 0 = Some v.
Proof.
  intros Hv. unfold hex4. cbn [fmap list_fmap hex_value].
  repeat (rewrite hex_digit_char by (apply Z.mod_pos_bound; lia); cbn [mbind option_bind]).
  f_equal. divmod_lia.
Qed.

(** The record of an application, with its checksum. *)
Definition image_record (name : list Z) (entry text rodata : Z) (cap : list Z) : list Z :=
  let body := image_body name (dec entry) (dec text) (dec rodata) (dec 1) cap (dec (text + rodata)) in
  body ++ 32 :: hex4 (byte_sum body).

Lemma image_record_admitted name e t r cap : name ∈ [A_HELLO; A_COUNTER; A_FAULT] -> cap ∈ [W_CONSOLE; W_NONE] ->
  (name = A_FAULT -> cap = W_NONE) -> 0 <= e < t -> t <= 65536 -> 0 <= r <= 65536 ->
  image_admitted (image_record name e t r cap) name.
Proof.
  intros Hn Hc Hp He Ht Hr. unfold image_record. cbv zeta.
  assert (forall v, 0 <= v <= 131072 -> number (dec v) = Some v) as Hnum
    by (intros v Hv; apply number_dec; unfold u64_MAX; lia).
  exists (dec e), (dec t), (dec r), (dec 1), cap, (dec (t + r)). eexists _, e, t, r, (t + r). split; [done|].
  split; [split; [done|]; apply hex_value_hex4; unfold byte_sum; apply Z.mod_pos_bound; lia|].
  rewrite !Hnum by lia. split; [done|]. split; [lia|]. done.
Qed.

(** C8. Image validation.  On any record of at most 64 bytes and any
    requested name, [ld_validate] reads only inside the record and returns the verdict
    of the reference validator [image_code]; the verdict is "accepted" exactly for the
    records of the [AXAPP1] grammar whose numbers obey the layout rules,
    whose capability word is within the application's policy and whose
    checksum matches; a well-formed record for every admissible layout is
    accepted; and an accepted record with any one byte changed is refused.
    A number counts by its value modulo 2^64, so a record whose text size is
    written as 2^64 + 4096 is accepted too. *)
Theorem image_validation_exact rp m name nm :
  holds rp m -> bytes_ok m -> holds name nm ->
  ld_validate rp (length m) name (length nm) = Val (image_code m nm) /\
  (image_code m nm = 0 <-> image_admitted m nm) /\
  (forall i x y, image_code m nm = 0 -> m !! i = Some x -> 0 <= y < 256 -> x <> y ->
     image_code (<[i := y]> m) nm <> 0) /\
  (forall e t r cap, nm ∈ [A_HELLO; A_COUNTER; A_FAULT] -> cap ∈ [W_CONSOLE; W_NONE] ->
     (nm = A_FAULT -> cap = W_NONE) -> 0 <= e < t -> t <= 65536 -> 0 <= r <= 65536 ->
     image_code (image_record nm e t r cap) nm = 0) /\
  (let body := image_body A_HELLO (dec 0) (bstr "18446744073709555712") (dec 4096) (dec 1) W_CONSOLE (dec 8192) in
   image_code (body ++ 32 :: hex4 (byte_sum body)) A_HELLO = 0).
Proof.
  intros Hp Hb Hn. split; [by apply ld_validate_holds|]. split; [apply image_code_admitted|]. split; [|split; [|vm_compute; reflexivity]].
  - intros i x y Ha Hi Hy Hne E. rewrite image_code_admitted in Ha, E. exact (corrupted_refused m nm i x y Ha Hb Hy Hi Hne E).
  - intros. apply image_code_admitted. by apply image_record_admitted.
Qed.

Lemma image_validation_exact_witness :
  ld_validate (stat BH4) (length BH4) (stat A_HELLO) (length A_HELLO) = Val (image_code BH4 A_HELLO) /\
  image_code BH4 A_HELLO = 0 /\ image_code (<[20%nat := 57]> BH4) A_HELLO <> 0.
Proof.
  destruct (image_validation_exact (stat BH4) BH4 (stat A_HELLO) A_HELLO) as (H1 & H2 & H3 & _);
    [apply holds_stat|repeat (constructor; [by split|]); constructor|apply holds_stat|].
  assert (image_code BH4 A_HELLO = 0) as E by (vm_compute; reflexivity).
  split; [exact H1|]. split; [exact E|]. apply (H3 20%nat 52 57 E); [vm_compute; reflexivity|lia|lia].
Defined.
