(* ===== verification/SvcLoader.v ===== *)
(** * The application loader service

    [app_loader_body] of [kernel/src/arch/riscv64/os_boot.rs] with its
    helpers: it fetches [AXAPP1] image records through the filesystem,
    validates them ([AppImage]), and keeps one state per application
    (available, loaded, run requested). *)

From stdpp Require Import strings base decidable numbers option tactics list.
From S2P Require Import Prelude Bytes Monitor UserText UserProg UserLib SvcStorage AppImage.
Local Open Scope Z_scope.

Definition APP_HELLO : Z := 6.
Definition APP_FAULT : Z := 7.
Definition APP_COUNTER : Z := 8.

(** ** The loader *)

Definition app_reply (m : list Z) : prog () := send0 m.

Definition ld_fetch (name : ptr) (nl : nat) (qp rp : ptr) : prog (Z * ptr * ptr) :=
  if bool_decide (nl = 0)%nat || bool_decide (27 < nl)%nat then mret (-1, qp, rp)
  else
    q ← ulift (ld_append qp 0 (stat LD_BIN_PRE) (length LD_BIN_PRE));
    q ← ulift (ld_append q.1 q.2 name nl);
    q ← ulift (ld_append q.1 q.2 (stat LD_APP_SUF) (length LD_APP_SUF));
    r ← sys_in (USend 2) q.1 q.2;
    if r <? 0 then mret (-1, q.1, rp)
    else
      r ← sys_out (URecv 2 64) rp;
      let '(rr, rp) := r in
      bad ← (if rr <=? 0 then mret true else has_prefix rp (Z.to_nat rr) LD_ERRPRE);
      mret (if (bad : bool) then -1 else rr, q.1, rp).

Definition ld_reply_name (pre : list Z) (name : ptr) (nl : nat) (qp : ptr) : prog ptr :=
  q ← ulift (ld_append qp 0 (stat pre) (length pre));
  q ← ulift (ld_append q.1 q.2 name nl);
  sys_in (USend 0) q.1 q.2 ;; mret q.1.

Definition ld_reject (name : ptr) (nl : nat) (word reply : list Z) : prog () :=
  uput L_REJ ;; uwrite_ptr name nl ;; uput L_RSN ;; uput word ;; uput M_NL ;; app_reply reply.

Definition ld_emit_reject (code : Z) (name : ptr) (nl : nat) : prog () :=
  if code =? 1 then ld_reject name nl W_BADIMG R_EBADIMG
  else if code =? 2 then ld_reject name nl W_BADSUM R_EBADSUM
  else if code =? 3 then ld_reject name nl W_DENCAP R_EDENCAP
  else ld_reject name nl W_MALF S_E_MAL.

Definition ld_app_id (name : ptr) (nl : nat) : outcome Z :=
  h ← eq_msg name nl A_HELLO;
  if (h : bool) then mret 0
  else
    c ← eq_msg name nl A_COUNTER;
    if (c : bool) then mret 1
    else f ← eq_msg name nl A_FAULT; mret (if (f : bool) then 2 else u64_MAX).

Definition ld_tbl_idx (id : Z) : Z :=
  if id =? 0 then APP_HELLO else if id =? 1 then APP_COUNTER else APP_FAULT.

(** The loader's buffers and the four state bytes. *)
Record loader_st := mkLoader { lo_buf : ptr; lo_req : ptr; lo_rec : ptr; lo_apps : ptr }.

Fixpoint ld_zero (st : ptr) (k todo : nat) : outcome ptr :=
  match todo with O => mret st | S todo => st ← wr st k 0; ld_zero st (k + 1) todo end.
Definition loader_init : outcome loader_st :=
  st ← ld_zero (uninit 4) 0 4; mret (mkLoader (uninit 64) (uninit 64) (uninit 64) st).

Definition ld_load (name : ptr) (nl : nat) (qp rp st : ptr) : prog (ptr * ptr * ptr) :=
  id ← ulift (ld_app_id name nl);
  busy ← (if negb (id =? u64_MAX) then v ← ulift (rd st (Z.to_nat id)); mret (negb (v =? 0))
          else mret false);
  if (busy : bool) then app_reply R_ELOADED ;; mret (qp, rp, st)
  else
    f ← ld_fetch name nl qp rp;
    let '(rr, qp, rp) := f in
    if rr <? 0 then app_reply E_NOTFOUND ;; mret (qp, rp, st)
    else
      code ← ulift (ld_validate rp (Z.to_nat rr) name nl);
      if code =? 5 then app_reply E_NOTFOUND ;; mret (qp, rp, st)
      else if negb (code =? 0) then ld_emit_reject code name nl ;; mret (qp, rp, st)
      else
        uput L_OK ;; uwrite_ptr name nl ;; uput L_SRC ;; uwrite_ptr name nl ;; uput LD_APP_SUF ;;
        uput M_NL ;;
        st ← ulift (wr st (Z.to_nat id) 1);
        qp ← ld_reply_name RP_LOADED name nl qp;
        mret (qp, rp, st).

Definition ld_run (name : ptr) (nl : nat) (qp st : ptr) : prog (ptr * ptr) :=
  id ← ulift (ld_app_id name nl);
  if id =? u64_MAX then app_reply E_NOTFOUND ;; mret (qp, st)
  else
    v ← ulift (rd st (Z.to_nat id));
    if v =? 0 then app_reply R_ENOTLD ;; mret (qp, st)
    else
      r ← sys (UTaskStart (ld_tbl_idx id));
      if r <? 0 then app_reply A_ERR ;; mret (qp, st)
      else
        st ← ulift (wr st (Z.to_nat id) 2);
        qp ← ld_reply_name RP_RUNNING name nl qp;
        mret (qp, st).

Definition ld_unload (name : ptr) (nl : nat) (qp st : ptr) : prog (ptr * ptr) :=
  id ← ulift (ld_app_id name nl);
  if id =? u64_MAX then app_reply E_NOTFOUND ;; mret (qp, st)
  else
    v ← ulift (rd st (Z.to_nat id));
    if v =? 0 then app_reply R_ENOTLD ;; mret (qp, st)
    else
      st ← ulift (wr st (Z.to_nat id) 0);
      qp ← ld_reply_name RP_UNLOAD name nl qp;
      mret (qp, st).

Definition ld_state (name : ptr) (nl : nat) (st : ptr) : prog () :=
  id ← ulift (ld_app_id name nl);
  if id =? u64_MAX then app_reply E_NOTFOUND
  else
    v ← ulift (rd st (Z.to_nat id));
    if v =? 0 then app_reply ST_AVAIL
    else if v =? 1 then app_reply ST_LOADED
    else
      r ← sys_out (UInfo 7 16 (ld_tbl_idx id + 1)) (uninit 16);
      let '(wn, wp) := r in
      killed ← (if 0 <? wn then is_cmd wp (Z.to_nat wn) KW_KILLED else mret false);
      if (killed : bool) then app_reply ST_EXITED
      else
        faulted ← (if 0 <? wn then is_cmd wp (Z.to_nat wn) KW_FAULTED else mret false);
        app_reply (if (faulted : bool) then ST_FAULTED else ST_RUN).

Definition ld_info (p : ptr) (m : nat) : prog () :=
  branch p m [(A_HELLO, app_reply AI_HELLO); (A_FAULT, app_reply AI_FAULT);
              (A_COUNTER, app_reply AI_COUNTER)] (app_reply A_UNKNOWN).

(** The legacy [run <name>] line. *)
Definition ld_run_line (p : ptr) (m : nat) : prog () :=
  let start idx :=
    r ← sys (UTaskStart idx); if r <? 0 then app_reply A_ERR else app_reply A_STARTED in
  branch p m [(A_HELLO, start APP_HELLO); (A_FAULT, start APP_FAULT); (A_COUNTER, start APP_COUNTER)]
    (app_reply A_UNKNOWN).

(** [bp.add(LEN)] and [n - LEN] after a matched prefix. *)
Definition tail_at {A} (bp : ptr) (n : nat) (pre : list Z) (f : ptr -> nat -> prog A) : prog A :=
  p ← ulift (padd bp (length pre)); m ← ulift (usub n (length pre)); f p m.

Definition loader_turn (s : loader_st) : prog loader_st :=
  let '(mkLoader buf qp rp st) := s in
  serve 64 buf (fun bp => mkLoader bp qp rp st) (fun bp n =>
    let keep (act : prog ()) := act ;; mret (mkLoader bp qp rp st) in
    b ← is_cmd bp n C_APPS;
    if (b : bool) then keep (app_reply A_LIST) else
    b ← has_prefix bp n C_APPINFO;
    if (b : bool) then keep (tail_at bp n C_APPINFO ld_info) else
    b ← is_cmd bp n PL_LIST;
    if (b : bool) then keep (app_reply A_LIST) else
    b ← has_prefix bp n PL_INFO;
    if (b : bool) then keep (tail_at bp n PL_INFO ld_info) else
    b ← has_prefix bp n PL_LOAD;
    if (b : bool) then
      r ← tail_at bp n PL_LOAD (fun p m => ld_load p m qp rp st);
      mret (mkLoader bp r.1.1 r.1.2 r.2) else
    b ← has_prefix bp n PL_RUN;
    if (b : bool) then
      r ← tail_at bp n PL_RUN (fun p m => ld_run p m qp st); mret (mkLoader bp r.1 rp r.2) else
    b ← has_prefix bp n PL_UNLOAD;
    if (b : bool) then
      r ← tail_at bp n PL_UNLOAD (fun p m => ld_unload p m qp st); mret (mkLoader bp r.1 rp r.2) else
    b ← has_prefix bp n PL_STATE;
    if (b : bool) then keep (tail_at bp n PL_STATE (fun p m => ld_state p m st)) else
    b ← has_prefix bp n C_RUNSP;
    if (b : bool) then keep (tail_at bp n C_RUNSP ld_run_line) else
    keep (app_reply A_BADCMD)).

(** ** The loader's protocol *)

(** The application table: index of the state byte, by name. *)
Definition app_id (name : list Z) : option nat :=
  if decide (name = A_HELLO) then Some 0%nat
  else if decide (name = A_COUNTER) then Some 1%nat
  else if decide (name = A_FAULT) then Some 2%nat else None.

(** The exchange that fetches an image, and what it yields. *)
Definition fetched (name : list Z) (t : trace) (res : option (list Z)) : Prop :=
  ((name = [] \/ (27 < length name)%nat) /\ t = [] /\ res = None) \/
  (exists b, ret b < 0 /\ t = [(USend 2 (bin_path name), b)] /\ res = None) \/
  (exists b d, 0 <= ret b /\ t = [(USend 2 (bin_path name), b); (URecv 2 64, d)] /\
     res = if decide (data d = [] \/ LD_ERRPRE `prefix_of` data d) then None else Some (data d)).

(** The verdict on a fetched image; no image counts as an unknown application. *)
Definition load_code (name : list Z) (res : option (list Z)) : Z :=
  match res with None => 5 | Some m => image_code m name end.
Definition load_reply (code : Z) (name : list Z) : list Z :=
  if code =? 0 then RP_LOADED ++ name else if code =? 1 then R_EBADIMG else if code =? 2 then R_EBADSUM
  else if code =? 3 then R_EDENCAP else if code =? 5 then E_NOTFOUND else S_E_MAL.

Definition app_state (sts : list Z) (name : list Z) : Z :=
  match app_id name with Some id => default 0 (sts !! id) | None => 0 end.
Definition set_app (name : list Z) (v : Z) (sts : list Z) : list Z :=
  match app_id name with Some id => <[id := v]> sts | None => sts end.

Definition load_step (name sts : list Z) (t : trace) (sts' : list Z) : Prop :=
  if decide (app_state sts name <> 0) then sent (USend 0 R_ELOADED) t /\ sts' = sts
  else exists tf tc res b, fetched name tf res /\ con_only tc /\
    t = tf ++ tc ++ [(USend 0 (load_reply (load_code name res) name), b)] /\
    sts' = if load_code name res =? 0 then set_app name 1 sts else sts.

Definition start_index (name : list Z) : Z :=
  match app_id name with Some 0%nat => APP_HELLO | Some 1%nat => APP_COUNTER | _ => APP_FAULT end.

(** Names the loader knows that are loaded get [act]; the others an error. *)
Definition if_loaded (name sts : list Z) (t : trace) (sts' : list Z) (act : Prop) : Prop :=
  if decide (app_id name = None) then sent (USend 0 E_NOTFOUND) t /\ sts' = sts
  else if decide (app_state sts name = 0) then sent (USend 0 R_ENOTLD) t /\ sts' = sts
  else act.

Definition run_step (name sts : list Z) (t : trace) (sts' : list Z) : Prop :=
  if_loaded name sts t sts' (exists a b,
    (ret a < 0 /\ t = [(UTaskStart (start_index name), a); (USend 0 A_ERR, b)] /\ sts' = sts) \/
    (0 <= ret a /\ t = [(UTaskStart (start_index name), a); (USend 0 (RP_RUNNING ++ name), b)] /\
     sts' = set_app name 2 sts)).
Definition unload_step (name sts : list Z) (t : trace) (sts' : list Z) : Prop :=
  if_loaded name sts t sts' (sent (USend 0 (RP_UNLOAD ++ name)) t /\ sts' = set_app name 0 sts).

(** What the kernel's word for a started task is reported as. *)
Definition run_word (d : list Z) : list Z :=
  if decide (d = KW_KILLED) then ST_EXITED else if decide (d = KW_FAULTED) then ST_FAULTED else ST_RUN.
Definition state_step (name sts : list Z) (t : trace) : Prop :=
  if decide (app_id name = None) then sent (USend 0 E_NOTFOUND) t
  else if decide (app_state sts name = 0) then sent (USend 0 ST_AVAIL) t
  else if decide (app_state sts name = 1) then sent (USend 0 ST_LOADED) t
  else exists a b, t = [(UInfo 7 16 (start_index name + 1), a); (USend 0 (run_word (data a)), b)].

Definition info_reply (name : list Z) : list Z :=
  assoc [(A_HELLO, AI_HELLO); (A_FAULT, AI_FAULT); (A_COUNTER, AI_COUNTER)] A_UNKNOWN name.
Definition legacy_step (name : list Z) (t : trace) : Prop :=
  if decide (app_id name = None) then sent (USend 0 A_UNKNOWN) t
  else exists a b, t = [(UTaskStart (start_index name), a);
    (USend 0 (if ret a <? 0 then A_ERR else A_STARTED), b)].

(** A request, parsed. *)
Inductive ld_cmd := CList | CInfo (name : list Z) | CLoad (name : list Z) | CRun (name : list Z)
  | CUnload (name : list Z) | CState (name : list Z) | CLegacyRun (name : list Z) | CBad.
Definition ld_prefixes : list (list Z * (list Z -> ld_cmd)) :=
  [(PL_INFO, CInfo); (PL_LOAD, CLoad); (PL_RUN, CRun); (PL_UNLOAD, CUnload); (PL_STATE, CState); (C_RUNSP, CLegacyRun)].
Fixpoint by_prefix (l : list (list Z * (list Z -> ld_cmd))) (m : list Z) : ld_cmd :=
  match l with
  | [] => CBad
  | (pre, f) :: l => match strip pre m with Some r => f r | None => by_prefix l m end
  end.
Definition loader_cmd (m : list Z) : ld_cmd :=
  if decide (m = C_APPS) then CList
  else match strip C_APPINFO m with
  | Some r => CInfo r
  | None => if decide (m = PL_LIST) then CList else by_prefix ld_prefixes m
  end.

(** What one request does to the application states, and the calls it takes. *)
Definition loader_step (m sts : list Z) (t : trace) (sts' : list Z) : Prop :=
  match loader_cmd m with
  | CLoad name => load_step name sts t sts'
  | CRun name => run_step name sts t sts'
  | CUnload name => unload_step name sts t sts'
  | CList => sent (USend 0 A_LIST) t /\ sts' = sts
  | CInfo name => sent (USend 0 (info_reply name)) t /\ sts' = sts
  | CState name => state_step name sts t /\ sts' = sts
  | CLegacyRun name => legacy_step name t /\ sts' = sts
  | CBad => sent (USend 0 A_BADCMD) t /\ sts' = sts
  end.

(** Three applications, each available, loaded or run. *)
Definition states_ok (sts : list Z) : Prop :=
  length sts = 4%nat /\ Forall (fun v => 0 <= v <= 2) sts.
Record loader_ok (s : loader_st) (sts : list Z) : Prop := {
  lo_len_buf : length (lo_buf s) = 64%nat;
  lo_len_req : length (lo_req s) = 64%nat;
  lo_len_rec : length (lo_rec s) = 64%nat;
  lo_states : lo_apps s = stat sts;
  lo_sts : states_ok sts
}.

(** ** The handlers follow it *)

Lemma ld_app_id_holds p name n : holds p name -> n = length name ->
  ld_app_id p n = Val (match app_id name with Some id => Z.of_nat id | None => u64_MAX end).
Proof.
  intros Hp ->. unfold ld_app_id, app_id. rewrite !(eq_msg_holds p name) by done. ounfold.
  repeat (case_decide; [by rewrite bool_decide_eq_true_2|rewrite bool_decide_eq_false_2 by done]). done.
Qed.
Lemma app_id_bound name id : app_id name = Some id -> (id < 3)%nat /\ (length name <= 10)%nat /\
  ld_tbl_idx (Z.of_nat id) = start_index name /\ (Z.of_nat id =? u64_MAX) = false.
Proof.
  unfold start_index. destruct (app_id name) as [i|] eqn:E; [|done]. intros [= ->]. revert E.
  unfold app_id. repeat case_decide; intros [= <-]; subst; (split; [lia|split; [vm_compute; lia|done]]).
Qed.
Lemma rd_state sts id : states_ok sts -> (id < 3)%nat -> rd (stat sts) id = Val (default 0 (sts !! id)).
Proof.
  intros [Hl _] Hid. destruct (lookup_lt_is_Some_2 sts id) as [v Hv]; [lia|].
  rewrite (rd_holds (stat sts) sts id v) by (apply holds_stat || done). by rewrite Hv.
Qed.
Lemma wr_state sts id v : states_ok sts -> (id < 3)%nat -> 0 <= v <= 2 ->
  wr (stat sts) id v = Val (stat (<[id := v]> sts)) /\ states_ok (<[id := v]> sts).
Proof.
  intros [Hl Hf] Hid Hv. unfold wr, stat. rewrite decide_True by (rewrite length_fmap; lia).
  split; [by rewrite list_fmap_insert|]. split; [by rewrite length_insert|]. by apply Forall_insert.
Qed.
Lemma set_app_ok name v sts : states_ok sts -> 0 <= v <= 2 -> states_ok (set_app name v sts).
Proof.
  intros H Hv. unfold set_app. destruct (app_id name) as [id|] eqn:E; [|done].
  apply app_id_bound in E as [Hid _]. by apply wr_state.
Qed.

Lemma rp_lengths : (length RP_LOADED <= 40 /\ length RP_RUNNING <= 40 /\ length RP_UNLOAD <= 40)%nat.
Proof. vm_compute. lia. Qed.

Lemma reply_name_wp pre p name n qp (Q : ptr -> trace -> Prop) D :
  holds p name -> n = length name -> length qp = 64%nat -> (length pre + length name <= 63)%nat ->
  (forall q b, length q = 64%nat -> Q q [(USend 0 (pre ++ name), b)]) -> uwp (ld_reply_name pre p n qp) Q D.
Proof.
  intros Hp -> Hq Hl HQ. unfold ld_reply_name, ld_append.
  destruct (copy_all_built 63 64 qp 0 (stat pre) [] pre) as ([p1 n1] & E1 & H1); [by apply built_fresh|cbn; lia|lia|apply holds_stat|].
  eapply uwp_lift_bind; [exact E1|]. cbn [fst snd]. rewrite take_ge in H1 by (cbn; lia). cbn [app] in H1.
  destruct (copy_all_built 63 64 p1 n1 p pre name) as (r & E2 & H2); [done|lia|lia|done|].
  eapply uwp_lift_bind; [exact E2|]. rewrite take_ge in H2 by (rewrite length_app; lia).
  apply uwp_bind. eapply uwp_send_built; [exact H2|cbn; rewrite length_app; lia|].
  intros b _. apply HQ, H2.
Qed.

(** Building the path of an image. *)
Lemma uwp_bin_request {B} p name qp (f : ptr * nat -> prog B) Q D :
  holds p name -> length qp = 64%nat -> (length name <= 27)%nat ->
  (forall q, built 64 q (bin_path name) -> uwp (f q) Q D) ->
  uwp (q ← ulift (ld_append qp 0 (stat LD_BIN_PRE) (length LD_BIN_PRE));
       q ← ulift (ld_append q.1 q.2 p (length name));
       q ← ulift (ld_append q.1 q.2 (stat LD_APP_SUF) (length LD_APP_SUF)); f q) Q D.
Proof.
  intros Hp Hq Hg Hf. unfold ld_append.
  destruct (copy_all_built 63 64 qp 0 (stat LD_BIN_PRE) [] LD_BIN_PRE) as ([p1 n1] & E1 & H1);
    [by apply built_fresh|cbn; lia|lia|apply holds_stat|].
  eapply uwp_lift_bind; [exact E1|]. cbn [fst snd]. rewrite take_ge in H1 by (vm_compute; lia). cbn [app] in H1.
  assert (length LD_BIN_PRE = 9%nat) as Hpre by done. assert (length LD_APP_SUF = 4%nat) as Hsuf by done.
  destruct (copy_all_built 63 64 p1 n1 p LD_BIN_PRE name) as ([p2 n2] & E2 & H2); [done|lia|lia|done|].
  eapply uwp_lift_bind; [exact E2|]. cbn [fst snd]. rewrite take_ge in H2 by (rewrite length_app; lia).
  destruct (copy_all_built 63 64 p2 n2 (stat LD_APP_SUF) (LD_BIN_PRE ++ name) LD_APP_SUF) as (q & E3 & H3);
    [done|rewrite length_app; lia|lia|apply holds_stat|].
  eapply uwp_lift_bind; [exact E3|]. rewrite take_ge in H3 by (rewrite !length_app; lia).
  rewrite <- app_assoc in H3. by apply Hf.
Qed.
Lemma bin_path_length name : (length (bin_path name) = 13 + length name)%nat.
Proof. unfold bin_path. rewrite !length_app. change (length LD_BIN_PRE) with 9%nat. change (length LD_APP_SUF) with 4%nat. lia. Qed.

Lemma fetch_wp p name n qp rp D : holds p name -> n = length name -> length qp = 64%nat -> length rp = 64%nat ->
  uwp (ld_fetch p n qp rp) (fun r t => exists res, fetched name t res /\ length r.1.2 = 64%nat /\ length r.2 = 64%nat /\
    match res with
    | None => r.1.1 < 0
    | Some m => 0 <= r.1.1 /\ Z.to_nat r.1.1 = length m /\ holds r.2 m /\ bytes_ok m
    end) D.
Proof.
  intros Hp -> Hq Hr. unfold ld_fetch.
  destruct (bool_decide (length name = 0)%nat || bool_decide (27 < length name)%nat) eqn:Hg.
  { exists None. split; [left|done]. split; [|done]. apply orb_true_iff in Hg as [Hg|Hg]; apply bool_decide_eq_true in Hg; [left|by right].
    by apply nil_length_inv. }
  apply orb_false_iff in Hg as [_ Hg]. apply bool_decide_eq_false in Hg.
  apply uwp_bin_request; [done|done|lia|]. intros q H3. pose proof (bt_cap _ _ _ H3) as Hql.
  apply uwp_bind. eapply uwp_send_built; [exact H3|cbn [call_ok]; rewrite bin_path_length; lia|].
  intros b _. destruct (Z.ltb_spec (ret b) 0) as [Hb|Hb].
  { exists None. split; [right; left; by exists b|done]. }
  apply uwp_bind. eapply (uwp_out _ _ 64); [done|lia|cbn; lia|].
  intros d rp' Hd Hh Hl Hn Hm. cbv beta iota. destruct Hd as (_ & Hbytes & Hdl & _). rewrite Hr in Hl.
  assert (fetched name [(USend 2 (bin_path name), b); (URecv 2 64, d)]
    (if decide (data d = [] \/ LD_ERRPRE `prefix_of` data d) then None else Some (data d))) as Hfe
    by (right; right; by exists b, d).
  apply uwp_bind. destruct (Z.leb_spec (ret d) 0) as [Hz|Hz].
  { assert (data d = []) as E by (apply nil_length_inv; lia).
    rewrite decide_True in Hfe by tauto. exists None. split; [exact Hfe|]. by cbn. }
  eapply has_prefix_wp; [exact Hh|by apply Hn|]. case_bool_decide as Hpx.
  - rewrite decide_True in Hfe by tauto. exists None. split; [exact Hfe|]. by cbn.
  - rewrite decide_False in Hfe by (intros [E|E]; [rewrite E in Hdl; cbn in Hdl; lia|done]).
    exists (Some (data d)). split; [exact Hfe|]. cbn. repeat split; try done; [lia|by apply Hn].
Qed.

(** One rejection: the console evidence, then the error. *)
Lemma reject_wp code p name n (Q : () -> trace -> Prop) D : holds p name -> n = length name ->
  code <> 0 -> code <> 5 ->
  (forall tc b, con_only tc -> Q tt (tc ++ [(USend 0 (load_reply code name), b)])) ->
  uwp (ld_emit_reject code p n) Q D.
Proof.
  intros Hp Hn H0 H5 HQ. unfold ld_emit_reject, load_reply in *.
  rewrite (proj2 (Z.eqb_neq code 0)), (proj2 (Z.eqb_neq code 5)) in HQ by done.
  assert (forall word reply, (length reply <= 128)%nat ->
    (forall tc b, con_only tc -> Q tt (tc ++ [(USend 0 reply, b)])) -> uwp (ld_reject p n word reply) Q D) as H.
  { clear HQ. intros word reply Hr HQ. unfold ld_reject.
    set (Q' := fun (u : ()) t => exists tc b, con_only tc /\ t = tc ++ [(USend 0 reply, b)]).
    eapply (uwp_mono _ Q' _ (fun _ => False)); [|intros [] t (tc & b & Hc & ->); by apply HQ|done].
    assert (forall u t tc, con_only tc -> Q' u t -> Q' u (tc ++ t)) as Hcl.
    { intros u t tc Hc (tc' & b & Hc' & ->). exists (tc ++ tc'), b. split; [by apply Forall_app|by rewrite app_assoc]. }
    unfold uput. do 5 (eapply uwp_con; [apply holds_stat || exact Hp|done|exact Hcl|]).
    apply send0_wp; [done|]. intros b. exists [], b. split; [constructor|done]. }
  repeat (case_match; [by apply H; [vm_compute; lia|]|]). by apply H; [vm_compute; lia|].
Qed.

(** A handler ended: its buffers keep their size and the states are those of
    a step. *)
Definition ended (step : trace -> list Z -> Prop) (q st : ptr) (t : trace) : Prop :=
  length q = 64%nat /\ exists sts', st = stat sts' /\ states_ok sts' /\ step t sts'.

Lemma image_code_id m name : image_code m name = 0 -> exists id, app_id name = Some id.
Proof.
  intros (e & t & r & s & cap & z & h & ve & vt & vr & vz & _ & _ & _ & _ & Hn & _)%image_code_admitted.
  rewrite !elem_of_cons, elem_of_nil in Hn. unfold app_id. repeat case_decide; try (by eexists). tauto.
Qed.

Lemma uwp_reply_ret {A} m (x : A) (Q : A -> trace -> Prop) D : (length m <= 128)%nat ->
  (forall b, Q x [(USend 0 m, b)]) -> uwp (app_reply m ;; mret x) Q D.
Proof. intros Hm HQ. apply uwp_bind, send0_wp; [done|]. intros b. apply HQ. Qed.

(** The accepted image: evidence on the console, the state, the reply. *)
Lemma load_accept_wp p name n qp rp sts id D : holds p name -> n = length name -> length qp = 64%nat ->
  states_ok sts -> app_id name = Some id ->
  uwp (uput L_OK ;; uwrite_ptr p n ;; uput L_SRC ;; uwrite_ptr p n ;; uput LD_APP_SUF ;; uput M_NL ;;
       st ← ulift (wr (stat sts) id 1);
       qp ← ld_reply_name RP_LOADED p n qp;
       mret (qp, rp, st))
    (fun (r : ptr * ptr * ptr) t => ended (fun t sts' => exists tc b, con_only tc /\ t = tc ++ [(USend 0 (RP_LOADED ++ name), b)] /\
       sts' = set_app name 1 sts) r.1.1 r.2 t /\ r.1.2 = rp) D.
Proof.
  intros Hp Hn Hq Hs Hid. destruct (app_id_bound name id Hid) as (Hlt & Hlen & _).
  set (Q := fun (r : ptr * ptr * ptr) t => _).
  assert (forall r t tc, con_only tc -> Q r t -> Q r (tc ++ t)) as Hcl.
  { intros r t tc Hc [(Hl & sts' & E & Ho & tc' & b & Hc' & -> & E') Hr]. split; [|done]. split; [done|]. exists sts'.
    split; [done|]. split; [done|]. exists (tc ++ tc'), b. split; [by apply Forall_app|by rewrite app_assoc]. }
  unfold uput. do 6 (eapply uwp_con; [apply holds_stat || exact Hp|done|exact Hcl|]).
  destruct (wr_state sts id 1 Hs Hlt) as [Ew Ho]; [lia|]. eapply uwp_lift_bind; [exact Ew|]. apply uwp_bind.
  eapply reply_name_wp; [exact Hp|done|done|pose proof rp_lengths; lia|].
  intros q b Hlq. split; [|done]. split; [done|]. exists (<[id := 1]> sts). split; [done|]. split; [done|].
  exists [], b. split; [constructor|]. split; [done|]. unfold set_app. by rewrite Hid.
Qed.

Lemma busy_wp {B} name sts (f : bool -> prog B) Q D : states_ok sts ->
  uwp (f (negb (app_state sts name =? 0))) Q D ->
  uwp (busy ← (let id := match app_id name with Some id => Z.of_nat id | None => u64_MAX end in
       if negb (id =? u64_MAX) then v ← ulift (rd (stat sts) (Z.to_nat id)); mret (negb (v =? 0)) else mret false);
       f busy) Q D.
Proof.
  intros Hs H. unfold app_state in H. cbv zeta. destruct (app_id name) as [id|] eqn:E.
  - destruct (app_id_bound name id E) as (Hlt & _ & _ & ->). cbn [negb]. rewrite Nat2Z.id, rd_state by done. exact H.
  - exact H.
Qed.

(** After the fetch: the calls that remain, and the states. *)
Definition load_end (name sts : list Z) (res : option (list Z)) (r : ptr * ptr * ptr) (t : trace) : Prop :=
  ended (fun t sts' => exists tc b, con_only tc /\
    t = tc ++ [(USend 0 (load_reply (load_code name res) name), b)] /\
    sts' = if load_code name res =? 0 then set_app name 1 sts else sts) r.1.1 r.2 t /\ length r.1.2 = 64%nat.

Lemma load_end_step name sts res r tf t : app_state sts name = 0 -> fetched name tf res ->
  load_end name sts res r t -> ended (load_step name sts) r.1.1 r.2 (tf ++ t) /\ length r.1.2 = 64%nat.
Proof.
  intros Hz Hf [(Hl & sts' & E & Ho & tc & b & Hc & -> & Es) Hl2]. split; [|done]. split; [done|].
  exists sts'. split; [done|]. split; [done|]. unfold load_step. rewrite decide_False by lia. by exists tf, tc, res, b.
Qed.
Lemma load_end_same name sts code res (q x : ptr) tc b : load_code name res = code -> code <> 0 -> states_ok sts ->
  length q = 64%nat -> length x = 64%nat -> con_only tc ->
  load_end name sts res (q, x, stat sts) (tc ++ [(USend 0 (load_reply code name), b)]).
Proof.
  intros <- Hc Hs Hlq Hlx Htc. split; [|done]. split; [done|]. exists sts. split; [done|]. split; [done|].
  exists tc, b. rewrite (proj2 (Z.eqb_neq _ 0)) by done. done.
Qed.

Lemma load_wp p name n qp rp sts D : holds p name -> n = length name -> length qp = 64%nat -> length rp = 64%nat ->
  states_ok sts ->
  uwp (ld_load p n qp rp (stat sts))
    (fun (r : ptr * ptr * ptr) t => ended (load_step name sts) r.1.1 r.2 t /\ length r.1.2 = 64%nat) D.
Proof.
  intros Hp Hn Hq Hr Hs. unfold ld_load, load_step.
  eapply uwp_lift_bind; [by apply ld_app_id_holds|]. apply (busy_wp name sts); [done|].
  destruct (Z.eqb_spec (app_state sts name) 0) as [Hz|Hz]; cbn [negb].
  2:{ apply uwp_reply_ret; [vm_compute; lia|]. intros b. split; [|done]. split; [done|]. exists sts.
      rewrite decide_True by done. split; [done|]. split; [done|]. split; [by eexists|done]. }
  apply uwp_bind. eapply uwp_mono; [apply (fetch_wp p name n qp rp (fun _ => False)); done| |done].
  intros [[rr q] rp'] tf (res & Hf & Hlq & Hlr & Hres). cbn [fst snd] in *. cbv beta iota.
  eapply uwp_mono with (D := fun _ => False); [|intros r t; by apply (load_end_step name sts res r tf t)|by intros t []].
  destruct res as [m|].
  2:{ destruct (Z.ltb_spec rr 0); [|lia]. apply uwp_reply_ret; [vm_compute; lia|]. intros b.
      apply (load_end_same name sts 5 None q rp' [] b); try done. apply Forall_nil_2. }
  destruct Hres as (Hge & Hlm & Hh & Hb). destruct (Z.ltb_spec rr 0); [lia|].
  eapply uwp_lift_bind; [by eapply ld_validate_holds|].
  destruct (Z.eqb_spec (image_code m name) 5) as [H5|H5].
  { apply uwp_reply_ret; [vm_compute; lia|]. intros b.
    apply (load_end_same name sts 5 (Some m) q rp' [] b); try done. apply Forall_nil_2. }
  destruct (Z.eqb_spec (image_code m name) 0) as [H0|H0]; cbn [negb].
  - destruct (image_code_id m name H0) as [id Hid]. rewrite Hid, Nat2Z.id.
    eapply uwp_mono; [by eapply (load_accept_wp p name n q rp' sts id (fun _ => False))| |done].
    intros r t [(Hl & sts' & E & Ho & tc & b & Hc & -> & E') Er]. split; [|by rewrite Er]. split; [done|]. exists sts'.
    split; [done|]. split; [done|]. exists tc, b. cbn [load_code]. rewrite H0. done.
  - apply uwp_bind. eapply reject_wp; [done|done|done|done|]. intros tc b Hc. unfold mret, prog_ret. cbn [uwp].
    rewrite app_nil_r. by apply load_end_same.
Qed.

(** The common front of [APP_RUN] and [APP_UNLOAD]. *)
Lemma if_loaded_wp p name n qp sts (f : Z -> prog (ptr * ptr)) step D :
  holds p name -> n = length name -> length qp = 64%nat -> states_ok sts ->
  (forall id D, app_id name = Some id -> app_state sts name <> 0 ->
     uwp (f (Z.of_nat id)) (fun r t => ended step r.1 r.2 t) D) ->
  uwp (id ← ulift (ld_app_id p n);
       if id =? u64_MAX then app_reply E_NOTFOUND ;; mret (qp, stat sts)
       else
         v ← ulift (rd (stat sts) (Z.to_nat id));
         if v =? 0 then app_reply R_ENOTLD ;; mret (qp, stat sts) else f id)
    (fun r t => ended (fun t sts' => if_loaded name sts t sts' (step t sts')) r.1 r.2 t) D.
Proof.
  intros Hp Hn Hq Hs Hf. eapply uwp_lift_bind; [by apply ld_app_id_holds|]. unfold if_loaded.
  destruct (app_id name) as [id|] eqn:E.
  - destruct (app_id_bound name id E) as (Hlt & _ & _ & ->). rewrite Nat2Z.id.
    eapply uwp_lift_bind; [by apply rd_state|].
    assert (default 0 (sts !! id) = app_state sts name) as -> by (unfold app_state; by rewrite E).
    destruct (Z.eqb_spec (app_state sts name) 0) as [Hz|Hz].
    + apply uwp_reply_ret; [vm_compute; lia|]. intros b. split; [done|]. exists sts. split; [done|]. split; [done|].
      rewrite decide_False, decide_True by done. split; [by eexists|done].
    + eapply uwp_mono; [by apply (Hf id D)| |done]. intros r t (Hl & sts' & Er & Ho & H). split; [done|]. exists sts'.
      split; [done|]. split; [done|]. by rewrite !decide_False.
  - rewrite Z.eqb_refl. apply uwp_reply_ret; [vm_compute; lia|]. intros b. split; [done|]. exists sts. split; [done|].
    split; [done|]. rewrite decide_True by done. split; [by eexists|done].
Qed.

(** Setting a state and replying with the name. *)
Lemma set_reply_wp pre p name n qp sts id v (Q : ptr * ptr -> trace -> Prop) D :
  holds p name -> n = length name -> length qp = 64%nat -> states_ok sts -> app_id name = Some id -> 0 <= v <= 2 ->
  (length pre <= 40)%nat ->
  (forall q b, length q = 64%nat -> Q (q, stat (set_app name v sts)) [(USend 0 (pre ++ name), b)]) ->
  uwp (st ← ulift (wr (stat sts) (Z.to_nat (Z.of_nat id)) v); qp ← ld_reply_name pre p n qp; mret (qp, st)) Q D.
Proof.
  intros Hp Hn Hq Hs Hid Hv Hpre HQ. destruct (app_id_bound name id Hid) as (Hlt & Hlen & _). rewrite Nat2Z.id.
  destruct (wr_state sts id v Hs Hlt Hv) as [Ew Ho]. eapply uwp_lift_bind; [exact Ew|]. apply uwp_bind.
  eapply reply_name_wp; [exact Hp|done|done|lia|]. intros q b Hlq. unfold mret, prog_ret. cbn [uwp app].
  specialize (HQ q b Hlq). unfold set_app in HQ. by rewrite Hid in HQ.
Qed.

Lemma run_wp p name n qp sts D : holds p name -> n = length name -> length qp = 64%nat -> states_ok sts ->
  uwp (ld_run p n qp (stat sts)) (fun r t => ended (run_step name sts) r.1 r.2 t) D.
Proof.
  intros Hp Hn Hq Hs. unfold ld_run, run_step. apply if_loaded_wp; [done..|]. intros id D' Hid Hz.
  destruct (app_id_bound name id Hid) as (_ & _ & -> & _). apply uwp_bind. apply uwp_sys; [done|]. intros a _.
  destruct (Z.ltb_spec (ret a) 0) as [Ha|Ha].
  - apply uwp_reply_ret; [vm_compute; lia|]. intros b. split; [done|]. exists sts. split; [done|]. split; [done|].
    exists a, b. by left.
  - eapply set_reply_wp; [done|done|done|done|done|lia|apply rp_lengths|]. intros q b Hlq. split; [done|].
    exists (set_app name 2 sts). split; [done|]. split; [by apply set_app_ok|]. exists a, b. by right.
Qed.
Lemma unload_wp p name n qp sts D : holds p name -> n = length name -> length qp = 64%nat -> states_ok sts ->
  uwp (ld_unload p n qp (stat sts)) (fun r t => ended (unload_step name sts) r.1 r.2 t) D.
Proof.
  intros Hp Hn Hq Hs. unfold ld_unload, unload_step. apply if_loaded_wp; [done..|]. intros id D' Hid Hz.
  eapply set_reply_wp; [done|done|done|done|done|lia|apply rp_lengths|]. intros q b Hlq. split; [done|].
  exists (set_app name 0 sts). split; [done|]. split; [by apply set_app_ok|]. split; [by eexists|done].
Qed.

Lemma state_wp p name n sts D : holds p name -> n = length name -> states_ok sts ->
  uwp (ld_state p n (stat sts)) (fun _ t => state_step name sts t) D.
Proof.
  intros Hp Hn Hs. unfold ld_state, state_step. eapply uwp_lift_bind; [by apply ld_app_id_holds|].
  assert (forall m : list Z, (length m <= 128)%nat -> forall D, uwp (app_reply m) (fun _ t => sent (USend 0 m) t) D) as Hsay
    by (intros m Hm D'; apply send0_wp; [done|]; intros b; by eexists).
  destruct (app_id name) as [id|] eqn:E; [|case_decide; [|done]; rewrite Z.eqb_refl; apply Hsay; vm_compute; lia].
  case_decide; [done|]. destruct (app_id_bound name id E) as (Hlt & _ & -> & ->). rewrite Nat2Z.id.
  eapply uwp_lift_bind; [by apply rd_state|].
  assert (default 0 (sts !! id) = app_state sts name) as -> by (unfold app_state; by rewrite E).
  destruct (Z.eqb_spec (app_state sts name) 0); [case_decide; [|done]; apply Hsay; vm_compute; lia|].
  case_decide; [done|].
  destruct (Z.eqb_spec (app_state sts name) 1); [case_decide; [|done]; apply Hsay; vm_compute; lia|].
  case_decide; [done|]. apply uwp_bind. eapply (uwp_out _ _ 16); [done|by vm_compute|cbn; lia|].
  intros a wp Ha Hh Hl Hw Hm. cbv beta iota. destruct Ha as (_ & _ & Hd & _).
  set (c := UInfo 7 16 (start_index name + 1)).
  assert (forall m b, run_word (data a) = m ->
    exists a' b', [(c, a); (USend 0 m, b)] = [(c, a'); (USend 0 (run_word (data a')), b')]) as Hend
    by (intros m b <-; by exists a, b).
  apply uwp_bind. destruct (Z.ltb_spec 0 (ret a)) as [Hp0|Hp0].
  - eapply is_cmd_wp; [exact Hh|by apply Hw|]. case_bool_decide as Hk.
    { apply send0_wp; [vm_compute; lia|]. intros b. apply Hend. unfold run_word. by rewrite decide_True. }
    apply uwp_bind. eapply is_cmd_wp; [exact Hh|by apply Hw|]. case_bool_decide as Hk2;
      (apply send0_wp; [vm_compute; lia|]; intros b; apply Hend; unfold run_word; rewrite decide_False by done);
      [by rewrite decide_True|by rewrite decide_False].
  - assert (data a = []) as Ed by (apply nil_length_inv; lia). unfold mret at 1, prog_ret at 1. cbn [uwp].
    apply uwp_bind. unfold mret at 1, prog_ret at 1. cbn [uwp]. apply send0_wp; [vm_compute; lia|]. intros b.
    apply Hend. by rewrite Ed.
Qed.

Lemma info_wp p name n D : holds p name -> n = length name ->
  uwp (ld_info p n) (fun _ t => sent (USend 0 (info_reply name)) t) D.
Proof.
  intros Hp ->. unfold ld_info. apply branch_wp; [done|]. unfold info_reply. cbn [assoc].
  repeat case_decide; (apply send0_wp; [vm_compute; lia|]; intros b; by eexists).
Qed.
Lemma legacy_wp p name n D : holds p name -> n = length name ->
  uwp (ld_run_line p n) (fun _ t => legacy_step name t) D.
Proof.
  intros Hp ->. unfold ld_run_line, legacy_step, start_index, app_id. apply branch_wp; [done|]. cbn [assoc].
  assert (forall idx D, uwp (r ← sys (UTaskStart idx); if r <? 0 then app_reply A_ERR else app_reply A_STARTED)
    (fun _ t => exists a b, t = [(UTaskStart idx, a); (USend 0 (if ret a <? 0 then A_ERR else A_STARTED), b)]) D) as Hst.
  { intros idx D'. apply uwp_bind, uwp_sys; [done|]. intros a _.
    destruct (ret a <? 0) eqn:Ea; (apply send0_wp; [vm_compute; lia|]; intros b; exists a, b; by rewrite Ea). }
  destruct (decide (name = A_HELLO)) as [->|]; [apply Hst|].
  destruct (decide (name = A_FAULT)) as [->|]; [apply Hst|].
  destruct (decide (name = A_COUNTER)) as [->|]; [apply Hst|].
  apply send0_wp; [vm_compute; lia|]. intros b. by eexists.
Qed.

(** What follows a matched prefix. *)
Lemma tail_at_wp {A} bp m pre r (f : ptr -> nat -> prog A) Q D : holds bp m -> m = pre ++ r ->
  (forall p, holds p r -> uwp (f p (length r)) Q D) -> uwp (tail_at bp (length m) pre f) Q D.
Proof.
  intros Hh -> Hf. unfold tail_at.
  destruct (padd_holds bp (pre ++ r) (length pre) Hh) as [Ep Hd]; [rewrite length_app; lia|].
  eapply uwp_lift_bind; [exact Ep|]. rewrite drop_app_length in Hd.
  eapply uwp_lift_bind; [unfold usub; rewrite decide_True by (rewrite length_app; lia); done|].
  rewrite length_app, Nat.add_comm, Nat.add_sub. by apply Hf.
Qed.

(** A request has been served. *)
Definition loader_end (m sts : list Z) (s : loader_st) (t : trace) : Prop :=
  exists sts', loader_ok s sts' /\ loader_step m sts t sts'.

Lemma keep_wp m sts s (act : prog ()) (P : trace -> Prop) D : loader_ok s sts ->
  (forall t, P t -> loader_step m sts t sts) -> (forall D, uwp act (fun _ t => P t) D) ->
  uwp (act ;; mret s) (loader_end m sts) D.
Proof.
  intros Hs HP Ha. apply uwp_bind. eapply uwp_mono; [apply (Ha (fun _ => False))| |done]. intros [] t Ht.
  unfold mret, prog_ret. cbn [uwp]. rewrite app_nil_r. exists sts. split; [done|by apply HP].
Qed.
Lemma strip_None q m : ~ q `prefix_of` m -> strip q m = None.
Proof. intros H. unfold strip. by rewrite decide_False. Qed.

(** The arms that change the states. *)
Lemma arm_wp m sts bp rp (p : prog (ptr * ptr)) step D : length bp = 64%nat -> length rp = 64%nat ->
  (forall t sts', step t sts' -> loader_step m sts t sts') ->
  (forall D, uwp p (fun r t => ended step r.1 r.2 t) D) ->
  uwp (r ← p; mret (mkLoader bp r.1 rp r.2)) (loader_end m sts) D.
Proof.
  intros Hb Hr HP Ha. apply uwp_bind. eapply uwp_mono; [apply (Ha (fun _ => False))| |done].
  intros [q st] t (Hq & sts' & E & Ho & Ht). unfold mret, prog_ret. cbn [uwp fst snd] in *. rewrite app_nil_r.
  exists sts'. split; [done|by apply HP].
Qed.
Lemma arm_load_wp m sts bp (p : prog (ptr * ptr * ptr)) step D : length bp = 64%nat ->
  (forall t sts', step t sts' -> loader_step m sts t sts') ->
  (forall D, uwp p (fun r t => ended step r.1.1 r.2 t /\ length r.1.2 = 64%nat) D) ->
  uwp (r ← p; mret (mkLoader bp r.1.1 r.1.2 r.2)) (loader_end m sts) D.
Proof.
  intros Hb HP Ha. apply uwp_bind. eapply uwp_mono; [apply (Ha (fun _ => False))| |done].
  intros [[q x] st] t [(Hq & sts' & E & Ho & Ht) Hx]. unfold mret, prog_ret. cbn [uwp fst snd] in *. rewrite app_nil_r.
  exists sts'. split; [done|by apply HP].
Qed.

(** Which command a request is, once the tests before it failed. *)
Ltac ld_cmd_eq :=
  unfold loader_step, loader_cmd; cbn [by_prefix ld_prefixes];
  repeat match goal with
  | H : ?m <> ?c |- context [decide (?m = ?c)] => rewrite (decide_False (P := m = c)) by exact H
  | H : ~ ?q `prefix_of` ?m |- context [strip ?q ?m] => rewrite (strip_None q m) by exact H
  | H : ?m = ?q ++ ?r |- context [strip ?q ?m] => rewrite (proj2 (strip_Some q m r)) by exact H
  | H : ?m = ?c |- context [decide (?m = ?c)] => rewrite (decide_True (P := m = c)) by exact H
  end.
Ltac ld_prefix_step H E :=
  eapply uwp_prefix; [eassumption|done|]; case_bool_decide as H; [destruct H as [? E]|].

Lemma loader_turn_wp s sts D : loader_ok s sts ->
  uwp (loader_turn s) (fun s' t => exists sts', loader_ok s' sts' /\
    exists a, (ret a <= 0 /\ t = [(URecv 0 64, a)] /\ sts' = sts) \/
      (0 < ret a /\ exists t', t = (URecv 0 64, a) :: t' /\ loader_step (data a) sts t' sts')) D.
Proof.
  destruct s as [buf qp rp st]. intros [Hb Hq Hr Hst Hs]. cbn [lo_buf lo_req lo_rec lo_apps] in *. subst st.
  unfold loader_turn. apply uwp_serve; [lia|lia|..].
  { intros a bp Ha Hl. exists sts. split; [split; cbn; congruence|]. exists a. by left. }
  intros a bp Ha Hh Hl _ _. rewrite Hb in Hl.
  eapply uwp_mono with (Q := loader_end (data a) sts) (D := fun _ => False); [|intros s' t (sts' & Ho & Ht)|done].
  2:{ exists sts'. split; [done|]. exists a. right. split; [done|]. by exists t. }
  assert (loader_ok (mkLoader bp qp rp (stat sts)) sts) as Hok by done. cbv zeta.
  eapply uwp_cmd; [exact Hh|done|]. case_bool_decide as H1.
  { eapply keep_wp; [done| |intros D'; apply say_wp; vm_compute; lia]. intros t Ht. by ld_cmd_eq. }
  ld_prefix_step H2 E2.
  { eapply keep_wp; [done| |intros D'; eapply tail_at_wp; [exact Hh|exact E2|]; intros p Hp; by apply info_wp].
    intros t Ht. by ld_cmd_eq. }
  eapply uwp_cmd; [exact Hh|done|]. case_bool_decide as H3.
  { eapply keep_wp; [done| |intros D'; apply say_wp; vm_compute; lia]. intros t Ht. by ld_cmd_eq. }
  ld_prefix_step H4 E4.
  { eapply keep_wp; [done| |intros D'; eapply tail_at_wp; [exact Hh|exact E4|]; intros p Hp; by apply info_wp].
    intros t Ht. by ld_cmd_eq. }
  ld_prefix_step H5 E5.
  { eapply arm_load_wp; [done| |intros D'; eapply tail_at_wp; [exact Hh|exact E5|]; intros p Hp; by apply load_wp].
    intros t sts' Ht. by ld_cmd_eq. }
  ld_prefix_step H6 E6.
  { eapply arm_wp; [done|done| |intros D'; eapply tail_at_wp; [exact Hh|exact E6|]; intros p Hp; by apply run_wp].
    intros t sts' Ht. by ld_cmd_eq. }
  ld_prefix_step H7 E7.
  { eapply arm_wp; [done|done| |intros D'; eapply tail_at_wp; [exact Hh|exact E7|]; intros p Hp; by apply unload_wp].
    intros t sts' Ht. by ld_cmd_eq. }
  ld_prefix_step H8 E8.
  { eapply keep_wp; [done| |intros D'; eapply tail_at_wp; [exact Hh|exact E8|]; intros p Hp; by apply state_wp].
    intros t Ht. by ld_cmd_eq. }
  ld_prefix_step H9 E9.
  { eapply keep_wp; [done| |intros D'; eapply tail_at_wp; [exact Hh|exact E9|]; intros p Hp; by apply legacy_wp].
    intros t Ht. by ld_cmd_eq. }
  eapply keep_wp; [done| |intros D'; apply say_wp; vm_compute; lia]. intros t Ht. by ld_cmd_eq.
Qed.

(** ** What the loader starts *)

(** An image of the application was fetched and accepted. *)
Definition validated (name : list Z) (t : trace) : Prop :=
  exists d, (URecv 2 64, d) ∈ t /\ image_code (data d) name = 0.
(** Replies sent, requests received. *)
Definition is_reply (ca : call * answer) : bool :=
  match ca.1 with USend cap _ => cap =? 0 | _ => false end.
Definition is_request (ca : call * answer) : bool :=
  match ca.1 with URecv cap _ => (cap =? 0) && (0 <? ret ca.2) | _ => false end.
Definition replies (t : trace) : nat := length (filter is_reply t).
Definition requests (t : trace) : nat := length (filter is_request t).

(** Every task start follows a validated image of that application, or is
    the immediate answer to a legacy [run] line. *)
Definition starts_ok (t : trace) : Prop := forall t1 i a t2, t = t1 ++ (UTaskStart i, a) :: t2 ->
  exists name, app_id name <> None /\ i = start_index name /\
    (validated name t1 \/ exists t0 b, t1 = t0 ++ [(URecv 0 64, b)] /\ data b = C_RUNSP ++ name).

Lemma app_id_inj n1 n2 id : app_id n1 = Some id -> app_id n2 = Some id -> n1 = n2.
Proof. unfold app_id. repeat case_decide; congruence. Qed.
Lemma app_state_set name name' v sts : states_ok sts -> app_state (set_app name v sts) name' <> 0 ->
  app_state sts name' <> 0 \/ (name' = name /\ v <> 0).
Proof.
  intros [Hl _]. unfold app_state, set_app. destruct (app_id name) as [id|] eqn:E; [|by left].
  destruct (app_id name') as [id'|] eqn:E'; [|by left]. destruct (decide (id = id')) as [<-|Hn].
  - rewrite list_lookup_insert_eq by (apply app_id_bound in E as [? _]; lia). cbn. intros Hv. right.
    split; [by eapply app_id_inj|done].
  - rewrite list_lookup_insert_ne by done. by left.
Qed.
Lemma app_state_id sts name : app_state sts name <> 0 -> app_id name <> None.
Proof. unfold app_state. by destruct (app_id name). Qed.

Lemma replies_app t1 t2 : replies (t1 ++ t2) = (replies t1 + replies t2)%nat.
Proof. unfold replies. by rewrite filter_app, length_app. Qed.
Lemma requests_app t1 t2 : requests (t1 ++ t2) = (requests t1 + requests t2)%nat.
Proof. unfold requests. by rewrite filter_app, length_app. Qed.

Lemma requests_one a : requests [(URecv 0 64, a)] = if 0 <? ret a then 1%nat else 0%nat.
Proof. unfold requests. rewrite filter_cons. cbn. by destruct (0 <? ret a). Qed.

(** Output and fetches neither reply nor start tasks. *)
Definition quiet (t : trace) : Prop :=
  Forall (fun ca : call * answer => match ca.1 with
    UConWrite _ => True | USend cap _ | URecv cap _ => cap = 2 | _ => False end) t.
Lemma quiet_app t1 t2 : quiet (t1 ++ t2) <-> quiet t1 /\ quiet t2.
Proof. apply Forall_app. Qed.
Lemma quiet_con t : con_only t -> quiet t.
Proof. intros H. eapply Forall_impl; [exact H|]. intros [c a] [bs ->]. done. Qed.
Lemma quiet_fetched name t res : fetched name t res -> quiet t.
Proof. intros [(_ & -> & _)|[(b & _ & -> & _)|(b & d & _ & -> & _)]]; repeat constructor. Qed.
Lemma quiet_counts t : quiet t -> replies t = 0%nat /\ requests t = 0%nat.
Proof.
  intros H. unfold replies, requests. induction H as [|[c a] t Hc _ [IH1 IH2]]; [done|]. cbn [fst] in Hc.
  rewrite !filter_cons, !decide_False; [done|..]; destruct c; try done; cbn in Hc; subst; cbn; tauto.
Qed.
Lemma quiet_start t i a : quiet t -> (UTaskStart i, a) ∉ t.
Proof. intros H Hin. unfold quiet in H; rewrite Forall_forall in H. by specialize (H _ Hin). Qed.

(** What one step starts, validates and answers. *)
Record step_facts (m sts : list Z) (t : trace) (sts' : list Z) : Prop := {
  sf_start : forall t1 i a t2, t = t1 ++ (UTaskStart i, a) :: t2 -> t1 = [] /\
    exists name, app_id name <> None /\ i = start_index name /\ (app_state sts name <> 0 \/ m = C_RUNSP ++ name);
  sf_loaded : forall name, app_state sts' name <> 0 -> app_state sts name <> 0 \/ validated name t;
  sf_reply : replies t = 1%nat /\ requests t = 0%nat
}.

Lemma no_start_one c (b : answer) t1 i a t2 : [(c, b)] = t1 ++ (UTaskStart i, a) :: t2 -> (forall i, c <> UTaskStart i) -> False.
Proof. destruct t1 as [|x [|y t1]]; intros E Hc; simplify_eq/=. by eapply Hc. Qed.
Lemma said_facts m sts t r : sent (USend 0 r) t -> step_facts m sts t sts.
Proof.
  intros [b ->]. split; [|by left|done]. intros t1 i a t2 E. by apply no_start_one in E.
Qed.
Lemma started_facts m sts name a r b sts' : app_id name <> None ->
  app_state sts name <> 0 \/ m = C_RUNSP ++ name ->
  (forall n, app_state sts' n <> 0 -> app_state sts n <> 0) ->
  step_facts m sts [(UTaskStart (start_index name), a); (USend 0 r, b)] sts'.
Proof.
  intros Hid Hw Hs. split; [|intros n Hn; left; by apply Hs|done].
  intros [|x t1] i a' t2 E; cbn in E.
  - injection E as <- <- <-. split; [done|]. by exists name.
  - injection E as <- E. by apply no_start_one in E.
Qed.

Lemma load_facts m name sts t sts' : states_ok sts -> load_step name sts t sts' -> step_facts m sts t sts'.
Proof.
  intros Hs H. unfold load_step in H. case_decide; [destruct H as [H ->]; by eapply said_facts|].
  destruct H as (tf & tc & res & b & Hf & Hc & -> & ->). pose proof (quiet_fetched _ _ _ Hf) as Hq1.
  pose proof (quiet_con _ Hc) as Hq2. rewrite app_assoc.
  assert (quiet (tf ++ tc)) as Hq by (by apply quiet_app). destruct (quiet_counts _ Hq) as [E1 E2]. split.
  - intros t1 i a t2 E. exfalso. assert ((UTaskStart i, a) ∈ (tf ++ tc) ++ [(USend 0 (load_reply (load_code name res) name), b)]) as Hin
      by (rewrite E; apply elem_of_app; right; left).
    rewrite elem_of_app, elem_of_cons, elem_of_nil in Hin. destruct Hin as [Hin|[Hin|[]]]; [|done]. by eapply quiet_start.
  - intros n Hn. destruct (Z.eqb_spec (load_code name res) 0) as [Hz|]; [|by left].
    apply app_state_set in Hn as [Hn|[-> _]]; [by left| |done]. right.
    destruct Hf as [(_ & _ & ->)|[(b' & _ & _ & ->)|(b' & d & _ & -> & ->)]]; [done|done|].
    case_decide; [done|]. exists d. split; [|done]. rewrite !elem_of_app. left. left. right. left.
  - by rewrite replies_app, requests_app, E1, E2.
Qed.
Lemma if_loaded_facts m name sts t sts' (act : Prop) : if_loaded name sts t sts' act ->
  (act -> app_id name <> None -> app_state sts name <> 0 -> step_facts m sts t sts') -> step_facts m sts t sts'.
Proof.
  unfold if_loaded. intros H Ha. case_decide; [destruct H as [H ->]; by eapply said_facts|].
  case_decide; [destruct H as [H ->]; by eapply said_facts|]. by apply Ha.
Qed.

Lemma loader_step_facts m sts t sts' : states_ok sts -> loader_step m sts t sts' -> step_facts m sts t sts'.
Proof.
  intros Hs H. unfold loader_step in H. destruct (loader_cmd m) as [|name|name|name|name|name|name|] eqn:Ec;
    try (destruct H as [H ->]; by eapply said_facts).
  - by eapply load_facts.
  - unfold run_step in H. eapply if_loaded_facts; [exact H|]. intros (a & b & [(_ & -> & ->)|(_ & -> & ->)]) Hid Hz;
      (apply started_facts; [done|by left|]); [done|].
    intros n Hn. by apply app_state_set in Hn as [?|[-> _]].
  - unfold unload_step in H. eapply if_loaded_facts; [exact H|]. intros [[b ->] ->] Hid Hz. split; [|intros n Hn; left|done].
    + intros t1 i a t2 E. by apply no_start_one in E.
    + by apply app_state_set in Hn as [?|[_ ?]].
  - destruct H as [H ->]. unfold state_step in H. repeat (case_decide; [by eapply said_facts|]).
    destruct H as (a & b & ->). split; [|by left|done]. intros [|x t1] i a' t2 E; [done|]. cbn in E. injection E as _ E.
    by apply no_start_one in E.
  - destruct H as [H ->]. unfold legacy_step in H. case_decide; [by eapply said_facts|]. destruct H as (a & b & ->).
    apply started_facts; [done|right|done]. revert Ec. unfold loader_cmd. case_decide; [done|].
    destruct (strip C_APPINFO m); [done|]. case_decide; [done|]. cbn [by_prefix ld_prefixes].
    repeat (match goal with |- context [strip ?q m] => destruct (strip q m) as [r|] eqn:? end; [try done|]); [|done].
    intros [= <-]. by apply strip_Some.
Qed.

(** The states of the loader and the calls of all its turns so far. *)
Definition loader_inv (s : loader_st) (t : trace) : Prop := exists sts, loader_ok s sts /\ starts_ok t /\
  (forall name, app_state sts name <> 0 -> validated name t) /\ replies t = requests t.

Lemma validated_app name t1 t2 : validated name t1 \/ validated name t2 -> validated name (t1 ++ t2).
Proof. intros [(d & Hd & E)|(d & Hd & E)]; exists d; rewrite elem_of_app; tauto. Qed.
Lemma starts_app T t : starts_ok T ->
  (forall t1 i a t2, t = t1 ++ (UTaskStart i, a) :: t2 -> exists name, app_id name <> None /\ i = start_index name /\
    (validated name (T ++ t1) \/ exists t0 b, T ++ t1 = t0 ++ [(URecv 0 64, b)] /\ data b = C_RUNSP ++ name)) ->
  starts_ok (T ++ t).
Proof.
  intros HT Ht t1 i a t2 E. apply app_eq_app in E as [k [[E1 E2]|[E1 E2]]].
  - destruct k as [|x k].
    + rewrite app_nil_r in E1. subst t1. destruct (Ht [] i a t2) as (name & H); [done|].
      exists name. by rewrite app_nil_r in H.
    + injection E2 as <- E2. by apply (HT t1 i a k).
  - subst t1. by apply (Ht k i a t2).
Qed.

Lemma loader_turn_inv s T : loader_inv s T -> uwp (loader_turn s) (fun s' t => loader_inv s' (T ++ t)) (fun _ => False).
Proof.
  intros (sts & Hok & HT & HL & HC). eapply uwp_mono; [by apply (loader_turn_wp s sts (fun _ => False))| |done].
  intros s' t (sts' & Hok' & a & [(Ha & -> & ->)|(Ha & t' & -> & Hstep)]).
  - exists sts. split; [done|]. split; [|split].
    + apply starts_app; [done|]. intros t1 i b t2 E. by apply no_start_one in E.
    + intros name Hn. apply validated_app. left. by apply HL.
    + rewrite replies_app, requests_app, HC, requests_one. by destruct (Z.ltb_spec 0 (ret a)); [lia|].
  - destruct (loader_step_facts _ _ _ _ (lo_sts _ _ Hok) Hstep) as [F1 F2 [F3 F4]]. exists sts'. split; [done|]. split; [|split].
    + apply starts_app; [done|]. intros [|x t1] i b t2 E; [done|]. cbn in E. injection E as <- E.
      destruct (F1 _ _ _ _ E) as [-> (name & Hid & Hi & Hw)]. exists name. split; [done|]. split; [done|].
      destruct Hw as [Hw|Hw]; [left; apply validated_app; left; by apply HL|right; by exists T, a].
    + intros name Hn. apply validated_app. destruct (F2 _ Hn) as [Hn'|(d & Hd & E)]; [left; by apply HL|right].
      exists d. split; [by right|done].
    + rewrite replies_app, requests_app, HC. change ((URecv 0 64, a) :: t') with ([(URecv 0 64, a)] ++ t').
      rewrite replies_app, requests_app, F3, F4, requests_one. by destruct (Z.ltb_spec 0 (ret a)); [|lia].
Qed.

(** C22. One turn of the application loader follows its protocol: whatever the
    kernel and the filesystem answer, the turn stays inside its buffers,
    and the calls it makes and the application states it leaves are those
    [loader_step] gives for the request. *)
Theorem loader_follows_protocol s sts : loader_ok s sts ->
  uwp (loader_turn s) (fun s' t => exists sts', loader_ok s' sts' /\
    exists a, (ret a <= 0 /\ t = [(URecv 0 64, a)] /\ sts' = sts) \/
      (0 < ret a /\ exists t', t = (URecv 0 64, a) :: t' /\ loader_step (data a) sts t' sts')) (fun _ => False).
Proof. apply loader_turn_wp. Qed.

Lemma loader_follows_protocol_witness :
  loader_init = Val (mkLoader (uninit 64) (uninit 64) (uninit 64) (stat [0; 0; 0; 0])) /\
  uwp (loader_turn (mkLoader (uninit 64) (uninit 64) (uninit 64) (stat [0; 0; 0; 0])))
    (fun s' t => exists sts', loader_ok s' sts' /\
      exists a, (ret a <= 0 /\ t = [(URecv 0 64, a)] /\ sts' = [0; 0; 0; 0]) \/
        (0 < ret a /\ exists t', t = (URecv 0 64, a) :: t' /\ loader_step (data a) [0; 0; 0; 0] t' sts')) (fun _ => False).
Proof.
  split; [reflexivity|]. apply (loader_follows_protocol _ [0; 0; 0; 0]).
  split; try reflexivity. split; [reflexivity|]. repeat (constructor; [lia|]). constructor.
Defined.

(** C7. Only validated images run.  Over any number of turns from the
    loader's start, whatever it receives: it answers every request exactly
    once, it marks an application loaded only after it fetched a record of
    that application that the validator accepts, and it starts a task only
    for a known application whose image was accepted before, or at once on a
    legacy [run] line. *)
Theorem loader_runs_validated n s0 : loader_init = Val s0 ->
  uwp (turns loader_turn n s0) (fun s t => exists sts, loader_ok s sts /\ starts_ok t /\
    (forall name, app_state sts name <> 0 -> validated name t) /\ replies t = requests t) (fun _ => False).
Proof.
  intros H. assert (loader_inv s0 []) as H0.
  { assert (s0 = mkLoader (uninit 64) (uninit 64) (uninit 64) (stat [0; 0; 0; 0])) as -> by (by injection H as <-).
    exists [0; 0; 0; 0]. split; [split; try done; split; [done|repeat (constructor; [lia|]); constructor]|].
    split; [by intros [|? ?] i a t2 E|]. split; [|done].
    intros name Hn. destruct Hn. unfold app_state, app_id. by repeat case_decide. }
  apply (uwp_turns loader_turn loader_inv n s0 []); [apply loader_turn_inv|done].
Qed.

(** The filesystem's real records: load, run. *)
Definition loader_demo : list call * ending loader_st :=
  uexec (turns loader_turn 2 (mkLoader (uninit 64) (uninit 64) (uninit 64) (stat [0; 0; 0; 0])))
    ([says (PL_LOAD ++ A_HELLO); mkAns 18 []; says (fs_answer storage_answer (bin_path A_HELLO))] ++
     replicate 7 (mkAns 1 []) ++ [says (PL_RUN ++ A_HELLO); mkAns 0 []; mkAns 13 []]).
Lemma loader_runs_validated_witness :
  (exists s, loader_init = Val s /\ uwp (turns loader_turn 2 s) (fun s t => exists sts, loader_ok s sts /\ starts_ok t /\
    (forall name, app_state sts name <> 0 -> validated name t) /\ replies t = requests t) (fun _ => False)) /\
  UTaskStart APP_HELLO ∈ loader_demo.1.
Proof.
  split.
  - eexists. split; [reflexivity|]. apply (loader_runs_validated 2). reflexivity.
  - apply (bool_decide_unpack _). vm_compute. exact I.
Defined.

(** ** The loader over the filesystem and storage *)

(** The image files and the verdict on each. *)
Definition stored_images : list (list Z * Z) :=
  [(A_HELLO, 0); (A_COUNTER, 0); (A_FAULT, 0); (bstr "invalid_bad_magic", 1); (bstr "invalid_bad_cap", 3);
   (bstr "invalid_bad_checksum", 2)].

Lemma stored_images_code name code : (name, code) ∈ stored_images ->
  ~ (fs_answer storage_answer (bin_path name) = [] \/ LD_ERRPRE `prefix_of` fs_answer storage_answer (bin_path name)) /\
  image_code (fs_answer storage_answer (bin_path name)) name = code /\ (length name <= 27)%nat.
Proof.
  unfold stored_images. rewrite !elem_of_cons, elem_of_nil.
  intros [[= -> ->]|[[= -> ->]|[[= -> ->]|[[= -> ->]|[[= -> ->]|[[= -> ->]|[]]]]]]];
    (split; [apply (bool_decide_unpack _); vm_compute; exact I|split; [by vm_compute|vm_compute; lia]]).
Qed.

Lemma bin_path_file name : LD_BIN_PRE ++ name ++ LD_APP_SUF = P_CAT ++ bstr "/bin/" ++ name ++ LD_APP_SUF.
Proof. done. Qed.
Lemma not_stored name : name ∉ stored_images.*1 -> fs_answer storage_answer (bin_path name) = E_NOTFOUND.
Proof.
  intros Hn. unfold fs_answer, bin_path. rewrite bin_path_file.
  assert (fs_plan (P_CAT ++ bstr "/bin/" ++ name ++ LD_APP_SUF) =
    assoc fs_files (FsSay E_NOTFOUND) (bstr "/bin/" ++ name ++ LD_APP_SUF)) as ->.
  { unfold fs_plan. rewrite (strip_None P_LS), strip_app; [done|]. intros [k E]. done. }
  destruct (assoc_cases fs_files (FsSay E_NOTFOUND) (bstr "/bin/" ++ name ++ LD_APP_SUF)) as [Hin| ->]; [|done].
  exfalso. apply Hn. revert Hin. clear.
  assert (forall x, bstr "/bin/" ++ name ++ LD_APP_SUF = bstr "/bin/" ++ x ++ LD_APP_SUF -> name = x) as Hinj
    by (intros x E; by apply app_inv_head, app_inv_tail in E).
  cbn [fmap list_fmap fs_files fst]. rewrite !elem_of_cons, elem_of_nil.
  intros H. repeat destruct H as [H|H]; try done.
  all: match type of H with _ = ?f => first
    [ (pose proof (Hinj (take (length f - 9) (drop 5 f)) H) as ->; apply (bool_decide_unpack _); vm_compute; exact I)
    | done ] end.
Qed.

(** The verdict on a name, through the services. *)
Definition name_code (name : list Z) : Z := assoc stored_images 5 name.

Lemma assoc_in {A} (l : list (list Z * A)) other k : (k, assoc l other k) ∈ l \/ ((k ∉ l.*1) /\ assoc l other k = other).
Proof.
  induction l as [|[k' v] l IH]; cbn; [right; split; [apply not_elem_of_nil|done]|].
  case_decide as E; [left; subst; left|]. destruct IH as [IH|[IH1 IH2]]; [left; by right|right].
  split; [|done]. by rewrite not_elem_of_cons.
Qed.

Lemma fetched_verdict name t res : fetched name t res ->
  (forall q b, (USend 2 q, b) ∈ t -> 0 <= ret b) ->
  (forall d, (URecv 2 64, d) ∈ t -> data d = fs_answer storage_answer (bin_path name)) ->
  load_code name res = name_code name.
Proof.
  intros Hf Hb Hd. unfold name_code. destruct (assoc_in stored_images 5 name) as [Hin|[Hn ->]].
  - destruct (stored_images_code _ _ Hin) as (He & Hc & Hl). destruct Hf as [([Hz|Hz] & _ & _)|[(b & Hlt & -> & _)|(b & d & _ & -> & ->)]].
    + subst name. by vm_compute in Hin.
    + lia.
    + specialize (Hb _ b ltac:(left)). lia.
    + rewrite (Hd d ltac:(right; left)), decide_False by done. exact Hc.
  - destruct Hf as [(_ & _ & ->)|[(b & _ & _ & ->)|(b & d & _ & -> & ->)]]; [done|done|].
    rewrite (Hd d ltac:(right; left)), not_stored by done. rewrite decide_True; [done|]. right.
    apply (bool_decide_unpack _). vm_compute. exact I.
Qed.

Lemma load_determined name sts t sts' :
  load_step name sts t sts' -> app_state sts name = 0 ->
  (forall q b, (USend 2 q, b) ∈ t -> 0 <= ret b) ->
  (forall t1 q b d t2, t = t1 ++ (USend 2 q, b) :: (URecv 2 64, d) :: t2 -> data d = fs_answer storage_answer q) ->
  replied (load_reply (name_code name) name) t /\
  sts' = (if name_code name =? 0 then set_app name 1 sts else sts).
Proof.
  intros H Hz Hb Hd. unfold load_step in H. rewrite decide_False in H by lia.
  destruct H as (tf & tc & res & b & Hf & Hc & -> & ->).
  rewrite (fetched_verdict name tf res); [|done|intros q b' Hq; apply (Hb q); apply elem_of_app; by left|].
  { split; [exists (tf ++ tc), b; by rewrite app_assoc|done]. }
  intros d Hq. destruct Hf as [(_ & -> & _)|[(b' & _ & -> & _)|(b' & d' & _ & -> & _)]].
  - by apply elem_of_nil in Hq.
  - apply list_elem_of_singleton in Hq. discriminate.
  - apply elem_of_cons in Hq as [?|Hq]; [discriminate|]. apply list_elem_of_singleton in Hq. injection Hq as ->.
    by eapply (Hd []).
Qed.
Lemma loaded_names name : name_code name = 0 <-> name ∈ [A_HELLO; A_COUNTER; A_FAULT].
Proof.
  unfold name_code. rewrite !elem_of_cons, elem_of_nil. split.
  - unfold stored_images. cbn [assoc]. repeat (case_decide; [subst; try done; tauto|]). done.
  - intros [->|[->|[->|[]]]]; by vm_compute.
Qed.
Lemma load_command name : loader_cmd (PL_LOAD ++ name) = CLoad name.
Proof. reflexivity. Qed.

(** C23. Loading through the services.  Take any run of a turn of the loader on
    [LOAD name] for an application not yet loaded, whose requests to the
    filesystem are answered by runs of the filesystem's turn, whose requests
    to storage are answered by runs of the storage turn.  The reply is then
    determined by the name alone, for every name: the three shipped
    applications are loaded, the three damaged records are refused for the
    reason each was made for, and every other name is not found; the states
    change for the shipped applications only. *)
Theorem load_through_services s sts name t s' :
  loader_ok s sts -> runs (loader_turn s) t s' -> asked 64 (PL_LOAD ++ name) t -> served_by 2 fs_exchange t ->
  app_state sts name = 0 ->
  replied (load_reply (name_code name) name) t /\
  loader_ok s' (if name_code name =? 0 then set_app name 1 sts else sts) /\
  (name_code name = 0 <-> name ∈ [A_HELLO; A_COUNTER; A_FAULT]).
Proof.
  intros Hs Hr (a & t' & -> & Ha & Em) [H1 H2] Hz.
  destruct (uwp_runs _ _ _ _ _ (loader_turn_wp s sts (fun _ => False) Hs) Hr)
    as (sts' & Hs' & a' & [(H0 & E & _)|(_ & t2 & E & Hstep)]); injection E as -> ->; [lia|].
  unfold loader_step in Hstep. rewrite Em, load_command in Hstep.
  destruct (load_determined name sts t2 sts' Hstep Hz) as [(t0 & b & ->) ->].
  - intros q b Hq. apply (H1 q). by right.
  - intros t1 q b d t3 ->. apply fs_exchange_answer. by eapply (H2 (_ :: t1)).
  - split; [by eexists (_ :: t0), b|]. split; [done|apply loaded_names].
Qed.

(** The image of [hello], fetched by three real turns. *)
Definition idle_loader : loader_st := mkLoader (uninit 64) (uninit 64) (uninit 64) (stat [0; 0; 0; 0]).
Definition storage_run : trace := done_trace (storage_turn storage_init) [says Q_BLOCK4; mkAns 52 []].
Definition fs_run : trace :=
  done_trace (fs_turn (uninit 64)) [says (bin_path A_HELLO); mkAns 12 []; says (S_R_DATA ++ BH4); mkAns 44 []].
Definition load_run : trace :=
  done_trace (loader_turn idle_loader)
    ([says (PL_LOAD ++ A_HELLO); mkAns 18 []; says BH4] ++ replicate 6 (mkAns 64 []) ++ [mkAns 15 []]).

Lemma hello_stored : storage_exchange Q_BLOCK4 (S_R_DATA ++ BH4).
Proof.
  eexists storage_init, storage_run, _. split; [by vm_compute|]. split; [split; [vm_compute; reflexivity|all_answered]|].
  split; [by eexists _, _|by eexists [_], _].
Qed.
Lemma hello_fetched : fs_exchange (bin_path A_HELLO) BH4.
Proof.
  eexists (uninit 64), fs_run, _. split; [done|]. split; [split; [vm_compute; reflexivity|all_answered]|].
  split; [by eexists _, _|]. split; [|by eexists [_; _; _], _].
  apply served_by_intro; [by vm_compute|]. constructor; [exact hello_stored|constructor].
Qed.

Lemma load_through_services_witness :
  exists s', runs (loader_turn idle_loader) load_run s' /\ replied (RP_LOADED ++ A_HELLO) load_run /\ loader_ok s' [1; 0; 0; 0].
Proof.
  assert (exists s', runs (loader_turn idle_loader) load_run s') as [s' Hr].
  { eexists. split; [vm_compute; reflexivity|all_answered]. }
  exists s'. split; [exact Hr|].
  destruct (load_through_services idle_loader [0; 0; 0; 0] A_HELLO load_run s') as (H1 & H2 & _).
  - split; try reflexivity. split; [reflexivity|]. repeat (constructor; [lia|]). constructor.
  - exact Hr.
  - by eexists _, _.
  - apply served_by_intro; [by vm_compute|]. constructor; [exact hello_fetched|constructor].
  - vm_compute. reflexivity.
  - split; [exact H1|exact H2].
Defined.
