(* ===== verification/SvcNet.v ===== *)
(** * The driver and network services

    [block_driver_body], [net_driver_body], [net_service_body] and
    [driver_manager_body] of [kernel/src/arch/riscv64/os_boot.rs]: a start
    sequence and one definition per turn of each [loop], the protocols they
    follow, and the agreement of the network service with its driver. *)

From stdpp Require Import strings base decidable numbers option tactics list.
From S2P Require Import Prelude Bytes Monitor UserText UserProg UserLib.
Local Open Scope Z_scope.

(** [x += 1] of [u64] *)
Definition inc64 (x : Z) : outcome Z := if x <? u64_MAX then mret (x + 1) else Panic.

(** A write to an unmapped page, then an endless loop. *)
Definition deliberate_fault {A} : prog A := PDie.

(** ** [block_driver_service] *)

Definition block_start : prog ptr :=
  sys_out (UDeviceInfo 1 192) (uninit 192) ;;
  sys (UMmioRead 1 0 4) ;;
  sys (UMmioWrite 1 0 4 0) ;;
  sys (UDmaWrite 1 0 1 0x41) ;;
  sys (UDmaRead 1 0 1) ;;
  r ← sys_out (URecv 2 1) (uninit 64);
  mret r.2.

Definition block_turn (buf : ptr) : prog ptr :=
  serve 64 buf id (fun cp n =>
    b ← is_cmd cp n BDC_STATUS;
    if (b : bool) then send0 BD_STATUS ;; mret cp
    else
      b ← is_cmd cp n BDC_FAULT;
      if (b : bool) then deliberate_fault else send0 BD_ERR ;; mret cp).

(** ** [net_driver_service] *)

Definition nd_status (dst : ptr) (tx rx : Z) : prog ptr :=
  r ← ulift (nd_copy dst 0 (stat ND_STATUS_P) (length ND_STATUS_P));
  r ← ulift (nd_dec r.1 r.2 tx);
  r ← ulift (nd_copy r.1 r.2 (stat ND_RX_MID) (length ND_RX_MID));
  r ← ulift (nd_dec r.1 r.2 rx);
  r ← ulift (nd_copy r.1 r.2 (stat ND_MODE) (length ND_MODE));
  sys_in (USend 0) r.1 r.2 ;; mret r.1.

Definition nd_rx_count (dst : ptr) (rx : Z) : prog ptr :=
  r ← ulift (nd_copy dst 0 (stat ND_RX_EVENT_P) (length ND_RX_EVENT_P));
  r ← ulift (nd_dec r.1 r.2 rx);
  r ← (if decide (r.2 < 64)%nat then d ← ulift (wr r.1 r.2 10); mret (d, (r.2 + 1)%nat) else mret r);
  uwrite_ptr r.1 r.2 ;;
  r ← ulift (nd_copy r.1 0 (stat ND_RX_REPLY_P) (length ND_RX_REPLY_P));
  r ← ulift (nd_dec r.1 r.2 rx);
  sys_in (USend 0) r.1 r.2 ;; mret r.1.

Record net_driver_st := mkNetDriver { nd_cmd : ptr; nd_rep : ptr; nd_tx : Z; nd_rx : Z }.

Definition net_driver_start : prog net_driver_st :=
  sys_out (UDeviceInfo 1 128) (uninit 128) ;;
  uput ND_STARTED ;;
  r ← sys_out (URecv 2 1) (uninit 64);
  mret (mkNetDriver r.2 (uninit 64) 0 0).

Definition net_driver_turn (s : net_driver_st) : prog net_driver_st :=
  let '(mkNetDriver buf rp tx rx) := s in
  serve 64 buf (fun cp => mkNetDriver cp rp tx rx) (fun cp n =>
    b ← is_cmd cp n NDC_STATUS;
    if (b : bool) then rp ← nd_status rp tx rx; mret (mkNetDriver cp rp tx rx) else
    b ← is_cmd cp n NDC_TX;
    if (b : bool) then
      if (tx =? u64_MAX) || (rx =? u64_MAX) then send0 ND_TOO_LARGE ;; mret (mkNetDriver cp rp tx rx)
      else
        tx ← ulift (inc64 tx); rx ← ulift (inc64 rx);
        uput ND_TX_EVENT ;; send0 ND_TX_REPLY ;; mret (mkNetDriver cp rp tx rx)
    else
    b ← is_cmd cp n NDC_RX;
    if (b : bool) then rp ← nd_rx_count rp rx; mret (mkNetDriver cp rp tx rx) else
    b ← is_cmd cp n NDC_FAULT;
    if (b : bool) then deliberate_fault else
    b ← is_cmd cp n NDC_RESTART;
    if (b : bool) then send0 ND_UNSUPPORTED ;; mret (mkNetDriver cp rp tx rx) else
    send0 ND_BAD ;; mret (mkNetDriver cp rp tx rx)).

(** ** [net_service] *)

(** [ns_driver] (slot 1) and [ns_manager] (slot 2): one exchange. *)
Definition ns_exchange (cap : Z) (m : list Z) (reply : ptr) : prog (Z * ptr) :=
  r ← sys_in (USend cap) (stat m) (length m);
  if r <? 0 then mret (-1, reply) else sys_out (URecv cap 64) reply.
Definition ns_driver : list Z -> ptr -> prog (Z * ptr) := ns_exchange 1.
Definition ns_manager : list Z -> ptr -> prog (Z * ptr) := ns_exchange 2.

Definition ns_reply (p : ptr) (len : nat) : prog () := sys_in (USend 0) p len ;; mret tt.

Definition ns_event (dst : ptr) (n : nat) : prog ptr :=
  r ← (if decide (n < 64)%nat then d ← ulift (wr dst n 10); mret (d, (n + 1)%nat) else mret (dst, n));
  uwrite_ptr r.1 r.2 ;; mret r.1.

Definition ns_status (dst : ptr) (tx rx : Z) : prog ptr :=
  r ← ulift (nd_copy dst 0 (stat NS_STATUS_P) (length NS_STATUS_P));
  r ← ulift (nd_dec r.1 r.2 tx);
  r ← ulift (nd_copy r.1 r.2 (stat NS_RX_MID) (length NS_RX_MID));
  r ← ulift (nd_dec r.1 r.2 rx);
  r ← ulift (nd_copy r.1 r.2 (stat NS_MODE) (length NS_MODE));
  ns_reply r.1 r.2 ;; mret r.1.

Definition ns_stats (dst : ptr) (tx rx : Z) : prog ptr :=
  r ← ulift (nd_copy dst 0 (stat NS_STATS_P) (length NS_STATS_P));
  r ← ulift (nd_dec r.1 r.2 tx);
  r ← ulift (nd_copy r.1 r.2 (stat NS_RX_MID) (length NS_RX_MID));
  r ← ulift (nd_dec r.1 r.2 rx);
  ns_reply r.1 r.2 ;; mret r.1.

Definition ns_packet_events (dst : ptr) (tx rx : Z) : prog ptr :=
  r ← ulift (nd_copy dst 0 (stat NS_TX_EVENT_P) (length NS_TX_EVENT_P));
  r ← ulift (nd_dec r.1 r.2 tx);
  d ← ns_event r.1 r.2;
  r ← ulift (nd_copy d 0 (stat NS_RX_EVENT_P) (length NS_RX_EVENT_P));
  r ← ulift (nd_dec r.1 r.2 rx);
  ns_event r.1 r.2.

Record net_service_st := mkNetService {
  ns_cmd : ptr; ns_drv : ptr; ns_rep : ptr; ns_tx : Z; ns_rx : Z; ns_up : bool }.

Definition net_service_start : prog net_service_st :=
  uput NS_STARTED ;; mret (mkNetService (uninit 128) (uninit 64) (uninit 64) 0 0 true).

(** The six frames' arms; each is run when the service is up ([NET_RESTART]
    always). *)
Definition ns_down : prog () := ns_reply (stat NS_DOWN) (length NS_DOWN).

Definition net_service_query (cp dp rp : ptr) (tx rx : Z) (answer : ptr -> Z -> Z -> prog ptr) : prog net_service_st :=
  r ← ns_driver NDC_STATUS dp;
  if 0 <? r.1 then rp ← answer rp tx rx; mret (mkNetService cp r.2 rp tx rx true)
  else ns_down ;; mret (mkNetService cp r.2 rp tx rx true).

Definition net_service_send (cp dp rp : ptr) (tx rx : Z) : prog net_service_st :=
  r ← ns_driver NDC_TX dp;
  if 0 <? r.1 then
    if (tx =? u64_MAX) || (rx =? u64_MAX)
    then ns_reply (stat ND_TOO_LARGE) (length ND_TOO_LARGE) ;; mret (mkNetService cp r.2 rp tx rx true)
    else
      tx ← ulift (inc64 tx); rx ← ulift (inc64 rx);
      rp ← ns_packet_events rp tx rx;
      ns_reply r.2 (Z.to_nat r.1) ;; mret (mkNetService cp r.2 rp tx rx true)
  else ns_down ;; mret (mkNetService cp r.2 rp tx rx true).

Definition net_service_rx (cp dp rp : ptr) (tx rx : Z) : prog net_service_st :=
  r ← ns_driver NDC_RX dp;
  (if 0 <? r.1 then ns_reply r.2 (Z.to_nat r.1) else ns_down) ;; mret (mkNetService cp r.2 rp tx rx true).

Definition net_service_fault (cp dp rp : ptr) (tx rx : Z) : prog net_service_st :=
  r ← ns_manager NSM_FAULT dp;
  if 0 <? r.1 then
    ok ← has_prefix r.2 (Z.to_nat r.1) NS_OK;
    ns_reply r.2 (Z.to_nat r.1) ;; mret (mkNetService cp r.2 rp tx rx (negb ok))
  else ns_down ;; mret (mkNetService cp r.2 rp tx rx true).

Definition net_service_restart (cp dp rp : ptr) (tx rx : Z) (up : bool) : prog net_service_st :=
  r ← ns_manager NSM_RESTART dp;
  if 0 <? r.1 then
    ok ← has_prefix r.2 (Z.to_nat r.1) NS_OK;
    ns_reply r.2 (Z.to_nat r.1) ;;
    mret (if (ok : bool) then mkNetService cp r.2 rp 0 0 true else mkNetService cp r.2 rp tx rx up)
  else ns_down ;; mret (mkNetService cp r.2 rp tx rx up).

Definition net_service_turn (s : net_service_st) : prog net_service_st :=
  let '(mkNetService buf dp rp tx rx up) := s in
  serve 128 buf (fun cp => mkNetService cp dp rp tx rx up) (fun cp n =>
    let when_up (act : prog net_service_st) :=
      if negb up then ns_down ;; mret (mkNetService cp dp rp tx rx up) else act in
    b ← is_cmd cp n NSC_STATUS;
    if (b : bool) then when_up (net_service_query cp dp rp tx rx ns_status) else
    b ← is_cmd cp n NSC_STATS;
    if (b : bool) then when_up (net_service_query cp dp rp tx rx ns_stats) else
    b ← is_cmd cp n NSC_TX;
    if (b : bool) then when_up (net_service_send cp dp rp tx rx) else
    b ← is_cmd cp n NSC_RX;
    if (b : bool) then when_up (net_service_rx cp dp rp tx rx) else
    b ← is_cmd cp n NSC_FAULT;
    if (b : bool) then when_up (net_service_fault cp dp rp tx rx) else
    b ← is_cmd cp n NSC_RESTART;
    if (b : bool) then net_service_restart cp dp rp tx rx up else
    uput NS_BAD_EVENT ;; ns_reply (stat NS_BAD) (length NS_BAD) ;; mret (mkNetService cp dp rp tx rx up)).

(** ** Lines in a 64-byte buffer *)

Lemma take_take_app {A} n (l k : list A) : take n (take n l ++ k) = take n (l ++ k).
Proof.
  destruct (decide (n <= length l)%nat).
  - rewrite !take_app_le by (rewrite ?length_take; lia). rewrite take_take. f_equal. lia.
  - by rewrite (take_ge l) by lia.
Qed.

(** [r] is a buffer that holds the line [l], cut at 64 bytes. *)
Definition line (r : ptr * nat) (l : list Z) : Prop := built 64 r (take 64 l).

Lemma line_cap r l : line r l -> length r.1 = 64%nat.
Proof. by intros [_ _ ?]. Qed.
Lemma uwp_copy {B} d at_ l s (f : ptr * nat -> prog B) Q D : line (d, at_) l ->
  (forall r, line r (l ++ s) -> uwp (f r) Q D) -> uwp (r ← ulift (nd_copy d at_ (stat s) (length s)); f r) Q D.
Proof.
  intros Hl Hf. destruct (copy_all_built 64 64 d at_ (stat s) (take 64 l) s) as (r & E & Hr);
    [done|rewrite length_take; lia|lia|apply holds_stat|].
  eapply uwp_lift_bind; [exact E|]. apply Hf. unfold line. by rewrite take_take_app in Hr.
Qed.
Lemma uwp_copy0 {B} d s (f : ptr * nat -> prog B) Q D : length d = 64%nat ->
  (forall r, line r s -> uwp (f r) Q D) -> uwp (r ← ulift (nd_copy d 0 (stat s) (length s)); f r) Q D.
Proof. intros Hd Hf. eapply (uwp_copy d 0 []); [by apply built_fresh|done]. Qed.
Lemma uwp_dec {B} d at_ l v (f : ptr * nat -> prog B) Q D : line (d, at_) l -> v ∈ᵤ 64 ->
  (forall r, line r (l ++ dec v) -> uwp (f r) Q D) -> uwp (r ← ulift (nd_dec d at_ v); f r) Q D.
Proof.
  intros Hl Hv Hf. destruct (nd_dec_built d at_ v (take 64 l)) as (r & E & Hr); [done|rewrite length_take; lia|done|].
  eapply uwp_lift_bind; [exact E|]. apply Hf. unfold line. by rewrite take_take_app in Hr.
Qed.
(** [if n < 64 { dst[n] = b'\n'; n += 1 }] *)
Lemma uwp_newline {B} r l (f : ptr * nat -> prog B) Q D : line r l ->
  (forall r', line r' (l ++ [10]) -> uwp (f r') Q D) ->
  uwp (r ← (if decide (r.2 < 64)%nat then d ← ulift (wr r.1 r.2 10); mret (d, (r.2 + 1)%nat) else mret r); f r) Q D.
Proof.
  intros Hl Hf. destruct r as [d n]. cbn [fst snd]. pose proof (bt_at _ _ _ Hl) as Hn. cbn [snd] in Hn.
  rewrite length_take in Hn. case_decide as Hlt.
  - destruct (wr_built 64 d n (take 64 l) 10 Hl) as (d' & -> & Hb); [lia|]. apply (Hf (d', (n + 1)%nat)). unfold line.
    by rewrite (take_ge l) in Hb by lia; rewrite (take_ge (l ++ [10])) by (rewrite length_app; cbn; lia).
  - apply (Hf (d, n)). unfold line. by rewrite take_app_le by lia.
Qed.
Lemma uwp_say_line r l (Q : ptr -> trace -> Prop) D : line r l ->
  (forall b, Q r.1 [(USend 0 (take 64 l), b)]) -> uwp (sys_in (USend 0) r.1 r.2 ;; mret r.1) Q D.
Proof.
  intros Hl HQ. apply uwp_bind. eapply uwp_send_built; [exact Hl|cbn; rewrite length_take; lia|].
  intros b _. apply HQ.
Qed.
Lemma uwp_write_line {B} r l (k : prog B) Q D : line r l ->
  (forall b t tc, con_only tc -> Q b t -> Q b (tc ++ t)) -> uwp k Q (fun _ => False) ->
  uwp (uwrite_ptr r.1 r.2 ;; k) Q D.
Proof. intros [Hn Hh _] HQ Hk. by eapply uwp_con. Qed.

(** ** The network driver's protocol *)

Definition nd_status_line (tx rx : Z) : list Z :=
  take 64 (ND_STATUS_P ++ dec tx ++ ND_RX_MID ++ dec rx ++ ND_MODE).
Definition nd_rx_line (rx : Z) : list Z := take 64 (ND_RX_REPLY_P ++ dec rx).
Definition full (tx rx : Z) : bool := (tx =? u64_MAX) || (rx =? u64_MAX).

Definition nd_answer (tx rx : Z) (m : list Z) : list Z :=
  if decide (m = NDC_STATUS) then nd_status_line tx rx
  else if decide (m = NDC_TX) then (if full tx rx then ND_TOO_LARGE else ND_TX_REPLY)
  else if decide (m = NDC_RX) then nd_rx_line rx
  else if decide (m = NDC_RESTART) then ND_UNSUPPORTED else ND_BAD.
Definition nd_count (tx rx : Z) (m : list Z) : Z * Z :=
  if decide (m = NDC_TX) then (if full tx rx then (tx, rx) else (tx + 1, rx + 1)) else (tx, rx).

Record net_driver_ok (s : net_driver_st) : Prop := {
  ndo_cmd : length (nd_cmd s) = 64%nat;
  ndo_rep : length (nd_rep s) = 64%nat;
  ndo_tx : nd_tx s ∈ᵤ 64;
  ndo_rx : nd_rx s ∈ᵤ 64
}.

Lemma nd_status_wp dst tx rx D : length dst = 64%nat -> tx ∈ᵤ 64 -> rx ∈ᵤ 64 ->
  uwp (nd_status dst tx rx) (fun q t => length q = 64%nat /\ spoke (nd_status_line tx rx) t) D.
Proof.
  intros Hd Ht Hr. unfold nd_status. apply uwp_copy0; [done|]. intros [d1 n1] H1. cbn [fst snd].
  eapply uwp_dec; [exact H1|done|]. intros [d2 n2] H2. cbn [fst snd].
  eapply uwp_copy; [exact H2|]. intros [d3 n3] H3. cbn [fst snd].
  eapply uwp_dec; [exact H3|done|]. intros [d4 n4] H4. cbn [fst snd].
  eapply uwp_copy; [exact H4|]. intros r H5. rewrite <- !app_assoc in H5.
  eapply uwp_say_line; [exact H5|]. intros b. split; [by eapply line_cap|]. apply sent_spoke. by eexists.
Qed.
Lemma nd_rx_count_wp dst rx D : length dst = 64%nat -> rx ∈ᵤ 64 ->
  uwp (nd_rx_count dst rx) (fun q t => length q = 64%nat /\ spoke (nd_rx_line rx) t) D.
Proof.
  intros Hd Hr. unfold nd_rx_count. apply uwp_copy0; [done|]. intros [d1 n1] H1. cbn [fst snd].
  eapply uwp_dec; [exact H1|done|]. intros r2 H2. eapply uwp_newline; [exact H2|]. intros r3 H3.
  eapply uwp_write_line; [exact H3| |].
  { intros q t tc Hc [Hl Hs]. split; [done|]. by apply spoke_con. }
  apply uwp_copy0; [by eapply line_cap|]. intros [d4 n4] H4. cbn [fst snd].
  eapply uwp_dec; [exact H4|done|]. intros r5 H5. eapply uwp_say_line; [exact H5|]. intros b.
  split; [by eapply line_cap|]. apply sent_spoke. by eexists.
Qed.

Lemma inc64_spec x : 0 <= x -> x <> u64_MAX -> x ∈ᵤ 64 -> inc64 x = Val (x + 1) /\ (x + 1) ∈ᵤ 64.
Proof.
  unfold inc64, u64_MAX, uint. intros H0 Hn Hu. destruct (Z.ltb_spec x (2 ^ 64 - 1)); [|lia]. split; [done|lia].
Qed.
Lemma full_false tx rx : full tx rx = false -> tx <> u64_MAX /\ rx <> u64_MAX.
Proof. unfold full. intros [?%Z.eqb_neq ?%Z.eqb_neq]%orb_false_iff. done. Qed.

Definition nd_end (m : list Z) (tx rx : Z) (s : net_driver_st) (t : trace) : Prop :=
  net_driver_ok s /\ m <> NDC_FAULT /\ spoke (nd_answer tx rx m) t /\ (nd_tx s, nd_rx s) = nd_count tx rx m.

(** The constants of the protocol are different commands. *)
Ltac pick := repeat first [rewrite decide_True by done | rewrite decide_False by done].

Lemma nd_say_wp m tx rx cp rp r D : length cp = 64%nat -> length rp = 64%nat -> tx ∈ᵤ 64 -> rx ∈ᵤ 64 ->
  m <> NDC_FAULT -> nd_answer tx rx m = r -> nd_count tx rx m = (tx, rx) -> (length r <= 128)%nat ->
  uwp (send0 r ;; mret (mkNetDriver cp rp tx rx)) (nd_end m tx rx) D.
Proof.
  intros Hc Hp Ht Hr Hf Ha Hn Hl. eapply (uwp_then_ret (send0 r) (fun _ => mkNetDriver cp rp tx rx)); [intros D'; by apply say_wp|].
  intros [] t Hs. split; [done|]. split; [done|]. rewrite Ha, Hn. split; [by apply sent_spoke|done].
Qed.
Lemma nd_fill_wp m tx rx cp (p : prog ptr) r D : length cp = 64%nat -> tx ∈ᵤ 64 -> rx ∈ᵤ 64 ->
  m <> NDC_FAULT -> nd_answer tx rx m = r -> nd_count tx rx m = (tx, rx) ->
  (forall D, uwp p (fun q t => length q = 64%nat /\ spoke r t) D) ->
  uwp (q ← p; mret (mkNetDriver cp q tx rx)) (nd_end m tx rx) D.
Proof.
  intros Hc Ht Hr Hf Ha Hn Hp. eapply (uwp_then_ret p (fun q => mkNetDriver cp q tx rx)); [exact Hp|].
  intros q t [Hq Hs]. split; [done|]. split; [done|]. by rewrite Ha, Hn.
Qed.

(** A test packet: both counters move, unless one is at its maximum. *)
Lemma nd_tx_wp cp rp tx rx D : length cp = 64%nat -> length rp = 64%nat -> tx ∈ᵤ 64 -> rx ∈ᵤ 64 ->
  uwp (if (tx =? u64_MAX) || (rx =? u64_MAX) then send0 ND_TOO_LARGE ;; mret (mkNetDriver cp rp tx rx)
       else
         tx ← ulift (inc64 tx); rx ← ulift (inc64 rx);
         uput ND_TX_EVENT ;; send0 ND_TX_REPLY ;; mret (mkNetDriver cp rp tx rx)) (nd_end NDC_TX tx rx) D.
Proof.
  intros Hl Hp Ht Hr. fold (full tx rx). destruct (full tx rx) eqn:Ef.
  - apply nd_say_wp; try done; [unfold nd_answer; rewrite Ef; by pick|unfold nd_count; rewrite Ef; by pick|vm_compute; lia].
  - destruct (full_false _ _ Ef) as [Hn1 Hn2].
    destruct (inc64_spec tx) as [E1 U1]; [apply Ht|done|done|]. destruct (inc64_spec rx) as [E2 U2]; [apply Hr|done|done|].
    rewrite E1. eapply uwp_lift_bind; [reflexivity|]. rewrite E2. eapply uwp_lift_bind; [reflexivity|].
    unfold uput. eapply uwp_con; [apply holds_stat|done| |].
    { intros s' t tc Hc (Ho & Hne & Hs & Hc'). split; [done|]. split; [done|]. split; [by apply spoke_con|done]. }
    eapply (uwp_then_ret (send0 ND_TX_REPLY) (fun _ => mkNetDriver cp rp (tx + 1) (rx + 1))); [intros D'; apply say_wp; vm_compute; lia|].
    intros [] t Hs. split; [done|]. split; [done|]. split; [|unfold nd_count; rewrite Ef; by pick].
    apply sent_spoke. unfold nd_answer. rewrite Ef. by pick.
Qed.

Lemma net_driver_turn_wp s D : net_driver_ok s ->
  (forall a, data a = NDC_FAULT -> D [(URecv 0 64, a)]) ->
  uwp (net_driver_turn s) (fun s' t => net_driver_ok s' /\ exists a,
    (ret a <= 0 /\ t = [(URecv 0 64, a)] /\ nd_tx s' = nd_tx s /\ nd_rx s' = nd_rx s) \/
    (0 < ret a /\ exists t', t = (URecv 0 64, a) :: t' /\ nd_end (data a) (nd_tx s) (nd_rx s) s' t')) D.
Proof.
  destruct s as [buf rp tx rx]. intros [Hb Hp Ht Hr] HD. cbn [nd_cmd nd_rep nd_tx nd_rx] in *.
  unfold net_driver_turn. apply uwp_serve; [lia|lia|..].
  { intros a cp Ha Hl. split; [split; cbn; congruence|]. exists a. by left. }
  intros a cp Ha Hh Hl _ _. rewrite Hb in Hl.
  eapply uwp_mono with (Q := nd_end (data a) tx rx) (D := fun t => t = [] /\ data a = NDC_FAULT);
    [|intros s' t He; split; [apply He|]; exists a; right; split; [done|by exists t]|intros t [-> E]; by apply HD].
  assert (forall m, m <> NDC_STATUS -> m <> NDC_TX -> m <> NDC_RX -> nd_answer tx rx m =
    if decide (m = NDC_RESTART) then ND_UNSUPPORTED else ND_BAD) as Hans by (intros; unfold nd_answer; by pick).
  assert (forall m, m <> NDC_TX -> nd_count tx rx m = (tx, rx)) as Hcnt by (intros; unfold nd_count; by pick).
  eapply uwp_cmd; [exact Hh|done|]. case_bool_decide as H1.
  { rewrite H1. eapply nd_fill_wp; [done..| | |intros D'; by apply nd_status_wp]; [unfold nd_answer; by pick|by apply Hcnt]. }
  eapply uwp_cmd; [exact Hh|done|]. case_bool_decide as H2.
  { rewrite H2. by apply nd_tx_wp. }
  eapply uwp_cmd; [exact Hh|done|]. case_bool_decide as H3.
  { rewrite H3. eapply nd_fill_wp; [done..| | |intros D'; by apply nd_rx_count_wp]; [unfold nd_answer; by pick|by apply Hcnt]. }
  eapply uwp_cmd; [exact Hh|done|]. case_bool_decide as H4; [done|].
  eapply uwp_cmd; [exact Hh|done|]. case_bool_decide as H5.
  - apply nd_say_wp; try done; [rewrite Hans by done; by rewrite decide_True|by apply Hcnt|vm_compute; lia].
  - apply nd_say_wp; try done; [rewrite Hans by done; by rewrite decide_False|by apply Hcnt|vm_compute; lia].
Qed.

(** ** The network service's protocol *)

(** One exchange on a channel: refused, or answered. *)
Definition exchanged (cap : Z) (q : list Z) (t : trace) (res : list Z) : Prop :=
  exists b, (ret b < 0 /\ t = [(USend cap q, b)] /\ res = []) \/
    (0 <= ret b /\ exists d, t = [(USend cap q, b); (URecv cap 64, d)] /\ res = data d).

Lemma exchange_wp cap q rep D : (length q <= 128)%nat -> length rep = 64%nat ->
  uwp (ns_exchange cap q rep) (fun r t => exists res, exchanged cap q t res /\ length r.2 = 64%nat /\
    holds r.2 res /\ (length res <= 64)%nat /\ bytes_ok res /\
    (if 0 <? r.1 then Z.to_nat r.1 = length res /\ res <> [] else res = [])) D.
Proof.
  intros Hq Hr. unfold ns_exchange. apply uwp_bind. eapply uwp_sys_in; [apply holds_stat|done|by rewrite take_ge|].
  intros b _. rewrite take_ge by done. destruct (Z.ltb_spec (ret b) 0) as [Hb|Hb].
  { exists []. split; [exists b; by left|]. cbn. split; [done|]. split; [apply holds_nil|]. split; [lia|]. split; [constructor|done]. }
  eapply (uwp_out _ _ 64); [done|lia|cbn; lia|]. intros d r' Hd Hh Hl Hn Hm. destruct Hd as (_ & Hb' & Hdl & _).
  exists (data d). split; [exists b; right; split; [done|by exists d]|]. cbn [fst snd]. split; [congruence|].
  split; [done|]. split; [done|]. split; [done|]. destruct (Z.ltb_spec 0 (ret d)).
  - split; [by apply Hn|]. intros E. rewrite E in Hdl. cbn in Hdl. lia.
  - apply nil_length_inv. lia.
Qed.

Definition ns_status_line (tx rx : Z) : list Z :=
  take 64 (NS_STATUS_P ++ dec tx ++ NS_RX_MID ++ dec rx ++ NS_MODE).
Definition ns_stats_line (tx rx : Z) : list Z := take 64 (NS_STATS_P ++ dec tx ++ NS_RX_MID ++ dec rx).

(** The service's own view: up or down, packets sent and received. *)
Record net_view := mkView { v_up : bool; v_tx : Z; v_rx : Z }.

(** The exchange, the reply and the next view for a request, given what the
    peer answers ([[]] when it does not). *)
Definition ns_plan (m : list Z) : option (Z * list Z) :=
  if decide (m = NSC_STATUS \/ m = NSC_STATS) then Some (1, NDC_STATUS)
  else if decide (m = NSC_TX) then Some (1, NDC_TX)
  else if decide (m = NSC_RX) then Some (1, NDC_RX)
  else if decide (m = NSC_FAULT) then Some (2, NSM_FAULT)
  else if decide (m = NSC_RESTART) then Some (2, NSM_RESTART) else None.
Definition is_ok (res : list Z) : bool := bool_decide (NS_OK `prefix_of` res).
Definition ns_answer (v : net_view) (m res : list Z) : list Z :=
  if decide (res = []) then NS_DOWN
  else if decide (m = NSC_STATUS) then ns_status_line (v_tx v) (v_rx v)
  else if decide (m = NSC_STATS) then ns_stats_line (v_tx v) (v_rx v)
  else if decide (m = NSC_TX) then (if full (v_tx v) (v_rx v) then ND_TOO_LARGE else res)
  else res.
Definition ns_next (v : net_view) (m res : list Z) : net_view :=
  if decide (res = []) then v
  else if decide (m = NSC_TX) then
    (if full (v_tx v) (v_rx v) then v else mkView (v_up v) (v_tx v + 1) (v_rx v + 1))
  else if decide (m = NSC_FAULT) then (if is_ok res then mkView false (v_tx v) (v_rx v) else v)
  else if decide (m = NSC_RESTART) then (if is_ok res then mkView true 0 0 else v)
  else v.

Definition ns_step (v : net_view) (m : list Z) (t : trace) (v' : net_view) : Prop :=
  match ns_plan m with
  | None => spoke NS_BAD t /\ v' = v
  | Some (cap, q) =>
      if negb (v_up v) && bool_decide (m <> NSC_RESTART) then spoke NS_DOWN t /\ v' = v
      else exists te t' res, exchanged cap q te res /\ t = te ++ t' /\ spoke (ns_answer v m res) t' /\ v' = ns_next v m res
  end.

Definition ns_view (s : net_service_st) : net_view := mkView (ns_up s) (ns_tx s) (ns_rx s).
Record net_service_ok (s : net_service_st) : Prop := {
  nso_cmd : length (ns_cmd s) = 128%nat;
  nso_drv : length (ns_drv s) = 64%nat;
  nso_rep : length (ns_rep s) = 64%nat;
  nso_tx : ns_tx s ∈ᵤ 64;
  nso_rx : ns_rx s ∈ᵤ 64
}.

Definition ns_end (v : net_view) (m : list Z) (s : net_service_st) (t : trace) : Prop :=
  net_service_ok s /\ ns_step v m t (ns_view s).
(** What is left after the exchange. *)
Definition ns_tail (v : net_view) (m res : list Z) (s : net_service_st) (t : trace) : Prop :=
  net_service_ok s /\ ns_view s = ns_next v m res /\ spoke (ns_answer v m res) t.

Lemma ns_reply_say m D : (length m <= 128)%nat -> uwp (ns_reply (stat m) (length m)) (fun _ t => sent (USend 0 m) t) D.
Proof. intros Hm. apply uwp_send; [done|]. intros b. by eexists. Qed.
Lemma ns_reply_buf p m n D : holds p m -> n = length m -> (length m <= 128)%nat ->
  uwp (ns_reply p n) (fun _ t => sent (USend 0 m) t) D.
Proof.
  intros Hp -> Hm. unfold ns_reply. apply uwp_bind. eapply uwp_sys_in; [done|done|by rewrite take_ge|].
  intros a _. rewrite take_ge by done. by eexists.
Qed.

Lemma ns_arm_wp cap q m v dp (f : Z * ptr -> prog net_service_st) D : ns_plan m = Some (cap, q) ->
  negb (v_up v) && bool_decide (m <> NSC_RESTART) = false -> (length q <= 128)%nat -> length dp = 64%nat ->
  (forall r res D, length r.2 = 64%nat -> holds r.2 res -> (length res <= 64)%nat ->
     (if 0 <? r.1 then Z.to_nat r.1 = length res /\ res <> [] else res = []) -> uwp (f r) (ns_tail v m res) D) ->
  uwp (r ← ns_exchange cap q dp; f r) (ns_end v m) D.
Proof.
  intros Hp Hu Hq Hd Hf. apply uwp_bind. eapply uwp_mono; [by apply (exchange_wp cap q dp (fun _ => False))| |done].
  intros r te (res & He & Hl & Hh & Hm & _ & Hr). eapply uwp_mono with (D := fun _ => False); [by apply (Hf r res)| |done].
  intros s t (Ho & Hv & Hs). split; [done|]. unfold ns_step. rewrite Hp, Hu. by exists te, t, res.
Qed.
(** The peer did not answer. *)
Lemma ns_down_wp v m s D : net_service_ok s -> ns_view s = v -> uwp (ns_down ;; mret s) (ns_tail v m []) D.
Proof.
  intros Ho Hv. eapply (uwp_then_ret ns_down (fun _ => s)); [intros D'; apply ns_reply_say; vm_compute; lia|].
  intros [] t Ht. split; [done|]. unfold ns_next, ns_answer. rewrite !decide_True by done. split; [done|by apply sent_spoke].
Qed.
(** The peer's answer is passed on. *)
Lemma ns_forward_wp v m res p n s D : holds p res -> n = length res -> (length res <= 64)%nat -> net_service_ok s ->
  ns_view s = ns_next v m res -> ns_answer v m res = res -> uwp (ns_reply p n ;; mret s) (ns_tail v m res) D.
Proof.
  intros Hp Hn Hl Ho Hv Ha. eapply (uwp_then_ret (ns_reply p n) (fun _ => s)); [intros D'; apply (ns_reply_buf p res); [done|done|lia]|].
  intros [] t Ht. split; [done|]. split; [done|]. rewrite Ha. by apply sent_spoke.
Qed.

Lemma ns_status_wp dst tx rx D : length dst = 64%nat -> tx ∈ᵤ 64 -> rx ∈ᵤ 64 ->
  uwp (ns_status dst tx rx) (fun q t => length q = 64%nat /\ spoke (ns_status_line tx rx) t) D.
Proof.
  intros Hd Ht Hr. unfold ns_status. apply uwp_copy0; [done|]. intros [d1 n1] H1. cbn [fst snd].
  eapply uwp_dec; [exact H1|done|]. intros [d2 n2] H2. cbn [fst snd].
  eapply uwp_copy; [exact H2|]. intros [d3 n3] H3. cbn [fst snd].
  eapply uwp_dec; [exact H3|done|]. intros [d4 n4] H4. cbn [fst snd].
  eapply uwp_copy; [exact H4|]. intros r H5. rewrite <- !app_assoc in H5. destruct H5 as [Hn Hh Hc].
  eapply (uwp_then_ret (ns_reply r.1 r.2) (fun _ => r.1)); [intros D'; eapply ns_reply_buf; [exact Hh|done|rewrite length_take; lia]|].
  intros [] t Hs. split; [done|]. by apply sent_spoke.
Qed.
Lemma ns_stats_wp dst tx rx D : length dst = 64%nat -> tx ∈ᵤ 64 -> rx ∈ᵤ 64 ->
  uwp (ns_stats dst tx rx) (fun q t => length q = 64%nat /\ spoke (ns_stats_line tx rx) t) D.
Proof.
  intros Hd Ht Hr. unfold ns_stats. apply uwp_copy0; [done|]. intros [d1 n1] H1. cbn [fst snd].
  eapply uwp_dec; [exact H1|done|]. intros [d2 n2] H2. cbn [fst snd].
  eapply uwp_copy; [exact H2|]. intros [d3 n3] H3. cbn [fst snd].
  eapply uwp_dec; [exact H3|done|]. intros r H5. rewrite <- !app_assoc in H5. destruct H5 as [Hn Hh Hc].
  eapply (uwp_then_ret (ns_reply r.1 r.2) (fun _ => r.1)); [intros D'; eapply ns_reply_buf; [exact Hh|done|rewrite length_take; lia]|].
  intros [] t Hs. split; [done|]. by apply sent_spoke.
Qed.
Lemma ns_event_wp r l D : line r l -> uwp (ns_event r.1 r.2) (fun q t => length q = 64%nat /\ con_only t) D.
Proof.
  intros Hl. unfold ns_event. destruct r as [d n]. eapply (uwp_newline (d, n)); [exact Hl|]. intros r' Hl'.
  eapply uwp_write_line; [exact Hl'| |].
  - intros q t tc Hc [Hq Ht]. split; [done|by apply Forall_app].
  - split; [by eapply line_cap|constructor].
Qed.
Lemma ns_packet_events_wp dst tx rx D : length dst = 64%nat -> tx ∈ᵤ 64 -> rx ∈ᵤ 64 ->
  uwp (ns_packet_events dst tx rx) (fun q t => length q = 64%nat /\ con_only t) D.
Proof.
  intros Hd Ht Hr. unfold ns_packet_events. apply uwp_copy0; [done|]. intros [d1 n1] H1. cbn [fst snd].
  eapply uwp_dec; [exact H1|done|]. intros r2 H2. apply uwp_bind.
  eapply uwp_mono; [by apply (ns_event_wp r2 _ (fun _ => False) H2)| |done]. intros d t [Hl Hc].
  apply uwp_copy0; [done|]. intros [d3 n3] H3. cbn [fst snd]. eapply uwp_dec; [exact H3|done|]. intros r4 H4.
  eapply uwp_mono; [by apply (ns_event_wp r4 _ (fun _ => False) H4)| |done]. intros q t' [Hq Hc'].
  split; [done|by apply Forall_app].
Qed.

(** The arms. *)
Section arms.
Context (cp dp rp : ptr) (tx rx : Z).
Hypotheses (Hc : length cp = 128%nat) (Hd : length dp = 64%nat) (Hr : length rp = 64%nat)
  (Ht : tx ∈ᵤ 64) (Hx : rx ∈ᵤ 64).

Lemma ns_query_wp m text answer D : m = NSC_STATUS \/ m = NSC_STATS ->
  (forall res, res <> [] -> ns_answer (mkView true tx rx) m res = text tx rx) ->
  (forall dst D, length dst = 64%nat -> uwp (answer dst tx rx) (fun q t => length q = 64%nat /\ spoke (text tx rx) t) D) ->
  uwp (net_service_query cp dp rp tx rx answer) (ns_end (mkView true tx rx) m) D.
Proof.
  intros Hm Ha Hw. apply ns_arm_wp; [unfold ns_plan; by rewrite decide_True|done|vm_compute; lia|done|].
  intros r res D' Hl Hh Hlr Hres. destruct (0 <? r.1).
  - eapply (uwp_then_ret (answer rp tx rx) (fun q => mkNetService cp r.2 q tx rx true)); [intros D2; by apply Hw|].
    intros q t [Hq Hs]. split; [done|]. split; [|rewrite Ha; [done|by apply Hres]].
    unfold ns_next. destruct Hres as [_ Hne]. destruct Hm as [->| ->]; by pick.
  - subst res. by apply ns_down_wp.
Qed.

Lemma ns_send_wp D : uwp (net_service_send cp dp rp tx rx) (ns_end (mkView true tx rx) NSC_TX) D.
Proof.
  apply ns_arm_wp; [unfold ns_plan; by pick|done|vm_compute; lia|done|].
  intros r res D' Hl Hh Hlr Hres. destruct (0 <? r.1); [|subst res; by apply ns_down_wp].
  destruct Hres as [Hn Hne]. fold (full tx rx). destruct (full tx rx) eqn:Ef.
  - eapply (uwp_then_ret (ns_reply (stat ND_TOO_LARGE) (length ND_TOO_LARGE)) (fun _ => mkNetService cp r.2 rp tx rx true));
      [intros D2; apply ns_reply_say; vm_compute; lia|].
    intros [] t Hs. split; [done|]. unfold ns_next, ns_answer. cbn [v_tx v_rx]. rewrite Ef. pick. split; [done|by apply sent_spoke].
  - destruct (full_false _ _ Ef) as [Hn1 Hn2].
    destruct (inc64_spec tx) as [E1 U1]; [apply Ht|done|done|]. destruct (inc64_spec rx) as [E2 U2]; [apply Hx|done|done|].
    rewrite E1. eapply uwp_lift_bind; [reflexivity|]. rewrite E2. eapply uwp_lift_bind; [reflexivity|].
    apply uwp_bind. eapply uwp_mono; [by apply (ns_packet_events_wp rp (tx + 1) (rx + 1) (fun _ => False))| |done].
    intros q tc [Hq Hcon]. eapply uwp_mono with (D := fun _ => False).
    + apply (ns_forward_wp (mkView true tx rx) NSC_TX res); try done.
      * unfold ns_next. cbn [v_tx v_rx]. rewrite Ef. by pick.
      * unfold ns_answer. cbn [v_tx v_rx]. rewrite Ef. by pick.
    + intros s t (Ho & Hv & Hs). split; [done|]. split; [done|]. by apply spoke_con.
    + done.
Qed.

Lemma ns_rx_wp D : uwp (net_service_rx cp dp rp tx rx) (ns_end (mkView true tx rx) NSC_RX) D.
Proof.
  apply ns_arm_wp; [unfold ns_plan; by pick|done|vm_compute; lia|done|].
  intros r res D' Hl Hh Hlr Hres. destruct (0 <? r.1); [|subst res; by apply ns_down_wp].
  destruct Hres as [Hn Hne]. apply ns_forward_wp; try done; [unfold ns_next; by pick|unfold ns_answer; by pick].
Qed.

Lemma ns_fault_wp D : uwp (net_service_fault cp dp rp tx rx) (ns_end (mkView true tx rx) NSC_FAULT) D.
Proof.
  apply ns_arm_wp; [unfold ns_plan; by pick|done|vm_compute; lia|done|].
  intros r res D' Hl Hh Hlr Hres. destruct (0 <? r.1); [|subst res; by apply ns_down_wp].
  destruct Hres as [Hn Hne]. eapply uwp_prefix; [exact Hh|done|]. fold (is_ok res).
  apply ns_forward_wp; try done; [|unfold ns_answer; by pick]. unfold ns_next. pick. by destruct (is_ok res).
Qed.

Lemma ns_restart_wp up D : uwp (net_service_restart cp dp rp tx rx up) (ns_end (mkView up tx rx) NSC_RESTART) D.
Proof.
  apply ns_arm_wp; [unfold ns_plan; by pick|by rewrite bool_decide_eq_false_2, andb_false_r by tauto|vm_compute; lia|done|].
  intros r res D' Hl Hh Hlr Hres. destruct (0 <? r.1); [|subst res; by apply ns_down_wp].
  destruct Hres as [Hn Hne]. eapply uwp_prefix; [exact Hh|done|]. fold (is_ok res).
  apply ns_forward_wp; try done; [by destruct (is_ok res)| |unfold ns_answer; by pick].
  unfold ns_next. pick. by destruct (is_ok res).
Qed.
End arms.

Lemma ns_bad_wp v m s D : net_service_ok s -> ns_view s = v -> ns_plan m = None ->
  uwp (uput NS_BAD_EVENT ;; ns_reply (stat NS_BAD) (length NS_BAD) ;; mret s) (ns_end v m) D.
Proof.
  intros Ho Hv Hp. assert (forall t, ns_end v m s t <-> spoke NS_BAD t) as He.
  { intros t. unfold ns_end, ns_step. rewrite Hp. naive_solver. }
  eapply uwp_mono with (Q := fun s' t => s' = s /\ spoke NS_BAD t) (D := D); [|intros s' t [-> Ht]; by apply He|done].
  unfold uput. eapply uwp_con; [apply holds_stat|done|intros s' t tc Hc [-> Ht]; split; [done|by apply spoke_con]|].
  eapply (uwp_then_ret _ (fun _ => s)); [intros D'; apply ns_reply_say; vm_compute; lia|].
  intros [] t Ht. split; [done|by apply sent_spoke].
Qed.

Lemma ns_when_up_wp m s (act : prog net_service_st) D : net_service_ok s ->
  ns_plan m <> None -> m <> NSC_RESTART ->
  (ns_up s = true -> forall D, uwp act (ns_end (ns_view s) m) D) ->
  uwp (if negb (ns_up s) then ns_down ;; mret s else act) (ns_end (ns_view s) m) D.
Proof.
  intros Ho Hp Hm Ha. destruct (ns_up s) eqn:Eu; cbn [negb]; [by apply Ha|].
  eapply (uwp_then_ret ns_down (fun _ => s)); [intros D'; apply ns_reply_say; vm_compute; lia|].
  intros [] t Ht. split; [done|]. unfold ns_step. destruct (ns_plan m) as [[cap q]|]; [|done].
  unfold ns_view at 1. cbn [v_up]. rewrite Eu, bool_decide_eq_true_2 by done. split; [by apply sent_spoke|done].
Qed.

Lemma net_service_turn_wp s D : net_service_ok s ->
  uwp (net_service_turn s) (fun s' t => net_service_ok s' /\ exists a,
    (ret a <= 0 /\ t = [(URecv 0 128, a)] /\ ns_view s' = ns_view s) \/
    (0 < ret a /\ exists t', t = (URecv 0 128, a) :: t' /\ ns_step (ns_view s) (data a) t' (ns_view s'))) D.
Proof.
  destruct s as [buf dp rp tx rx up]. intros [Hb Hd Hr Ht Hx]. cbn [ns_cmd ns_drv ns_rep ns_tx ns_rx] in *.
  unfold net_service_turn. apply uwp_serve; [lia|lia|..].
  { intros a cp Ha Hl. split; [split; cbn; congruence|]. exists a. by left. }
  intros a cp Ha Hh Hl _ _. rewrite Hb in Hl. set (v := ns_view (mkNetService buf dp rp tx rx up)).
  eapply uwp_mono with (Q := ns_end v (data a)) (D := fun _ => False);
    [|intros s' t [Ho Hs]; split; [done|]; exists a; right; split; [done|by exists t]|done].
  set (s := mkNetService cp dp rp tx rx up). change v with (ns_view s).
  assert (net_service_ok s) as Hs by done. change up with (ns_up s).
  assert (ns_up s = true -> ns_view s = mkView true tx rx) as Hup by (intros E; unfold ns_view; by rewrite E).
  eapply uwp_cmd; [exact Hh|done|]. case_bool_decide as H1.
  { rewrite H1. apply ns_when_up_wp; [done|by vm_compute|done|]. intros E D'. rewrite Hup by done.
    eapply (ns_query_wp _ _ _ _ _ Hl Hd Hr Ht Hx _ ns_status_line); [by left|by intros; unfold ns_answer; pick|by intros; apply ns_status_wp]. }
  eapply uwp_cmd; [exact Hh|done|]. case_bool_decide as H2.
  { rewrite H2. apply ns_when_up_wp; [done|by vm_compute|done|]. intros E D'. rewrite Hup by done.
    eapply (ns_query_wp _ _ _ _ _ Hl Hd Hr Ht Hx _ ns_stats_line); [by right|by intros; unfold ns_answer; pick|by intros; apply ns_stats_wp]. }
  eapply uwp_cmd; [exact Hh|done|]. case_bool_decide as H3.
  { rewrite H3. apply ns_when_up_wp; [done|by vm_compute|done|]. intros E D'. rewrite Hup by done. by apply ns_send_wp. }
  eapply uwp_cmd; [exact Hh|done|]. case_bool_decide as H4.
  { rewrite H4. apply ns_when_up_wp; [done|by vm_compute|done|]. intros E D'. rewrite Hup by done. by apply ns_rx_wp. }
  eapply uwp_cmd; [exact Hh|done|]. case_bool_decide as H5.
  { rewrite H5. apply ns_when_up_wp; [done|by vm_compute|done|]. intros E D'. rewrite Hup by done. by apply ns_fault_wp. }
  eapply uwp_cmd; [exact Hh|done|]. case_bool_decide as H6.
  { rewrite H6. by apply ns_restart_wp. }
  apply ns_bad_wp; [done|done|]. unfold ns_plan. rewrite decide_False by tauto. by pick.
Qed.

(** ** The service and its driver *)

(** The network service and its driver, each running its own code.
    [synced] says that since the last common reset neither was restarted
    without the other: the shell's [restart] command, or the manager's on the
    shell's request, restarts one task alone.  A request that the service
    passes on is answered by a turn of the driver; a restart the manager
    confirms to the service re-enters the driver's start sequence. *)
Inductive net_pair : net_service_st -> net_driver_st -> bool -> Prop :=
| np_boot ts s td d : runs net_service_start ts s -> runs net_driver_start td d -> net_pair s d true
| np_exchange s d b ts s' td d' q r : net_pair s d b -> runs (net_service_turn s) ts s' -> exchanges 1 ts = [(q, r)] ->
    runs (net_driver_turn d) td d' -> asked 64 q td -> replied r td -> net_pair s' d' b
| np_reset s d b ts s' td d' r : net_pair s d b -> runs (net_service_turn s) ts s' -> exchanges 2 ts = [(NSM_RESTART, r)] ->
    is_ok r = true -> runs net_driver_start td d' -> net_pair s' d' true
| np_alone s d b ts s' : net_pair s d b -> runs (net_service_turn s) ts s' -> exchanges 1 ts = [] ->
    (forall r, exchanges 2 ts = [(NSM_RESTART, r)] -> is_ok r = false) -> net_pair s' d b
| np_driver_restarted s d b td d' : net_pair s d b -> runs net_driver_start td d' -> net_pair s d' false
| np_service_restarted s d b ts s' : net_pair s d b -> runs net_service_start ts s' -> net_pair s' d false.

Lemma net_service_start_wp D : uwp net_service_start (fun s _ => net_service_ok s /\ ns_view s = mkView true 0 0) D.
Proof. unfold net_service_start, uput. eapply uwp_con; [apply holds_stat|done|done|]. split; [by split; vm_compute|done]. Qed.
Lemma net_driver_start_wp D : uwp net_driver_start (fun d _ => net_driver_ok d /\ nd_tx d = 0 /\ nd_rx d = 0) D.
Proof.
  unfold net_driver_start. apply uwp_bind. eapply (uwp_out _ _ 128); [done|vm_compute; lia|cbn; lia|]. intros a r _ _ _ _ _.
  unfold uput. eapply uwp_con; [apply holds_stat|done|done|].
  apply uwp_bind. eapply (uwp_out _ _ 1); [done|vm_compute; lia|cbn; lia|]. intros a' r' _ _ Hl _ _. split; [|done].
  split; [|done|by vm_compute..]. exact Hl.
Qed.

(** A trace that speaks begins neither with a driver nor a manager exchange. *)
Lemma spoke_head m c a t : spoke m ((c, a) :: t) -> (exists bs, c = UConWrite bs) \/ c = USend 0 m.
Proof.
  intros ([|x tc] & b & Hc & E); cbn in E.
  - right. by injection E as -> -> ->.
  - injection E as <- _. left. by inversion Hc.
Qed.
(** The exchanges of a turn are those of its step. *)
Lemma exchanges_con cap t t' : con_only t -> exchanges cap (t ++ t') = exchanges cap t'.
Proof. induction 1 as [|[c a] t [bs E] _ IH]; [done|]. cbn in E. subst c. exact IH. Qed.
Lemma exchanges_spoke cap m t : spoke m t -> exchanges cap t = [].
Proof. intros (tc & b & Hc & ->). by rewrite exchanges_con. Qed.
Lemma exchanges_send cap c q b m t : spoke m t -> exchanges cap ((USend c q, b) :: t) = [].
Proof.
  intros Hs. pose proof (exchanges_spoke cap _ _ Hs) as E. cbn [exchanges fst]. rewrite E, app_nil_r.
  destruct t as [|[c' a'] t]; [done|]. apply spoke_head in Hs as [[bs ->]| ->]; done.
Qed.
Lemma exchanged_exchanges cap c q te res m t' : exchanged c q te res -> spoke m t' ->
  exchanges cap (te ++ t') = if bool_decide (te = [] \/ length te = 1%nat) || negb (c =? cap) then [] else [(q, res)].
Proof.
  intros (b & [(_ & -> & ->)|(_ & d & -> & ->)]) Hs; cbn [app].
  - by rewrite (exchanges_send _ _ _ _ _ _ Hs).
  - cbn [exchanges fst app]. rewrite (exchanges_spoke _ _ _ Hs), app_nil_r. by destruct (c =? cap).
Qed.
Lemma ns_step_exchanges v m t v' cap q r : ns_step v m t v' -> exchanges cap t = [(q, r)] ->
  ns_plan m = Some (cap, q) /\ v' = ns_next v m r.
Proof.
  unfold ns_step. intros H E. destruct (ns_plan m) as [[c q']|]; [|destruct H as [H _]; by rewrite (exchanges_spoke _ _ _ H) in E].
  case_match; [destruct H as [H' _]; by rewrite (exchanges_spoke _ _ _ H') in E|].
  destruct H as (te & t' & res & He & -> & Hs & ->). rewrite (exchanged_exchanges cap c q' te res _ t' He Hs) in E.
  case_match eqn:Eb; [done|]. injection E as -> ->. apply orb_false_iff in Eb as [_ Eb%negb_false_iff%Z.eqb_eq]. by subst c.
Qed.
Lemma ns_step_quiet v m t v' : ns_step v m t v' -> exchanges 1 t = [] ->
  (forall r, exchanges 2 t = [(NSM_RESTART, r)] -> is_ok r = false) -> v_tx v' = v_tx v /\ v_rx v' = v_rx v.
Proof.
  unfold ns_step. intros H E1 E2. destruct (ns_plan m) as [[c q]|] eqn:Hp; [|by destruct H as [_ ->]].
  case_match; [by destruct H as [_ ->]|]. destruct H as (te & t' & res & He & -> & Hs & ->).
  rewrite (exchanged_exchanges 1 c q te res _ t' He Hs) in E1. rewrite (exchanged_exchanges 2 c q te res _ t' He Hs) in E2.
  destruct He as (b & [(_ & -> & ->)|(_ & d & -> & ->)]); [unfold ns_next; by rewrite decide_True|].
  rewrite bool_decide_eq_false_2 in E1, E2 by (intros [?|?]; done). cbn [orb] in E1, E2.
  unfold ns_next. unfold ns_plan in Hp. repeat case_decide; subst; simplify_eq; try done.
  - by destruct (is_ok (data d)).
  - by rewrite (E2 _ eq_refl).
Qed.

Lemma nd_answer_nonempty tx rx q : nd_answer tx rx q <> [].
Proof. unfold nd_answer. repeat case_match; done. Qed.

Lemma ns_next_driver v m q res : ns_plan m = Some (1, q) -> res <> [] ->
  (v_tx (ns_next v m res), v_rx (ns_next v m res)) = nd_count (v_tx v) (v_rx v) q.
Proof.
  intros Hp Hne. unfold ns_next, nd_count. rewrite (decide_False (P := res = [])) by done.
  unfold ns_plan in Hp. destruct (decide (m = NSC_STATUS \/ m = NSC_STATS)) as [[->| ->]|_]; [injection Hp as <-; by pick..|].
  destruct (decide (m = NSC_TX)) as [->|]; [injection Hp as <-; pick; by destruct (full (v_tx v) (v_rx v))|].
  destruct (decide (m = NSC_RX)) as [->|]; [injection Hp as <-; by pick|]. by repeat case_decide.
Qed.

(** A finished turn of the driver on [q]. *)
Lemma driver_run d q r td d' : net_driver_ok d -> runs (net_driver_turn d) td d' -> asked 64 q td -> replied r td ->
  net_driver_ok d' /\ r = nd_answer (nd_tx d) (nd_rx d) q /\ (nd_tx d', nd_rx d') = nd_count (nd_tx d) (nd_rx d) q.
Proof.
  intros Hd Hr (a & t' & -> & Ha & <-) Hp.
  destruct (uwp_runs _ _ _ _ _ (net_driver_turn_wp d (fun t => True) Hd (fun _ _ => I)) Hr) as [Ho (a' & [(H0 & E & _)|(_ & t2 & E & He)])];
    injection E as -> ->; [lia|]. destruct He as (_ & _ & (tc & b & _ & ->) & Hc). split; [done|]. split; [|done].
  eapply replied_unique; [exact Hp|]. by eexists (_ :: tc), b.
Qed.

Lemma net_pair_agree s d b : net_pair s d b ->
  net_service_ok s /\ net_driver_ok d /\ (b = true -> ns_tx s = nd_tx d /\ ns_rx s = nd_rx d).
Proof.
  assert (forall s ts s', net_service_ok s -> runs (net_service_turn s) ts s' -> net_service_ok s' /\
    exists m t, (forall cap, exchanges cap ts = exchanges cap t) /\ ((t = [] /\ ns_view s' = ns_view s) \/ ns_step (ns_view s) m t (ns_view s'))) as Ht.
  { intros s0 ts s0' Hs Hr. destruct (uwp_runs _ _ _ _ _ (net_service_turn_wp s0 (fun _ => True) Hs) Hr) as [Ho (a & [(_ & -> & Hv)|(_ & t & -> & Hst)])].
    - split; [done|]. exists [], []. split; [done|]. by left.
    - split; [done|]. exists (data a), t. split; [done|]. by right. }
  induction 1 as [ts s td d Hs Hd|s d b ts s' td d' q r _ (Hs & Hd & IH) Hr E Hrd Ha Hp
    |s d b ts s' td d' r _ (Hs & Hd & _) Hr E Hok Hrd|s d b ts s' _ (Hs & Hd & IH) Hr E1 E2
    |s d b td d' _ (Hs & _ & _) Hrd|s d b ts s' _ (_ & Hd & _) Hrs].
  - destruct (uwp_runs _ _ _ _ _ (net_service_start_wp (fun _ => True)) Hs) as [Ho Hv]. injection Hv as _ -> ->.
    destruct (uwp_runs _ _ _ _ _ (net_driver_start_wp (fun _ => True)) Hd) as (Hd' & -> & ->). done.
  - destruct (driver_run d q r td d' Hd Hrd Ha Hp) as (Hd' & -> & Hc).
    destruct (Ht s ts s' Hs Hr) as (Hs' & m & t & Ex & Hst). split; [done|]. split; [done|]. intros Hb. destruct (IH Hb) as [I1 I2].
    rewrite Ex in E. destruct Hst as [[-> _]|Hst]; [done|].
    destruct (ns_step_exchanges _ _ _ _ _ _ _ Hst E) as [Hp' Hv].
    pose proof (ns_next_driver (ns_view s) m q _ Hp' (nd_answer_nonempty (nd_tx d) (nd_rx d) q)) as En. rewrite <- Hv in En.
    cbn [ns_view v_tx v_rx] in En. rewrite I1, I2, <- Hc in En. by injection En as -> ->.
  - destruct (Ht s ts s' Hs Hr) as (Hs' & m & t & Ex & Hst). split; [done|].
    destruct (uwp_runs _ _ _ _ _ (net_driver_start_wp (fun _ => True)) Hrd) as (Hd' & -> & ->). split; [done|]. intros _.
    rewrite Ex in E. destruct Hst as [[-> _]|Hst]; [done|]. destruct (ns_step_exchanges _ _ _ _ _ _ _ Hst E) as [Hp' Hv].
    assert (m = NSC_RESTART) as -> by (unfold ns_plan in Hp'; repeat case_decide; by simplify_eq).
    unfold ns_next in Hv. rewrite Hok, (decide_False (P := r = [])) in Hv by (intros ->; done).
    revert Hv. pick. by intros [= _ -> ->].
  - destruct (Ht s ts s' Hs Hr) as (Hs' & m & t & Ex & Hst). split; [done|]. split; [done|]. intros Hb. destruct (IH Hb) as [I1 I2].
    rewrite Ex in E1. assert (ns_tx s' = ns_tx s /\ ns_rx s' = ns_rx s) as [-> ->]; [|done].
    destruct Hst as [[_ Hv]|Hst]; [by injection Hv as _ -> ->|].
    apply (ns_step_quiet _ _ _ _ Hst E1). intros r Er. apply E2. by rewrite Ex.
  - destruct (uwp_runs _ _ _ _ _ (net_driver_start_wp (fun _ => True)) Hrd) as (Hd' & _). done.
  - destruct (uwp_runs _ _ _ _ _ (net_service_start_wp (fun _ => True)) Hrs) as (Hs' & _). done.
Qed.

(** One packet sent, each side running its code. *)
Definition fresh_service : net_service_st := mkNetService (uninit 128) (uninit 64) (uninit 64) 0 0 true.
Definition fresh_driver : net_driver_st := mkNetDriver (Some 1 :: uninit 63) (uninit 64) 0 0.
Definition service_boot : trace := done_trace net_service_start [mkAns 64 []].
Definition driver_boot : trace := done_trace net_driver_start [says [48]; mkAns 64 []; says [1]].
Definition service_tx : trace :=
  done_trace (net_service_turn fresh_service) ([says NSC_TX; mkAns 11 []; says ND_TX_REPLY] ++ replicate 9 (mkAns 64 [])).
Definition driver_tx : trace := done_trace (net_driver_turn fresh_driver) [says NDC_TX; mkAns 64 []; mkAns 64 []].

Lemma driver_boots : runs net_driver_start driver_boot fresh_driver.
Proof. split; [vm_compute; reflexivity|all_answered]. Qed.
Lemma packet_sent : exists s d, net_pair s d true /\ ns_tx s = 1 /\ nd_tx d = 1.
Proof.
  assert (exists s, runs (net_service_turn fresh_service) service_tx s /\ ns_tx s = 1) as (s & Hs & Es).
  { eexists. split; [split; [vm_compute; reflexivity|all_answered]|reflexivity]. }
  assert (exists d, runs (net_driver_turn fresh_driver) driver_tx d /\ nd_tx d = 1) as (d & Hd & Ed).
  { eexists. split; [split; [vm_compute; reflexivity|all_answered]|reflexivity]. }
  exists s, d. split; [|done]. eapply (np_exchange fresh_service fresh_driver true service_tx s driver_tx d NDC_TX ND_TX_REPLY); try done.
  - apply (np_boot service_boot fresh_service driver_boot fresh_driver); [|exact driver_boots]. split; [vm_compute; reflexivity|all_answered].
  - by eexists _, _.
  - by eexists [_; _], _.
Qed.

(** C27. The network service mirrors its driver.  Take any history of the two
    tasks' own turns: requests passed on, requests answered alone, resets
    confirmed by the manager, and restarts of one task alone.  As long as no
    task was restarted alone since both last started, the packet counters the
    service reports equal the driver's; a restart of the driver alone (the
    shell can do it) makes them differ. *)
Theorem net_counters_agree :
  (forall s d, net_pair s d true -> ns_tx s = nd_tx d /\ ns_rx s = nd_rx d) /\
  (exists s d, net_pair s d false /\ ns_tx s <> nd_tx d).
Proof.
  split.
  - intros s d H. by apply (net_pair_agree s d true H).
  - destruct packet_sent as (s & d & H & Es & _). exists s, fresh_driver. split; [by eapply np_driver_restarted, driver_boots|].
    rewrite Es. discriminate.
Qed.

Lemma net_counters_agree_witness : exists s d, net_pair s d true /\ ns_tx s = 1 /\ ns_tx s = nd_tx d.
Proof.
  destruct packet_sent as (s & d & H & Es & _). exists s, d. split; [exact H|]. split; [exact Es|].
  exact (proj1 (proj1 net_counters_agree s d H)).
Defined.
