(* ===== verification/SvcDriver.v ===== *)
(** * The driver manager

    [driver_manager_body] of [kernel/src/arch/riscv64/os_boot.rs] with its
    helpers: it starts the block driver, keeps a state per driver (0 stopped,
    1 running, 2 faulted), answers the shell and the network service, and
    probes a driver's liveness after a requested fault by raising its
    synthetic interrupt at most 16 times. *)

From stdpp Require Import strings base decidable numbers option tactics list.
From S2P Require Import Prelude Bytes Monitor UserText UserProg UserLib SvcNet.
Local Open Scope Z_scope.

Definition TBL_BLOCK_DRIVER : Z := 12.
Definition SLOT_BLOCK_DRIVER : Z := 13.
Definition SLOT_NET_DRIVER : Z := 14.

Definition dm_reply (m : list Z) : prog () := send0 m.

Definition dm_list (st net_st : Z) : prog () :=
  (if st =? 1 then uput DM_LINE_RUN else if st =? 2 then uput DM_LINE_FLT else uput DM_LINE_STOP) ;;
  (if net_st =? 1 then uput DM_NET_LINE_RUN else if net_st =? 2 then uput DM_NET_LINE_FLT
   else uput DM_NET_LINE_STOP) ;;
  (if st =? 1 then dm_reply DMR_RUN else if st =? 2 then dm_reply DMR_FLT else dm_reply DMR_STOP).

Definition dm_info (st : Z) (sp : ptr) : prog ptr :=
  if st =? 1 then
    r ← sys_in (USend 1) (stat DM_Q_STATUS) (length DM_Q_STATUS);
    if r <? 0 then dm_reply DMR_INFO_STOP ;; mret sp
    else
      r ← sys_out (URecv 1 64) sp;
      if 0 <? r.1 then sys_in (USend 0) r.2 (Z.to_nat r.1) ;; mret r.2
      else dm_reply DMR_INFO_STOP ;; mret r.2
  else if st =? 2 then dm_reply DMR_INFO_FLT ;; mret sp
  else dm_reply DMR_INFO_STOP ;; mret sp.

(** [while k < 16]: yield, raise the driver's interrupt, stop at the first
    refusal. *)
Fixpoint dm_probe (cap : Z) (todo : nat) : prog bool :=
  match todo with
  | O => mret false
  | S todo =>
      sys UYield ;;
      r ← sys (UIrqRaise cap);
      if r <? 0 then mret true else dm_probe cap todo
  end.

Record driver_manager_st := mkManager { dm_buf : ptr; dm_sbuf : ptr; dm_st : Z; dm_net : Z }.

Definition driver_manager_start : prog driver_manager_st :=
  r ← sys (UTaskStart TBL_BLOCK_DRIVER);
  st ← (if 0 <=? r then uput DM_STARTED ;; sys (UIrqRaise 4) ;; mret 1
        else uput DM_STARTFAIL ;; mret 0);
  r ← sys (UIrqRaise 6);
  net_st ← (if 0 <=? r then uput DM_NET_STARTED ;; mret 1 else mret 0);
  mret (mkManager (uninit 64) (uninit 64) st net_st).

(** The [NET_MGR_FAULT] and [driver fault block] arms, which differ in their
    constants and in the evidence lines: the driver's state after the
    request.  [cap] is the driver's command channel, [irq] its interrupt. *)
Definition dm_fault (cap irq : Z) (q notrun : list Z) (on_dead : prog ()) (alive : list Z) (st : Z) : prog Z :=
  refused ← (if negb (st =? 1) then mret true
             else r ← sys_in (USend cap) (stat q) (length q); mret (r <? 0));
  if (refused : bool) then dm_reply notrun ;; mret st
  else
    dead ← dm_probe irq 16;
    if (dead : bool) then on_dead ;; mret 2 else dm_reply alive ;; mret st.
Definition dm_fault_net : Z -> prog Z :=
  dm_fault 5 6 NDC_FAULT DMR_NET_NOTRUN (uput DM_NET_OBSERVED ;; uput DM_NET_FAULTED ;; dm_reply DMR_NET_FAULTED)
    DMR_NET_RESTART_ERR.
Definition dm_fault_block : Z -> prog Z :=
  dm_fault 1 4 DM_Q_FAULT DMR_NOTRUN (uput DM_OBSERVED ;; dm_reply DMR_FAULTED) DMR_FAULTREQ.

(** The [NET_MGR_RESTART] and [driver restart block] arms. *)
Definition dm_restart (slot irq : Z) (err event ok : list Z) (st : Z) : prog Z :=
  r ← sys (UTaskRestart slot);
  if r <? 0 then dm_reply err ;; mret st
  else uput event ;; sys (UIrqRaise irq) ;; dm_reply ok ;; mret 1.
Definition dm_restart_net : Z -> prog Z :=
  dm_restart SLOT_NET_DRIVER 6 DMR_NET_RESTART_ERR DM_NET_RESTARTED DMR_NET_RESTARTED.
Definition dm_restart_block : Z -> prog Z :=
  dm_restart SLOT_BLOCK_DRIVER 4 DMR_RESTART_ERR DM_RESTARTED DMR_RESTARTED.

Definition driver_manager_turn (s : driver_manager_st) : prog driver_manager_st :=
  let '(mkManager buf sp st net_st) := s in
  serve 64 buf (fun bp => mkManager bp sp st net_st) (fun bp n =>
    b ← is_cmd bp n NSM_FAULT;
    if (b : bool) then v ← dm_fault_net net_st; mret (mkManager bp sp st v) else
    b ← is_cmd bp n NSM_RESTART;
    if (b : bool) then v ← dm_restart_net net_st; mret (mkManager bp sp st v) else
    b ← is_cmd bp n DMC_LIST;
    if (b : bool) then dm_list st net_st ;; mret (mkManager bp sp st net_st) else
    b ← is_cmd bp n DMC_INFO;
    if (b : bool) then q ← dm_info st sp; mret (mkManager bp q st net_st) else
    b ← is_cmd bp n DMC_RESTART;
    if (b : bool) then v ← dm_restart_block st; mret (mkManager bp sp v net_st) else
    b ← is_cmd bp n DMC_FAULT;
    if (b : bool) then v ← dm_fault_block st; mret (mkManager bp sp v net_st) else
    dm_reply DMR_BADCMD ;; mret (mkManager bp sp st net_st)).

(** ** The manager's protocol *)

(** At most [n] probes: a yield and an interrupt each, up to the first
    refusal, which means the driver is dead. *)
Fixpoint probed (cap : Z) (n : nat) (t : trace) (dead : bool) : Prop :=
  match n with
  | O => t = [] /\ dead = false
  | S n => exists y a,
      (ret a < 0 /\ t = [(UYield, y); (UIrqRaise cap, a)] /\ dead = true) \/
      (0 <= ret a /\ exists t', t = (UYield, y) :: (UIrqRaise cap, a) :: t' /\ probed cap n t' dead)
  end.

Definition fault_step (cap irq : Z) (q notrun dead_r alive_r : list Z) (st : Z) (t : trace) (st' : Z) : Prop :=
  (st <> 1 /\ spoke notrun t /\ st' = st) \/
  (st = 1 /\ exists b, ret b < 0 /\ exists t', t = (USend cap q, b) :: t' /\ spoke notrun t' /\ st' = st) \/
  (st = 1 /\ exists b tp t' dead, 0 <= ret b /\ t = (USend cap q, b) :: tp ++ t' /\ probed irq 16 tp dead /\
     spoke (if (dead : bool) then dead_r else alive_r) t' /\ st' = if (dead : bool) then 2 else st).
Definition restart_step (slot irq : Z) (err ok : list Z) (st : Z) (t : trace) (st' : Z) : Prop :=
  exists a, (ret a < 0 /\ exists t', t = (UTaskRestart slot, a) :: t' /\ spoke err t' /\ st' = st) \/
    (0 <= ret a /\ exists tc i t', t = (UTaskRestart slot, a) :: tc ++ (UIrqRaise irq, i) :: t' /\ con_only tc /\
       spoke ok t' /\ st' = 1).
Definition info_step (st : Z) (t : trace) : Prop :=
  (st = 1 /\ exists te t' res, exchanged 1 DM_Q_STATUS te res /\ t = te ++ t' /\
     spoke (if decide (res = []) then DMR_INFO_STOP else res) t') \/
  (st <> 1 /\ spoke (if st =? 2 then DMR_INFO_FLT else DMR_INFO_STOP) t).

(** The calls and the driver states a request leads to. *)
Definition dm_step (m : list Z) (st net : Z) (t : trace) (st' net' : Z) : Prop :=
  if decide (m = NSM_FAULT) then
    fault_step 5 6 NDC_FAULT DMR_NET_NOTRUN DMR_NET_FAULTED DMR_NET_RESTART_ERR net t net' /\ st' = st
  else if decide (m = NSM_RESTART) then
    restart_step SLOT_NET_DRIVER 6 DMR_NET_RESTART_ERR DMR_NET_RESTARTED net t net' /\ st' = st
  else if decide (m = DMC_LIST) then
    spoke (if st =? 1 then DMR_RUN else if st =? 2 then DMR_FLT else DMR_STOP) t /\ st' = st /\ net' = net
  else if decide (m = DMC_INFO) then info_step st t /\ st' = st /\ net' = net
  else if decide (m = DMC_RESTART) then
    restart_step SLOT_BLOCK_DRIVER 4 DMR_RESTART_ERR DMR_RESTARTED st t st' /\ net' = net
  else if decide (m = DMC_FAULT) then
    fault_step 1 4 DM_Q_FAULT DMR_NOTRUN DMR_FAULTED DMR_FAULTREQ st t st' /\ net' = net
  else spoke DMR_BADCMD t /\ st' = st /\ net' = net.

Record manager_ok (s : driver_manager_st) : Prop := {
  dmo_buf : length (dm_buf s) = 64%nat;
  dmo_sbuf : length (dm_sbuf s) = 64%nat;
  dmo_st : 0 <= dm_st s <= 2;
  dmo_net : 0 <= dm_net s <= 2
}.

(** ** The code follows it *)

Lemma probe_wp cap n D : uwp (dm_probe cap n) (fun dead t => probed cap n t dead) D.
Proof.
  revert D; induction n as [|n IH]; intros D; cbn [dm_probe]; [done|].
  apply uwp_bind, uwp_sys; [done|]. intros y _. apply uwp_bind, uwp_sys; [done|]. intros a _.
  destruct (Z.ltb_spec (ret a) 0) as [Ha|Ha].
  - exists y, a. by left.
  - eapply uwp_mono; [apply (IH (fun _ => False))| |done]. intros dead t Ht. exists y, a. right. split; [done|]. by exists t.
Qed.

Lemma say_ret {A} m (x : A) (Q : A -> trace -> Prop) D : (length m <= 128)%nat ->
  (forall t, spoke m t -> Q x t) -> uwp (dm_reply m ;; mret x) Q D.
Proof.
  intros Hm HQ. eapply (uwp_then_ret (dm_reply m) (fun _ => x)); [intros D'; by apply say_wp|].
  intros [] t Ht. by apply HQ, sent_spoke.
Qed.
Lemma fault_wp cap irq q notrun on_dead dead_r alive_r st D :
  (length q <= 128)%nat -> (length notrun <= 128)%nat -> (length alive_r <= 128)%nat ->
  (forall D, uwp on_dead (fun _ t => spoke dead_r t) D) ->
  uwp (dm_fault cap irq q notrun on_dead alive_r st)
    (fun st' t => fault_step cap irq q notrun dead_r alive_r st t st') D.
Proof.
  intros Hq Hn Ha Hd. unfold dm_fault. destruct (Z.eqb_spec st 1) as [->|Hst]; cbn [negb].
  2:{ apply uwp_bind. apply say_ret; [done|]. intros t Ht. by left. }
  apply uwp_bind, uwp_bind. eapply uwp_sys_in; [apply holds_stat|done|by rewrite take_ge|].
  intros b _. rewrite take_ge by done. unfold mret at 1, prog_ret at 1. cbn [uwp]. destruct (Z.ltb_spec (ret b) 0) as [Hb|Hb].
  { apply say_ret; [done|]. intros t Ht. right. left. split; [done|]. exists b. split; [done|]. by exists t. }
  apply uwp_bind. eapply uwp_mono; [apply (probe_wp irq 16 (fun _ => False))| |done]. intros dead tp Hp.
  assert (forall t, spoke (if (dead : bool) then dead_r else alive_r) t ->
    fault_step cap irq q notrun dead_r alive_r 1 ((USend cap q, b) :: tp ++ t) (if dead then 2 else 1)) as Hend
    by (intros t Ht; right; right; split; [done|]; by exists b, tp, t, dead).
  destruct dead.
  - eapply (uwp_then_ret on_dead (fun _ => 2)); [exact Hd|]. intros [] t Ht. by apply Hend.
  - apply say_ret; [done|exact Hend].
Qed.
Lemma restart_wp slot irq err event ok st D : (length err <= 128)%nat -> (length ok <= 128)%nat ->
  uwp (dm_restart slot irq err event ok st) (fun st' t => restart_step slot irq err ok st t st') D.
Proof.
  intros He Ho. unfold dm_restart. apply uwp_bind, uwp_sys; [done|]. intros a _.
  destruct (Z.ltb_spec (ret a) 0) as [Ha|Ha].
  { apply say_ret; [done|]. intros t Ht. exists a. left. split; [done|]. by exists t. }
  apply uwp_bind. eapply uwp_mono; [apply uwrite_wp, holds_stat| |done]. intros [] tc [Hc _].
  apply uwp_bind, uwp_sys; [done|]. intros i _. apply say_ret; [done|]. intros t Ht.
  exists a. right. split; [done|]. by exists tc, i, t.
Qed.

Lemma list_wp st net D :
  uwp (dm_list st net) (fun _ t => spoke (if st =? 1 then DMR_RUN else if st =? 2 then DMR_FLT else DMR_STOP) t) D.
Proof.
  unfold dm_list. set (r := if st =? 1 then DMR_RUN else if st =? 2 then DMR_FLT else DMR_STOP).
  assert (forall D, uwp (if st =? 1 then dm_reply DMR_RUN else if st =? 2 then dm_reply DMR_FLT else dm_reply DMR_STOP)
    (fun _ t => spoke r t) D) as H3.
  { intros D'. eapply uwp_mono with (Q := fun _ t => sent (USend 0 r) t) (D := D'); [|intros [] t; apply sent_spoke|done].
    unfold r. repeat case_match; apply say_wp; vm_compute; lia. }
  assert (forall D, uwp ((if net =? 1 then uput DM_NET_LINE_RUN else if net =? 2 then uput DM_NET_LINE_FLT else uput DM_NET_LINE_STOP) ;;
    if st =? 1 then dm_reply DMR_RUN else if st =? 2 then dm_reply DMR_FLT else dm_reply DMR_STOP) (fun _ t => spoke r t) D) as H2
    by (intros D'; repeat case_match; by apply uput_then).
  repeat case_match; by apply uput_then.
Qed.

Lemma dm_info_wp st sp D : length sp = 64%nat ->
  uwp (dm_info st sp) (fun q t => length q = 64%nat /\ info_step st t) D.
Proof.
  intros Hs. unfold dm_info. destruct (Z.eqb_spec st 1) as [->|Hn].
  2:{ destruct (st =? 2) eqn:E2; (apply say_ret; [vm_compute; lia|]; intros t Ht; split; [done|]; right; split; [done|]; by rewrite E2). }
  eapply uwp_mono with (Q := fun q t => exists te t' res, length q = 64%nat /\ exchanged 1 DM_Q_STATUS te res /\ t = te ++ t' /\
     spoke (if decide (res = []) then DMR_INFO_STOP else res) t') (D := D).
  2:{ intros q t (te & t' & res & Hl & H). split; [done|]. left. split; [done|]. by exists te, t', res. }
  2:{ done. }
  apply uwp_bind. eapply uwp_sys_in; [apply holds_stat|done|vm_compute; lia|]. intros b _. rewrite take_ge by done.
  destruct (Z.ltb_spec (ret b) 0) as [Hb|Hb].
  { apply say_ret; [vm_compute; lia|]. intros t Ht. exists [(USend 1 DM_Q_STATUS, b)], t, []. split; [done|]. split; [exists b; by left|].
    split; [done|by rewrite decide_True]. }
  apply uwp_bind. eapply (uwp_out _ _ 64); [done|lia|cbn; lia|]. intros d q Hd Hh Hl Hw Hm. cbn [fst snd].
  destruct Hd as (_ & _ & Hdl & _).
  assert (exchanged 1 DM_Q_STATUS [(USend 1 DM_Q_STATUS, b); (URecv 1 64, d)] (data d)) as He
    by (exists b; right; split; [done|by exists d]).
  destruct (Z.ltb_spec 0 (ret d)) as [Hp|Hp].
  - rewrite Hw by done. apply uwp_bind. eapply uwp_sys_in; [exact Hh|done|cbn; rewrite length_take; lia|].
    intros a _. rewrite take_ge by done. exists [(USend 1 DM_Q_STATUS, b); (URecv 1 64, d)], [(USend 0 (data d), a)], (data d).
    split; [congruence|]. split; [done|]. split; [done|]. rewrite decide_False by (intros E; rewrite E in Hdl; cbn in Hdl; lia).
    apply sent_spoke. by eexists.
  - apply say_ret; [vm_compute; lia|]. intros t Ht. exists [(USend 1 DM_Q_STATUS, b); (URecv 1 64, d)], t, (data d).
    split; [congruence|]. split; [done|]. split; [done|]. by rewrite decide_True by (apply nil_length_inv; lia).
Qed.

Lemma fault_step_range cap irq q n d a st t st' : fault_step cap irq q n d a st t st' -> 0 <= st <= 2 -> 0 <= st' <= 2.
Proof. intros [(_ & _ & ->)|[(_ & b & _ & t' & _ & _ & ->)|(_ & b & tp & t' & dead & _ & _ & _ & _ & ->)]] H; [done|done|]. by destruct dead; [lia|]. Qed.
Lemma restart_step_range slot irq e o st t st' : restart_step slot irq e o st t st' -> 0 <= st <= 2 -> 0 <= st' <= 2.
Proof. intros (a & [(_ & t' & _ & _ & ->)|(_ & tc & i & t' & _ & _ & _ & ->)]) H; lia. Qed.

Definition dm_end (m : list Z) (st net : Z) (s : driver_manager_st) (t : trace) : Prop :=
  manager_ok s /\ dm_step m st net t (dm_st s) (dm_net s).

Lemma manager_turn_wp s D : manager_ok s ->
  uwp (driver_manager_turn s) (fun s' t => manager_ok s' /\ exists a,
    (ret a <= 0 /\ t = [(URecv 0 64, a)] /\ dm_st s' = dm_st s /\ dm_net s' = dm_net s) \/
    (0 < ret a /\ exists t', t = (URecv 0 64, a) :: t' /\ dm_step (data a) (dm_st s) (dm_net s) t' (dm_st s') (dm_net s'))) D.
Proof.
  destruct s as [buf sp st net]. intros [Hb Hs Hst Hnet]. cbn [dm_buf dm_sbuf dm_st dm_net] in *.
  unfold driver_manager_turn. apply uwp_serve; [lia|lia|..].
  { intros a bp Ha Hl. split; [split; cbn; congruence || done|]. exists a. by left. }
  intros a bp Ha Hh Hl _ _. rewrite Hb in Hl.
  eapply uwp_mono with (Q := dm_end (data a) st net) (D := fun _ => False);
    [|intros s' t [Ho Hstep]; split; [done|]; exists a; right; split; [done|by exists t]|done].
  unfold dm_end, dm_step.
  eapply uwp_cmd; [exact Hh|done|]. case_bool_decide as H1; [rewrite H1|].
  { eapply (uwp_then_ret _ (fun v => mkManager bp sp st v)); [intros D'; apply fault_wp; [vm_compute; lia..|]|].
    { intros D2. apply uput_then. intros D3. apply uput_then. intros D4.
      eapply uwp_mono; [apply (say_wp _ (fun _ => False)); vm_compute; lia|intros [] t; apply sent_spoke|done]. }
    intros v t Ht. split; [split; try done; cbn; eapply fault_step_range; [exact Ht|done]|]. by pick. }
  eapply uwp_cmd; [exact Hh|done|]. case_bool_decide as H2; [rewrite H2|].
  { eapply (uwp_then_ret _ (fun v => mkManager bp sp st v)); [intros D'; apply restart_wp; vm_compute; lia|].
    intros v t Ht. split; [split; try done; cbn; eapply restart_step_range; [exact Ht|done]|]. by pick. }
  eapply uwp_cmd; [exact Hh|done|]. case_bool_decide as H3; [rewrite H3|].
  { eapply (uwp_then_ret _ (fun _ => mkManager bp sp st net)); [intros D'; apply list_wp|].
    intros v t Ht. split; [done|]. by pick. }
  eapply uwp_cmd; [exact Hh|done|]. case_bool_decide as H4; [rewrite H4|].
  { eapply (uwp_then_ret _ (fun q => mkManager bp q st net)); [intros D'; by apply dm_info_wp|].
    intros q t [Hq Ht]. split; [done|]. by pick. }
  eapply uwp_cmd; [exact Hh|done|]. case_bool_decide as H5; [rewrite H5|].
  { eapply (uwp_then_ret _ (fun v => mkManager bp sp v net)); [intros D'; apply restart_wp; vm_compute; lia|].
    intros v t Ht. split; [split; try done; cbn; eapply restart_step_range; [exact Ht|done]|]. by pick. }
  eapply uwp_cmd; [exact Hh|done|]. case_bool_decide as H6; [rewrite H6|].
  { eapply (uwp_then_ret _ (fun v => mkManager bp sp v net)); [intros D'; apply fault_wp; [vm_compute; lia..|]|].
    { intros D2. apply uput_then. intros D4.
      eapply uwp_mono; [apply (say_wp _ (fun _ => False)); vm_compute; lia|intros [] t; apply sent_spoke|done]. }
    intros v t Ht. split; [split; try done; cbn; eapply fault_step_range; [exact Ht|done]|]. by pick. }
  apply say_ret; [vm_compute; lia|]. intros t Ht. split; [done|]. by pick.
Qed.

(** ** What a request may cost and touch *)

(** The calls a turn may make, given the driver states it starts from. *)
Definition dm_allowed (st net : Z) (c : call) : Prop :=
  match c with
  | UConWrite _ | UYield | UIrqRaise _ => True
  | URecv cap _ => cap = 0 \/ (cap = 1 /\ st = 1)
  | USend cap _ => cap = 0 \/ (cap = 1 /\ st = 1) \/ (cap = 5 /\ net = 1)
  | UTaskRestart slot => slot = SLOT_BLOCK_DRIVER \/ slot = SLOT_NET_DRIVER
  | _ => False
  end.
Definition is_con (ca : call * answer) : bool := match ca.1 with UConWrite _ => true | _ => false end.
(** The calls other than console output. *)
Definition work (t : trace) : nat := length (filter (fun ca => negb (is_con ca)) t).

Lemma work_app t1 t2 : work (t1 ++ t2) = (work t1 + work t2)%nat.
Proof. unfold work. by rewrite filter_app, length_app. Qed.
Lemma work_cons c a t : (work ((c, a) :: t) <= S (work t))%nat.
Proof. unfold work. rewrite filter_cons. case_decide; cbn; lia. Qed.
Lemma work_con t : con_only t -> work t = 0%nat.
Proof.
  unfold work. induction 1 as [|[c a] t [bs E] _ IH]; [done|]. cbn in E. subst c. rewrite filter_cons, decide_False; [done|].
  cbn. tauto.
Qed.
Lemma spoke_work m t : spoke m t -> (work t <= 1)%nat.
Proof.
  intros (tc & b & Hc & ->). rewrite work_app, work_con by done. pose proof (work_cons (USend 0 m) b []). unfold work in *. cbn in *. lia.
Qed.
Lemma con_allowed st net t : con_only t -> Forall (fun ca => dm_allowed st net ca.1) t.
Proof. intros H. eapply Forall_impl; [exact H|]. intros [c a] [bs E]. cbn in E. by subst c. Qed.
Lemma spoke_allowed st net m t : spoke m t -> Forall (fun ca => dm_allowed st net ca.1) t.
Proof.
  intros (tc & b & Hc & ->). apply Forall_app. split; [by apply con_allowed|]. constructor; [by left|constructor].
Qed.
Lemma probed_work cap n t dead : probed cap n t dead -> (work t <= 2 * n)%nat.
Proof.
  revert t; induction n as [|n IH]; intros t; cbn [probed]; [intros [-> _]; cbn; lia|].
  intros (y & a & [(_ & -> & _)|(_ & t' & -> & H)]).
  - pose proof (work_cons UYield y [(UIrqRaise cap, a)]). pose proof (work_cons (UIrqRaise cap) a []).
    change (work []) with 0%nat in *. lia.
  - specialize (IH _ H). pose proof (work_cons UYield y ((UIrqRaise cap, a) :: t')). pose proof (work_cons (UIrqRaise cap) a t'). lia.
Qed.
Lemma probed_allowed st net cap n t dead : probed cap n t dead -> Forall (fun ca => dm_allowed st net ca.1) t.
Proof.
  revert t; induction n as [|n IH]; intros t; cbn [probed]; [intros [-> _]; constructor|].
  intros (y & a & [(_ & -> & _)|(_ & t' & -> & H)]); [by repeat constructor|]. constructor; [done|]. constructor; [done|]. by apply IH.
Qed.
Lemma probed_dead cap n t : probed cap n t true -> exists a, (UIrqRaise cap, a) ∈ t /\ ret a < 0.
Proof.
  revert t; induction n as [|n IH]; intros t; cbn [probed]; [by intros [_ ?]|].
  intros (y & a & [(Ha & -> & _)|(_ & t' & -> & H)]).
  - exists a. split; [right; left|done].
  - destruct (IH _ H) as (a' & Hin & Ha'). exists a'. split; [by do 2 right|done].
Qed.

(** The facts of one arm, about the driver behind [irq] and [slot]. *)
Record arm_facts (st net : Z) (t : trace) (slot irq old new : Z) : Prop := {
  af_allowed : Forall (fun ca => dm_allowed st net ca.1) t;
  af_work : (work t <= 34)%nat;
  af_dead : new = 2 -> old = 2 \/ exists a, (UIrqRaise irq, a) ∈ t /\ ret a < 0;
  af_alive : new = 1 -> old = 1 \/ exists a, (UTaskRestart slot, a) ∈ t /\ 0 <= ret a;
  af_reply : exists t' m b, t = t' ++ [(USend 0 m, b)]
}.

Lemma spoke_facts st net m t slot irq old : spoke m t -> arm_facts st net t slot irq old old.
Proof.
  intros H. split; [by eapply spoke_allowed|pose proof (spoke_work _ _ H); lia|by left|by left|].
  destruct H as (tc & b & _ & ->). by exists tc, m, b.
Qed.
Lemma fault_facts st net cap irq q n d a slot old new t :
  (old = 1 -> (cap = 1 /\ st = 1) \/ (cap = 5 /\ net = 1)) ->
  fault_step cap irq q n d a old t new -> arm_facts st net t slot irq old new.
Proof.
  intros Hc [(_ & H & ->)|[(H1 & b & _ & t' & -> & H & ->)|(H1 & b & tp & t' & dead & _ & -> & Hp & H & ->)]].
  - by eapply spoke_facts.
  - pose proof (spoke_work _ _ H). pose proof (work_cons (USend cap q) b t'). split; [|lia|by left|by left|].
    + constructor; [right; by apply Hc|by eapply spoke_allowed].
    + destruct H as (tc & b' & _ & ->). by exists ((USend cap q, b) :: tc), n, b'.
  - pose proof (spoke_work _ _ H). pose proof (probed_work _ _ _ _ Hp). pose proof (work_cons (USend cap q) b (tp ++ t')) as Hw.
    rewrite work_app in Hw. split; [|lia|..].
    + constructor; [right; by apply Hc|]. apply Forall_app. split; [by eapply probed_allowed|by eapply spoke_allowed].
    + destruct dead; [|by left]. intros _. right. destruct (probed_dead _ _ _ Hp) as (a' & Hin & Ha).
      exists a'. split; [|done]. right. apply elem_of_app. by left.
    + destruct dead; [done|by left].
    + destruct H as (tc & b' & _ & ->). exists ((USend cap q, b) :: tp ++ tc). eexists _, b'. cbn. by rewrite <- app_assoc.
Qed.
Lemma restart_facts st net slot irq e o old new t : slot = SLOT_BLOCK_DRIVER \/ slot = SLOT_NET_DRIVER ->
  restart_step slot irq e o old t new -> arm_facts st net t slot irq old new.
Proof.
  intros Hs (a & [(_ & t' & -> & H & ->)|(Ha & tc & i & t' & -> & Hc & H & ->)]); pose proof (spoke_work _ _ H).
  - pose proof (work_cons (UTaskRestart slot) a t'). split; [|lia|by left|by left|].
    + constructor; [done|by eapply spoke_allowed].
    + destruct H as (tc & b' & _ & ->). by exists ((UTaskRestart slot, a) :: tc), e, b'.
  - pose proof (work_cons (UTaskRestart slot) a (tc ++ (UIrqRaise irq, i) :: t')) as Hw.
    pose proof (work_cons (UIrqRaise irq) i t'). rewrite work_app, (work_con tc) in Hw by done. split; [|lia|done|..].
    + constructor; [done|]. apply Forall_app. split; [by apply con_allowed|]. constructor; [done|by eapply spoke_allowed].
    + intros _. right. exists a. split; [left|done].
    + destruct H as (tc' & b' & _ & ->). exists ((UTaskRestart slot, a) :: tc ++ (UIrqRaise irq, i) :: tc'), o, b'. cbn. by rewrite <- app_assoc.
Qed.
Lemma info_facts st net t slot irq old : info_step st t -> arm_facts st net t slot irq old old.
Proof.
  intros [(-> & te & t' & res & (b & [(_ & -> & _)|(_ & d & -> & _)]) & -> & H)|[_ H]]; [..|by eapply spoke_facts].
  - pose proof (spoke_work _ _ H). pose proof (work_cons (USend 1 DM_Q_STATUS) b t'). split; [|cbn [app]; lia|by left|by left|].
    + constructor; [right; by left|by eapply spoke_allowed].
    + destruct H as (tc & b' & _ & ->). by eexists ((USend 1 DM_Q_STATUS, b) :: tc), _, b'.
  - pose proof (spoke_work _ _ H). pose proof (work_cons (USend 1 DM_Q_STATUS) b ((URecv 1 64, d) :: t')).
    pose proof (work_cons (URecv 1 64) d t'). split; [|cbn [app]; lia|by left|by left|].
    + constructor; [right; by left|]. constructor; [by right|by eapply spoke_allowed].
    + destruct H as (tc & b' & _ & ->). by eexists ((USend 1 DM_Q_STATUS, b) :: (URecv 1 64, d) :: tc), _, b'.
Qed.

Lemma dm_step_facts m st net t st' net' : dm_step m st net t st' net' ->
  arm_facts st net t SLOT_BLOCK_DRIVER 4 st st' /\ arm_facts st net t SLOT_NET_DRIVER 6 net net'.
Proof.
  assert (forall slot irq old slot' irq' old' new', arm_facts st net t slot' irq' old' new' -> arm_facts st net t slot irq old old) as Hsame
    by (intros slot irq old slot' irq' old' new' [F1 F2 _ _ F5]; split; [done|done|by left|by left|done]).
  unfold dm_step. repeat case_decide.
  - intros [Hx ->]. apply (fault_facts st net _ _ _ _ _ _ SLOT_NET_DRIVER) in Hx; [|intros; by right]. split; [by eapply Hsame|done].
  - intros [Hx ->]. apply (restart_facts st net) in Hx; [|by right]. split; [by eapply Hsame|done].
  - intros (Hx & -> & ->). split; by eapply spoke_facts.
  - intros (Hx & -> & ->). split; by apply info_facts.
  - intros [Hx ->]. apply (restart_facts st net) in Hx; [|by left]. split; [done|by eapply Hsame].
  - intros [Hx ->]. apply (fault_facts st net _ _ _ _ _ _ SLOT_BLOCK_DRIVER) in Hx; [|intros; by left]. split; [done|by eapply Hsame].
  - intros (Hx & -> & ->). split; by eapply spoke_facts.
Qed.

(** C26. The driver manager.  A turn whose calls are all answered ends and
    follows [dm_step]: at most 35 calls besides console output, a requested
    fault being probed at most 16 times; it talks to a driver only while it
    tracks it as running, and touches no task but the two drivers; it marks a
    driver faulted only after a refused interrupt of that driver and running
    only after the kernel restarted it; and every request is answered by one
    reply, sent last.  A turn still waiting for the answer to a call keeps the
    same bounds, so it can be held up only by its own request channel or by
    a driver it tracks as running (one killed from outside does hold it up,
    since nothing tells the manager). *)
Theorem manager_guards_drivers s : manager_ok s ->
  uwp (driver_manager_turn s) (fun s' t => manager_ok s' /\ (work t <= 35)%nat /\
    Forall (fun ca => dm_allowed (dm_st s) (dm_net s) ca.1) t /\
    (dm_st s' = 2 -> dm_st s = 2 \/ exists a, (UIrqRaise 4, a) ∈ t /\ ret a < 0) /\
    (dm_net s' = 2 -> dm_net s = 2 \/ exists a, (UIrqRaise 6, a) ∈ t /\ ret a < 0) /\
    (dm_st s' = 1 -> dm_st s = 1 \/ exists a, (UTaskRestart SLOT_BLOCK_DRIVER, a) ∈ t /\ 0 <= ret a) /\
    (dm_net s' = 1 -> dm_net s = 1 \/ exists a, (UTaskRestart SLOT_NET_DRIVER, a) ∈ t /\ 0 <= ret a) /\
    exists a, (ret a <= 0 /\ t = [(URecv 0 64, a)] /\ dm_st s' = dm_st s /\ dm_net s' = dm_net s) \/
      (0 < ret a /\ (exists t' m b, t = (URecv 0 64, a) :: t' ++ [(USend 0 m, b)]) /\
       exists t', t = (URecv 0 64, a) :: t' /\ dm_step (data a) (dm_st s) (dm_net s) t' (dm_st s') (dm_net s')))
    (fun _ => False) /\
  (forall ans cs c, uexec (driver_manager_turn s) ans = (cs, EWaiting c) -> Forall2 answers cs (take (length cs) ans) ->
     (work (zip cs ans) <= 35)%nat /\ Forall (dm_allowed (dm_st s) (dm_net s)) (cs ++ [c])).
Proof.
  intros Hs. match goal with |- ?X /\ _ => assert X as HX end; cycle 1.
  { split; [exact HX|]. intros ans cs c E F. destruct (uwp_waiting _ _ _ _ _ HX E F) as (x & a & t & _ & Hw & Ha & _).
    rewrite work_app in Hw. split; [lia|]. apply Forall_app in Ha as [H1 H2]. apply Forall_app. split.
    - rewrite <- (fst_zip cs ans) by (apply Forall2_length in F; rewrite length_take in F; lia).
      by apply Forall_fmap.
    - constructor; [by inversion H2|constructor]. }
  eapply uwp_mono; [by apply (manager_turn_wp s (fun _ => False))| |done].
  intros s' t [Ho (a & [(Ha & -> & E1 & E2)|(Ha & t' & -> & Hstep)])]; (split; [done|]).
  - split; [apply (Nat.le_trans _ _ _ (work_cons _ _ _)); cbn; lia|]. split; [constructor; [by left|constructor]|].
    rewrite E1, E2. do 4 (split; [by left|]). exists a. by left.
  - destruct (dm_step_facts _ _ _ _ _ _ Hstep) as [[F1 F2 F3 F4 F5] [_ _ G3 G4 _]].
    assert (forall x, x ∈ t' -> x ∈ (URecv 0 64, a) :: t') as Hin by (intros; by right).
    split; [pose proof (work_cons (URecv 0 64) a t'); lia|]. split; [constructor; [by left|done]|].
    split; [intros E; destruct (F3 E) as [?|(x & ? & ?)]; [by left|right; exists x; split; [by apply Hin|done]]|].
    split; [intros E; destruct (G3 E) as [?|(x & ? & ?)]; [by left|right; exists x; split; [by apply Hin|done]]|].
    split; [intros E; destruct (F4 E) as [?|(x & ? & ?)]; [by left|right; exists x; split; [by apply Hin|done]]|].
    split; [intros E; destruct (G4 E) as [?|(x & ? & ?)]; [by left|right; exists x; split; [by apply Hin|done]]|].
    exists a. right. split; [done|]. split; [|by exists t']. destruct F5 as (t0 & m & b & ->). by exists t0, m, b.
Qed.

Lemma manager_guards_drivers_witness :
  manager_ok (mkManager (uninit 64) (uninit 64) 1 1) /\
  (uexec (driver_manager_turn (mkManager (uninit 64) (uninit 64) 1 1))
     [mkAns 18 DMC_FAULT; mkAns 5 []; mkAns 0 []; mkAns 0 []; mkAns 0 []; mkAns (-1) []; mkAns 60 []; mkAns 19 []]).1 =
    [URecv 0 64; USend 1 DM_Q_FAULT; UYield; UIrqRaise 4; UYield; UIrqRaise 4; UConWrite DM_OBSERVED; USend 0 DMR_FAULTED] /\
  usafe (driver_manager_turn (mkManager (uninit 64) (uninit 64) 1 1)) manager_ok.
Proof.
  assert (manager_ok (mkManager (uninit 64) (uninit 64) 1 1)) as H by (split; cbn; lia || reflexivity).
  split; [exact H|]. split; [vm_compute; reflexivity|].
  eapply uwp_mono; [exact (proj1 (manager_guards_drivers _ H))| |done]. intros s t [Ho _]. exact Ho.
Defined.
