(* ===== verification/SvcShell.v ===== *)
(** * The console, the shell and the small tasks

    [init_body], [supervisor_body], [logger_body], [faulty_body],
    [console_body], the three applications and [shell_body] with its
    forwarding helpers, of [kernel/src/arch/riscv64/os_boot.rs].  The console
    refines a line editor on byte strings; the shell refines a table from
    lines to actions. *)

From stdpp Require Import strings base decidable numbers option tactics list.
From S2P Require Import Prelude Bytes Monitor UserText UserProg UserLib SvcStorage SvcLoader SvcNet SvcDriver.
Local Open Scope Z_scope.

Definition SVC_FAULTY : Z := 4.
Definition TBL_NET_DRIVER : Z := 13.
Definition TBL_NET_SERVICE : Z := 14.

(** ** The small tasks *)

(** [while i < 4] *)
Fixpoint init_core (i : Z) (todo : nat) : prog () :=
  match todo with O => mret tt | S todo => sys (UTaskStart i) ;; init_core (i + 1) todo end.
(** Up to the exit, after which the kernel does not resume the task. *)
Definition init_body : prog () :=
  init_core 0 4 ;;
  sys (UTaskStart 5) ;; sys (UTaskStart 9) ;; sys (UTaskStart 10) ;; sys (UTaskStart 11) ;;
  sys (UTaskStart TBL_NET_DRIVER) ;; sys (UTaskStart TBL_NET_SERVICE) ;;
  sys UExit ;; mret tt.

(** The memory at [0x200040], in the task's stack page. *)
Definition supervisor_turn (mem : ptr) : prog ptr :=
  r ← sys_out (URecv 0 64) mem; sys (UFaultAck 2) ;; mret r.2.
Definition logger_turn (mem : ptr) : prog ptr :=
  r ← sys_out (URecv 0 64) mem; mret r.2.
Definition faulty_body (mem : ptr) : prog () := sys_in (USend 0) mem 4 ;; PDie.

Definition hello_body : prog () := uput M_HELLO_OUT ;; sys UExit ;; mret tt.

(** [while i <= 3] *)
Fixpoint counter_loop (dp : ptr) (i : Z) (todo : nat) : prog ptr :=
  match todo with
  | O => mret dp
  | S todo =>
      uput M_CNT_PRE ;;
      dp ← ulift (wr dp 0 (48 + i));
      dp ← ulift (wr dp 1 10);
      uwrite_ptr dp 2 ;;
      sys UYield ;;
      counter_loop dp (i + 1) todo
  end.
Definition counter_body : prog () :=
  counter_loop (uninit 2) 1 3 ;; uput M_CNT_DONE ;; sys UExit ;; mret tt.

Definition fault_demo_body : prog () :=
  sys (UMmioRead 0 0 4) ;;
  sys (UDmaRead 0 0 1) ;;
  sys_in UConWrite (stat M_HELLO_OUT) (length M_HELLO_OUT) ;;
  PDie.

(** ** [console_service] *)

Record console_st := mkConsole { co_line : ptr; co_ch : ptr; co_len : nat }.
Definition console_init : console_st := mkConsole (uninit 64) (uninit 1) 0.

Definition console_turn (s : console_st) : prog console_st :=
  let '(mkConsole lp cp len) := s in
  r ← sys_out (UConRead 1) cp;
  let '(n, cp) := r in
  if n <=? 0 then sys UYield ;; mret (mkConsole lp cp len)
  else
    b ← ulift (rd cp 0);
    if (b =? 13) || (b =? 10) then
      uput M_NL ;;
      sys_in (USend 0) lp len ;;
      mret (mkConsole lp cp 0)
    else if (b =? 0x7f) || (b =? 8) then
      if decide (0 < len)%nat then
        len ← ulift (usub len 1);
        uput M_BS ;; mret (mkConsole lp cp len)
      else mret (mkConsole lp cp len)
    else if bool_decide (len < 63)%nat && (0x20 <=? b) && (b <? 0x7f) then
      lp ← ulift (wr lp len b);
      uwrite_ptr cp 1 ;;
      mret (mkConsole lp cp (len + 1))
    else mret (mkConsole lp cp len).

(** ** [shell_service] *)

(** After a request was sent on [cap] with result [r]: receive and print. *)
Definition shell_answer (cap : Z) (max : nat) (r : Z) (rp : ptr) : prog ptr :=
  if r <? 0 then uput M_ERR ;; mret rp
  else
    a ← sys_out (URecv cap max) rp;
    if 0 <? a.1 then uwrite_ptr a.2 (Z.to_nat a.1) ;; uput M_NL ;; mret a.2
    else uput M_ERR ;; mret a.2.

Definition shell_forward (cap : Z) (p : ptr) (n : nat) (rp : ptr) : prog ptr :=
  r ← sys_in (USend cap) p n; shell_answer cap 64 r rp.
Definition shell_app_forward : ptr -> nat -> ptr -> prog ptr := shell_forward 4.
Definition shell_drv_forward : ptr -> nat -> ptr -> prog ptr := shell_forward 7.
Definition shell_net_forward : ptr -> nat -> ptr -> prog ptr := shell_forward 8.

(** The [while i < n && q < 63] copy of the rest of the line. *)
Definition copy_tail (r : ptr * nat) (bp : ptr) (i n : nat) : outcome (ptr * nat) :=
  copy_bounded 63 r.1 r.2 bp i (n - i).

(** The request and reply buffers after a command. *)
Definition shell_app_proto (bp : ptr) (n tail_at : nat) (proto : list Z) (qp rp : ptr) : prog (ptr * ptr) :=
  q ← ulift (copy_prefix qp (stat proto) 0 (length proto));
  q ← ulift (copy_tail q bp tail_at n);
  r ← sys_in (USend 4) q.1 q.2;
  rp ← shell_answer 4 64 r rp; mret (q.1, rp).

Definition shell_fs_cmd (bp : ptr) (n tail_at : nat) (cat : bool) (qp rp : ptr) : prog (ptr * ptr) :=
  let pfx := if cat then P_CAT else P_LS in
  q ← ulift (copy_prefix qp (stat pfx) 0 (length pfx));
  q ← (if decide (n <= tail_at)%nat then d ← ulift (wr q.1 q.2 47); mret (d, (q.2 + 1)%nat)
       else ulift (copy_tail q bp tail_at n));
  r ← sys_in (USend 5) q.1 q.2;
  rp ← shell_answer 5 128 r rp; mret (q.1, rp).

Definition shell_stor_cmd (bp : ptr) (n tail_at : nat) (qp rp : ptr) : prog (ptr * ptr) :=
  q ← (if decide (n <= tail_at)%nat then ulift (copy_prefix qp (stat S_INFO) 0 (length S_INFO))
       else q ← ulift (copy_prefix qp (stat S_READ) 0 (length S_READ));
            ulift (copy_tail q bp tail_at n));
  r ← sys_in (USend 6) q.1 q.2;
  rp ← shell_answer 6 64 r rp; mret (q.1, rp).

Definition shell_info (kind : Z) (op : ptr) : prog ptr :=
  a ← sys_out (UInfo kind 640 0) op;
  if 0 <? a.1 then uwrite_ptr a.2 (Z.to_nat a.1) ;; mret a.2 else uput M_ERR ;; mret a.2.

Record shell_st := mkShell { sh_buf : ptr; sh_out : ptr; sh_req : ptr }.
Definition shell_start : prog shell_st :=
  uput M_BANNER ;; mret (mkShell (uninit 64) (uninit 640) (uninit 64)).

(** The tests of the [if .. else if ..] chain. *)
Inductive test := Is (m : list Z) | Starts (m : list Z) | Or (a b : test).
Fixpoint run_test (bp : ptr) (n : nat) (t : test) : prog bool :=
  match t with
  | Is m => is_cmd bp n m
  | Starts m => has_prefix bp n m
  | Or a b => r ← run_test bp n a; if (r : bool) then mret true else run_test bp n b
  end.

(** An arm: the line's buffer and length, the output and request buffers. *)
Definition arm := ptr -> nat -> ptr -> ptr -> prog (ptr * ptr).
Fixpoint run_chain (arms : list (test * arm)) (other : arm) : arm := fun bp n op qp =>
  match arms with
  | [] => other bp n op qp
  | (t, act) :: arms =>
      b ← run_test bp n t;
      if (b : bool) then act bp n op qp else run_chain arms other bp n op qp
  end.

Definition on_out (act : ptr -> prog ptr) : arm := fun _ _ op qp => o ← act op; mret (o, qp).
Definition on_text (act : prog ()) : arm := fun _ _ op qp => act ;; mret (op, qp).
Definition on_line (act : ptr -> nat -> ptr -> prog ptr) : arm := fun bp n op qp => o ← act bp n op; mret (o, qp).
Definition on_req (act : ptr -> nat -> ptr -> ptr -> prog (ptr * ptr)) : arm := fun bp n op qp =>
  r ← act bp n qp op; mret (r.2, r.1).

(** [kill <idx>] and [restart <idx>]: [idx == u64::MAX || sys3(..) < 0]. *)
Definition shell_task (c : Z -> call) (pre : list Z) (bp : ptr) (n : nat) : prog () :=
  idx ← ulift (parse_dec bp (length pre) n);
  bad ← (if idx =? u64_MAX then mret true else r ← sys (c idx); mret (r <? 0));
  if (bad : bool) then uput M_ERR else uput M_OK.

Definition shell_arms : list (test * arm) := [
  (Is C_HELP, on_text (uput M_HELP));
  (Is C_VERSION, on_text (uput M_VERSION));
  (Is C_TASKS, on_out (shell_info 0));
  (Is C_FAULTS, on_out (shell_info 1));
  (Is C_IPC, on_out (shell_info 2));
  (Is C_CAPS, on_out (shell_info 3));
  (Is C_MEMORY, on_out (shell_info 4));
  (Is C_UPTIME, on_out (shell_info 5));
  (Is C_EVENTS, on_out (shell_info 6));
  (Is C_RUN_DEMO, on_text (uput M_DEMO ;; r ← sys (UTaskStart SVC_FAULTY); if r <? 0 then uput M_ERR else mret tt));
  (Is C_BIN, on_req (fun _ _ => shell_fs_cmd (stat F_BIN) (length F_BIN) 0 false));
  (Starts C_APPLOAD, on_req (fun bp n => shell_app_proto bp n (length C_APPLOAD) PL_LOAD));
  (Starts C_APPUNLOAD, on_req (fun bp n => shell_app_proto bp n (length C_APPUNLOAD) PL_UNLOAD));
  (Starts C_APPSTATE, on_req (fun bp n => shell_app_proto bp n (length C_APPSTATE) PL_STATE));
  (Starts C_RUNLOADED, on_req (fun bp n => shell_app_proto bp n (length C_RUNLOADED) PL_RUN));
  (Is C_NET_STATUS, on_out (shell_net_forward (stat NSC_STATUS) (length NSC_STATUS)));
  (Is C_NET_STATS, on_out (shell_net_forward (stat NSC_STATS) (length NSC_STATS)));
  (Is C_NET_SEND, on_out (shell_net_forward (stat NSC_TX) (length NSC_TX)));
  (Is C_NET_RX, on_out (shell_net_forward (stat NSC_RX) (length NSC_RX)));
  (Is C_NET_FAULT, on_out (shell_net_forward (stat NSC_FAULT) (length NSC_FAULT)));
  (Is C_NET_RESTART, on_out (shell_net_forward (stat NSC_RESTART) (length NSC_RESTART)));
  (Starts C_NET_PREFIX, on_line shell_net_forward);
  (Or (Is C_DRIVERS) (Starts C_DRIVERSP), on_line shell_drv_forward);
  (Is C_STORI, on_req (fun bp n => shell_stor_cmd bp n n));
  (Starts C_STORR, on_req (fun bp n => shell_stor_cmd bp n (length C_STORR)));
  (Is C_LS, on_req (fun bp n => shell_fs_cmd bp n n false));
  (Starts C_LSSP, on_req (fun bp n => shell_fs_cmd bp n (length C_LSSP) false));
  (Starts C_CATSP, on_req (fun bp n => shell_fs_cmd bp n (length C_CATSP) true));
  (Or (Is C_APPS) (Or (Starts C_APPINFO) (Starts C_RUNSP)), on_line shell_app_forward);
  (Starts C_KILL, fun bp n op qp => shell_task UTaskKill C_KILL bp n ;; mret (op, qp));
  (Starts C_RESTART, fun bp n op qp => shell_task UTaskRestart C_RESTART bp n ;; mret (op, qp));
  (Is C_CLEAR, on_text (uput M_CLEAR));
  (Is C_SHUTDOWN, on_text (uput M_BYE ;; sys UShutdown ;; mret tt))].

Definition shell_turn (s : shell_st) : prog shell_st :=
  let '(mkShell buf op qp) := s in
  uput M_PROMPT ;;
  serve 64 buf (fun bp => mkShell bp op qp) (fun bp n =>
    r ← run_chain shell_arms (on_text (uput M_UNKNOWN)) bp n op qp;
    mret (mkShell bp r.1 r.2)).

(** ** The editor and the command table *)

(** One typed byte, as a function of the line: the next line and, at a
    return, the line to send. *)
Definition edit (l : list Z) (b : Z) : list Z * option (list Z) :=
  if (b =? 13) || (b =? 10) then ([], Some l)
  else if (b =? 0x7f) || (b =? 8) then (take (length l - 1) l, None)
  else if bool_decide (length l < 63)%nat && (0x20 <=? b) && (b <? 0x7f) then (l ++ [b], None)
  else (l, None).

(** What the shell does with a line. *)
Inductive sh_act :=
| ShSay (m : list Z)
| ShInfo (kind : Z)
| ShDemo
| ShAsk (cap : Z) (room : nat) (req : list Z)
| ShTask (c : Z -> call) (idx : option Z)
| ShBye.

(** The number after a prefix, as [parse_dec] reads it. *)
Definition tail (pre m : list Z) : list Z := drop (length pre) m.
(** Requests are built in a buffer that takes 63 bytes. *)
Definition cut (m : list Z) : list Z := take 63 m.
Definition fs_request (cmd path : list Z) : list Z := cut (cmd ++ (if decide (path = []) then [47] else path)).
Definition storage_request (n : list Z) : list Z := cut (if decide (n = []) then S_INFO else S_READ ++ n).

Definition shell_table : list (test * (list Z -> sh_act)) := [
  (Is C_HELP, fun _ => ShSay M_HELP);
  (Is C_VERSION, fun _ => ShSay M_VERSION);
  (Is C_TASKS, fun _ => ShInfo 0);
  (Is C_FAULTS, fun _ => ShInfo 1);
  (Is C_IPC, fun _ => ShInfo 2);
  (Is C_CAPS, fun _ => ShInfo 3);
  (Is C_MEMORY, fun _ => ShInfo 4);
  (Is C_UPTIME, fun _ => ShInfo 5);
  (Is C_EVENTS, fun _ => ShInfo 6);
  (Is C_RUN_DEMO, fun _ => ShDemo);
  (Is C_BIN, fun _ => ShAsk 5 128 (P_LS ++ F_BIN));
  (Starts C_APPLOAD, fun m => ShAsk 4 64 (cut (PL_LOAD ++ tail C_APPLOAD m)));
  (Starts C_APPUNLOAD, fun m => ShAsk 4 64 (cut (PL_UNLOAD ++ tail C_APPUNLOAD m)));
  (Starts C_APPSTATE, fun m => ShAsk 4 64 (cut (PL_STATE ++ tail C_APPSTATE m)));
  (Starts C_RUNLOADED, fun m => ShAsk 4 64 (cut (PL_RUN ++ tail C_RUNLOADED m)));
  (Is C_NET_STATUS, fun _ => ShAsk 8 64 NSC_STATUS);
  (Is C_NET_STATS, fun _ => ShAsk 8 64 NSC_STATS);
  (Is C_NET_SEND, fun _ => ShAsk 8 64 NSC_TX);
  (Is C_NET_RX, fun _ => ShAsk 8 64 NSC_RX);
  (Is C_NET_FAULT, fun _ => ShAsk 8 64 NSC_FAULT);
  (Is C_NET_RESTART, fun _ => ShAsk 8 64 NSC_RESTART);
  (Starts C_NET_PREFIX, fun m => ShAsk 8 64 m);
  (Or (Is C_DRIVERS) (Starts C_DRIVERSP), fun m => ShAsk 7 64 m);
  (Is C_STORI, fun _ => ShAsk 6 64 S_INFO);
  (Starts C_STORR, fun m => ShAsk 6 64 (storage_request (tail C_STORR m)));
  (Is C_LS, fun _ => ShAsk 5 128 (fs_request P_LS []));
  (Starts C_LSSP, fun m => ShAsk 5 128 (fs_request P_LS (tail C_LSSP m)));
  (Starts C_CATSP, fun m => ShAsk 5 128 (fs_request P_CAT (tail C_CATSP m)));
  (Or (Is C_APPS) (Or (Starts C_APPINFO) (Starts C_RUNSP)), fun m => ShAsk 4 64 m);
  (Starts C_KILL, fun m => ShTask UTaskKill (number (tail C_KILL m)));
  (Starts C_RESTART, fun m => ShTask UTaskRestart (number (tail C_RESTART m)));
  (Is C_CLEAR, fun _ => ShSay M_CLEAR);
  (Is C_SHUTDOWN, fun _ => ShBye)].

Fixpoint passes (t : test) (m : list Z) : bool :=
  match t with
  | Is c => bool_decide (m = c)
  | Starts c => bool_decide (c `prefix_of` m)
  | Or a b => passes a m || passes b m
  end.
Fixpoint first_pass {A} (l : list (test * A)) (other : A) (m : list Z) : A :=
  match l with
  | [] => other
  | (t, a) :: l => if passes t m then a else first_pass l other m
  end.
Definition shell_plan (m : list Z) : sh_act := first_pass shell_table (fun _ => ShSay M_UNKNOWN) m m.

(** ** What reaches the console *)

(** Console writes only; when all are accepted, they write [m]. *)
Definition printed (m : list Z) (t : trace) : Prop :=
  con_only t /\ (Forall (fun ca : call * answer => 0 < ret ca.2) t -> con_bytes t = m).

Lemma printed_app m1 m2 t1 t2 : printed m1 t1 -> printed m2 t2 -> printed (m1 ++ m2) (t1 ++ t2).
Proof.
  intros [H1 B1] [H2 B2]. split; [by apply Forall_app|]. intros [F1 F2]%Forall_app. unfold con_bytes in *.
  by rewrite fmap_app, concat_app, B1, B2.
Qed.
Lemma printed_nil : printed [] [].
Proof. split; [constructor|done]. Qed.
Lemma uput_printed m D : uwp (uput m) (fun _ t => printed m t) D.
Proof. eapply uwp_mono; [apply uwrite_wp, holds_stat|by intros [] t|done]. Qed.
Lemma uwrite_printed p m n D : holds p m -> n = length m -> uwp (uwrite_ptr p n) (fun _ t => printed m t) D.
Proof. intros Hp ->. eapply uwp_mono; [by apply uwrite_wp|by intros [] t|done]. Qed.

Lemma uput_ret_printed {A} m (x : A) (Q : A -> trace -> Prop) D : (forall t, printed m t -> Q x t) -> uwp (uput m ;; mret x) Q D.
Proof.
  intros HQ. eapply (uwp_then_ret (uput m) (fun _ => x)); [intros D'; apply uput_printed|]. intros [] t. apply HQ.
Qed.

(** The calls of an action. *)
Definition did (act : sh_act) (t : trace) : Prop :=
  match act with
  | ShSay m => printed m t
  | ShInfo kind => exists a t', t = (UInfo kind 640 0, a) :: t' /\
      printed (if decide (data a = []) then M_ERR else data a) t'
  | ShDemo => exists t1 a t2, t = t1 ++ (UTaskStart SVC_FAULTY, a) :: t2 /\ printed M_DEMO t1 /\
      printed (if ret a <? 0 then M_ERR else []) t2
  | ShAsk cap room req => exists b,
      (ret b < 0 /\ exists t', t = (USend cap req, b) :: t' /\ printed M_ERR t') \/
      (0 <= ret b /\ exists d t', t = (USend cap req, b) :: (URecv cap room, d) :: t' /\
         printed (if decide (data d = []) then M_ERR else data d ++ M_NL) t')
  | ShTask c None => printed M_ERR t
  | ShTask c (Some i) => exists a t', t = (c i, a) :: t' /\ printed (if ret a <? 0 then M_ERR else M_OK) t'
  | ShBye => exists t1 a, t = t1 ++ [(UShutdown, a)] /\ printed M_BYE t1
  end.

Lemma answer_wp cap max rp b req D : length rp = 640%nat -> (max <= 128)%nat ->
  uwp (shell_answer cap max (ret b) rp) (fun q t => length q = 640%nat /\ did (ShAsk cap max req) ((USend cap req, b) :: t)) D.
Proof.
  intros Hr Hm. unfold shell_answer. destruct (Z.ltb_spec (ret b) 0) as [Hb|Hb].
  { apply uput_ret_printed. intros t Ht. split; [done|]. exists b. left. split; [done|]. by exists t. }
  apply uwp_bind. eapply (uwp_out _ _ max); [done|lia|done|]. intros d q Hd Hh Hl Hn Hmax. cbn [fst snd].
  rewrite Hr in Hl. destruct Hd as (_ & _ & Hdl & _).
  assert (forall t, printed (if decide (data d = []) then M_ERR else data d ++ M_NL) t ->
    did (ShAsk cap max req) ((USend cap req, b) :: (URecv cap max, d) :: t)) as Hend
    by (intros t Ht; exists b; right; split; [done|]; by exists d, t).
  destruct (Z.ltb_spec 0 (ret d)) as [Hp|Hp].
  - apply uwp_bind. eapply uwp_mono; [by apply (uwrite_printed q (data d) _ (fun _ => False)); [|apply Hn]| |done].
    intros [] t1 H1. apply uput_ret_printed. intros t2 H2. split; [done|]. cbn [app]. apply Hend.
    rewrite decide_False by (intros E; rewrite E in Hdl; cbn in Hdl; lia). by apply printed_app.
  - apply uput_ret_printed. intros t Ht. split; [done|]. cbn [app]. apply Hend.
    by rewrite decide_True by (apply nil_length_inv; lia).
Qed.

Lemma forward_wp cap p m n rp D : holds p m -> n = length m -> (n <= 128)%nat -> length rp = 640%nat ->
  uwp (shell_forward cap p n rp) (fun q t => length q = 640%nat /\ did (ShAsk cap 64 m) t) D.
Proof.
  intros Hp -> Hm Hr. unfold shell_forward. apply uwp_bind. eapply uwp_sys_in; [done|done|by rewrite take_ge|].
  intros b _. rewrite take_ge by done. eapply uwp_mono; [by apply (answer_wp cap 64 rp b m (fun _ => False)); [|lia]| |done].
  by intros q t.
Qed.

(** A built request. *)
Lemma request_wp cap max q req rp D : built 64 q req -> (length req <= 64)%nat -> length rp = 640%nat -> (max <= 128)%nat ->
  uwp (r ← sys_in (USend cap) q.1 q.2; rp ← shell_answer cap max r rp; mret (q.1, rp))
    (fun r t => length r.1 = 64%nat /\ length r.2 = 640%nat /\ did (ShAsk cap max req) t) D.
Proof.
  intros Hb Hl Hr Hm. apply uwp_bind. eapply uwp_send_built; [exact Hb|cbn; lia|]. intros b _.
  eapply (uwp_then_ret _ (fun rp => (q.1, rp))); [intros D'; by apply (answer_wp cap max rp b req D')|].
  intros rp' t [Hr' Ht]. split; [apply Hb|done].
Qed.

(** A prefix, then the rest of the line. *)
Lemma tail_built qp pre bp m at_ : length qp = 64%nat -> holds bp m -> (at_ <= length m)%nat ->
  (length pre <= 63)%nat ->
  exists q, copy_prefix qp (stat pre) 0 (length pre) = Val q /\
    exists q', copy_tail q bp at_ (length m) = Val q' /\ built 64 q' (cut (pre ++ drop at_ m)).
Proof.
  intros Hq Hb Ha Hl. destruct (copy_prefix_all 64 qp (stat pre) pre) as ([p1 n1] & E1 & H1); [done|apply holds_stat|lia|].
  exists (p1, n1). split; [done|]. unfold copy_tail. cbn [fst snd].
  destruct (copy_bounded_built 63 64 p1 n1 bp pre m at_ (length m - at_)) as (q' & E & H'); [done|lia|lia|done|lia|].
  exists q'. split; [done|]. by rewrite (take_ge (drop at_ m)) in H' by (rewrite length_drop; lia).
Qed.
Lemma cut_length m : (length (cut m) <= 64)%nat.
Proof. unfold cut. rewrite length_take. lia. Qed.

(** ** The arms do what the table says *)

(** An arm does its action on every line that passes its
    test, and the buffers keep their sizes. *)
Definition arm_does (t : test) (a : arm) (f : list Z -> sh_act) : Prop := forall bp m op qp D,
  holds bp m -> passes t m = true -> (length m <= 64)%nat -> length op = 640%nat -> length qp = 64%nat ->
  uwp (a bp (length m) op qp) (fun r tr => length r.1 = 640%nat /\ length r.2 = 64%nat /\ did (f m) tr) D.

Lemma text_does t act f : (forall m D, uwp act (fun _ tr => did (f m) tr) D) -> arm_does t (on_text act) f.
Proof.
  intros H bp m op qp D _ _ _ Ho Hq. unfold on_text. eapply (uwp_then_ret act (fun _ => (op, qp))); [intros D'; apply (H m)|].
  by intros [] tr.
Qed.
Lemma say_does t m : arm_does t (on_text (uput m)) (fun _ => ShSay m).
Proof. apply text_does. intros _ D. apply uput_printed. Qed.
Lemma info_does t kind : arm_does t (on_out (shell_info kind)) (fun _ => ShInfo kind).
Proof.
  intros bp m op qp D _ _ _ Ho Hq. unfold on_out.
  eapply (uwp_then_ret _ (fun o => (o, qp)) (fun o tr => length o = 640%nat /\ did (ShInfo kind) tr)); [|by intros o tr [? ?]].
  intros D'. unfold shell_info. apply uwp_bind. eapply (uwp_out _ _ 640); [done|lia|cbn; lia|].
  intros a o Ha Hh Hl Hn _. cbn [fst snd]. rewrite Ho in Hl. destruct Ha as (_ & _ & Hdl & _).
  destruct (Z.ltb_spec 0 (ret a)) as [Hp|Hp].
  - eapply (uwp_then_ret _ (fun _ => o)); [intros D2; by apply uwrite_printed; [|apply Hn]|]. intros [] tr Ht.
    split; [done|]. exists a, tr. split; [done|]. by rewrite decide_False by (intros E; rewrite E in Hdl; cbn in Hdl; lia).
  - apply uput_ret_printed. intros tr Ht. split; [done|]. exists a, tr. split; [done|].
    by rewrite decide_True by (apply nil_length_inv; lia).
Qed.
Lemma out_does t cap msg : (length msg <= 128)%nat ->
  arm_does t (on_out (shell_forward cap (stat msg) (length msg))) (fun _ => ShAsk cap 64 msg).
Proof.
  intros Hm bp m op qp D _ _ _ Ho Hq. unfold on_out.
  eapply (uwp_then_ret _ (fun o => (o, qp))); [intros D'; by apply forward_wp; [apply holds_stat|..]|]. by intros o tr [? ?].
Qed.
Lemma line_does t cap : arm_does t (on_line (shell_forward cap)) (fun m => ShAsk cap 64 m).
Proof.
  intros bp m op qp D Hh _ Hm Ho Hq. unfold on_line.
  eapply (uwp_then_ret _ (fun o => (o, qp))); [intros D'; apply forward_wp; [exact Hh|done|lia|done]|]. by intros o tr [? ?].
Qed.
Lemma req_does t (act : ptr -> nat -> ptr -> ptr -> prog (ptr * ptr)) cap max (req : list Z -> list Z) :
  (forall bp m qp op D, holds bp m -> passes t m = true -> (length m <= 64)%nat -> length op = 640%nat -> length qp = 64%nat ->
     uwp (act bp (length m) qp op) (fun r tr => length r.1 = 64%nat /\ length r.2 = 640%nat /\ did (ShAsk cap max (req m)) tr) D) ->
  arm_does t (on_req act) (fun m => ShAsk cap max (req m)).
Proof.
  intros H bp m op qp D Hh Ht Hm Ho Hq. unfold on_req.
  eapply (uwp_then_ret _ (fun r => (r.2, r.1))); [intros D'; by apply H|]. by intros r tr (? & ? & ?).
Qed.

Lemma starts_length c m : passes (Starts c) m = true -> (length c <= length m)%nat.
Proof. cbn. intros H%bool_decide_eq_true. by apply prefix_length. Qed.

Lemma proto_does c proto : (length proto <= 63)%nat ->
  arm_does (Starts c) (on_req (fun bp n => shell_app_proto bp n (length c) proto)) (fun m => ShAsk 4 64 (cut (proto ++ tail c m))).
Proof.
  intros Hc. apply req_does. intros bp m qp op D Hh Ht%starts_length Hm Ho Hq. unfold shell_app_proto.
  destruct (tail_built qp proto bp m (length c)) as (q & E & q' & E' & Hb); [done|done|done|lia|].
  eapply uwp_lift_bind; [exact E|]. eapply uwp_lift_bind; [exact E'|].
  apply request_wp; [exact Hb|apply cut_length|done|lia].
Qed.

(** [LS] and [CAT] with the path at [at_]; no path is [/]. *)
Lemma fs_wp bp m at_ (cat : bool) qp op D : holds bp m -> length qp = 64%nat -> length op = 640%nat ->
  uwp (shell_fs_cmd bp (length m) at_ cat qp op)
    (fun r tr => length r.1 = 64%nat /\ length r.2 = 640%nat /\
       did (ShAsk 5 128 (fs_request (if cat then P_CAT else P_LS) (drop at_ m))) tr) D.
Proof.
  intros Hh Hq Ho. unfold shell_fs_cmd. set (pfx := if cat then P_CAT else P_LS).
  assert (length pfx <= 4)%nat as Hp by (unfold pfx; destruct cat; vm_compute; lia). cbv zeta.
  destruct (decide (length m <= at_)%nat) as [Ha|Ha].
  - destruct (copy_prefix_all 64 qp (stat pfx) pfx) as ([p1 n1] & E1 & H1); [done|apply holds_stat|lia|].
    eapply uwp_lift_bind; [exact E1|]. cbn [fst snd]. pose proof (bt_at _ _ _ H1) as Hn. cbn in Hn.
    destruct (wr_built 64 p1 n1 pfx 47 H1) as (d & E & Hb); [lia|]. rewrite E.
    apply uwp_bind. cbn [ulift mbind prog_bind prog_bind_ uwp]. rewrite (drop_ge m) by done. unfold fs_request.
    unfold cut. rewrite decide_True, take_ge by (done || rewrite length_app; cbn; lia).
    apply (request_wp 5 128 (d, (n1 + 1)%nat)); [exact Hb|rewrite length_app; cbn; lia|done|lia].
  - destruct (tail_built qp pfx bp m at_) as (q & E & q' & E' & Hb); [done|done|lia|lia|].
    eapply uwp_lift_bind; [exact E|]. rewrite E'. unfold fs_request. rewrite decide_False.
    + apply request_wp; [exact Hb|apply cut_length|done|lia].
    + intros E0%(f_equal length). rewrite length_drop in E0. cbn in E0. lia.
Qed.
Lemma stor_wp bp m at_ qp op D : holds bp m -> length qp = 64%nat -> length op = 640%nat ->
  uwp (shell_stor_cmd bp (length m) at_ qp op)
    (fun r tr => length r.1 = 64%nat /\ length r.2 = 640%nat /\ did (ShAsk 6 64 (storage_request (drop at_ m))) tr) D.
Proof.
  intros Hh Hq Ho. unfold shell_stor_cmd, storage_request. destruct (decide (length m <= at_)%nat) as [Ha|Ha].
  - destruct (copy_prefix_all 64 qp (stat S_INFO) S_INFO) as (q & E1 & H1); [done|apply holds_stat|vm_compute; lia|].
    eapply uwp_lift_bind; [exact E1|]. rewrite (drop_ge m) by done. rewrite decide_True by done.
    apply request_wp; [exact H1|vm_compute; lia|done|lia].
  - destruct (tail_built qp S_READ bp m at_) as (q & E & q' & E' & Hb); [done|done|lia|change (length S_READ) with 11%nat; lia|].
    apply uwp_bind. eapply uwp_lift_bind; [exact E|]. rewrite E'. cbn [ulift uwp]. rewrite decide_False.
    + apply request_wp; [exact Hb|apply cut_length|done|lia].
    + intros E0%(f_equal length). rewrite length_drop in E0. cbn in E0. lia.
Qed.

Lemma task_does c pre : (forall i, call_ok (c i)) ->
  arm_does (Starts pre) (fun bp n op qp => shell_task c pre bp n ;; mret (op, qp)) (fun m => ShTask c (number (tail pre m))).
Proof.
  intros Hc bp m op qp D Hh _ _ Ho Hq.
  eapply (uwp_then_ret _ (fun _ => (op, qp)) (fun _ tr => did (ShTask c (number (tail pre m))) tr)); [|by intros [] tr].
  intros D'. unfold shell_task. eapply uwp_lift_bind; [by apply parse_dec_holds|]. unfold tail.
  set (l := drop (length pre) m). apply uwp_bind. unfold number.
  destruct (decide (l <> [] /\ Forall (fun b => is_digit b = true) l)) as [[Hn Hd]|Hbad].
  2:{ rewrite (bool_decide_eq_false_2 _ Hbad), Z.eqb_refl, decide_False; [apply uput_printed|].
      intros (Hn & Hd & _). apply Hbad. split; [done|by apply digits_of_all]. }
  rewrite bool_decide_eq_true_2 by done. destruct (Z.eqb_spec (wrap_value 0 l) u64_MAX) as [Hx|Hx].
  { rewrite decide_False by tauto. apply uput_printed. }
  rewrite decide_True by (split; [done|]; split; [by apply digits_of_all|done]).
  apply uwp_bind, uwp_sys; [done|]. intros a _. cbn [uwp mret prog_ret]. destruct (ret a <? 0) eqn:Ea;
    (eapply uwp_mono; [apply (uput_printed _ (fun _ => False))| |done]; intros [] tr Ht; exists a, tr; by rewrite Ea).
Qed.
Lemma demo_does t : arm_does t (on_text (uput M_DEMO ;; r ← sys (UTaskStart SVC_FAULTY); if r <? 0 then uput M_ERR else mret tt)) (fun _ => ShDemo).
Proof.
  apply text_does. intros _ D. apply uwp_bind. eapply uwp_mono; [apply (uput_printed _ (fun _ => False))| |done].
  intros [] t1 H1. apply uwp_bind, uwp_sys; [done|]. intros a _. destruct (ret a <? 0) eqn:Ea.
  - eapply uwp_mono; [apply (uput_printed _ (fun _ => False))| |done]. intros [] t2 H2. exists t1, a, t2. by rewrite Ea.
  - exists t1, a, []. rewrite Ea. split; [done|]. split; [done|apply printed_nil].
Qed.
Lemma bye_does t : arm_does t (on_text (uput M_BYE ;; sys UShutdown ;; mret tt)) (fun _ => ShBye).
Proof.
  apply text_does. intros _ D. apply uwp_bind. eapply uwp_mono; [apply (uput_printed _ (fun _ => False))| |done].
  intros [] t1 H1. apply uwp_bind, uwp_sys; [done|]. intros a _. by exists t1, a.
Qed.
Lemma fs_line_does c (cat : bool) pfx : pfx = (if cat then P_CAT else P_LS) ->
  arm_does (Starts c) (on_req (fun bp n => shell_fs_cmd bp n (length c) cat)) (fun m => ShAsk 5 128 (fs_request pfx (tail c m))).
Proof.
  intros ->. apply (req_does _ _ 5 128 (fun m => fs_request _ (tail c m))). intros bp m qp op D Hh _ Hm Ho Hq.
  by apply fs_wp.
Qed.
Lemma is_eq c m : passes (Is c) m = true -> m = c.
Proof. cbn. by intros H%bool_decide_eq_true. Qed.

(** The lemma for an arm, chosen by its shape. *)
Ltac arm_by :=
  lazymatch goal with
  | |- arm_does _ (on_text (uput _)) _ => apply say_does
  | |- arm_does _ (on_text (uput M_DEMO ;; _)) _ => apply demo_does
  | |- arm_does _ (on_text (uput M_BYE ;; _)) _ => apply bye_does
  | |- arm_does _ (on_out (shell_info _)) _ => apply info_does
  | |- arm_does _ (on_out (shell_net_forward _ _)) _ => apply out_does; vm_compute; lia
  | |- arm_does _ (on_line _) _ => apply line_does
  | |- arm_does (Starts ?c) (on_req (fun bp n => shell_app_proto bp n _ ?p)) _ => apply (proto_does c p); vm_compute; lia
  | |- arm_does (Starts ?c) (fun bp n op qp => shell_task ?t ?c bp n ;; _) _ => apply (task_does t c); done
  end.

(** Every arm of the code, against the table. *)
Lemma shell_arms_do : Forall2 (fun (a : test * arm) (f : test * (list Z -> sh_act)) =>
  a.1 = f.1 /\ arm_does a.1 a.2 f.2) shell_arms shell_table.
Proof.
  repeat apply Forall2_cons_2; try apply Forall2_nil_2; (split; [reflexivity|]); cbn [fst snd].
  all: try arm_by.
  - apply (req_does _ _ 5 128 (fun _ => P_LS ++ F_BIN)). intros bp m qp op D _ _ _ Ho Hq.
    apply (fs_wp (stat F_BIN) F_BIN 0 false qp op D); [apply holds_stat|done|done].
  - apply (req_does _ _ 6 64 (fun _ => S_INFO)). intros bp m qp op D Hh Ht%is_eq Hm Ho Hq. subst m.
    pose proof (stor_wp bp C_STORI (length C_STORI) qp op D Hh Hq Ho) as H. by rewrite drop_all in H.
  - apply (req_does _ _ 6 64 (fun m => storage_request (tail C_STORR m))). intros bp m qp op D Hh _ Hm Ho Hq.
    by apply stor_wp.
  - apply (req_does _ _ 5 128 (fun _ => fs_request P_LS [])). intros bp m qp op D Hh Ht%is_eq Hm Ho Hq. subst m.
    pose proof (fs_wp bp C_LS (length C_LS) false qp op D Hh Hq Ho) as H. by rewrite drop_all in H.
  - by apply (fs_line_does C_LSSP false).
  - by apply (fs_line_does C_CATSP true).
Qed.

Lemma run_test_wp bp m t Q D : holds bp m -> Q (passes t m) [] -> uwp (run_test bp (length m) t) Q D.
Proof.
  intros Hh. revert Q D; induction t as [c|c|a IHa b IHb]; intros Q D HQ; cbn [run_test passes] in *.
  - by eapply is_cmd_wp.
  - by eapply has_prefix_wp.
  - apply uwp_bind, IHa. destruct (passes a m); [exact HQ|]. by apply IHb.
Qed.
Lemma run_chain_wp arms table bp m op qp D :
  Forall2 (fun (a : test * arm) (f : test * (list Z -> sh_act)) => a.1 = f.1 /\ arm_does a.1 a.2 f.2) arms table ->
  holds bp m -> (length m <= 64)%nat -> length op = 640%nat -> length qp = 64%nat ->
  uwp (run_chain arms (on_text (uput M_UNKNOWN)) bp (length m) op qp) (fun r t =>
    length r.1 = 640%nat /\ length r.2 = 64%nat /\ did (first_pass table (fun _ => ShSay M_UNKNOWN) m m) t) D.
Proof.
  intros H Hh Hm Ho Hq. revert D. induction H as [|[t a] [t' f] arms table [Ht Ha] _ IH]; intros D; cbn [run_chain first_pass].
  - by apply (say_does (Is m) M_UNKNOWN); [|apply bool_decide_eq_true|..].
  - cbn [fst snd] in *. subst t'. apply uwp_bind. apply run_test_wp; [done|]. destruct (passes t m) eqn:E; [by apply Ha|apply IH].
Qed.

(** ** The shell's turn *)

Record shell_ok (s : shell_st) : Prop := {
  sho_buf : length (sh_buf s) = 64%nat;
  sho_out : length (sh_out s) = 640%nat;
  sho_req : length (sh_req s) = 64%nat
}.

Lemma shell_turn_wp s D : shell_ok s ->
  uwp (shell_turn s) (fun s' t => shell_ok s' /\ exists tp a t', t = tp ++ (URecv 0 64, a) :: t' /\ printed M_PROMPT tp /\
    ((ret a <= 0 /\ t' = []) \/ (0 < ret a /\ did (shell_plan (data a)) t'))) D.
Proof.
  destruct s as [buf op qp]. intros [Hb Ho Hq]. cbn [sh_buf sh_out sh_req] in *. unfold shell_turn.
  apply uwp_bind. eapply uwp_mono; [apply (uput_printed _ (fun _ => False))| |done]. intros [] tp Hp.
  eapply uwp_mono with (D := fun _ => False) (Q := fun s' t => shell_ok s' /\ exists a t', t = (URecv 0 64, a) :: t' /\
    ((ret a <= 0 /\ t' = []) \/ (0 < ret a /\ did (shell_plan (data a)) t'))); [| |done].
  2:{ intros s' t (Hs & a & t' & -> & H). split; [done|]. by exists tp, a, t'. }
  apply uwp_serve; [lia|lia|..].
  { intros a bp Ha Hl. split; [split; cbn; congruence|]. exists a, []. split; [done|by left]. }
  intros a bp Ha Hh Hl Hm _. rewrite Hb in Hl.
  eapply (uwp_then_ret _ (fun r => mkShell bp r.1 r.2)); [intros D'; by apply (run_chain_wp _ _ _ _ _ _ _ shell_arms_do)|].
  intros [o q] t (H1 & H2 & Hd). split; [done|]. exists a, t. split; [done|by right].
Qed.

(** ** The routes from the command line to the services *)

Lemma cut_app pre x : (length pre + length x <= 63)%nat -> cut (pre ++ x) = pre ++ x.
Proof. intros H. apply take_ge. rewrite length_app. lia. Qed.
Lemma fs_request_path cmd x : x <> [] -> (length cmd + length x <= 63)%nat -> fs_request cmd x = cmd ++ x.
Proof. intros Hx H. unfold fs_request. rewrite decide_False by done. by apply cut_app. Qed.

(** C24. The shell.  A turn prints the prompt, takes one line and does what
    the command table says: nothing else is ever sent, started, killed or
    restarted, and the buffers are respected for every line of up to 64
    bytes.  A line that fits the console reaches the service it names
    uncut: [app load], [app unload], [app state] and [run loaded] become the
    loader's commands for that name, [ls] and [cat] the filesystem's requests
    for that path, [storage read] the storage request whose answer is the
    numbered block, and [kill] a kill of the numbered task, the number taken
    modulo 2^64. *)
Theorem shell_follows_table s : shell_ok s ->
  uwp (shell_turn s) (fun s' t => shell_ok s' /\ exists tp a t', t = tp ++ (URecv 0 64, a) :: t' /\ printed M_PROMPT tp /\
    ((ret a <= 0 /\ t' = []) \/ (0 < ret a /\ did (shell_plan (data a)) t'))) (fun _ => False) /\
  (forall x, (length x <= 52)%nat ->
     (shell_plan (C_APPLOAD ++ x) = ShAsk 4 64 (PL_LOAD ++ x) /\ loader_cmd (PL_LOAD ++ x) = CLoad x) /\
     (shell_plan (C_APPUNLOAD ++ x) = ShAsk 4 64 (PL_UNLOAD ++ x) /\ loader_cmd (PL_UNLOAD ++ x) = CUnload x) /\
     (shell_plan (C_APPSTATE ++ x) = ShAsk 4 64 (PL_STATE ++ x) /\ loader_cmd (PL_STATE ++ x) = CState x) /\
     (shell_plan (C_RUNLOADED ++ x) = ShAsk 4 64 (PL_RUN ++ x) /\ loader_cmd (PL_RUN ++ x) = CRun x)) /\
  (forall x, x <> [] -> (length x <= 59)%nat ->
     shell_plan (C_LSSP ++ x) = ShAsk 5 128 (P_LS ++ x) /\ shell_plan (C_CATSP ++ x) = ShAsk 5 128 (P_CAT ++ x)) /\
  (forall n, 0 <= n < u64_MAX ->
     shell_plan (C_STORR ++ dec n) = ShAsk 6 64 (S_READ ++ dec n) /\
     storage_answer (S_READ ++ dec n) = block_answer n) /\
  (forall ds, ds <> [] -> Forall (fun b => is_digit b = true) ds -> dec_value ds mod 2 ^ 64 <> u64_MAX ->
     shell_plan (C_KILL ++ ds) = ShTask UTaskKill (Some (dec_value ds mod 2 ^ 64)) /\
     shell_plan (C_RESTART ++ ds) = ShTask UTaskRestart (Some (dec_value ds mod 2 ^ 64))).
Proof.
  intros Hs. split; [by apply shell_turn_wp|]. split; [|split; [|split]].
  - assert (forall pre x, length pre <= 11 -> length x <= 52 -> ShAsk 4 64 (cut (pre ++ x)) = ShAsk 4 64 (pre ++ x))%nat as Hc
      by (intros pre x Hp Hx; rewrite cut_app; [done|lia]).
    intros x Hx. rewrite <- !Hc by (vm_compute; lia || exact Hx). repeat split; reflexivity.
  - intros x Hn Hx. rewrite <- (fs_request_path P_LS x), <- (fs_request_path P_CAT x) by (done || cbn; lia). split; reflexivity.
  - intros n Hn. split.
    + transitivity (ShAsk 6 64 (storage_request (dec n))); [reflexivity|]. unfold storage_request.
      assert (n ∈ᵤ 64) as Hu by (unfold uint, u64_MAX in *; lia). rewrite decide_False by (by apply dec_nonempty).
      rewrite cut_app; [done|]. pose proof (dec_length n). change (length S_READ) with 11%nat. lia.
    + by rewrite storage_answer_read, number_dec.
  - intros ds Hn Hd Hv. rewrite <- !number_digits by done. split; reflexivity.
Qed.

Lemma shell_follows_table_witness :
  shell_ok (mkShell (uninit 64) (uninit 640) (uninit 64)) /\
  (uexec (shell_turn (mkShell (uninit 64) (uninit 640) (uninit 64)))
     [mkAns 7 []; says (bstr "kill 18446744073709551619"); mkAns 0 []; mkAns 3 []]).1 =
    [UConWrite M_PROMPT; URecv 0 64; UTaskKill 3; UConWrite M_OK] /\
  shell_plan (bstr "kill 18446744073709551619") = ShTask UTaskKill (Some 3) /\
  shell_plan C_STORR = ShAsk 6 64 S_INFO.
Proof.
  assert (shell_ok (mkShell (uninit 64) (uninit 640) (uninit 64))) as H by (split; reflexivity).
  split; [exact H|]. split; [vm_compute; reflexivity|]. split; [|vm_compute; reflexivity].
  destruct (shell_follows_table _ H) as (_ & _ & _ & _ & Hk).
  destruct (Hk (bstr "18446744073709551619")) as [E _]; [done|repeat constructor|by vm_compute|]. exact E.
Defined.

(** ** The console's editor *)

(** The line being typed and the lines sent, after the bytes [bs]. *)
Fixpoint edits (l : list Z) (bs : list Z) : list Z * list (list Z) :=
  match bs with
  | [] => (l, [])
  | b :: bs =>
      let '(l', o) := edit l b in
      let '(r, ls) := edits l' bs in
      (r, match o with Some m => m :: ls | None => ls end)
  end.

Definition typed (t : trace) : list Z :=
  concat ((fun ca : call * answer => match ca.1 with UConRead _ => data ca.2 | _ => [] end) <$> t).
Definition sent_lines (t : trace) : list (list Z) :=
  concat ((fun ca : call * answer => match ca.1 with USend _ m => [m] | _ => [] end) <$> t).

Lemma typed_app t1 t2 : typed (t1 ++ t2) = typed t1 ++ typed t2.
Proof. unfold typed. by rewrite fmap_app, concat_app. Qed.
Lemma sent_lines_app t1 t2 : sent_lines (t1 ++ t2) = sent_lines t1 ++ sent_lines t2.
Proof. unfold sent_lines. by rewrite fmap_app, concat_app. Qed.
Lemma con_silent t : con_only t -> typed t = [] /\ sent_lines t = [].
Proof.
  unfold typed, sent_lines. induction 1 as [|[c a] t [bs E] _ [IH1 IH2]]; [done|]. cbn in E. subst c. by cbn.
Qed.
Lemma edits_snoc l bs b : edits l (bs ++ [b]) =
  let '(r, ls) := edits l bs in let '(r', o) := edit r b in (r', ls ++ match o with Some m => [m] | None => [] end).
Proof.
  revert l; induction bs as [|x bs IH]; intros l; cbn [app edits].
  - destruct (edit l b) as [r' o]. by destruct o.
  - destruct (edit l x) as [l' o]. rewrite IH. destruct (edits l' bs) as [r ls], (edit r b) as [r' o'].
    by destruct o.
Qed.

(** A line of the editor: at most 63 printable characters. *)
Definition line_ok (l : list Z) : Prop := (length l <= 63)%nat /\ Forall (fun b => 0x20 <= b < 0x7f) l.
Lemma edit_ok l b : line_ok l -> line_ok (edit l b).1 /\ (forall m, (edit l b).2 = Some m -> m = l).
Proof.
  intros [Hl Hf]. unfold edit. repeat case_match; cbn [fst snd]; (split; [|by intros m [= ->] || by intros m [=]]).
  - split; [cbn; lia|constructor].
  - split; [rewrite length_take; lia|by apply Forall_take].
  - bool_facts. split; [rewrite length_app; cbn; lia|]. apply Forall_app. split; [done|]. constructor; [lia|constructor].
  - done.
Qed.
Lemma edits_ok l bs : line_ok l -> line_ok (edits l bs).1 /\ Forall line_ok (edits l bs).2.
Proof.
  revert l; induction bs as [|b bs IH]; intros l Hl; cbn [edits]; [split; [done|constructor]|].
  destruct (edit_ok l b Hl) as [Hl' Ho]. destruct (edit l b) as [l' o]. cbn [fst snd] in *.
  destruct (IH l' Hl') as [H1 H2]. destruct (edits l' bs) as [r ls]. cbn [fst snd] in *. split; [done|].
  destruct o as [m|]; [|done]. constructor; [|done]. by rewrite (Ho m eq_refl).
Qed.

(** The buffer holds the line. *)
Record console_ok (s : console_st) (l : list Z) : Prop := {
  coo_line : built 64 (co_line s, co_len s) l;
  coo_ch : length (co_ch s) = 1%nat;
  coo_ok : line_ok l
}.

Lemma built_take cap d n l k : built cap (d, n) l -> (k <= length l)%nat -> built cap (d, k) (take k l).
Proof.
  intros [_ Hh Hc] Hk. split; [cbn; rewrite length_take; lia|by apply holds_take|done].
Qed.

(** One byte typed, or none. *)
Definition typed_step (l : list Z) (t : trace) (l' : list Z) : Prop :=
  (typed t = [] /\ sent_lines t = [] /\ l' = l) \/
  (exists b, typed t = [b] /\ l' = (edit l b).1 /\
     sent_lines t = match (edit l b).2 with Some m => [m] | None => [] end).

Lemma typed_edit l b a t l' : data a = [b] -> typed t = [] -> l' = (edit l b).1 ->
  sent_lines t = match (edit l b).2 with Some m => [m] | None => [] end -> typed_step l ((UConRead 1, a) :: t) l'.
Proof.
  intros Ha Ht -> Hs. right. exists b. change ((UConRead 1, a) :: t) with ([(UConRead 1, a)] ++ t).
  rewrite typed_app, sent_lines_app, Ht, Hs. split; [unfold typed; cbn; by rewrite Ha|]. done.
Qed.

Lemma console_turn_wp s l D : console_ok s l ->
  uwp (console_turn s) (fun s' t => exists l', console_ok s' l' /\ typed_step l t l') D.
Proof.
  destruct s as [lp cp len]. intros [Hb Hc Hok]. cbn [co_line co_ch co_len] in *. pose proof (bt_at _ _ _ Hb) as Hlen.
  cbn in Hlen. pose proof Hok as [Hl63 _]. unfold console_turn.
  apply uwp_bind. eapply (uwp_out _ _ 1); [done|lia|cbn; lia|]. intros a cp' Ha Hh Hl Hn Hm. cbv beta iota. rewrite Hc in Hl.
  destruct Ha as (_ & _ & Hdl & _). destruct (Z.leb_spec (ret a) 0) as [Hr|Hr].
  { assert (data a = []) as Hd by (apply nil_length_inv; lia).
    apply uwp_bind, uwp_sys; [done|]. intros y _. exists l. split; [done|]. left. unfold typed. cbn. by rewrite Hd. }
  destruct (data a) as [|b [|x r]] eqn:Hd; cbn in Hdl, Hm; [lia| |lia].
  eapply uwp_lift_bind; [by apply (rd_holds cp' [b] 0 b)|].
  pose proof (edit_ok l b Hok) as [Hok' _]. revert Hok'. pose proof (fun t l' => typed_edit l b a t l' Hd) as Hstep. revert Hstep.
  unfold edit. destruct ((b =? 13) || (b =? 10)); [|destruct ((b =? 127) || (b =? 8))]; intros Hstep Hok'.
  - apply uwp_bind. eapply uwp_mono; [apply (uput_printed _ (fun _ => False))| |done]. intros [] tc [Htc _].
    destruct (con_silent _ Htc) as [T1 T2]. apply uwp_bind. destruct Hb as [_ Hhl Hcl]. cbn in *.
    eapply uwp_sys_in; [exact Hhl|lia|cbn; rewrite length_take; lia|].
    intros s _. rewrite (take_ge l) by lia. exists []. split; [split; [split; [done|apply holds_nil|done]|done|done]|]. apply Hstep; [|done|].
    + rewrite typed_app, T1. done.
    + rewrite sent_lines_app, T2. done.
  - case_decide as Hz.
    + eapply uwp_lift_bind; [unfold usub; rewrite decide_True by lia; reflexivity|].
      apply uput_ret_printed. intros tc [Htc _]. destruct (con_silent _ Htc) as [T1 T2]. exists (take (length l - 1) l). subst len.
      split; [split; [by eapply built_take; [exact Hb|lia]|done|done]|]. by apply Hstep.
    + exists l. assert (l = []) as -> by (apply nil_length_inv; lia). split; [done|]. by apply Hstep.
  - subst len. destruct (bool_decide (length l < 63)%nat && (32 <=? b) && (b <? 127)) eqn:Ek.
    + destruct (wr_built 64 lp (length l) l b Hb) as (lp' & E & Hb'); [lia|]. eapply uwp_lift_bind; [exact E|].
      eapply (uwp_then_ret _ (fun _ => mkConsole lp' cp' (length l + 1))); [intros D'; by apply (uwrite_printed cp' [b])|].
      intros [] tc [Htc _]. destruct (con_silent _ Htc) as [T1 T2]. exists (l ++ [b]). split; [done|]. by apply Hstep.
    + exists l. split; [done|]. by apply Hstep.
Qed.

(** C25. The console is a line editor.  Over any number of turns, the lines
    the console sends to the shell are exactly those the editor [edits] makes
    of the bytes typed so far (erasing, ignoring unprintable bytes and
    anything past 63 characters, sending on return), so every line the shell
    receives from it is at most 63 printable characters; the buffer is never
    overrun. *)
Theorem console_edits_lines n :
  uwp (turns console_turn n console_init) (fun s t => console_ok s (edits [] (typed t)).1 /\
    sent_lines t = (edits [] (typed t)).2 /\ Forall line_ok (sent_lines t)) (fun _ => False).
Proof.
  set (I := fun s t => console_ok s (edits [] (typed t)).1 /\ sent_lines t = (edits [] (typed t)).2).
  assert (line_ok []) as H0 by (split; [cbn; lia|constructor]).
  eapply uwp_mono; [apply (uwp_turns console_turn I n console_init [])| |done].
  - intros s T [Hs HT]. eapply uwp_mono; [apply (console_turn_wp s (edits [] (typed T)).1 (fun _ => False)); exact Hs| |done].
    intros s' t (l' & Hs' & [(E1 & E2 & ->)|(b & E1 & -> & E2)]); unfold I; rewrite typed_app, sent_lines_app, E1, E2.
    + by rewrite !app_nil_r.
    + rewrite edits_snoc, HT. destruct (edits [] (typed T)) as [r ls]. cbn [fst snd] in *.
      destruct (edit r b) as [r' o]. cbn [fst snd] in *. done.
  - split; [|done]. split; [split; [done|apply holds_nil|done]|done|done].
  - intros s t [Hs Ht]. cbn [app] in *. split; [done|]. split; [done|]. rewrite Ht. by apply edits_ok.
Qed.
