(* ===== verification/Services.v ===== *)
(** * The U-mode tasks, together

    The sixteen task bodies of [kernel/src/arch/riscv64/os_boot.rs] in the
    order of their task slots, each as a start sequence and the turn of its
    endless loop, and what holds of all of them: none ever leaves its
    buffers or passes the kernel a size it refuses. *)

From stdpp Require Import strings base decidable numbers option tactics list.
From S2P Require Import Prelude Bytes Monitor UserText UserProg UserLib SvcStorage AppImage SvcLoader SvcNet SvcDriver SvcShell.
Local Open Scope Z_scope.

Record service := mkService {
  svc_state : Type;
  svc_start : prog svc_state;
  svc_turn : svc_state -> prog svc_state
}.

(** A body that ends: [loop { sys3(SYS_YIELD, 0, 0, 0); }] follows its exit. *)
Definition ends (body : prog ()) : service := mkService () body (fun _ => sys UYield ;; mret tt).
(** A body that is one loop over a stack buffer. *)
Definition loops {S} (start : S) (turn : S -> prog S) : service := mkService S (mret start) turn.

(** [mem] is the memory at [0x200040] of a task's stack page: a page of a
    static array, so written. *)
Section services.
Context (mem : list Z).

Definition services : list service := [
  ends init_body;
  loops (stat mem) supervisor_turn;
  loops (stat mem) logger_turn;
  loops console_init console_turn;
  mkService shell_st shell_start shell_turn;
  ends (faulty_body (stat mem));
  mkService loader_st (ulift loader_init) loader_turn;
  ends hello_body;
  ends fault_demo_body;
  ends counter_body;
  loops (uninit 64) fs_turn;
  loops storage_init storage_turn;
  mkService driver_manager_st driver_manager_start driver_manager_turn;
  mkService ptr block_start block_turn;
  mkService net_driver_st net_driver_start net_driver_turn;
  mkService net_service_st net_service_start net_service_turn].

(** [n] turns after the start. *)
Definition run_service (s : service) (n : nat) : prog (svc_state s) :=
  st ← svc_start s; turns (svc_turn s) n st.

(** A service is safe when it has an invariant that its start establishes
    and its turns keep. *)
Class Safe (s : service) := {
  inv : svc_state s -> Prop;
  start_safe : usafe (svc_start s) inv;
  turn_safe st : inv st -> usafe (svc_turn s st) inv
}.

Lemma run_safe s `{!Safe s} n : usafe (run_service s n) inv.
Proof. eapply usafe_bind; [apply start_safe|]. intros st Hst. by apply usafe_turns; [apply turn_safe|]. Qed.

Lemma uwp_usafe {A} (p : prog A) (Q : A -> trace -> Prop) D (I : A -> Prop) : uwp p Q D ->
  (forall a t, Q a t -> I a) -> usafe p I.
Proof. intros Hp HI. eapply uwp_mono; [exact Hp|exact HI|done]. Qed.

Lemma ends_safe body : usafe body (fun _ => True) -> Safe (ends body).
Proof.
  intros H. exists (fun _ => True); [exact H|]. by intros [] _.
Qed.

Hypothesis mem_room : (64 <= length mem)%nat.

(** Receiving at the start of the page's buffer keeps it initialised. *)
Definition page_ok (p : ptr) : Prop := (64 <= length p)%nat.
Lemma recv_page p (I : ptr -> Prop) (f : Z * ptr -> prog ptr) : page_ok p ->
  (forall r q, page_ok q -> usafe (f (r, q)) I) -> usafe (r ← sys_out (URecv 0 64) p; f r) I.
Proof.
  intros Hp Hf. eapply usafe_bind with (I := fun r => page_ok r.2).
  - eapply (usafe_out _ _ 64); [done|exact Hp|cbn; lia|]. intros r b m _ Hl _ _. unfold page_ok in *. cbn. lia.
  - intros [r q] Hq. by apply Hf.
Qed.
Lemma mem_page : page_ok (stat mem).
Proof. unfold page_ok. by rewrite length_stat. Qed.

#[local] Instance supervisor_safe : Safe (loops (stat mem) supervisor_turn).
Proof.
  exists page_ok; [apply mem_page|]. intros p Hp. change (usafe (supervisor_turn p) page_ok). unfold supervisor_turn. apply recv_page; [done|]. intros r q Hq. cbv beta.
  eapply usafe_bind; [by apply (usafe_sys _ (fun _ => True))|]. done.
Qed.
#[local] Instance logger_safe : Safe (loops (stat mem) logger_turn).
Proof. exists page_ok; [apply mem_page|]. intros p Hp. change (usafe (logger_turn p) page_ok). unfold logger_turn. apply recv_page; [done|]. by intros r q Hq. Qed.

Lemma init_core_safe i n : usafe (init_core i n) (fun _ => True).
Proof.
  revert i; induction n as [|n IH]; intros i; cbn [init_core]; [done|].
  eapply usafe_bind; [by apply (usafe_sys _ (fun _ => True))|]. intros _ _. apply IH.
Qed.
#[local] Instance init_safe : Safe (ends init_body).
Proof.
  apply ends_safe. unfold init_body. eapply usafe_bind; [apply init_core_safe|]. intros _ _.
  repeat (eapply usafe_bind; [by apply (usafe_sys _ (fun _ => True))|]; intros _ _). done.
Qed.
#[local] Instance faulty_safe : Safe (ends (faulty_body (stat mem))).
Proof.
  apply ends_safe. unfold faulty_body. eapply usafe_bind; [|intros _ _; done].
  eapply (usafe_in _ _ mem _ (fun _ => True)); [apply holds_stat|lia|cbn; rewrite length_take; lia|done].
Qed.
#[local] Instance hello_safe : Safe (ends hello_body).
Proof.
  apply ends_safe. unfold hello_body. eapply usafe_bind; [by apply (uput_safe _ (fun _ => True))|]. intros _ _.
  eapply usafe_bind; [by apply (usafe_sys _ (fun _ => True))|]. done.
Qed.
#[local] Instance fault_demo_safe : Safe (ends fault_demo_body).
Proof.
  apply ends_safe. unfold fault_demo_body. do 2 (eapply usafe_bind; [by apply (usafe_sys _ (fun _ => True))|]; intros _ _).
  eapply usafe_bind; [|intros _ _; done]. eapply (usafe_in _ _ M_HELLO_OUT _ (fun _ => True)); [apply holds_stat|done|vm_compute; lia|done].
Qed.
Lemma counter_loop_safe dp i n : length dp = 2%nat -> usafe (counter_loop dp i n) (fun _ => True).
Proof.
  revert dp i; induction n as [|n IH]; intros dp i Hd; cbn [counter_loop]; [done|].
  eapply usafe_bind; [by apply (uput_safe _ (fun _ => True))|]. intros _ _. destruct dp as [|x [|y [|z dp]]]; try done.
  cbn [wr decide]. eapply usafe_bind; [by apply (usafe_ulift _ [Some (48 + i); y] (fun d => d = [Some (48 + i); y]))|]. intros _ ->.
  eapply usafe_bind; [by apply (usafe_ulift _ [Some (48 + i); Some 10] (fun d => d = [Some (48 + i); Some 10]))|]. intros _ ->.
  eapply usafe_bind; [by eapply (uwrite_safe _ [48 + i; 10] 2 (fun _ => True)); [exists []|..]|]. intros _ _.
  eapply usafe_bind; [by apply (usafe_sys _ (fun _ => True))|]. intros _ _. by apply IH.
Qed.
#[local] Instance counter_safe : Safe (ends counter_body).
Proof.
  apply ends_safe. unfold counter_body. eapply usafe_bind; [by apply counter_loop_safe|]. intros _ _.
  eapply usafe_bind; [by apply (uput_safe _ (fun _ => True))|]. intros _ _.
  eapply usafe_bind; [by apply (usafe_sys _ (fun _ => True))|]. done.
Qed.
#[local] Instance console_safe : Safe (loops console_init console_turn).
Proof.
  exists (fun s => exists l, console_ok s l).
  - exists []. split; [split; [done|apply holds_nil|done]|done|split; [cbn; lia|constructor]].
  - intros s [l Hs]. eapply uwp_usafe; [by apply (console_turn_wp s l (fun _ => True))|]. intros s' t (l' & H & _). by exists l'.
Qed.
#[local] Instance shell_safe : Safe (mkService shell_st shell_start shell_turn).
Proof.
  exists shell_ok.
  - change (usafe shell_start shell_ok). unfold shell_start. eapply usafe_bind; [by apply (uput_safe _ (fun _ => True))|]. intros _ _. split; reflexivity.
  - intros s Hs. eapply uwp_usafe; [by apply (shell_turn_wp s (fun _ => True))|]. by intros s' t [? _].
Qed.
#[local] Instance loader_safe : Safe (mkService loader_st (ulift loader_init) loader_turn).
Proof.
  exists (fun s => exists sts, loader_ok s sts).
  - eapply (usafe_ulift loader_init); [reflexivity|]. exists [0; 0; 0; 0].
    split; try done. split; [done|]. repeat (constructor; [lia|]). constructor.
  - intros s [sts Hs]. eapply uwp_usafe; [by apply (loader_turn_wp s sts (fun _ => True))|]. intros s' t (sts' & H & _). by exists sts'.
Qed.
#[local] Instance fs_safe : Safe (loops (uninit 64) fs_turn).
Proof.
  exists (fun b => length b = 64%nat); [done|]. intros b Hb.
  eapply uwp_usafe; [by apply (fs_turn_wp b (fun _ => True))|]. by intros b' t [? _].
Qed.
#[local] Instance storage_safe : Safe (loops storage_init storage_turn).
Proof.
  exists storage_ok; [done|]. intros s Hs. eapply uwp_usafe; [by apply (storage_turn_wp s (fun _ => True))|]. by intros s' t [? _].
Qed.
Lemma usafe_if {A} (b : bool) (p q : prog A) I : usafe p I -> usafe q I -> usafe (if b then p else q) I.
Proof. by destruct b. Qed.
#[local] Instance manager_safe : Safe (mkService driver_manager_st driver_manager_start driver_manager_turn).
Proof.
  exists manager_ok.
  - change (usafe driver_manager_start manager_ok). unfold driver_manager_start.
    eapply usafe_bind; [by apply (usafe_sys _ (fun _ => True))|]. intros r _.
    eapply usafe_bind with (I := fun st => 0 <= st <= 2).
    { apply usafe_if; (eapply usafe_bind; [by apply (uput_safe _ (fun _ => True))|]; intros _ _); [|apply usafe_ret; lia].
      eapply usafe_bind; [by apply (usafe_sys _ (fun _ => True))|]. intros _ _. apply usafe_ret. lia. }
    intros st Hst. eapply usafe_bind; [by apply (usafe_sys _ (fun _ => True))|]. intros r' _.
    eapply usafe_bind with (I := fun st => 0 <= st <= 2).
    { apply usafe_if; [|apply usafe_ret; lia]. eapply usafe_bind; [by apply (uput_safe _ (fun _ => True))|]. intros _ _. apply usafe_ret. lia. }
    intros net Hnet. by apply usafe_ret.
  - intros s Hs. eapply uwp_usafe; [by apply (manager_turn_wp s (fun _ => True))|]. by intros s' t [? _].
Qed.
(** Device queries and the first interrupt of the drivers' starts. *)
Lemma device_info_safe cap max (k : prog ptr) (I : ptr -> Prop) : (max <= 768)%nat -> usafe k I ->
  usafe (sys_out (UDeviceInfo cap max) (uninit max) ;; k) I.
Proof.
  intros Hm Hk. eapply usafe_bind with (I := fun _ => True); [|done].
  eapply (usafe_out _ _ max); [done|by unfold uninit; rewrite length_replicate|exact Hm|done].
Qed.
#[local] Instance block_safe : Safe (mkService ptr block_start block_turn).
Proof.
  exists (fun b => length b = 64%nat).
  - change (usafe block_start (fun b => length b = 64%nat)). unfold block_start. apply device_info_safe; [lia|].
    do 4 (eapply usafe_bind; [by apply (usafe_sys _ (fun _ => True))|]; intros _ _).
    eapply usafe_bind with (I := fun r => length r.2 = 64%nat); [|by intros r Hr].
    eapply (usafe_out _ _ 1); [done|vm_compute; lia|cbn; lia|]. by intros r b m _ Hl _ _.
  - intros b Hb. change (usafe (block_turn b) (fun b => length b = 64%nat)). unfold block_turn.
    apply uwp_serve; [lia|lia|intros a cp _ Hl; unfold id; congruence|].
    intros a cp _ Hh Hl _ _. eapply uwp_cmd; [exact Hh|done|]. case_bool_decide.
    { eapply (uwp_then_ret _ (fun _ => cp)); [intros D; apply say_wp; vm_compute; lia|]. intros; congruence. }
    eapply uwp_cmd; [exact Hh|done|]. case_bool_decide; [done|].
    eapply (uwp_then_ret _ (fun _ => cp)); [intros D; apply say_wp; vm_compute; lia|]. intros; congruence.
Qed.
#[local] Instance net_driver_safe : Safe (mkService net_driver_st net_driver_start net_driver_turn).
Proof.
  exists net_driver_ok.
  - change (usafe net_driver_start net_driver_ok). unfold net_driver_start.
    eapply usafe_bind with (I := fun _ => True); [eapply (usafe_out _ _ 128); [done|vm_compute; lia|cbn; lia|done]|]. intros _ _.
    eapply usafe_bind; [by apply (uput_safe _ (fun _ => True))|]. intros _ _.
    eapply usafe_bind with (I := fun r => length r.2 = 64%nat).
    { eapply (usafe_out _ _ 1); [done|vm_compute; lia|cbn; lia|]. by intros r b m _ Hl _ _. }
    intros r Hr. apply usafe_ret. split; [done|done|by vm_compute..].
  - intros s Hs. eapply uwp_usafe; [by apply (net_driver_turn_wp s (fun _ => True))|]. by intros s' t [? _].
Qed.
#[local] Instance net_service_safe : Safe (mkService net_service_st net_service_start net_service_turn).
Proof.
  exists net_service_ok.
  - change (usafe net_service_start net_service_ok). unfold net_service_start.
    eapply usafe_bind; [by apply (uput_safe _ (fun _ => True))|]. intros _ _. apply usafe_ret. split; by vm_compute.
  - intros s Hs. eapply uwp_usafe; [by apply (net_service_turn_wp s (fun _ => True))|]. by intros s' t [? _].
Qed.

Lemma services_safe n : Forall (fun s => usafe (run_service s n) (fun _ => True)) services.
Proof.
  unfold services. repeat (apply Forall_cons; split; [eapply usafe_mono; [apply run_safe; apply _|done]|]). apply Forall_nil_2.
Qed.
End services.

(** C6. No service ever leaves its memory.  For each of the sixteen tasks,
    any number of turns of its loop after its start, whatever the kernel
    answers within its contract, reads only bytes it has written, reads and
    writes inside its buffers, never subtracts below zero or overflows a
    counter, and never passes a call a length the kernel refuses. *)
Theorem services_memory_safe mem n : (64 <= length mem)%nat ->
  Forall (fun s => usafe (run_service s n) (fun _ => True)) (services mem) /\
  (forall s ans, s ∈ services mem ->
     Forall2 answers (uexec (run_service s n) ans).1 (take (length (uexec (run_service s n) ans).1) ans) ->
     match (uexec (run_service s n) ans).2 with EWild => False | EWaiting c => call_ok c | _ => True end).
Proof.
  intros Hm. pose proof (services_safe mem Hm n) as H. split; [exact H|]. intros s ans Hs Ha.
  rewrite Forall_forall in H. specialize (H s Hs). destruct (uexec (run_service s n) ans) as [cs e] eqn:E.
  pose proof (uwp_uexec _ _ _ _ _ _ H E Ha) as Hx. by destruct e.
Qed.

Lemma services_memory_safe_witness :
  length (services (replicate 64 0)) = 16%nat /\
  Forall (fun s => usafe (run_service s 100) (fun _ => True)) (services (replicate 64 0)).
Proof.
  split; [reflexivity|]. apply (services_memory_safe (replicate 64 0) 100). rewrite length_replicate. lia.
Defined.
