(* ===== verification/OsBoot.v ===== *)
(** * Booting the operating system

    Models the first part of [os_boot.rs]: the service table, the
    capabilities the boot grants and [os_boot] itself.  The addresses of the
    service bodies and of the stacks are the linker's; they are parameters.
    [timer::init] sets an interrupt-enable bit that the machine of
    [System] does not have (a trap may come at any step), so only
    [timer::arm_next] appears.

    The theorems combine the boot table with the kernel's invariants: what
    each task can ever do in a run of the booted system. *)

From stdpp Require Import strings sets base decidable numbers option relations tactics list.
From S2P Require Import Prelude Bytes Caps Memory Sv39 Paging PagingHw Capacity Device Kernel Dispatch.
From S2P Require Import DispatchLogic DispatchInv DispatchOps DispatchSafe DispatchSys DispatchCtl Trap TrapSafe System.
Local Open Scope Z_scope.

Module Boot.

(** ** Endpoints and rights *)

Definition EP_APP : Z := 0.
Definition EP_LINE : Z := 1.
Definition EP_FAULT : Z := 2.
Definition EP_EVENT : Z := 3.
Definition EP_FS : Z := 4.
Definition EP_STOR : Z := 5.
Definition EP_DRV : Z := 6.
Definition EP_BLK : Z := 7.
Definition EP_IRQ : Z := 8.
Definition EP_NET_DRV : Z := 9.
Definition EP_NET_IRQ : Z := 10.
Definition EP_NET : Z := 11.

Definition CAP_RIGHT_SEND : Z := RIGHT_SEND.
Definition CAP_RIGHT_RECV : Z := RIGHT_RECV.
Definition CAP_RIGHT_CONTROL : Z := RIGHT_CONTROL.
Definition CAP_RIGHT_FS_READ : Z := 1 .<< 5.
Definition CAP_RIGHT_FS_LIST : Z := 1 .<< 6.
Definition CAP_RIGHT_STORAGE_INFO : Z := 1 .<< 8.
Definition CAP_RIGHT_STORAGE_READ : Z := 1 .<< 9.
Definition CAP_RIGHT_NET_STATUS : Z := 1 .<< 10.
Definition CAP_RIGHT_NET_TX : Z := 1 .<< 11.
Definition CAP_RIGHT_NET_RX : Z := 1 .<< 12.
Definition CAP_RIGHT_NET_CONTROL : Z := 1 .<< 13.
Definition DEV_RIGHT_NETWORK_DRIVER : Z := 1 .<< 7.

(** ** The service table *)

Definition NO_CAPS : list (option Cap) := replicate CAPS_PER_TASK None.

Definition TABLE : list ServiceDef := [
  mkService "supervisor_service" 0 0 6 1 NO_CAPS;
  mkService "logger_service" 0 0 5 2 NO_CAPS;
  mkService "console_service" 0 0 1 3 NO_CAPS;
  mkService "shell_service" 0 0 3 4 NO_CAPS;
  mkService "faulty_task" 0 0 4 5 NO_CAPS;
  mkService "app_loader_service" 0 0 2 6 NO_CAPS;
  mkService "hello" 0 0 2 7 NO_CAPS;
  mkService "fault_demo" 0 0 2 8 NO_CAPS;
  mkService "counter" 0 0 2 9 NO_CAPS;
  mkService "fs_service" 0 0 2 10 NO_CAPS;
  mkService "storage_service" 0 0 2 11 NO_CAPS;
  mkService "driver_manager" 0 0 2 12 NO_CAPS;
  mkService "block_driver_service" 0 0 2 13 NO_CAPS;
  mkService "net_driver_service" 0 0 2 14 NO_CAPS;
  mkService "net_service" 0 0 2 15 NO_CAPS].

(** Where the linker puts the bodies (by slot: [init_body] is 0) and the
    stacks. *)
Record Layout := mkLayout { body : nat -> Z; OS_STACKS : Z }.

Section boot.
Context {P : Platform} (read_time : Kernel -> Z) (L : Layout).

Definition stack_phys (i : nat) : Z := OS_STACKS L + 4096 * Z.of_nat i.

(** [caps[j] = Some(c_j)] for j = 0, 1, ... *)
Fixpoint place (j : nat) (cs : list Cap) (caps : list (option Cap)) : list (option Cap) :=
  match cs with [] => caps | c :: cs => place (S j) cs (<[j := Some c]> caps) end.

(** [table[i].entry = ..; table[i].stack_phys = ..; table[i].caps[..] = ..] *)
Definition patch (i : nat) (cs : list Cap) (table : list ServiceDef) : list ServiceDef :=
  alter (fun d => mkService (sd_name d) (body L (S i)) (stack_phys (S i)) (sd_prio d) (sd_slot d)
                    (place 0 cs (sd_caps d))) i table.

(** What [os_boot] grants to each entry of the table: the system services,
    the loader and the applications, then the file, device and network
    services. *)
Definition grants_system : list (list Cap) := [
  (* supervisor *) [cap_endpoint EP_FAULT (CAP_RIGHT_RECV .| CAP_RIGHT_CONTROL)];
  (* logger *) [cap_endpoint EP_EVENT CAP_RIGHT_RECV];
  (* console *) [cap_endpoint EP_LINE CAP_RIGHT_SEND; cap_console (CAP_RIGHT_RECV .| CAP_RIGHT_SEND)];
  (* shell *)
  [cap_endpoint EP_LINE CAP_RIGHT_RECV; cap_console CAP_RIGHT_SEND; cap_info; cap_control;
   cap_endpoint EP_APP (CAP_RIGHT_SEND .| CAP_RIGHT_RECV);
   cap_endpoint EP_FS (CAP_RIGHT_SEND .| CAP_RIGHT_RECV .| CAP_RIGHT_FS_READ .| CAP_RIGHT_FS_LIST);
   cap_endpoint EP_STOR
     (CAP_RIGHT_SEND .| CAP_RIGHT_RECV .| CAP_RIGHT_STORAGE_INFO .| CAP_RIGHT_STORAGE_READ);
   cap_endpoint EP_DRV (CAP_RIGHT_SEND .| CAP_RIGHT_RECV);
   cap_endpoint EP_NET
     (CAP_RIGHT_SEND .| CAP_RIGHT_RECV .| CAP_RIGHT_NET_STATUS .| CAP_RIGHT_NET_TX
      .| CAP_RIGHT_NET_RX .| CAP_RIGHT_NET_CONTROL)];
  (* faulty_task *) [];
  (* app_loader *)
  [cap_endpoint EP_APP (CAP_RIGHT_RECV .| CAP_RIGHT_SEND); cap_control;
   cap_endpoint EP_FS (CAP_RIGHT_SEND .| CAP_RIGHT_RECV .| CAP_RIGHT_FS_READ);
   cap_console CAP_RIGHT_SEND; cap_info];
  (* hello *) [cap_console CAP_RIGHT_SEND];
  (* fault_demo *) [];
  (* counter *) [cap_console CAP_RIGHT_SEND]].
Definition grants_devices : list (list Cap) := [
  (* fs *)
  [cap_endpoint EP_FS (CAP_RIGHT_RECV .| CAP_RIGHT_SEND);
   cap_endpoint EP_STOR (CAP_RIGHT_SEND .| CAP_RIGHT_RECV .| CAP_RIGHT_STORAGE_READ)];
  (* storage *) [cap_endpoint EP_STOR (CAP_RIGHT_RECV .| CAP_RIGHT_SEND)];
  (* driver_manager *)
  [cap_endpoint EP_DRV (CAP_RIGHT_RECV .| CAP_RIGHT_SEND);
   cap_endpoint EP_BLK (CAP_RIGHT_SEND .| CAP_RIGHT_RECV); cap_control; cap_console CAP_RIGHT_SEND;
   cap_device 0 DEV_RIGHT_DRIVER_CONTROL;
   cap_endpoint EP_NET_DRV (CAP_RIGHT_SEND .| CAP_RIGHT_RECV); cap_device 1 DEV_RIGHT_DRIVER_CONTROL];
  (* block_driver *)
  [cap_endpoint EP_BLK (CAP_RIGHT_RECV .| CAP_RIGHT_SEND);
   cap_device 0 (DEV_RIGHT_INFO .| DEV_RIGHT_MMIO_READ .| DEV_RIGHT_DMA_READ .| DEV_RIGHT_DMA_WRITE
                 .| DEV_RIGHT_IRQ_RECEIVE);
   cap_endpoint EP_IRQ CAP_RIGHT_RECV];
  (* net_driver *)
  [cap_endpoint EP_NET_DRV (CAP_RIGHT_RECV .| CAP_RIGHT_SEND);
   cap_device 1 (DEV_RIGHT_INFO .| DEV_RIGHT_IRQ_RECEIVE .| DEV_RIGHT_NETWORK_DRIVER);
   cap_endpoint EP_NET_IRQ CAP_RIGHT_RECV; cap_console CAP_RIGHT_SEND];
  (* net_service *)
  [cap_endpoint EP_NET
     (CAP_RIGHT_RECV .| CAP_RIGHT_SEND .| CAP_RIGHT_NET_STATUS .| CAP_RIGHT_NET_TX
      .| CAP_RIGHT_NET_RX .| CAP_RIGHT_NET_CONTROL);
   cap_endpoint EP_NET_DRV (CAP_RIGHT_SEND .| CAP_RIGHT_RECV);
   cap_endpoint EP_DRV (CAP_RIGHT_SEND .| CAP_RIGHT_RECV); cap_console CAP_RIGHT_SEND]].

Definition grants : list (list Cap) := grants_system ++ grants_devices.

Fixpoint patch_all (i : nat) (gs : list (list Cap)) (table : list ServiceDef) : list ServiceDef :=
  match gs with [] => table | cs :: gs => patch_all (S i) gs (patch i cs table) end.
Definition table : list ServiceDef := patch_all 0 grants TABLE.

(** [pub fn os_boot() -> !]: what it leaves behind, and where it enters
    user mode. *)
Definition os_boot : M (Z * Z) :=
  set_service_table table ;;
  register_devices ;;
  uas ← build_space 0 (body L 0) (stack_phys 0);
  register_task 0 "init_service" 7 (root uas) (entry_va uas) (stack_top_va uas) ;;
  set_boot_cap 0 cap_control ;;
  put_str "TASK_STARTED task=init_service" ;; put_str nl ;;
  arm_next read_time ;;
  start.

(** The image has the linker script's shape and its address spaces fit their
    tables; the stacks are within the physical addresses of a page table. *)
Record layout_ok : Prop := {
  lo_image : Fit.linker_fits linker;
  lo_stacks : 0 <= OS_STACKS L /\ OS_STACKS L + 4096 * Z.of_nat MAX_TASKS <= 2 ^ 55
}.

(** ** The boot sequence *)

(** Before [init_service] is registered. *)
Definition devices_up (k : Kernel) : Prop :=
  boot_inv k /\ tasks k = replicate MAX_TASKS EMPTY_TCB /\ service_table k = Some table /\ mmio_log k = [].

(** Afterwards: one task, and nothing but the table. *)
Definition init_up (k : Kernel) : Prop :=
  service_table k = Some table /\ mmio_log k = [] /\
  exists t, tasks k = <[0%nat := t]> (replicate MAX_TASKS EMPTY_TCB) /\
    t_caps t = place 0 [cap_control] NO_CAPS.

Lemma table_slots d : d ∈ table -> exists i, (i < MAX_TASKS)%nat /\ sd_slot d = i /\
  sd_entry d = body L i /\ sd_stack_phys d = stack_phys i /\ caps_ok (sd_caps d).
Proof.
  intros Hd. unfold table in Hd. cbn -[stack_phys place NO_CAPS Z.mul] in Hd.
  repeat (apply elem_of_cons in Hd as [->|Hd]; [eexists; split; [|split; [reflexivity|split; [reflexivity|split;
    [reflexivity|]]]]; [cbn; unfold MAX_TASKS; lia|]|]); [..|by apply elem_of_nil in Hd].
  all: cbn [sd_caps]; split; [by vm_compute|]; intros c Hc; vm_compute in Hc;
    repeat (apply elem_of_cons in Hc as [Hc|Hc];
      [first [discriminate Hc|injection Hc as ->; vm_compute; intuition congruence]|]);
    by apply elem_of_nil in Hc.
Qed.

Hypothesis layout : layout_ok.

Lemma spaces_fit i : (i < MAX_TASKS)%nat -> exists r, build_service_address_space linker
  (replicate MAX_USER_AS fresh_tables) i (body L i) (stack_phys i) = Val r.
Proof.
  intros Hi. destruct layout as [F [S0 S1]]. apply Fit.service_space_fits; [done|by apply lookup_replicate_2|done|].
  unfold uint, stack_phys. unfold MAX_TASKS in *. lia.
Qed.

Lemma table_ok d : d ∈ table -> service_ok d.
Proof.
  intros (i & Hi & Es & Ee & Ep & Hc)%table_slots. split; [by rewrite Es|]. split; [done|].
  rewrite Es, Ee, Ep. by apply spaces_fit.
Qed.

Lemma devices_up_ok um : wp (set_service_table table ;; register_devices) (fun _ => devices_up)
  (fun _ => False) (static_state um).
Proof.
  kstep. eapply wp_mono with (Q := fun _ => devices_up) (S := fun _ => False); [|intros _ k Hk|done].
  - unfold wp. split; [|done]. apply (boot_op_inv (BServices table) _ (static_inv um)).
    cbn [boot_op_ok]. apply table_ok.
  - unfold register_devices. apply wp_for_each; [done|]. clear k Hk. intros i k Hi%elem_of_seq Hk.
    kstep. apply wp_device; [lia|]. intros d _ _. ksteps. exact Hk.
Qed.

Lemma init_space k : devices_up k ->
  wp (uas ← build_space 0 (body L 0) (stack_phys 0);
      register_task 0 "init_service" 7 (root uas) (entry_va uas) (stack_top_va uas))
    (fun _ k' => boot_inv k' /\ service_table k' = Some table /\ mmio_log k' = [] /\
       exists t, tasks k' = <[0%nat := t]> (replicate MAX_TASKS EMPTY_TCB) /\ t_caps t = NO_CAPS)
    (fun _ => False) k.
Proof.
  intros ((W & Hr & Hw & Ha) & Et & Est & Em). destruct (spaces_fit 0%nat) as [r Hb]; [unfold MAX_TASKS; lia|].
  assert (tasks k !! 0%nat = Some EMPTY_TCB) as Ht by (rewrite Et; apply lookup_replicate_2; unfold MAX_TASKS; lia).
  pose proof W as [[Lt Ft] We ? ? ? ? ? [Lu Fu] ? ?].
  destruct (build_any linker (user_tables k) 0%nat _ _ r (Fu 0%nat _ Ht eq_refl) Lu Hb) as (tabs & Hb' & He & Hst).
  unfold build_space. kstep. kstep. do 2 kstep. eapply wp_lift; [exact Hb'|]. do 3 kstep.
  unfold register_task. kstep. apply wp_fresh_frame; [done|]. intros f Hf _ _.
  apply wp_put_task; [ksimpl; by eapply lookup_lt_Some|]. ksimpl. split; [|split; [done|split; [done|]]].
  - split; [|split; [|done]].
    + split; try done; ksimpl.
      * split; [by rewrite length_insert|]. intros j t [[_ ->]|[_ Hj]]%insert_lookup_cases; [|by eapply Ft].
        split; [done|]. split; [split; [apply length_replicate|]|done].
        intros c Hc. by apply elem_of_replicate in Hc as [? _].
      * destruct We. split; try done. by intros j tid ?%Hw.
      * cbn [snd]. split; [by rewrite length_insert|]. intros j t [[_ ->]|[Hne Hj]]%insert_lookup_cases Hem; [done|].
        rewrite list_lookup_insert_ne by done. by eapply Fu.
    + ksimpl. apply run_is_insert; [rewrite Lt; unfold MAX_TASKS; lia|done..].
  - rewrite Et. eexists. split; reflexivity.
Qed.

Lemma start_init k t : tasks k = <[0%nat := t]> (replicate MAX_TASKS EMPTY_TCB) ->
  wp start (fun _ k' => service_table k' = service_table k /\ mmio_log k' = mmio_log k /\
    tasks k' = <[0%nat := with_state Running t]> (replicate MAX_TASKS EMPTY_TCB)) (fun _ => False) k.
Proof.
  intros Et. assert (tasks k !! 0%nat = Some t) as Ht.
  { rewrite Et. apply list_lookup_insert_eq. rewrite length_replicate. unfold MAX_TASKS. lia. }
  unfold start. kstep. kstep. kstep. apply (wp_upd_task 0%nat t); [done|]. do 3 kstep.
  eapply wp_task; [ksimpl; apply list_lookup_insert_eq; by eapply lookup_lt_Some|].
  unfold switch_to_user_space. do 3 kstep. split; [done|]. split; [done|]. by rewrite Et, list_insert_insert_eq.
Qed.

Lemma wp_bind_inv {A B} (m : M B) (f : B -> M A) Q S k : wp (m ≫= f) Q S k ->
  wp m (fun b => wp (f b) Q S) S k.
Proof. unfold wp, mbind, M_bind. by destruct (m k). Qed.
Lemma wp_both {A} (m : M A) (Q1 Q2 : A -> Kernel -> Prop) S k : wp m Q1 S k -> wp m Q2 S k ->
  wp m (fun a k => Q1 a k /\ Q2 a k) S k.
Proof. unfold wp. by destruct (m k). Qed.

Lemma wp_returns {A} (m : M A) (Q : A -> Kernel -> Prop) k : wp m Q (fun _ => False) k ->
  exists a k', m k = Ret a k' /\ Q a k'.
Proof. unfold wp. destruct (m k) as [a k'| |]; [by exists a, k'|done..]. Qed.

Lemma init_cap k t : boot_inv k -> service_table k = Some table -> mmio_log k = [] ->
  tasks k = <[0%nat := t]> (replicate MAX_TASKS EMPTY_TCB) -> t_caps t = NO_CAPS ->
  wp (set_boot_cap 0 cap_control) (fun _ k' => boot_inv k' /\ init_up k') (fun _ => False) k.
Proof.
  intros Hb Es Em Et Ec. assert (tasks k !! 0%nat = Some t) as Ht.
  { rewrite Et. apply list_lookup_insert_eq. rewrite length_replicate. unfold MAX_TASKS. lia. }
  apply wp_both.
  - apply (boot_op_inv (BBootCap 0 cap_control)); [done|]. split; [unfold MAX_TASKS; lia|]. by vm_compute.
  - unfold set_boot_cap. kstep. apply (wp_task 0%nat t); [done|]. kstep.
    eapply wp_lift; [apply arr_set_lt; rewrite Ec; cbn; lia|].
    apply wp_put_task; [by eapply lookup_lt_Some|]. ksimpl. split; [done|]. split; [done|].
    eexists. ksimpl. rewrite Et, list_insert_insert_eq. split; [reflexivity|]. cbn [t_caps with_caps]. by rewrite Ec.
Qed.

Lemma os_boot_ok um : wp os_boot (fun _ k => KInv k /\ init_up k) (fun _ => False) (static_state um).
Proof.
  pose proof (devices_up_ok um) as H. apply wp_bind_inv in H.
  unfold os_boot. kstep. eapply wp_mono; [exact H|cbv beta; intros _ k1 H1|done].
  kstep. eapply wp_mono; [exact H1|cbv beta; intros _ k2 H2|done].
  pose proof (init_space k2 H2) as H3. apply wp_bind_inv in H3.
  kstep. eapply wp_mono; [exact H3|cbv beta; intros uas k3 H4|done].
  kstep. eapply wp_mono; [exact H4|cbv beta; intros _ k4 (Hb & Es & Em & t & Et & Ec)|done].
  kstep. eapply wp_mono; [exact (init_cap k4 t Hb Es Em Et Ec)|cbv beta; intros _ k5 (Hb5 & Es5 & Em5 & t5 & Et5 & Ec5)|done].
  kstep. kstep. kstep. kstep. unfold arm_next. kstep. do 3 kstep. apply wp_both.
  - eapply wp_mono; [by apply boot_start|done|done].
  - eapply wp_mono; [by apply (start_init _ t5)|cbv beta; intros e k6 (E1 & E2 & E3)|done].
    unfold init_up. rewrite E1, E2, E3. split; [done|]. split; [done|]. eexists. by split.
Qed.

(** ** Who may do what *)

(** The tasks that can send on each endpoint, and those that can receive:
    nobody sends on the channels the kernel itself feeds (faults, events,
    interrupts). *)
Definition senders (ep : Z) : list nat :=
  if ep =? EP_LINE then [3]%nat else if ep =? EP_APP then [4; 6]%nat else if ep =? EP_FS then [4; 6; 10]%nat
  else if ep =? EP_STOR then [4; 10; 11]%nat else if ep =? EP_DRV then [4; 12; 15]%nat
  else if ep =? EP_BLK then [12; 13]%nat else if ep =? EP_NET_DRV then [12; 14; 15]%nat
  else if ep =? EP_NET then [4; 15]%nat else [].
Definition receivers (ep : Z) : list nat :=
  if ep =? EP_LINE then [4]%nat else if ep =? EP_FAULT then [1]%nat else if ep =? EP_EVENT then [2]%nat
  else if ep =? EP_IRQ then [13]%nat else if ep =? EP_NET_IRQ then [14]%nat else senders ep.

(** The device rights: nobody may write device registers. *)
Definition device_holders (dev right : Z) : list nat :=
  if right =? DEV_RIGHT_DRIVER_CONTROL then [12]%nat
  else if dev =? 0 then
    if (right =? DEV_RIGHT_INFO) || (right =? DEV_RIGHT_MMIO_READ) || (right =? DEV_RIGHT_DMA_READ)
       || (right =? DEV_RIGHT_DMA_WRITE) || (right =? DEV_RIGHT_IRQ_RECEIVE) then [13]%nat else []
  else if (right =? DEV_RIGHT_INFO) || (right =? DEV_RIGHT_IRQ_RECEIVE)
          || (right =? DEV_RIGHT_NETWORK_DRIVER) then [14]%nat else [].
Definition device_rights : list Z :=
  [DEV_RIGHT_INFO; DEV_RIGHT_MMIO_READ; DEV_RIGHT_MMIO_WRITE; DEV_RIGHT_DMA_READ; DEV_RIGHT_DMA_WRITE;
   DEV_RIGHT_IRQ_RECEIVE; DEV_RIGHT_DRIVER_CONTROL; DEV_RIGHT_NETWORK_DRIVER].

(** Task control, introspection, and the console. *)
Definition controllers : list nat := [0; 4; 6; 12]%nat.
Definition informed : list nat := [4; 6]%nat.
Definition console_readers : list nat := [3]%nat.
Definition console_writers : list nat := [3; 4; 6; 7; 9; 12; 14; 15]%nat.

Definition mem (i : nat) (l : list nat) : bool := existsb (Nat.eqb i) l.

(** The policy, capability by capability. *)
Definition permitted (i : nat) (c : Cap) : bool :=
  if otype c =? OTYPE_ENDPOINT then
    (lacks c RIGHT_SEND || mem i (senders (object_id c))) && (lacks c RIGHT_RECV || mem i (receivers (object_id c)))
  else if otype c =? OTYPE_DEVICE then
    forallb (fun r => lacks c r || mem i (device_holders (object_id c) r)) device_rights
  else if otype c =? OTYPE_CONTROL then mem i controllers
  else if otype c =? OTYPE_INFO then mem i informed
  else (otype c =? OTYPE_CONSOLE) && (lacks c RIGHT_RECV || mem i console_readers)
       && (lacks c RIGHT_SEND || mem i console_writers).
Definition all_permitted (i : nat) (cs : list (option Cap)) : bool :=
  forallb (fun oc => match oc with Some c => permitted i c | None => true end) cs.

Lemma table_permitted : forallb (fun d => all_permitted (sd_slot d) (sd_caps d)) table = true.
Proof. vm_compute. reflexivity. Qed.

(** The slots of the table with a capability of a kind: the policy has no
    name that the boot does not grant. *)
Definition slots_with (ot : Z) (id : option Z) (r : Z) : list nat :=
  sd_slot <$> List.filter (fun d => existsb (fun oc => match oc with
    | Some c => (otype c =? ot) && match id with Some n => object_id c =? n | None => true end && negb (lacks c r)
    | None => false end) (sd_caps d)) table.

Definition tight : Prop :=
  Forall (fun ep => senders ep = slots_with OTYPE_ENDPOINT (Some ep) RIGHT_SEND /\
                    receivers ep = slots_with OTYPE_ENDPOINT (Some ep) RIGHT_RECV)
    [EP_APP; EP_LINE; EP_FAULT; EP_EVENT; EP_FS; EP_STOR; EP_DRV; EP_BLK; EP_IRQ; EP_NET_DRV; EP_NET_IRQ; EP_NET] /\
  Forall (fun dev => Forall (fun r => device_holders dev r = slots_with OTYPE_DEVICE (Some dev) r) device_rights)
    [0; 1] /\
  controllers = 0%nat :: slots_with OTYPE_CONTROL None RIGHT_CONTROL /\
  informed = slots_with OTYPE_INFO None RIGHT_RECV /\
  console_readers = slots_with OTYPE_CONSOLE None RIGHT_RECV /\
  console_writers = slots_with OTYPE_CONSOLE None RIGHT_SEND.
#[local] Instance tight_dec : Decision tight.
Proof. unfold tight. apply _. Defined.
Lemma policy_tight : tight.
Proof. apply (bool_decide_unpack tight). vm_compute. exact I. Qed.

Lemma all_permitted_cap i cs c : all_permitted i cs = true -> Some c ∈ cs -> permitted i c = true.
Proof.
  unfold all_permitted. rewrite forallb_forall. intros H Hc. apply (H (Some c)). by apply list_elem_of_In.
Qed.

(** Every task of every run keeps to it. *)
Lemma run_permitted k k' i t c : KInv k -> init_up k -> rtc (step read_time) k k' ->
  tasks k' !! i = Some t -> Some c ∈ t_caps t -> permitted i c = true.
Proof.
  intros K (Es & _ & t0 & Et & Ec) Hrun Ht. apply all_permitted_cap.
  destruct (run_tasks read_time k k' K Hrun) as [_ Ho].
  destruct (Ho i t Ht) as (t1 & Ht1 & [Hid|(He & tb & d & Htb & Hd & Hsl & Hst)]).
  - rewrite (proj1 Hid). rewrite Et in Ht1. apply insert_lookup_cases in Ht1 as [[-> ->]|[_ Ht1]].
    + rewrite Ec. vm_compute. reflexivity.
    + apply lookup_replicate_1 in Ht1 as [-> _]. vm_compute. reflexivity.
  - rewrite (proj1 Hst). assert (tb = table) as -> by congruence. pose proof table_permitted as Hp.
    rewrite forallb_forall in Hp. rewrite <- Hsl. apply Hp. by apply list_elem_of_In.
Qed.

Lemma mem_elem i l : mem i l = true -> i ∈ l.
Proof.
  unfold mem. intros (j & Hj & E)%existsb_exists. apply Nat.eqb_eq in E as <-. by apply list_elem_of_In.
Qed.

Lemma cap_lookup_cap cs ci r ep : cap_lookup cs ci r = CcOk ep ->
  exists c, Some c ∈ cs /\ otype c = OTYPE_ENDPOINT /\ object_id c = ep /\ lacks c r = false.
Proof.
  unfold cap_lookup. intros H. repeat case_match; try discriminate. bool_facts. simplify_eq.
  match goal with E : cs !! _ = Some (Some ?c) |- _ => exists c; split; [by eapply list_elem_of_lookup_2|done] end.
Qed.

Lemma permitted_endpoint i c : permitted i c = true -> otype c = OTYPE_ENDPOINT ->
  (lacks c RIGHT_SEND = false -> i ∈ senders (object_id c)) /\
  (lacks c RIGHT_RECV = false -> i ∈ receivers (object_id c)).
Proof.
  unfold permitted. intros H E. rewrite E in H. cbn [Z.eqb OTYPE_ENDPOINT] in H.
  apply andb_true_iff in H as [H1 H2]. split; intros El; rewrite El in *; by apply mem_elem.
Qed.
Lemma permitted_device i c r : permitted i c = true -> otype c = OTYPE_DEVICE -> r ∈ device_rights ->
  lacks c r = false -> i ∈ device_holders (object_id c) r.
Proof.
  unfold permitted. intros H E Hr El. rewrite E in H.
  change (forallb (fun r => lacks c r || mem i (device_holders (object_id c) r)) device_rights = true) in H.
  rewrite forallb_forall in H. specialize (H r). rewrite El in H. apply mem_elem, H. by apply list_elem_of_In.
Qed.
Lemma holds_cap_cap cs ot r : holds_cap cs ot r = true ->
  exists c, Some c ∈ cs /\ otype c = ot /\ lacks c r = false.
Proof.
  unfold holds_cap. intros ([c|] & Hc & E)%existsb_exists; [|done]. apply andb_true_iff in E as [E1 E2].
  apply Z.eqb_eq in E1. apply negb_true_iff in E2. exists c. split; [by apply list_elem_of_In|done].
Qed.

(** The types are distinct. *)
Lemma otypes : (OTYPE_CONTROL =? OTYPE_ENDPOINT) = false /\ (OTYPE_CONTROL =? OTYPE_DEVICE) = false /\
  (OTYPE_INFO =? OTYPE_ENDPOINT) = false /\ (OTYPE_INFO =? OTYPE_DEVICE) = false /\
  (OTYPE_INFO =? OTYPE_CONTROL) = false /\ (OTYPE_CONSOLE =? OTYPE_ENDPOINT) = false /\
  (OTYPE_CONSOLE =? OTYPE_DEVICE) = false /\ (OTYPE_CONSOLE =? OTYPE_CONTROL) = false /\
  (OTYPE_CONSOLE =? OTYPE_INFO) = false.
Proof. vm_compute. repeat split. Qed.

Lemma permitted_other i c : permitted i c = true ->
  (otype c = OTYPE_CONTROL -> i ∈ controllers) /\ (otype c = OTYPE_INFO -> i ∈ informed) /\
  (otype c = OTYPE_CONSOLE -> (lacks c RIGHT_RECV = false -> i ∈ console_readers) /\
     (lacks c RIGHT_SEND = false -> i ∈ console_writers)).
Proof.
  destruct otypes as (E1 & E2 & E3 & E4 & E5 & E6 & E7 & E8 & E9). unfold permitted. intros H. split; [|split].
  - intros E. rewrite E, E1, E2, Z.eqb_refl in H. by apply mem_elem.
  - intros E. rewrite E, E3, E4, E5, Z.eqb_refl in H. by apply mem_elem.
  - intros E. rewrite E, E6, E7, E8, E9, Z.eqb_refl in H. cbn [andb] in H. apply andb_true_iff in H as [H1 H2].
    split; intros El; rewrite El in *; by apply mem_elem.
Qed.

(** What the kernel's checks admit in a state. *)
Definition follows_policy (k : Kernel) : Prop := forall i t ci, tasks k !! i = Some t -> ci ∈ᵤ 64 ->
  (forall ep, cap_check i ci RIGHT_SEND k = Ret (CcOk ep) k -> i ∈ senders ep) /\
  (forall ep, cap_check i ci RIGHT_RECV k = Ret (CcOk ep) k -> i ∈ receivers ep) /\
  (forall dev r, r ∈ device_rights -> device_cap_check i ci r k = Ret (CcOk dev) k -> i ∈ device_holders dev r) /\
  (cap_find i OTYPE_CONTROL RIGHT_CONTROL k = Ret true k -> i ∈ controllers) /\
  (cap_find i OTYPE_INFO RIGHT_RECV k = Ret true k -> i ∈ informed) /\
  (cap_find i OTYPE_CONSOLE RIGHT_RECV k = Ret true k -> i ∈ console_readers) /\
  (cap_find i OTYPE_CONSOLE RIGHT_SEND k = Ret true k -> i ∈ console_writers).

Lemma permitted_follows k : KInv k ->
  (forall i t c, tasks k !! i = Some t -> Some c ∈ t_caps t -> permitted i c = true) -> follows_policy k.
Proof.
  intros ([[_ Ft] _ _ _ _ _ _ _ _ _] & _) Hp i t ci Ht [Hci _].
  destruct (Ft i t Ht) as (_ & Hc & _). specialize (Hp i t). rename Hp into Hp0.
  assert (forall c, Some c ∈ t_caps t -> permitted i c = true) as Hp by auto. clear Hp0.
  rewrite !(cap_check_eq i ci _ t k), !(cap_find_eq i _ _ t k) by done.
  split; [|split; [|split; [|split; [|split; [|split]]]]].
  1,2: intros ep [= (c & Hin & Eo & <- & El)%cap_lookup_cap]; apply (permitted_endpoint i c); auto.
  - intros dev r Hr. rewrite (device_cap_check_eq i ci r t k) by done.
    intros [= (c & Hin & Eo & <- & El)%device_lookup_cap]. apply permitted_device; auto.
  - intros [= (c & Hin & Eo & El)%holds_cap_cap]. by apply (permitted_other i c); auto.
  - intros [= (c & Hin & Eo & El)%holds_cap_cap]. by apply (permitted_other i c); auto.
  - intros [= (c & Hin & Eo & El)%holds_cap_cap]. by apply (permitted_other i c); auto.
  - intros [= (c & Hin & Eo & El)%holds_cap_cap]. by apply (permitted_other i c); auto.
Qed.

(** C2. Least privilege, for good.  For an image of the linked size, [os_boot]
    reaches user mode; and in every state any run of user code and traps
    reaches from there, the kernel's checks let a task through only as the
    boot policy says: each endpoint has its senders and receivers (the
    filesystem's clients are the shell and the application loader; nobody can
    send on the fault, event and interrupt channels, so
    no task can forge what the supervisor, the logger or a driver hears),
    device rights belong to the two drivers, driver control to the manager,
    nobody may write device registers, and task control, introspection and
    console input are held by the tasks listed.  The policy is tight: it
    names only tasks whose table entry carries the right ([init_service]
    apart, which is granted task control directly). *)
Theorem os_least_privilege um : tight /\ exists e k, os_boot (static_state um) = Ret e k /\
  forall k', rtc (step read_time) k k' -> follows_policy k'.
Proof.
  split; [exact policy_tight|].
  destruct (wp_returns _ _ _ (os_boot_ok um)) as (e & k & E & K & Hi). exists e, k. split; [exact E|]. intros k' Hrun.
  apply permitted_follows; [by eapply run_inv|]. intros i t c. by eapply run_permitted.
Qed.

(** The registers of the block device. *)
Definition block0_read (a : MmioAccess) : Prop := match a with
  | MmioRd addr width _ => 0x10001000 <= addr /\ addr + width <= 0x10001200
  | MmioWr _ _ _ => False end.

Lemma granted_read k k' a : KInv k -> init_up k -> rtc (step read_time) k k' -> mmio_ok k' a -> block0_read a.
Proof.
  intros K Hi Hrun. assert (forall id r, device_grant k' id r -> r ∈ device_rights ->
    exists i, i ∈ device_holders id r) as Hg.
  { intros id r (t & c & Ht & Hin & Eo & <- & El) Hr. exists (current k'). apply permitted_device; try done.
    by eapply run_permitted. }
  destruct a as [addr w v|addr w v]; intros (id & d & Hd & H1 & H2 & _ & H); apply Hg in H as [i H];
    [|vm_compute; by repeat constructor| |vm_compute; by repeat constructor].
  - unfold device_holders in H. change (DEV_RIGHT_MMIO_READ =? DEV_RIGHT_DRIVER_CONTROL) with false in H.
    destruct (Z.eqb_spec id 0) as [->|_]; cbn in H.
    + injection Hd as <-. cbn in *. lia.
    + by apply elem_of_nil in H.
  - unfold device_holders in H. change (DEV_RIGHT_MMIO_WRITE =? DEV_RIGHT_DRIVER_CONTROL) with false in H.
    destruct (id =? 0); cbn in H; by apply elem_of_nil in H.
Qed.

(** C14. In every run of the booted system no device register is ever written,
    and the only registers read are those of the block device. *)
Theorem os_devices_read_only um : exists e k, os_boot (static_state um) = Ret e k /\
  forall k' a, rtc (step read_time) k k' -> a ∈ mmio_log k' -> block0_read a.
Proof.
  destruct (wp_returns _ _ _ (os_boot_ok um)) as (e & k & E & K & Hi). exists e, k. split; [exact E|]. intros k' a Hrun. revert a.
  enough (Forall block0_read (mmio_log k')) as F by (by rewrite Forall_forall in F).
  revert Hrun. apply (rtc_ind_r (fun k' => Forall block0_read (mmio_log k')) k).
  - destruct Hi as (_ & -> & _). constructor.
  - intros k1 k2 Hrun Hs IH. destruct Hs as [f m i _ _|scause stval k2 Et]; [done|].
    pose proof (trap_done read_time scause stval k1 (run_inv _ _ _ K Hrun)) as Hd. rewrite Et in Hd.
    destruct Hd as [_ S]. destruct (sf_mmio _ _ _ _ _ _ _ S) as (l & -> & F). apply Forall_app. split; [done|].
    eapply Forall_impl; [exact F|]. intros a. by apply (granted_read k).
Qed.

End boot.

(** ** A concrete layout *)

Definition sample_layout : Layout := mkLayout (fun i => 0x8020a000 + 64 * Z.of_nat i) 0x80220000.

Lemma sample_layout_ok : layout_ok sample_layout.
Proof.
  split; [exact Fit.sample_linker_fits|]. unfold MAX_TASKS. change (2 ^ 55) with 36028797018963968. cbn. lia.
Qed.

Lemma os_least_privilege_witness : exists e k,
  os_boot sample_time sample_layout (static_state blank) = Ret e k /\ follows_policy k.
Proof.
  destruct (os_least_privilege sample_time sample_layout sample_layout_ok blank) as (_ & e & k & E & H).
  exists e, k. split; [exact E|]. apply H. apply rtc_refl.
Defined.

Lemma os_devices_read_only_witness : exists e k,
  os_boot sample_time sample_layout (static_state blank) = Ret e k /\ forall a, a ∈ mmio_log k -> block0_read a.
Proof.
  destruct (os_devices_read_only sample_time sample_layout sample_layout_ok blank) as (e & k & E & H).
  exists e, k. split; [exact E|]. intros a. apply (H k). apply rtc_refl.
Defined.

End Boot.
