(* ===== verification/Authority.v ===== *)
(** * The services and the capabilities the boot grants them

    Joins the user side ([Services]) with the kernel side ([OsBoot]): the
    calls each task of [os_boot.rs] makes, against the kernel's checks on the
    capability table the boot gives it. *)

From stdpp Require Import strings base decidable numbers option tactics list.
From S2P Require Import Prelude Bytes Caps Kernel Dispatch DispatchInv DispatchOps System OsBoot.
From S2P Require Import UserText UserProg UserLib SvcStorage AppImage SvcLoader SvcNet SvcDriver SvcShell Services.
Local Open Scope Z_scope.

(** ** Calls a program can make *)

Fixpoint calls_in {A} (P : call -> Prop) (p : prog A) : Prop :=
  match p with
  | PRet _ | PWild | PDie => True
  | PCall c k => P c /\ forall a, calls_in P (k a)
  end.

Section calls.
Context (P : call -> Prop).

Lemma calls_bind {A B} (p : prog A) (f : A -> prog B) : calls_in P p -> (forall a, calls_in P (f a)) ->
  calls_in P (p ≫= f).
Proof.
  intros Hp Hf. induction p as [a|c k IH| |]; cbn in *; [apply Hf| |done..].
  destruct Hp as [? Hk]. split; [done|]. intros a. by apply IH.
Qed.
Lemma calls_ret {A} (a : A) : calls_in P (mret a).
Proof. exact I. Qed.
Lemma calls_lift {A} (o : outcome A) : calls_in P (ulift o).
Proof. by destruct o. Qed.
Lemma calls_sys c : P c -> calls_in P (sys c).
Proof. by split. Qed.
Lemma calls_sys_in c p n : (forall bs, P (c bs)) -> calls_in P (sys_in c p n).
Proof. intros H. apply calls_bind; [apply calls_lift|]. intros bs. by apply calls_sys. Qed.
Lemma calls_sys_out c b : P c -> calls_in P (sys_out c b).
Proof. intros H. split; [done|]. intros a. apply calls_bind; [apply calls_lift|by intros]. Qed.
Lemma calls_turns {S} (turn : S -> prog S) n s : (forall s, calls_in P (turn s)) -> calls_in P (turns turn n s).
Proof. intros H. revert s. induction n as [|n IH]; intros s; cbn; [done|]. by apply calls_bind. Qed.
Lemma calls_service s n : calls_in P (svc_start s) -> (forall st, calls_in P (svc_turn s st)) ->
  calls_in P (run_service s n).
Proof. intros H1 H2. apply calls_bind; [done|]. intros st. by apply calls_turns. Qed.

(** Every call made against any answers is one of them. *)
Lemma calls_made {A} (p : prog A) ans : calls_in P p -> Forall P (uexec p ans).1.
Proof.
  revert ans. induction p as [a|c k IH| |]; intros ans; cbn; [constructor| |constructor..].
  intros [Hc Hk]. destruct ans as [|a ans]; [constructor|]. specialize (IH a ans (Hk a)).
  destruct (uexec (k a) ans) as [t e]. by constructor.
Qed.

(** ** The loops and chains of the services *)

Lemma calls_uwrite_loop fuel p off n : (forall bs, P (UConWrite bs)) -> calls_in P (uwrite_loop fuel p off n).
Proof.
  intros H. revert off. induction fuel as [|f IH]; intros off; cbn [uwrite_loop]; [done|]. cbv zeta.
  case_decide; [|done]. apply calls_bind; [apply calls_lift|intros q]. apply calls_bind; [by apply calls_sys_in|].
  intros r. case_match; [done|apply IH].
Qed.
Lemma calls_uwrite p n : (forall bs, P (UConWrite bs)) -> calls_in P (uwrite_ptr p n).
Proof. intros H. by apply calls_uwrite_loop. Qed.
Lemma calls_uput m : (forall bs, P (UConWrite bs)) -> calls_in P (uput m).
Proof. apply calls_uwrite. Qed.
Lemma calls_is_cmd p n m : calls_in P (is_cmd p n m).
Proof. apply calls_lift. Qed.
Lemma calls_has_prefix p n m : calls_in P (has_prefix p n m).
Proof. apply calls_lift. Qed.
Lemma calls_serve {S} max buf (idle : ptr -> S) body : P (URecv 0 max) ->
  (forall p n, calls_in P (body p n)) -> calls_in P (serve max buf idle body).
Proof.
  intros Hr Hb. unfold serve.
  repeat first [case_decide|case_match|apply calls_bind; [|intros ?]|apply calls_lift|apply calls_ret
    |apply calls_sys_out, Hr|apply Hb].
Qed.
Lemma calls_branch p m arms other : Forall (fun a => calls_in P a.2) arms -> calls_in P other ->
  calls_in P (branch p m arms other).
Proof.
  intros Ha Ho. induction Ha as [|[path act] arms H _ IH]; cbn; [done|].
  apply calls_bind; [apply calls_is_cmd|]. by intros [].
Qed.
Lemma calls_test bp n t : calls_in P (run_test bp n t).
Proof.
  induction t; cbn; [apply calls_is_cmd|apply calls_has_prefix|]. apply calls_bind; [done|]. by intros [].
Qed.
Definition arm_calls (a : arm) : Prop := forall bp n op qp, calls_in P (a bp n op qp).
Lemma calls_chain arms other : Forall (fun a => arm_calls a.2) arms -> arm_calls other ->
  arm_calls (run_chain arms other).
Proof.
  intros Ha Ho. induction Ha as [|[t act] arms H _ IH]; intros bp n op qp; cbn; [apply Ho|].
  apply calls_bind; [apply calls_test|]. intros []; [apply H|apply IH].
Qed.
Lemma calls_init i n : (forall i, P (UTaskStart i)) -> calls_in P (init_core i n).
Proof.
  intros H. revert i. induction n as [|n IH]; intros i; cbn [init_core]; [done|].
  apply calls_bind; [by apply calls_sys|]. intros _. apply IH.
Qed.
Lemma calls_counter dp i n : (forall bs, P (UConWrite bs)) -> P UYield -> calls_in P (counter_loop dp i n).
Proof.
  intros H Hy. revert dp i. induction n as [|n IH]; intros dp i; cbn [counter_loop]; [done|].
  do 3 (apply calls_bind; [first [by apply calls_uput|apply calls_lift]|intros ?]).
  apply calls_bind; [by apply calls_uwrite|intros _]. apply calls_bind; [by apply calls_sys|intros _]. apply IH.
Qed.
Lemma calls_probe cap n : P UYield -> P (UIrqRaise cap) -> calls_in P (dm_probe cap n).
Proof.
  intros Hy Hr. induction n as [|n IH]; cbn [dm_probe]; [done|].
  do 2 (apply calls_bind; [by apply calls_sys|intros ?]). by case_match.
Qed.
End calls.

(** Walks through a body; [P] must reduce on each call's constructor and
    capability index. *)
Ltac is_allowed := intros; vm_compute; reflexivity.
Ltac head_of t := lazymatch t with ?f _ => head_of f | _ => t end.
Ltac walk_step :=
  cbv beta zeta;
  lazymatch goal with
  | |- forall _, _ => intro
  | |- calls_in _ (_ ≫= _) => apply calls_bind; [|intro]
  | |- calls_in _ (mret _) => exact I
  | |- calls_in _ (PRet _) => exact I
  | |- calls_in _ PDie => exact I
  | |- calls_in _ (ulift _) => apply calls_lift
  | |- calls_in _ (sys _) => apply calls_sys; is_allowed
  | |- calls_in _ (sys_in _ _ _) => apply calls_sys_in; is_allowed
  | |- calls_in _ (sys_out _ _) => apply calls_sys_out; is_allowed
  | |- calls_in _ (uput _) => apply calls_uput; is_allowed
  | |- calls_in _ (uwrite_ptr _ _) => apply calls_uwrite; is_allowed
  | |- calls_in _ (is_cmd _ _ _) => apply calls_is_cmd
  | |- calls_in _ (has_prefix _ _ _) => apply calls_has_prefix
  | |- calls_in _ (serve _ _ _ _) => apply calls_serve; [is_allowed|]
  | |- calls_in _ (branch _ _ _ _) => apply calls_branch; [repeat (apply Forall_cons; split); [..|apply Forall_nil; exact I]|]
  | |- calls_in _ (init_core _ _) => apply calls_init; is_allowed
  | |- calls_in _ (counter_loop _ _ _) => apply calls_counter; is_allowed
  | |- calls_in _ (dm_probe _ _) => apply calls_probe; is_allowed
  | |- calls_in _ (match ?x with _ => _ end) => destruct x
  | |- calls_in _ (run_chain _ _ _ _ _ _) => apply calls_chain; [repeat (apply Forall_cons; split); [..|apply Forall_nil; exact I]|]
  | |- arm_calls _ _ => intros ? ? ? ?; cbn [snd]
  | |- calls_in _ (_.2) => cbn [snd]
  | |- calls_in _ ?p => let h := head_of p in unfold h
  end.

(** ** What the kernel answers *)

(** Whether the check the handler of a call makes lets task [i] through. *)
Definition admitted (e : exec CapCheck) : bool := match e with Ret (CcOk _) _ => true | _ => false end.
Definition found (e : exec bool) : bool := match e with Ret b _ => b | _ => false end.
Definition admits (k : Kernel) (i : nat) (c : call) : bool :=
  match c with
  | UYield | UExit | UFaultAck _ => true
  | USend cap _ => admitted (cap_check i cap RIGHT_SEND k)
  | URecv cap _ => admitted (cap_check i cap RIGHT_RECV k)
  | UTaskStart _ | UTaskKill _ | UTaskRestart _ | UShutdown => found (cap_find i OTYPE_CONTROL RIGHT_CONTROL k)
  | UConWrite _ => found (cap_find i OTYPE_CONSOLE RIGHT_SEND k)
  | UConRead _ => found (cap_find i OTYPE_CONSOLE RIGHT_RECV k)
  | UInfo _ _ _ => found (cap_find i OTYPE_INFO RIGHT_RECV k)
  | UDeviceInfo cap _ => admitted (device_cap_check i cap DEV_RIGHT_INFO k)
  | UMmioRead cap _ _ => admitted (device_cap_check i cap DEV_RIGHT_MMIO_READ k)
  | UMmioWrite cap _ _ _ => admitted (device_cap_check i cap DEV_RIGHT_MMIO_WRITE k)
  | UDmaRead cap _ _ => admitted (device_cap_check i cap DEV_RIGHT_DMA_READ k)
  | UDmaWrite cap _ _ _ => admitted (device_cap_check i cap DEV_RIGHT_DMA_WRITE k)
  | UIrqRaise cap => admitted (device_cap_check i cap DEV_RIGHT_DRIVER_CONTROL k)
  end.

(** The same on a capability table. *)
Definition is_ok (c : CapCheck) : bool := match c with CcOk _ => true | _ => false end.
Definition allows (cs : list (option Cap)) (c : call) : bool :=
  match c with
  | UYield | UExit | UFaultAck _ => true
  | USend cap _ => is_ok (cap_lookup cs cap RIGHT_SEND)
  | URecv cap _ => is_ok (cap_lookup cs cap RIGHT_RECV)
  | UTaskStart _ | UTaskKill _ | UTaskRestart _ | UShutdown => holds_cap cs OTYPE_CONTROL RIGHT_CONTROL
  | UConWrite _ => holds_cap cs OTYPE_CONSOLE RIGHT_SEND
  | UConRead _ => holds_cap cs OTYPE_CONSOLE RIGHT_RECV
  | UInfo _ _ _ => holds_cap cs OTYPE_INFO RIGHT_RECV
  | UDeviceInfo cap _ => is_ok (device_lookup cs cap DEV_RIGHT_INFO)
  | UMmioRead cap _ _ => is_ok (device_lookup cs cap DEV_RIGHT_MMIO_READ)
  | UMmioWrite cap _ _ _ => is_ok (device_lookup cs cap DEV_RIGHT_MMIO_WRITE)
  | UDmaRead cap _ _ => is_ok (device_lookup cs cap DEV_RIGHT_DMA_READ)
  | UDmaWrite cap _ _ _ => is_ok (device_lookup cs cap DEV_RIGHT_DMA_WRITE)
  | UIrqRaise cap => is_ok (device_lookup cs cap DEV_RIGHT_DRIVER_CONTROL)
  end.
Definition cap_arg (c : call) : Z :=
  match c with
  | USend cap _ | URecv cap _ | UDeviceInfo cap _ | UMmioRead cap _ _ | UMmioWrite cap _ _ _
  | UDmaRead cap _ _ | UDmaWrite cap _ _ _ | UIrqRaise cap => cap
  | _ => 0
  end.

Lemma admits_eq k i t c : tasks k !! i = Some t -> caps_ok (t_caps t) -> 0 <= cap_arg c ->
  admits k i c = allows (t_caps t) c.
Proof.
  intros Ht Hc H0. destruct c; cbn [admits allows cap_arg] in *; try done;
    first [rewrite (cap_check_eq _ _ _ t) by done; by destruct (cap_lookup _ _ _)
          |rewrite (device_cap_check_eq _ _ _ t) by done; by destruct (device_lookup _ _ _)
          |by rewrite (cap_find_eq _ _ _ t)].
Qed.

(** ** What each task asks for *)

(** The capability table the boot gives slot [i]. *)
Definition boot_caps (L : Boot.Layout) (i : nat) : option (list (option Cap)) :=
  match i with
  | O => Some (Boot.place 0 [cap_control] Boot.NO_CAPS)
  | _ => sd_caps <$> List.find (fun d => Nat.eqb (sd_slot d) i) (Boot.table L)
  end.
Definition slot_caps (i : nat) : list (option Cap) :=
  Boot.place 0 (match i with O => [cap_control] | S j => default [] (Boot.grants !! j) end) Boot.NO_CAPS.

(** The calls made to be refused: [faulty_task]'s send, everything
    [fault_demo] tries, and the block driver's register write. *)
Definition probe (i : nat) (c : call) : bool :=
  match i, c with
  | 5%nat, USend _ _ => true
  | 8%nat, (UMmioRead _ _ _ | UDmaRead _ _ _ | UConWrite _) => true
  | 13%nat, UMmioWrite _ _ _ _ => true
  | _, _ => false
  end.

Definition expected (i : nat) (c : call) : Prop :=
  (0 <=? cap_arg c) && Bool.eqb (allows (slot_caps i) c) (negb (probe i c)) = true.

Section walks.
Context (mem : list Z).

Definition asks (i : nat) (s : service) : Prop :=
  calls_in (expected i) (svc_start s) /\ forall st, calls_in (expected i) (svc_turn s st).

Ltac walk := split; cbn [svc_start svc_turn ends loops]; repeat walk_step.

Lemma init_asks : asks 0 (ends init_body).
Proof. unfold init_body. walk. Qed.
Lemma supervisor_asks : asks 1 (loops (stat mem) supervisor_turn).
Proof. unfold supervisor_turn. walk. Qed.
Lemma logger_asks : asks 2 (loops (stat mem) logger_turn).
Proof. unfold logger_turn. walk. Qed.
Lemma console_asks : asks 3 (loops console_init console_turn).
Proof. unfold console_turn. walk. Qed.
Lemma faulty_asks : asks 5 (ends (faulty_body (stat mem))).
Proof. unfold faulty_body. walk. Qed.
Lemma hello_asks : asks 7 (ends hello_body).
Proof. unfold hello_body. walk. Qed.
Lemma fault_demo_asks : asks 8 (ends fault_demo_body).
Proof. unfold fault_demo_body. walk. Qed.
Lemma counter_asks : asks 9 (ends counter_body).
Proof. unfold counter_body. walk. Qed.
Lemma block_asks : asks 13 (mkService ptr block_start block_turn).
Proof. unfold block_start, block_turn, deliberate_fault, send0. walk. Qed.
Lemma shell_asks : asks 4 (mkService shell_st shell_start shell_turn).
Proof. unfold shell_turn, shell_arms. walk. Qed.
Lemma loader_asks : asks 6 (mkService loader_st (ulift loader_init) loader_turn).
Proof. walk. Qed.
Lemma fs_asks : asks 10 (loops (uninit 64) fs_turn).
Proof. unfold fs_turn, fs_ls, fs_cat. walk. Qed.
Lemma storage_asks : asks 11 (loops storage_init storage_turn).
Proof. walk. Qed.
Lemma manager_asks : asks 12 (mkService driver_manager_st driver_manager_start driver_manager_turn).
Proof. walk. Qed.
Lemma net_driver_asks : asks 14 (mkService net_driver_st net_driver_start net_driver_turn).
Proof. walk. Qed.
Lemma net_service_asks : asks 15 (mkService net_service_st net_service_start net_service_turn).
Proof. walk. Qed.
End walks.

Ltac at_slot P := lazymatch goal with H : _ !! ?j = Some _ |- asks _ _ =>
  destruct j as [|j]; [injection H as <-; exact P|cbn [lookup list_lookup] in H] end.
Lemma services_ask mem i s : services mem !! i = Some s -> asks i s.
Proof.
  intros H. unfold services in H.
  at_slot init_asks.
  at_slot (supervisor_asks mem).
  at_slot (logger_asks mem).
  at_slot console_asks.
  at_slot shell_asks.
  at_slot (faulty_asks mem).
  at_slot loader_asks.
  at_slot hello_asks.
  at_slot fault_demo_asks.
  at_slot counter_asks.
  at_slot fs_asks.
  at_slot storage_asks.
  at_slot manager_asks.
  at_slot block_asks.
  at_slot net_driver_asks.
  at_slot net_service_asks.
  discriminate H.
Qed.

Lemma boot_caps_slot L i cs : boot_caps L i = Some cs -> cs = slot_caps i /\ caps_ok cs.
Proof.
  intros H. assert (cs = slot_caps i /\ (i < MAX_TASKS)%nat) as [-> Hi].
  { do 16 (destruct i as [|i]; [injection H as <-; split; [reflexivity|unfold MAX_TASKS; lia]|]). discriminate H. }
  clear H. split; [reflexivity|]. unfold MAX_TASKS in Hi.
  do 16 (destruct i as [|i]; [split; [vm_compute; reflexivity|]; intros c Hc; vm_compute in Hc;
    repeat (apply elem_of_cons in Hc as [Hc|Hc];
      [first [discriminate Hc|injection Hc as ->; vm_compute; intuition congruence]|]); by apply elem_of_nil in Hc|]).
  lia.
Qed.

(** C3. Every service has the authority it needs, and no probe gets through.
    Take the task of any slot with the capability table the boot gives that
    slot, in any kernel state, and let its body run for any number of turns
    against any answers: the kernel's check admits every call it makes,
    except exactly the calls made to be refused ([faulty_task]'s send,
    [fault_demo]'s device and console accesses, the block driver's register
    write), which are all denied. *)
Theorem services_authorised L mem i s caps k t n ans :
  services mem !! i = Some s -> boot_caps L i = Some caps -> tasks k !! i = Some t -> t_caps t = caps ->
  Forall (fun c => admits k i c = negb (probe i c)) (uexec (run_service s n) ans).1.
Proof.
  intros Hs Hb Ht Hc. destruct (boot_caps_slot L i caps Hb) as [E Hok]. destruct (services_ask mem i s Hs) as [H1 H2].
  eapply Forall_impl; [apply (calls_made (expected i)), calls_service; [exact H1|exact H2]|].
  intros c (H0%Z.leb_le & He%Bool.eqb_prop)%andb_true_iff.
  rewrite (admits_eq k i t c Ht); [|by rewrite Hc|done]. by rewrite Hc, E.
Qed.

(** The block driver's start on the booted state with its task in place. *)
Definition driver_state : Kernel :=
  set_tasks (<[13%nat := with_caps (slot_caps 13) EMPTY_TCB]> (replicate MAX_TASKS EMPTY_TCB))
    (static_state blank).
Definition driver_answers : list answer := replicate 6 (mkAns 0 []).

Lemma services_authorised_witness :
  (uexec (run_service (mkService ptr block_start block_turn) 0) driver_answers).1 =
    [UDeviceInfo 1 192; UMmioRead 1 0 4; UMmioWrite 1 0 4 0; UDmaWrite 1 0 1 0x41; UDmaRead 1 0 1; URecv 2 1] /\
  Forall (fun c => admits driver_state 13 c = negb (probe 13 c))
    (uexec (run_service (mkService ptr block_start block_turn) 0) driver_answers).1.
Proof.
  split; [vm_compute; reflexivity|].
  apply (services_authorised Boot.sample_layout [] 13 _ (slot_caps 13) driver_state
    (with_caps (slot_caps 13) EMPTY_TCB) 0 driver_answers); reflexivity.
Defined.
