(* ===== verification/Events.v ===== *)
(** * The host's event log parser

    Models [tools/axiomctl/src/events.rs]: the parser of the kernel's serial
    lines, the JSON export and the summary, and the text [axiomctl events]
    prints.  A string is the list of its characters' code points. *)

From stdpp Require Import strings base decidable numbers option tactics list sets.
From S2P Require Import Prelude Bytes Thread Fault Monitor.
Local Open Scope Z_scope.

Module Events.

Abbreviation str := (list Z).

(** ** The standard library's string functions *)

(** [char::is_whitespace] *)
Definition is_whitespace (c : Z) : bool :=
  ((9 <=? c) && (c <=? 13)) || (c =? 32) || (c =? 0x85) || (c =? 0xa0) || (c =? 0x1680)
  || ((0x2000 <=? c) && (c <=? 0x200a)) || (c =? 0x2028) || (c =? 0x2029) || (c =? 0x202f)
  || (c =? 0x205f) || (c =? 0x3000).

Fixpoint trim_start (s : str) : str :=
  match s with [] => [] | c :: s' => if is_whitespace c then trim_start s' else s end.
Definition trim_end (s : str) : str := reverse (trim_start (reverse s)).
Definition trim (s : str) : str := trim_end (trim_start s).
Definition is_empty (s : str) : bool := match s with [] => true | _ => false end.

(** [split_whitespace]: the maximal runs without white space; [cur] is the
    run being read. *)
Fixpoint split_ws (s cur : str) : list str :=
  let done := match cur with [] => [] | _ => [cur] end in
  match s with
  | [] => done
  | c :: s => if is_whitespace c then done ++ split_ws s [] else split_ws s (cur ++ [c])
  end.
Definition split_whitespace (s : str) : list str := split_ws s [].

(** [split_once(sep)] *)
Fixpoint split_once (sep : Z) (s : str) : option (str * str) :=
  match s with
  | [] => None
  | c :: s =>
      if c =? sep then Some ([], s)
      else '(a, b) ← split_once sep s; Some (c :: a, b)
  end.

(** [str::lines]: split after each line feed, which is dropped together with
    a carriage return before it; no empty last line. *)
Definition strip_cr (s : str) : str :=
  match last s with Some 13 => take (length s - 1) s | _ => s end.
Fixpoint lines_from (s cur : str) : list str :=
  match s with
  | [] => match cur with [] => [] | _ => [cur] end
  | c :: s => if c =? 10 then strip_cr cur :: lines_from s [] else lines_from s (cur ++ [c])
  end.
Definition lines (s : str) : list str := lines_from s [].

(** [join(sep)] *)
Fixpoint join (sep : str) (l : list str) : str :=
  match l with [] => [] | [a] => a | a :: l => a ++ sep ++ join sep l end.

(** ** Events *)

Inductive Category :=
| CTask | CScheduler | CSyscall | CIpc | CCapability | CFault | CWatchdog | CRecovery | CTimer
| CService | CBoot | CDriver | CNetwork | CLoader.
#[export] Instance category_eq_dec : EqDecision Category.
Proof. solve_decision. Defined.

Definition category_name (c : Category) : str :=
  match c with
  | CTask => bstr "task" | CScheduler => bstr "scheduler" | CSyscall => bstr "syscall"
  | CIpc => bstr "ipc" | CCapability => bstr "capability" | CFault => bstr "fault"
  | CWatchdog => bstr "watchdog" | CRecovery => bstr "recovery" | CTimer => bstr "timer"
  | CService => bstr "service" | CBoot => bstr "boot" | CDriver => bstr "driver"
  | CNetwork => bstr "network" | CLoader => bstr "loader"
  end.

Record Event := mkEv {
  seq : Z; category : Category; kind : str; flags : list str; fields : list (str * str); raw : str }.
#[export] Instance event_eq_dec : EqDecision Event.
Proof. solve_decision. Defined.

Record ParsedLog := mkLog { events : list Event; skipped : Z }.

Definition str_is (s : str) (l : string) : bool := bool_decide (s = bstr l).
Definition one_of (s : str) (l : list string) : bool := existsb (str_is s) l.

Definition field (fs : list (str * str)) (k : string) : option str :=
  snd <$> List.find (fun f => str_is f.1 k) fs.

Definition categorize (kind : str) (fs : list (str * str)) : option Category :=
  if one_of kind ["TASK_STARTED"; "TASK_EXITED"; "TASK_FAULTED"] then Some CTask
  else if str_is kind "SCHED" then Some CScheduler
  else if str_is kind "SYSCALL" then Some CSyscall
  else if one_of kind ["IPC"; "IPC_DENIED"] then Some CIpc
  else if str_is kind "CAP_DENIED" then Some CCapability
  else if str_is kind "FAULT" then
    Some (if bool_decide (field fs "type" = Some (bstr "WatchdogTimeout")) then CWatchdog else CFault)
  else if one_of kind ["PAGE_FAULT"; "DEADLINE_MISSED"; "CONTAIN"] then Some CFault
  else if str_is kind "WATCHDOG_TIMEOUT" then Some CWatchdog
  else if str_is kind "RECOVERY_APPLIED" then Some CRecovery
  else if str_is kind "TIMER" then Some CTimer
  else if one_of kind ["SUPERVISOR"; "LOGGER"] then Some CService
  else if one_of kind ["MMU"; "BOOT"; "BOOT_INFO"] then Some CBoot
  else if one_of kind ["DEVICE"; "DEVICE_DENIED"; "MMIO"; "MMIO_DENIED"; "DMA"; "DMA_DENIED"; "IRQ";
                       "IRQ_DENIED"; "IRQ_DROPPED"; "DRIVER"; "DRIVER_MANAGER"] then Some CDriver
  else if one_of kind ["NET_DRIVER"; "NET_SERVICE"; "NET_TX"; "NET_RX"; "NET_DENIED"] then Some CNetwork
  else if str_is kind "APP_IMAGE" then Some CLoader
  else None.

(** [for tok in rest]: the flags and the fields, in order. *)
Fixpoint sort_tokens (rest : list str) : list str * list (str * str) :=
  match rest with
  | [] => ([], [])
  | tok :: rest =>
      let '(fl, fs) := sort_tokens rest in
      match split_once 61 tok with
      | Some (k, v) => if is_empty k then (tok :: fl, fs) else (fl, (k, v) :: fs)
      | None => (tok :: fl, fs)
      end
  end.

(** [position] and [remove]: the value of the first [type] field, and the
    other fields. *)
Fixpoint take_type (fs : list (str * str)) : option (str * list (str * str)) :=
  match fs with
  | [] => None
  | f :: fs =>
      if str_is f.1 "type" then Some (f.2, fs)
      else '(v, fs') ← take_type fs; Some (v, f :: fs')
  end.

(** The kind of a line and the tokens after it. *)
Definition line_kind (first : str) (tokens : list str) : option (str * list str) :=
  match split_once 61 first with
  | Some (k, v) => if is_empty k || is_empty v then None else Some (bstr "BOOT_INFO", first :: tokens)
  | None => Some (first, tokens)
  end.

Definition parse_line (line : str) : option Event :=
  let trimmed := trim_end line in
  if is_empty (trim trimmed) then None
  else if str_is trimmed "AxiomRT kernel booted" then Some (mkEv 0 CBoot (bstr "BOOT") [] [] trimmed)
  else
    match split_whitespace trimmed with
    | [] => None
    | first :: tokens =>
        '(kind, rest) ← line_kind first tokens;
        let '(fl, fs) := sort_tokens rest in
        '(kind, fs) ← (if str_is kind "EVT" then take_type fs else Some (kind, fs));
        cat ← categorize kind fs;
        Some (mkEv 0 cat kind fl fs trimmed)
    end.

Definition with_seq (n : Z) (e : Event) : Event :=
  mkEv n (category e) (kind e) (flags e) (fields e) (raw e).

(** [for line in text.lines()] *)
Definition log_line (out : ParsedLog) (line : str) : ParsedLog :=
  match parse_line line with
  | Some ev => mkLog (events out ++ [with_seq (Z.of_nat (length (events out)) + 1) ev]) (skipped out)
  | None => if negb (is_empty (trim line)) then mkLog (events out) (skipped out + 1) else out
  end.
Definition parse_log (text : str) : ParsedLog := foldl log_line (mkLog [] 0) (lines text).

(** ** JSON *)

(** [{:x}] of a digit. *)
Definition hex_nibble (d : Z) : Z := if d <? 10 then 48 + d else 87 + d.

Definition escape_char (c : Z) : str :=
  if c =? 34 then [92; 34]
  else if c =? 92 then [92; 92]
  else if c =? 10 then [92; 110]
  else if c =? 13 then [92; 114]
  else if c =? 9 then [92; 116]
  else if c <? 0x20 then [92; 117; 48; 48; hex_nibble (c / 16); hex_nibble (c mod 16)]
  else [c].
Definition json_escape (s : str) : str := concat (map escape_char s).

(** A quoted string, and a key with its colon. *)
Definition quoted (s : str) : str := [34] ++ s ++ [34].
Definition key (s : string) : str := quoted (bstr s) ++ [58].

Definition to_json (ev : Event) : str :=
  let fl := join [44] (map (fun f => quoted (json_escape f)) (flags ev)) in
  let fs := join [44] (map (fun f => quoted (json_escape f.1) ++ [58] ++ quoted (json_escape f.2)) (fields ev)) in
  [123] ++ key "seq" ++ dec (seq ev) ++ [44] ++ key "category" ++ quoted (category_name (category ev)) ++ [44] ++
  key "kind" ++ quoted (json_escape (kind ev)) ++ [44] ++ key "flags" ++ [91] ++ fl ++ [93; 44] ++
  key "fields" ++ [123] ++ fs ++ [125; 44] ++ key "raw" ++ quoted (json_escape (raw ev)) ++ [125].

(** ** The summary *)

Definition ORDER : list Category :=
  [CTask; CScheduler; CSyscall; CIpc; CCapability; CFault; CWatchdog; CRecovery; CTimer; CService;
   CBoot; CDriver; CLoader; CNetwork].

(** [kinds.iter_mut().find(..)]: count a kind, in first-seen order. *)
Fixpoint count_kind (kinds : list (str * Z)) (k : str) : list (str * Z) :=
  match kinds with
  | [] => [(k, 1)]
  | (k', n) :: kinds => if bool_decide (k' = k) then (k', n + 1) :: kinds else (k', n) :: count_kind kinds k
  end.
Definition of_category (c : Category) (l : list Event) : list Event :=
  filter (fun e => category e = c) l.
Definition kind_counts (l : list Event) : list (str * Z) := foldl (fun ks e => count_kind ks (kind e)) [] l.

(** [{:<10}] and [{:>7}] *)
Definition pad_right (n : nat) (s : str) : str := s ++ replicate (n - length s) 32.
Definition pad_left (n : nat) (s : str) : str := replicate (n - length s) 32 ++ s.

Definition summary_row (l : list Event) (c : Category) : str :=
  let of_cat := of_category c l in
  match of_cat with
  | [] => []
  | _ =>
      bstr "  " ++ pad_right 10 (category_name c) ++ [32] ++ pad_left 7 (dec (Z.of_nat (length of_cat))) ++
      bstr "  (" ++ join (bstr ", ") (map (fun kn => kn.1 ++ bstr " x" ++ dec kn.2) (kind_counts of_cat)) ++
      bstr ")" ++ [10]
  end.
Definition summary (log : ParsedLog) : str :=
  bstr "events: " ++ dec (Z.of_nat (length (events log))) ++ bstr " parsed, " ++ dec (skipped log) ++
  bstr " non-event lines skipped" ++ [10] ++ concat (map (summary_row (events log)) ORDER).

(** [cmd_events]: what [axiomctl events parse|summary] prints of a file's
    text. *)
Definition cmd_events (text : str) (want_summary : bool) : str :=
  let log := parse_log text in
  if want_summary then summary log else concat (map (fun ev => to_json ev ++ [10]) (events log)).

(** ** Strings of words *)

Definition wordy (t : str) : Prop := t <> [] /\ Forall (fun c => is_whitespace c = false) t.

Lemma split_ws_word t cur s : Forall (fun c => is_whitespace c = false) t ->
  split_ws (t ++ s) cur = split_ws s (cur ++ t).
Proof.
  intros H. revert cur. induction H as [|c t Hc _ IH]; intros cur; cbn [app split_ws].
  - by rewrite app_nil_r.
  - rewrite Hc, IH, <- app_assoc. done.
Qed.
Lemma split_join toks : Forall wordy toks -> split_whitespace (join [32] toks) = toks.
Proof.
  unfold split_whitespace. induction 1 as [|t toks [Ht Hw] _ IH]; [done|]. destruct toks as [|u toks].
  - cbn [join]. rewrite <- (app_nil_r t) at 1. rewrite split_ws_word by done. by destruct t.
  - change (join [32] (t :: u :: toks)) with (t ++ 32 :: join [32] (u :: toks)).
    rewrite split_ws_word by done. cbn [app split_ws]. change (is_whitespace 32) with true. cbn iota.
    rewrite IH. by destruct t.
Qed.

Lemma trim_end_word s c : is_whitespace c = false -> trim_end (s ++ [c]) = s ++ [c].
Proof.
  intros H. unfold trim_end. rewrite reverse_snoc. cbn [trim_start]. rewrite H.
  by rewrite reverse_cons, reverse_involutive.
Qed.
Lemma trim_start_word s c : is_whitespace c = false -> trim_start (c :: s) = c :: s.
Proof. intros H. cbn. by rewrite H. Qed.

Lemma wordy_last t : wordy t -> exists s c, t = s ++ [c] /\ is_whitespace c = false.
Proof.
  intros [Hn Hw]. destruct t as [|c t _] using rev_ind; [done|]. exists t, c. split; [done|].
  apply Forall_app in Hw as [_ Hw]. by inversion Hw.
Qed.
Lemma join_last toks : toks <> [] -> Forall wordy toks -> exists s c, join [32] toks = s ++ [c] /\ is_whitespace c = false.
Proof.
  intros Hn H. induction H as [|t toks Ht _ IH]; [done|]. destruct toks as [|u toks]; [by apply wordy_last|].
  destruct IH as (s & c & E & Hc); [done|]. exists (t ++ [32] ++ s), c. split; [|done].
  change (join [32] (t :: u :: toks)) with (t ++ [32] ++ join [32] (u :: toks)). rewrite E, <- !app_assoc. done.
Qed.

Lemma trim_nil s : trim s = [] <-> Forall (fun c => is_whitespace c = true) s.
Proof.
  assert (forall s, trim_start s = [] <-> Forall (fun c => is_whitespace c = true) s) as H.
  { clear. induction s as [|c s IH]; cbn; [by split; constructor|]. destruct (is_whitespace c) eqn:E.
    - rewrite IH. split; [by constructor|by inversion 1].
    - split; [done|]. inversion 1. congruence. }
  unfold trim, trim_end. split.
  - intros E. apply (f_equal reverse) in E. rewrite reverse_involutive in E. cbn in E. apply H, Forall_reverse in E. rewrite reverse_involutive in E.
    destruct (trim_start s) as [|c t] eqn:Es; [by apply H|]. exfalso.
    assert (is_whitespace c = false) as Hc; [|apply Forall_cons in E as [E _]; congruence]. clear E. induction s as [|d s IH]; [done|].
    cbn in Es. destruct (is_whitespace d) eqn:Ed; [by apply IH|congruence].
  - intros E. apply H in E. rewrite E. done.
Qed.

(** ** The log *)

Lemma parse_line_facts line e : parse_line line = Some e ->
  seq e = 0 /\ raw e = trim_end line /\ categorize (kind e) (fields e) = Some (category e) /\
  is_empty (trim (trim_end line)) = false.
Proof.
  unfold parse_line. cbv zeta. destruct (is_empty (trim _)) eqn:En; [done|]. case_match eqn:Eb.
  - intros [= <-]. done.
  - case_match; [done|]. intros ((k & rest) & _ & Hk)%bind_Some. destruct (sort_tokens rest) as [fl fs].
    apply bind_Some in Hk as ((k' & fs') & _ & Hk). apply bind_Some in Hk as (cat & Hc & [= <-]). done.
Qed.

(** The events numbered from [n + 1]. *)
Fixpoint number (n : Z) (l : list Event) : list Event :=
  match l with [] => [] | e :: l => with_seq (n + 1) e :: number (n + 1) l end.
Definition blank (line : str) : bool := is_empty (trim line).
Definition refused (line : str) : Prop := parse_line line = None /\ blank line = false.
#[local] Instance refused_dec l : Decision (refused l).
Proof. unfold refused. apply _. Defined.

Lemma number_app n l1 l2 : number n (l1 ++ l2) = number n l1 ++ number (n + Z.of_nat (length l1)) l2.
Proof.
  revert n. induction l1 as [|e l IH]; intros n; cbn [number app length].
  - by rewrite Z.add_0_r.
  - rewrite IH. do 3 f_equal. lia.
Qed.
Lemma length_number n l : length (number n l) = length l.
Proof. revert n. induction l as [|e l IH]; intros n; cbn; [done|]. by rewrite IH. Qed.
Lemma number_lookup n l i : number n l !! i = with_seq (n + Z.of_nat i + 1) <$> l !! i.
Proof.
  revert n i. induction l as [|e l IH]; intros n i; [done|]. destruct i as [|i]; cbn [number lookup list_lookup].
  - cbn. do 2 f_equal. lia.
  - etrans; [apply IH|]. by replace (n + 1 + Z.of_nat i + 1) with (n + Z.of_nat (S i) + 1) by lia.
Qed.

Lemma log_fold ls : foldl log_line (mkLog [] 0) ls =
  mkLog (number 0 (omap parse_line ls)) (Z.of_nat (length (filter refused ls))).
Proof.
  induction ls as [|l ls IH] using rev_ind; [done|]. rewrite foldl_snoc, IH. unfold log_line.
  rewrite omap_app, filter_app, length_app, number_app. cbn [omap list_omap events skipped filter list_filter].
  rewrite length_number. destruct (parse_line l) as [e|] eqn:E.
  - rewrite decide_False by (intros [? _]; congruence). cbn [length number app]. rewrite Nat.add_0_r. done.
  - unfold blank. destruct (is_empty (trim l)) eqn:Eb; cbn [negb].
    + rewrite decide_False by (unfold refused, blank; intros [_ ?]; congruence). cbn [length number].
      by rewrite app_nil_r, Nat.add_0_r.
    + rewrite decide_True by done. cbn [length number]. rewrite app_nil_r. f_equal. lia.
Qed.

Lemma trim_end_ws s : Forall (fun c => is_whitespace c = true) s -> trim_end s = [].
Proof.
  intros H. unfold trim_end. apply Forall_reverse in H. induction H as [|c t Hc _ IH]; [done|]. cbn. by rewrite Hc.
Qed.
Lemma parsed_not_blank line e : parse_line line = Some e -> blank line = false.
Proof.
  intros (_ & _ & _ & H)%parse_line_facts. unfold blank. destruct (trim line) eqn:E; [|done].
  apply trim_nil in E. by rewrite (trim_end_ws _ E) in H.
Qed.

Lemma count_lines ls : (length (omap parse_line ls) + length (filter refused ls))%nat =
  length (filter (fun l => blank l = false) ls).
Proof.
  induction ls as [|l ls IH]; [done|]. rewrite !filter_cons. cbn [omap list_omap].
  destruct (parse_line l) as [e|] eqn:E.
  - rewrite decide_False by (intros [? _]; congruence). rewrite decide_True by (by eapply parsed_not_blank).
    cbn [length]. lia.
  - destruct (blank l) eqn:Eb; [rewrite !decide_False by (try intros [_ ?]; congruence); lia|].
    rewrite !decide_True by done. cbn [length]. lia.
Qed.

(** The log is accounted for, line by line: the events are those of the
    parsed lines in order, numbered 1, 2, ...; every other line that is not
    blank is counted as skipped, so events and skipped lines together are
    exactly the lines that are not blank; and each event keeps its whole
    line (less white space at its end) and the category of its kind. *)
Theorem log_accounts text :
  events (parse_log text) = number 0 (omap parse_line (lines text)) /\
  Z.of_nat (length (events (parse_log text))) + skipped (parse_log text)
    = Z.of_nat (length (filter (fun l => blank l = false) (lines text))) /\
  forall i e, events (parse_log text) !! i = Some e ->
    seq e = Z.of_nat i + 1 /\ categorize (kind e) (fields e) = Some (category e) /\
    exists line, line ∈ lines text /\ raw e = trim_end line /\ blank line = false.
Proof.
  unfold parse_log. rewrite log_fold. cbn [events skipped]. split; [done|]. split.
  - rewrite length_number, <- count_lines. lia.
  - intros i e. rewrite number_lookup. intros (e0 & He & ->)%fmap_Some. split; [cbn [seq with_seq]; lia|].
    apply list_elem_of_lookup_2, list_elem_of_omap in He as (line & Hl & Hp).
    destruct (parse_line_facts line e0 Hp) as (_ & Hr & Hc & _). split; [done|]. exists line.
    split; [done|]. split; [done|]. by eapply parsed_not_blank.
Qed.

(** ** Reading JSON back *)

Definition nibble (c : Z) : Z := if c <? 58 then c - 48 else c - 87.

(** The rest of a string literal: its characters, and what follows the
    closing quote. *)
Fixpoint read_str (s : str) : option (str * str) :=
  match s with
  | [] => None
  | c :: s1 =>
      if c =? 34 then Some ([], s1)
      else if c =? 92 then
        match s1 with
        | [] => None
        | e :: s2 =>
            if e =? 117 then
              match s2 with
              | _ :: _ :: h :: l :: s3 => '(a, b) ← read_str s3; Some (16 * nibble h + nibble l :: a, b)
              | _ => None
              end
            else
              let d := if e =? 110 then 10 else if e =? 114 then 13 else if e =? 116 then 9 else e in
              '(a, b) ← read_str s2; Some (d :: a, b)
        end
      else '(a, b) ← read_str s1; Some (c :: a, b)
  end.

(** [lit] is next. *)
Fixpoint read_lit (lit s : str) : option str :=
  match lit with
  | [] => Some s
  | c :: lit => match s with d :: s => if d =? c then read_lit lit s else None | [] => None end
  end.
Definition read_quoted (s : str) : option (str * str) := read_lit [34] s ≫= read_str.
Fixpoint read_digits (s : str) : str * str :=
  match s with
  | c :: s' => if (48 <=? c) && (c <=? 57) then let '(a, b) := read_digits s' in (c :: a, b) else ([], s)
  | [] => ([], [])
  end.

(** Items separated by commas, up to [close]. *)
Fixpoint read_items {A} (item : str -> option (A * str)) (close : Z) (fuel : nat) (s : str) : option (list A * str) :=
  match fuel with
  | O => None
  | S fuel =>
      '(a, s) ← item s;
      match read_lit [44] s with
      | Some s => '(l, s) ← read_items item close fuel s; Some (a :: l, s)
      | None => s ← read_lit [close] s; Some ([a], s)
      end
  end.
Definition read_list {A} (item : str -> option (A * str)) (close : Z) (s : str) : option (list A * str) :=
  match read_lit [close] s with Some s => Some ([], s) | None => read_items item close (length s) s end.
Definition read_pair (s : str) : option (str * str * str) :=
  '(k, s) ← read_quoted s; s ← read_lit [58] s; '(v, s) ← read_quoted s; Some (k, v, s).

Definition read_event (s : str) : option (Event * str) :=
  s ← read_lit ([123] ++ key "seq") s;
  let '(n, s) := read_digits s in
  s ← read_lit ([44] ++ key "category") s;
  '(c, s) ← read_quoted s;
  cat ← List.find (fun x => bool_decide (category_name x = c)) ORDER;
  s ← read_lit ([44] ++ key "kind") s;
  '(k, s) ← read_quoted s;
  s ← read_lit ([44] ++ key "flags" ++ [91]) s;
  '(fl, s) ← read_list read_quoted 93 s;
  s ← read_lit ([44] ++ key "fields" ++ [123]) s;
  '(fs, s) ← read_list read_pair 125 s;
  s ← read_lit ([44] ++ key "raw") s;
  '(r, s) ← read_quoted s;
  s ← read_lit [125] s;
  Some (mkEv (dec_value n) cat k fl fs r, s).

(** One event per line. *)
Fixpoint read_ndjson (fuel : nat) (s : str) : option (list Event) :=
  match fuel, s with
  | _, [] => Some []
  | O, _ => None
  | S fuel, _ => '(e, s) ← read_event s; s ← read_lit [10] s; l ← read_ndjson fuel s; Some (e :: l)
  end.

Definition chars (s : str) : Prop := Forall (fun c => 0 <= c) s.
Record printable (e : Event) : Prop := {
  pr_seq : seq e ∈ᵤ 64; pr_kind : chars (kind e); pr_flags : Forall chars (flags e);
  pr_fields : Forall (fun f => chars f.1 /\ chars f.2) (fields e); pr_raw : chars (raw e) }.

Lemma nibble_hex d : 0 <= d < 16 -> nibble (hex_nibble d) = d.
Proof. intros H. unfold nibble, hex_nibble. destruct (Z.ltb_spec d 10); case_match; bool_facts; lia. Qed.

Lemma read_escape c s : 0 <= c -> read_str (escape_char c ++ s) = '(a, b) ← read_str s; Some (c :: a, b).
Proof.
  intros H. unfold escape_char. repeat case_match; bool_facts; subst; try done.
  - cbn [app read_str]. change (92 =? 34) with false. change (92 =? 92) with true. change (117 =? 117) with true.
    cbn iota. rewrite !nibble_hex; [|apply Z.mod_pos_bound; lia|split; [apply Z.div_pos; lia|apply Z.div_lt_upper_bound; lia]].
    by rewrite <- Z.div_mod by lia.
  - cbn [app read_str]. destruct (Z.eqb_spec c 34); [done|]. by destruct (Z.eqb_spec c 92).
Qed.
Lemma read_escaped s rest : chars s -> read_str (json_escape s ++ 34 :: rest) = Some (s, rest).
Proof.
  unfold json_escape. induction 1 as [|c s Hc _ IH]; [done|]. cbn [map concat].
  rewrite <- app_assoc, read_escape, IH by done. done.
Qed.
Lemma read_lit_app lit s : read_lit lit (lit ++ s) = Some s.
Proof. induction lit as [|c lit IH]; [done|]. cbn. by rewrite Z.eqb_refl. Qed.
Lemma read_quoted_app s rest : chars s -> read_quoted (quoted (json_escape s) ++ rest) = Some (s, rest).
Proof.
  intros H. unfold read_quoted, quoted. rewrite <- !app_assoc, read_lit_app. cbn [mbind option_bind].
  by apply read_escaped.
Qed.
Lemma read_pair_app f rest : chars f.1 /\ chars f.2 ->
  read_pair ((quoted (json_escape f.1) ++ [58] ++ quoted (json_escape f.2)) ++ rest) = Some (f, rest).
Proof.
  intros [H1 H2]. unfold read_pair. rewrite <- !app_assoc, read_quoted_app by done. cbn [mbind option_bind].
  rewrite read_lit_app. cbn [mbind option_bind]. rewrite read_quoted_app by done. by destruct f.
Qed.

Section items.
Context {A : Type} (item : str -> option (A * str)) (print : A -> str) (ok : A -> Prop) (open close : Z).
Hypothesis item_print : forall a rest, ok a -> item (print a ++ rest) = Some (a, rest).
Hypothesis print_open : forall a, exists s, print a = open :: s.
Hypothesis close_ok : close <> 44 /\ close <> open.

Lemma read_items_app l fuel rest : Forall ok l -> l <> [] -> (length l <= fuel)%nat ->
  read_items item close fuel (join [44] (map print l) ++ close :: rest) = Some (l, rest).
Proof.
  intros H. revert fuel. induction H as [|a l Ha _ IH]; [done|]. intros [|fuel] _ Hf; cbn [length] in Hf; [lia|].
  destruct l as [|b l].
  - cbn [map join read_items]. rewrite item_print by done. cbn [mbind option_bind read_lit].
    rewrite (proj2 (Z.eqb_neq close 44)), Z.eqb_refl by lia. done.
  - change (join [44] (map print (a :: b :: l))) with (print a ++ [44] ++ join [44] (map print (b :: l))).
    rewrite <- !app_assoc. cbn [read_items]. rewrite item_print by done. cbn [mbind option_bind].
    rewrite read_lit_app. cbn [length] in *. rewrite IH; [done|done|lia].
Qed.
Lemma join_length (l : list A) : (length l <= length (join [44%Z] (map print l)))%nat.
Proof.
  induction l as [|a l IH]; [done|]. destruct (print_open a) as [s E]. destruct l as [|b l].
  - cbn [map join length]. rewrite E. cbn [length]. lia.
  - change (join [44] (map print (a :: b :: l))) with (print a ++ [44] ++ join [44] (map print (b :: l))).
    rewrite !length_app, E. cbn [length] in *. lia.
Qed.
Lemma read_list_app l rest : Forall ok l ->
  read_list item close (join [44] (map print l) ++ close :: rest) = Some (l, rest).
Proof.
  intros H. unfold read_list. destruct l as [|a l]; [cbn; by rewrite Z.eqb_refl|].
  assert (read_lit [close] (join [44] (map print (a :: l)) ++ close :: rest) = None) as ->.
  { destruct (print_open a) as [s E]. assert (exists s', join [44] (map print (a :: l)) = open :: s') as [s' ->].
    { destruct l as [|b l]; [by exists s|].
      change (join [44] (map print (a :: b :: l))) with (print a ++ [44] ++ join [44] (map print (b :: l))).
      rewrite E. by eexists. }
    cbn [read_lit app]. by rewrite (proj2 (Z.eqb_neq open close)) by lia. }
  apply read_items_app; [done|done|]. rewrite length_app. pose proof (join_length (a :: l)). lia.
Qed.
End items.

Lemma read_digits_app ds c rest : Forall (fun d => 48 <= d <= 57) ds -> ~ 48 <= c <= 57 ->
  read_digits (ds ++ c :: rest) = (ds, c :: rest).
Proof.
  intros H Hc. induction H as [|d ds Hd _ IH]; cbn [app read_digits].
  - case_match; [|done]. bool_facts. lia.
  - rewrite IH. case_match; [done|]. exfalso. bool_facts. lia.
Qed.
Lemma find_category c : List.find (fun x => bool_decide (category_name x = category_name c)) ORDER = Some c.
Proof. by destruct c. Qed.
Lemma category_chars c : json_escape (category_name c) = category_name c /\ chars (category_name c).
Proof. destruct c; (split; [done|]); vm_compute; repeat constructor; discriminate. Qed.

Lemma read_lit_split a b s : read_lit (a ++ b) s = read_lit a s ≫= read_lit b.
Proof. revert s. induction a as [|c a IH]; intros [|d s]; cbn; try done. by case_match. Qed.
Lemma read_lit2 a b s : read_lit (a ++ b) (a ++ b ++ s) = Some s.
Proof. rewrite read_lit_split, read_lit_app. apply read_lit_app. Qed.
Lemma read_lit3 a b c s : read_lit (a ++ b ++ c) (a ++ b ++ c ++ s) = Some s.
Proof. rewrite !read_lit_split, read_lit_app. cbn [mbind option_bind]. apply read_lit2. Qed.

Lemma read_to_json e rest : printable e -> read_event (to_json e ++ rest) = Some (e, rest).
Proof.
  intros [Hs Hk Hfl Hfs Hr]. unfold read_event, to_json. cbv zeta.
  destruct (category_chars (category e)) as [Ec Hc]. rewrite <- Ec, <- !app_assoc.
  rewrite read_lit2. cbn [mbind option_bind].
  assert (forall (x y : Z) (s : str), [x; y] ++ s = x :: [y] ++ s) as E2 by done. rewrite (E2 93), (E2 125).
  assert (forall s, read_digits (dec (seq e) ++ [44] ++ s) = (dec (seq e), [44] ++ s)) as ->.
  { intros s. apply read_digits_app; [apply dec_range|lia]. }
  rewrite read_lit2. cbn [mbind option_bind].
  rewrite read_quoted_app by done. cbn [mbind option_bind]. rewrite find_category. cbn [mbind option_bind].
  rewrite read_lit2. cbn [mbind option_bind]. rewrite read_quoted_app by done. cbn [mbind option_bind].
  rewrite read_lit3. cbn [mbind option_bind].
  rewrite (read_list_app read_quoted (fun f => quoted (json_escape f)) chars 34 93); [|by intros; apply read_quoted_app|by eexists|done|done].
  cbn [mbind option_bind]. rewrite read_lit3. cbn [mbind option_bind].
  rewrite (read_list_app read_pair (fun f => quoted (json_escape f.1) ++ [58] ++ quoted (json_escape f.2))
    (fun f => chars f.1 /\ chars f.2) 34 125); [|by intros; apply read_pair_app|by eexists|done|done].
  cbn [mbind option_bind]. rewrite read_lit2. cbn [mbind option_bind]. rewrite read_quoted_app by done.
  cbn [mbind option_bind]. rewrite read_lit_app. cbn [mbind option_bind]. rewrite dec_roundtrip by done.
  by destruct e.
Qed.

(** ** The characters of an event are the log's *)

Lemma chars_bstr l : chars (bstr l).
Proof. induction l as [|c l IH]; cbn; constructor; [lia|done]. Qed.
Lemma chars_trim_end s : chars s -> chars (trim_end s).
Proof.
  unfold chars, trim_end. intros H. apply Forall_reverse. apply Forall_reverse in H. induction H; cbn; [constructor|].
  case_match; [done|by constructor].
Qed.
Lemma chars_run cur : chars cur -> Forall chars (match cur with [] => [] | _ => [cur] end).
Proof. intros H. destruct cur; [constructor|]. constructor; [done|constructor]. Qed.
Lemma chars_snoc cur c : chars cur -> 0 <= c -> chars (cur ++ [c]).
Proof. intros H Hc. apply Forall_app. split; [done|]. constructor; [done|constructor]. Qed.
Lemma chars_lines s cur : chars s -> chars cur -> Forall chars (lines_from s cur).
Proof.
  intros H. revert cur. induction H as [|c s Hc _ IH]; intros cur Hcur; cbn [lines_from]; [by apply chars_run|].
  case_match; [|by apply IH, chars_snoc]. constructor; [|apply IH; constructor].
  unfold strip_cr. destruct (last cur) as [d|]; [|done]. repeat case_match; by try apply Forall_take.
Qed.
Lemma chars_split s cur : chars s -> chars cur -> Forall chars (split_ws s cur).
Proof.
  intros H. revert cur. induction H as [|c s Hc _ IH]; intros cur Hcur; cbn [split_ws]; [by apply chars_run|].
  case_match; [|by apply IH, chars_snoc]. apply Forall_app. split; [by apply chars_run|apply IH; constructor].
Qed.
Lemma chars_split_once sep s a b : chars s -> split_once sep s = Some (a, b) -> chars a /\ chars b.
Proof.
  unfold chars. intros H. revert a b. induction H as [|c s Hc Hs IH]; intros a b; cbn [split_once]; [done|].
  case_match; [intros [= <- <-]; by split; [constructor|]|].
  destruct (split_once sep s) as [[a0 b0]|]; [|done]. cbn. intros [= <- <-].
  destruct (IH a0 b0 eq_refl). by split; [constructor|].
Qed.
Definition token_chars (fs : list (str * str)) : Prop := Forall (fun f => chars f.1 /\ chars f.2) fs.
Lemma chars_tokens rest fl fs : Forall chars rest -> sort_tokens rest = (fl, fs) ->
  Forall chars fl /\ token_chars fs.
Proof.
  intros H. revert fl fs. induction H as [|t rest Ht _ IH]; intros fl fs; cbn [sort_tokens].
  - intros [= <- <-]. split; constructor.
  - destruct (sort_tokens rest) as [fl0 fs0]. destruct (IH _ _ eq_refl) as [H1 H2].
    destruct (split_once 61 t) as [[k v]|] eqn:E; [case_match|]; intros [= <- <-]; (split; [try done|try done]);
      constructor; try done. exact (chars_split_once 61 t k v Ht E).
Qed.
Lemma chars_type fs v fs' : token_chars fs -> take_type fs = Some (v, fs') -> chars v /\ token_chars fs'.
Proof.
  intros H. revert v fs'. induction H as [|f fs Hf Hfs IH]; intros v fs'; cbn [take_type]; [done|].
  case_match; [intros [= <- <-]; by split; [apply Hf|]|].
  destruct (take_type fs) as [[v0 fs0]|]; [|done]. cbn. intros [= <- <-]. destruct (IH _ _ eq_refl).
  split; [done|]. by constructor.
Qed.

Lemma parse_line_printable line e n : chars line -> parse_line line = Some e -> n ∈ᵤ 64 -> printable (with_seq n e).
Proof.
  intros Hl H Hn. unfold parse_line in H. cbv zeta in H. pose proof (chars_trim_end line Hl) as Ht.
  case_match; [done|]. case_match.
  - injection H as <-. split; cbn [seq kind flags fields raw with_seq]; [done|exact (chars_bstr "BOOT")|constructor|constructor|done].
  - pose proof (chars_split (trim_end line) [] Ht (Forall_nil_2 _)) as Hw. unfold split_whitespace in H.
    destruct (split_ws _ _) as [|first tokens]; [done|]. apply Forall_cons in Hw as [Hf Htk].
    apply bind_Some in H as ((k & rest) & Hk & H).
    assert (chars k /\ Forall chars rest) as [Hck Hcr].
    { unfold line_kind in Hk. repeat case_match; simplify_eq; (split; [try done; apply chars_bstr|try done; by constructor]). }
    destruct (sort_tokens rest) as [fl fs] eqn:Es. destruct (chars_tokens rest fl fs Hcr Es) as [Hfl Hfs].
    apply bind_Some in H as ((k' & fs') & Hk' & H). apply bind_Some in H as (cat & _ & [= <-]).
    assert (chars k' /\ token_chars fs') as [? ?].
    { case_match; [by eapply chars_type|]. by injection Hk' as <- <-. }
    by split.
Qed.

Lemma log_printable text : chars text -> Z.of_nat (length (events (parse_log text))) < 2 ^ 64 ->
  Forall printable (events (parse_log text)).
Proof.
  intros Ht. unfold parse_log. rewrite log_fold. cbn [events]. rewrite length_number. intros Hn.
  apply Forall_lookup_2. intros i e. rewrite number_lookup. intros (e0 & He & ->)%fmap_Some.
  pose proof (lookup_lt_Some _ _ _ He). apply list_elem_of_lookup_2, list_elem_of_omap in He as (line & Hl & Hp).
  eapply parse_line_printable; [|exact Hp|unfold uint; lia].
  pose proof (chars_lines text [] Ht (Forall_nil_2 _)) as Hls. rewrite Forall_forall in Hls. by apply Hls.
Qed.

(** ** One line per event *)

Definition one_line (s : str) : Prop := Forall (fun c => c <> 10) s.

Lemma hex_nibble_ge d : 0 <= d -> 48 <= hex_nibble d.
Proof. intros H. unfold hex_nibble. case_match; bool_facts; lia. Qed.
Lemma one_line_char c : 0 <= c -> one_line (escape_char c).
Proof.
  intros H. unfold one_line, escape_char.
  assert (48 <= hex_nibble (c / 16)) by (apply hex_nibble_ge, Z.div_pos; lia).
  assert (48 <= hex_nibble (c mod 16)) by (apply hex_nibble_ge, Z.mod_pos_bound; lia).
  repeat case_match; bool_facts; rewrite !Forall_cons, Forall_nil; lia.
Qed.
Lemma one_line_escape s : chars s -> one_line (json_escape s).
Proof.
  unfold one_line, json_escape. induction 1 as [|c s Hc _ IH]; [constructor|]. cbn [map concat].
  apply Forall_app. split; [by apply one_line_char|done].
Qed.
Lemma one_line_app a b : one_line (a ++ b) <-> one_line a /\ one_line b.
Proof. apply Forall_app. Qed.
Lemma one_line_quoted s : one_line s -> one_line (quoted s).
Proof. intros H. unfold quoted. rewrite !one_line_app. split; [by repeat constructor|]. split; [done|by repeat constructor]. Qed.
Lemma one_line_join {A} (f : A -> str) (P : A -> Prop) l : (forall a, P a -> one_line (f a)) -> Forall P l ->
  one_line (join [44] (map f l)).
Proof.
  intros Hf. induction 1 as [|a l Ha _ IH]; [constructor|]. destruct l as [|b l]; [by apply Hf|].
  change (join [44] (map f (a :: b :: l))) with (f a ++ [44] ++ join [44] (map f (b :: l))).
  rewrite !one_line_app. split; [by apply Hf|]. split; [by repeat constructor|done].
Qed.
Lemma one_line_b s : forallb (fun c => negb (c =? 10)) s = true -> one_line s.
Proof.
  rewrite forallb_forall. intros H. apply Forall_forall. intros c Hc. apply list_elem_of_In, H in Hc.
  by apply negb_true_iff, Z.eqb_neq in Hc.
Qed.

Lemma to_json_line e : printable e -> one_line (to_json e).
Proof.
  intros [Hs Hk Hfl Hfs Hr]. unfold to_json. cbv zeta. rewrite !one_line_app.
  repeat match goal with
  | |- _ /\ _ => split
  | |- one_line (key _) => apply one_line_b; vm_compute; reflexivity
  | |- one_line (quoted _) => apply one_line_quoted
  | |- one_line (json_escape _) => by apply one_line_escape
  | |- one_line (category_name _) => destruct (category e); apply one_line_b; vm_compute; reflexivity
  | |- one_line (dec _) => idtac
  | |- one_line (join _ (map _ (flags _))) =>
      eapply one_line_join; [|exact Hfl]; intros f Hf; by apply one_line_quoted, one_line_escape
  | |- one_line (join _ (map _ (fields _))) =>
      eapply one_line_join; [|exact Hfs]; intros f [H1 H2]; rewrite !one_line_app;
      split; [by apply one_line_quoted, one_line_escape|]; split;
      [by apply one_line_b|by apply one_line_quoted, one_line_escape]
  | |- one_line _ => apply one_line_b; vm_compute; reflexivity
  end.
  eapply Forall_impl; [apply dec_range|]. cbn. lia.
Qed.

Lemma lines_one s cur rest : one_line s -> lines_from (s ++ 10 :: rest) cur = strip_cr (cur ++ s) :: lines_from rest [].
Proof.
  intros H. revert cur. induction H as [|c s Hc _ IH]; intros cur; cbn [app lines_from].
  - by rewrite app_nil_r.
  - rewrite (proj2 (Z.eqb_neq c 10)) by done. by rewrite IH, <- app_assoc.
Qed.
Lemma strip_json e : strip_cr (to_json e) = to_json e.
Proof.
  unfold to_json. cbv zeta. rewrite !app_assoc. unfold strip_cr. by rewrite last_snoc.
Qed.

(** The JSON export loses nothing.  Whatever the log says, [axiomctl
    events parse] prints one line per event, each line is that event's JSON
    object, and a reader of that format gets back exactly the parsed events:
    no character of a kind, flag, field or raw line can break the quoting. *)
Theorem json_export_lossless text :
  chars text -> Z.of_nat (length (events (parse_log text))) < 2 ^ 64 ->
  lines (cmd_events text false) = map to_json (events (parse_log text)) /\
  read_ndjson (length (cmd_events text false)) (cmd_events text false) = Some (events (parse_log text)).
Proof.
  intros Ht Hn. pose proof (log_printable text Ht Hn) as Hp. unfold cmd_events, lines. cbv zeta.
  generalize dependent (events (parse_log text)). intros l _ Hp. split.
  - induction Hp as [|e l He _ IH]; [done|]. cbn [map concat]. rewrite <- app_assoc. cbn [app].
    rewrite lines_one, IH by (by apply to_json_line). by rewrite app_nil_l, strip_json.
  - generalize (le_n (length (concat (map (fun ev => to_json ev ++ [10]) l)))).
    generalize (length (concat (map (fun ev => to_json ev ++ [10]) l))) at 2 3.
    induction Hp as [|e l He _ IH]; intros fuel Hf; [by destruct fuel|].
    cbn [map concat] in *. rewrite !length_app in Hf. cbn [length] in Hf. destruct fuel as [|fuel]; [lia|].
    cbn [read_ndjson]. rewrite <- app_assoc, read_to_json by done. cbn [mbind option_bind].
    rewrite read_lit_app. cbn [mbind option_bind]. rewrite IH by lia.
    destruct (to_json e ++ [10] ++ concat (map (fun ev => to_json ev ++ [10]) l)) eqn:E; [|done].
    by destruct (to_json e).
Qed.

(** ** The kernel's monitor lines *)

Definition monitor_category (t : MonitorEventType) : Category :=
  match t with
  | TaskStarted | TaskExited | TaskFaulted => CTask
  | CapDenied => CCapability | IpcDenied => CIpc
  | MPageFault | DeadlineMissed => CFault
  | MWatchdogTimeout => CWatchdog | RecoveryApplied => CRecovery
  end.
Definition monitor_fields (e : MonitorEvent) : list (str * str) :=
  [(bstr "ts", dec (timestamp e)); (bstr "task", dec (as_u32 (task e)));
   (bstr "sev", severity_name (ev_severity e)); (bstr "phase", phase_name (phase e))] ++
  match policy_result e with Some p => [(bstr "policy", policy_name p)] | None => [] end ++
  match related_cap e with Some c => [(bstr "cap", dec c)] | None => [] end ++
  match related_syscall e with Some c => [(bstr "syscall", dec c)] | None => [] end.
(** What the host should read of an event. *)
Definition monitor_seen (e : MonitorEvent) : Event :=
  mkEv 0 (monitor_category (event_type e)) (event_name (event_type e)) [] (monitor_fields e) (line_text e).
Definition monitor_ok (e : MonitorEvent) : Prop :=
  0 <= timestamp e /\ 0 <= as_u32 (task e) /\ (forall c, related_cap e = Some c -> 0 <= c) /\
  (forall c, related_syscall e = Some c -> 0 <= c).

Definition assign (f : str * str) : str := f.1 ++ [61] ++ f.2.
(** A key and a value that survive the trip. *)
Definition plain (f : str * str) : Prop := wordy f.1 /\ wordy f.2 /\ Forall (fun c => c <> 61) f.1.

Lemma split_assign f : Forall (fun c => c <> 61) f.1 -> split_once 61 (assign f) = Some f.
Proof.
  destruct f as [k v]. unfold assign. cbn [fst snd]. induction 1 as [|c k Hc _ IH]; [done|]. cbn [app split_once].
  rewrite (proj2 (Z.eqb_neq c 61)) by done. cbn [app] in IH. by rewrite IH.
Qed.
Lemma sort_assign fs : Forall plain fs -> sort_tokens (map assign fs) = ([], fs).
Proof.
  induction 1 as [|f fs (Hk & _ & H) _ IH]; [done|]. cbn [map sort_tokens]. rewrite IH, split_assign by done.
  destruct f as [[|c k] v]; [by destruct Hk|done].
Qed.
Lemma assign_wordy f : plain f -> wordy (assign f).
Proof.
  intros ([Hn Hk] & [_ Hv] & _). split; [by destruct f as [[|? ?] ?]|]. unfold assign. rewrite !Forall_app.
  split; [done|]. split; [by repeat constructor|done].
Qed.
Lemma wordy_b s : negb (is_empty s) && forallb (fun c => negb (is_whitespace c)) s = true -> wordy s.
Proof.
  intros [H1 H2]%andb_true_iff. split; [by destruct s|]. rewrite forallb_forall in H2. apply Forall_forall.
  intros c Hc. apply list_elem_of_In, H2 in Hc. by apply negb_true_iff in Hc.
Qed.
Lemma dec_digits_grow fuel x acc : (length acc < length (dec_digits (S fuel) x acc))%nat.
Proof.
  revert x acc. induction fuel as [|n IH]; intros x acc.
  - cbn [dec_digits]. case_match; cbn [length]; lia.
  - remember (S n) as m eqn:Em. cbn [dec_digits]. case_match; [cbn [length]; lia|]. subst m.
    specialize (IH (x / 10) ((48 + x mod 10) :: acc)). cbn [length] in IH. lia.
Qed.
Lemma wordy_dec x : 0 <= x -> wordy (dec x).
Proof.
  intros H. split.
  - unfold dec. intros E. pose proof (dec_digits_grow 19 x []) as Hl. rewrite E in Hl. cbn in Hl. lia.
  - eapply Forall_impl; [apply dec_range|]. cbn. intros d Hd.
    unfold is_whitespace. rewrite !orb_false_iff, !andb_false_iff, !Z.eqb_neq, !Z.leb_gt. lia.
Qed.

Lemma monitor_plain e : monitor_ok e -> Forall plain (monitor_fields e).
Proof.
  intros (H1 & H2 & H3 & H4).
  assert (forall k v, negb (is_empty (bstr k)) && forallb (fun c => negb (is_whitespace c)) (bstr k)
    && forallb (fun c => negb (c =? 61)) (bstr k) = true -> wordy v -> plain (bstr k, v)) as Hp.
  { intros k v [Hk He]%andb_true_iff Hv. split; [by apply wordy_b|]. split; [done|]. cbn [fst].
    rewrite forallb_forall in He. apply Forall_forall. intros c Hc. apply list_elem_of_In, He in Hc.
    by apply negb_true_iff, Z.eqb_neq in Hc. }
  unfold monitor_fields. apply Forall_app. split; [|apply Forall_app; split; [|apply Forall_app; split]].
  1: repeat (apply Forall_cons; split); [..|apply Forall_nil_2].
  - apply Hp; [done|by apply wordy_dec].
  - apply Hp; [done|by apply wordy_dec].
  - apply Hp; [done|]. apply wordy_b. by destruct (ev_severity e).
  - apply Hp; [done|]. apply wordy_b. by destruct (phase e).
  - destruct (policy_result e) as [p|]; [|constructor]. constructor; [|constructor]. apply Hp; [done|].
    apply wordy_b. by destruct p.
  - destruct (related_cap e) as [c|]; [|constructor]. constructor; [|constructor]. apply Hp; [done|].
    apply wordy_dec. by apply H3.
  - destruct (related_syscall e) as [c|]; [|constructor]. constructor; [|constructor]. apply Hp; [done|].
    apply wordy_dec. by apply H4.
Qed.

Definition monitor_tokens (e : MonitorEvent) : list str :=
  bstr "EVT" :: map assign ((bstr "type", event_name (event_type e)) :: monitor_fields e).
Lemma line_text_tokens e : line_text e = join [32] (monitor_tokens e).
Proof.
  unfold line_text, monitor_tokens, monitor_fields.
  destruct (policy_result e), (related_cap e), (related_syscall e);
    cbn [map app join assign fst snd]; unfold assign; cbn [fst snd]; rewrite ?app_nil_r, <- ?app_assoc; reflexivity.
Qed.

Lemma monitor_line e : monitor_ok e -> parse_line (line_text e) = Some (monitor_seen e).
Proof.
  intros Hok. pose proof (monitor_plain e Hok) as Hp.
  assert (plain (bstr "type", event_name (event_type e))) as Ht.
  { split; [by apply wordy_b|]. split; [apply wordy_b; by destruct (event_type e)|]. vm_compute. by repeat constructor. }
  assert (Forall wordy (monitor_tokens e)) as Hw.
  { constructor; [by apply wordy_b|]. apply Forall_map. eapply Forall_impl; [by constructor|]. apply assign_wordy. }
  destruct (join_last (monitor_tokens e)) as (s & c & E & Hc); [done|done|].
  rewrite <- line_text_tokens in E. assert (trim_end (line_text e) = line_text e) as Et by (rewrite E; by apply trim_end_word).
  unfold parse_line. cbv zeta. rewrite Et.
  assert (is_empty (trim (line_text e)) = false) as ->.
  { destruct (trim (line_text e)) eqn:En; [|done]. apply trim_nil in En. rewrite E in En.
    apply Forall_app in En as [_ En]. inversion En. congruence. }
  assert (str_is (line_text e) "AxiomRT kernel booted" = false) as ->.
  { apply bool_decide_eq_false. unfold line_text. intros [=]. }
  assert (split_whitespace (line_text e) = monitor_tokens e) as -> by (rewrite line_text_tokens; by apply split_join).
  assert (line_kind (bstr "EVT") (tail (monitor_tokens e)) = Some (bstr "EVT", tail (monitor_tokens e))) as Ek by done.
  unfold monitor_tokens at 1. unfold monitor_tokens in Ek. cbn [tail] in Ek. rewrite Ek. cbn [mbind option_bind].
  rewrite sort_assign by (by constructor). change (str_is (bstr "EVT") "EVT") with true. cbn iota.
  cbn [take_type fst]. change (str_is (bstr "type") "type") with true. cbn iota. cbn [mbind option_bind snd].
  assert (categorize (event_name (event_type e)) (monitor_fields e) = Some (monitor_category (event_type e))) as ->
    by (by destruct (event_type e)).
  done.
Qed.
Lemma ascii_line e : monitor_ok e -> one_line (line_text e) /\ strip_cr (line_text e) = line_text e.
Proof.
  intros Hok. pose proof (monitor_plain e Hok) as Hp. assert (Forall wordy (monitor_tokens e)) as Hw.
  { constructor; [by apply wordy_b|]. apply Forall_map. eapply Forall_impl; [constructor; [|exact Hp]|apply assign_wordy].
    split; [by apply wordy_b|]. split; [apply wordy_b; by destruct (event_type e)|]. vm_compute. by repeat constructor. }
  rewrite line_text_tokens. split.
  - assert (forall t, wordy t -> one_line t) as Ht.
    { intros t [_ H]. eapply Forall_impl; [exact H|]. intros c Hc ->. discriminate Hc. }
    revert Hw. generalize (monitor_tokens e). induction 1 as [|t l Hl Hls IH]; [constructor|].
    destruct l as [|u l]; [by apply Ht|]. change (join [32] (t :: u :: l)) with (t ++ [32] ++ join [32] (u :: l)).
    rewrite !one_line_app. split; [by apply Ht|]. split; [by repeat constructor|done].
  - destruct (join_last (monitor_tokens e)) as (s & c & -> & Hc); [done|done|]. unfold strip_cr. rewrite last_snoc.
    repeat case_match; try done.
Qed.

(** C39. From the kernel's monitor to the host.  Any events the kernel exports
    over the serial line are parsed back one for one: none is skipped, each
    keeps its number in the sequence, its type is the kind, and the
    timestamp, task, severity, phase, policy, capability and system call are
    the fields, in that order. *)
Theorem monitor_events_parsed es out :
  Forall monitor_ok es -> mapM export es = Val out ->
  parse_log (concat (concat out)) = mkLog (number 0 (map monitor_seen es)) 0.
Proof.
  intros Hok Hout. assert (concat (concat out) = concat (map (fun e => line_text e ++ [10]) es)) as ->.
  { clear Hok. revert out Hout. induction es as [|e es IH]; intros out.
    - intros Hx. injection Hx as <-. reflexivity.
    - change (mapM export (e :: es)) with (y ← export e; k ← mapM export es; mret (y :: k)).
      rewrite export_text. cbn [mbind outcome_bind]. destruct (mapM export es) as [o|]; [|discriminate].
      intros Hx. injection Hx as <-. cbn [concat app map]. rewrite (IH o eq_refl), <- app_assoc. reflexivity. }
  assert (lines (concat (map (fun e => line_text e ++ [10]) es)) = map line_text es) as El.
  { unfold lines. clear Hout. induction Hok as [|e es He _ IH]; [done|]. destruct (ascii_line e He) as [H1 H2].
    cbn [map concat]. rewrite <- app_assoc. cbn [app]. rewrite (lines_one _ _ _ H1), app_nil_l, H2. f_equal. apply IH. }
  unfold parse_log. rewrite El, log_fold. f_equal.
  - f_equal. clear El Hout. induction Hok as [|e es He _ IH]; [done|]. cbn [map omap list_omap].
    by rewrite (monitor_line e He), IH.
  - clear El Hout. induction Hok as [|e es He _ IH]; [done|]. cbn [map]. rewrite filter_cons, decide_False; [done|].
    intros [H _]. by rewrite (monitor_line e He) in H.
Qed.

(** ** The summary counts *)

Definition total (kinds : list (str * Z)) : Z := foldr (fun kn t => kn.2 + t) 0 kinds.
Definition count (k : str) (l : list Event) : Z := Z.of_nat (length (filter (fun e => kind e = k) l)).

Lemma count_kind_keys kinds k :
  (k ∈ kinds.*1 -> (count_kind kinds k).*1 = kinds.*1) /\
  (k ∉ kinds.*1 -> (count_kind kinds k).*1 = kinds.*1 ++ [k]).
Proof.
  induction kinds as [|[k' n] kinds [IH1 IH2]]; cbn; [by split; [intros ?%elem_of_nil|]|].
  case_bool_decide as E; cbn.
  - split; [done|]. intros H. destruct H. subst. left.
  - split; intros H; f_equal; [apply IH1|apply IH2]; set_solver.
Qed.
Lemma count_kind_in kinds k k' n : NoDup kinds.*1 -> (k', n) ∈ count_kind kinds k ->
  (k' <> k /\ (k', n) ∈ kinds) \/ (k' = k /\ ((k, n - 1) ∈ kinds \/ ((k ∉ kinds.*1) /\ n = 1))).
Proof.
  induction kinds as [|[k0 n0] kinds IH]; cbn.
  - intros _ [= -> ->]%list_elem_of_singleton. right. split; [done|]. right. split; [by intros ?%elem_of_nil|done].
  - intros [Hn Hd]%NoDup_cons. case_bool_decide as E; rewrite elem_of_cons.
    + subst k0. intros [[= -> ->]|H].
      * right. split; [done|]. left. replace (n0 + 1 - 1) with n0 by lia. left.
      * left. split; [|by right]. intros ->. apply Hn. apply list_elem_of_fmap. by exists (k, n).
    + intros [[= -> ->]|H]; [left; split; [done|left]|].
      destruct (IH Hd H) as [[? ?]|[-> [?|[Hx ->]]]].
      * left. split; [done|by right].
      * right. split; [done|]. left. by right.
      * right. split; [done|]. right. split; [|done]. rewrite not_elem_of_cons. done.
Qed.
Lemma total_count ks k : total (count_kind ks k) = total ks + 1.
Proof.
  induction ks as [|[k' n] ks IH]; [done|]. cbn [count_kind]. unfold total in *.
  case_bool_decide; cbn [foldr snd]; lia.
Qed.
Lemma kind_counts_spec l : NoDup (kind_counts l).*1 /\
  (forall k n, (k, n) ∈ kind_counts l -> n = count k l /\ 0 < n) /\
  (forall e, e ∈ l -> kind e ∈ (kind_counts l).*1) /\ total (kind_counts l) = Z.of_nat (length l).
Proof.
  unfold kind_counts. induction l as [|e l (Hd & Hc & He & Ht)] using rev_ind.
  { split; [constructor|]. split; [by intros k n ?%elem_of_nil|]. by split; [intros e ?%elem_of_nil|]. }
  rewrite foldl_snoc. set (ks := foldl _ [] l) in *. destruct (count_kind_keys ks (kind e)) as [K1 K2].
  assert (forall k, count k (l ++ [e]) = count k l + (if decide (kind e = k) then 1 else 0)) as Ec.
  { intros k. unfold count. rewrite filter_app, length_app, filter_cons, filter_nil. case_decide; cbn [length]; lia. }
  split; [|split; [|split]].
  - destruct (decide (kind e ∈ ks.*1)) as [Hin|Hin]; [by rewrite K1|]. rewrite K2 by done. apply NoDup_app.
    split; [done|]. split; [|apply NoDup_singleton]. intros k Hk ->%list_elem_of_singleton. done.
  - intros k n Hkn. rewrite Ec. apply count_kind_in in Hkn as [[Hne Hkn]|[-> [Hkn|[Hx ->]]]]; [| | |done].
    + rewrite decide_False by done. destruct (Hc k n Hkn). lia.
    + rewrite decide_True by done. destruct (Hc _ _ Hkn). lia.
    + rewrite decide_True by done. split; [|lia]. unfold count.
      destruct (filter (fun e0 => kind e0 = kind e) l) as [|e0 l0] eqn:Ef; [done|]. exfalso.
      assert (e0 ∈ filter (fun e0 => kind e0 = kind e) l) as [E0 H0]%list_elem_of_filter by (rewrite Ef; left).
      apply Hx. rewrite <- E0. by apply He.
  - intros e0 He0. apply elem_of_app in He0.
    assert (forall k, k = kind e \/ k ∈ ks.*1 -> k ∈ (count_kind ks (kind e)).*1) as Hk.
    { intros k Hk. destruct (decide (kind e ∈ ks.*1)) as [Hin|Hin].
      - rewrite K1 by done. by destruct Hk as [->|].
      - rewrite K2 by done. set_solver. }
    apply Hk. destruct He0 as [?|He0]; [right; by apply He|left; apply list_elem_of_singleton in He0; by subst].
  - rewrite length_app. cbn [length]. rewrite total_count. lia.
Qed.

Definition infix (a b : str) : Prop := exists pre post, b = pre ++ a ++ post.
Lemma infix_l a b c : infix a b -> infix a (b ++ c).
Proof. intros (p & q & ->). exists p, (q ++ c). by rewrite <- !app_assoc. Qed.
Lemma infix_r a b c : infix a c -> infix a (b ++ c).
Proof. intros (p & q & ->). exists (b ++ p), q. by rewrite <- !app_assoc. Qed.
Lemma infix_refl a : infix a a.
Proof. exists [], []. by rewrite app_nil_r. Qed.
Lemma infix_concat a b l : b ∈ l -> infix a b -> infix a (concat l).
Proof.
  induction l as [|x l IH]; [by intros ?%elem_of_nil|]. intros [->|Hb]%elem_of_cons Hi; cbn [concat];
    [by apply infix_l|by apply infix_r, IH].
Qed.
Lemma infix_join sep a l : a ∈ l -> infix a (join sep l).
Proof.
  induction l as [|x l IH]; [by intros ?%elem_of_nil|]. intros [->|Ha]%elem_of_cons; destruct l as [|y l].
  - apply infix_refl.
  - apply infix_l, infix_refl.
  - by apply elem_of_nil in Ha.
  - apply infix_r, infix_r. by apply IH.
Qed.

Lemma summary_row_kind l c k n : (k, n) ∈ kind_counts (of_category c l) ->
  infix (k ++ bstr " x" ++ dec n) (summary_row l c).
Proof.
  intros H. unfold summary_row. cbv zeta. destruct (of_category c l) as [|e0 l0] eqn:E; [by apply elem_of_nil in H|].
  do 5 apply infix_r. apply infix_l. apply infix_join.
  apply list_elem_of_fmap. by exists (k, n).
Qed.
Lemma order_total l : foldr (fun c t => Z.of_nat (length (of_category c l)) + t) 0 ORDER = Z.of_nat (length l).
Proof.
  induction l as [|e l IH]; [done|]. unfold of_category in *.
  assert (forall c, length (filter (fun e0 => category e0 = c) (e :: l)) =
    ((if decide (category e = c) then 1 else 0) + length (filter (fun e0 => category e0 = c) l))%nat) as Hf.
  { intros c. rewrite filter_cons. by case_decide. }
  cbn [foldr ORDER] in *. rewrite !Hf. cbn [length].
  destruct (category e); repeat (case_decide; [try discriminate|try congruence]); lia.
Qed.

(** The summary counts every event once.  Each event belongs to exactly
    one category of the printed order, so the category counts add up to the
    number of events; within a category the kinds are distinct, each with the
    exact number of its events, adding up to the category's count; and for
    every event of the log the printed text has its kind with that number. *)
Theorem summary_counts_exact log :
  foldr (fun c t => Z.of_nat (length (of_category c (events log))) + t) 0 ORDER = Z.of_nat (length (events log)) /\
  (forall c, let l := of_category c (events log) in
     NoDup (kind_counts l).*1 /\ total (kind_counts l) = Z.of_nat (length l) /\
     forall k n, (k, n) ∈ kind_counts l -> n = count k l /\ 0 < n) /\
  (forall e, e ∈ events log ->
     infix (kind e ++ bstr " x" ++ dec (count (kind e) (of_category (category e) (events log)))) (summary log)).
Proof.
  split; [apply order_total|]. split.
  - intros c. cbv zeta. destruct (kind_counts_spec (of_category c (events log))) as (H1 & H2 & _ & H4). done.
  - intros e He. destruct (kind_counts_spec (of_category (category e) (events log))) as (_ & H2 & H3 & _).
    assert (kind e ∈ (kind_counts (of_category (category e) (events log))).*1) as Hk.
    { apply H3. unfold of_category. by apply list_elem_of_filter. }
    apply list_elem_of_fmap in Hk as ([k n] & Ek & Hkn). cbn in Ek. rewrite Ek. destruct (H2 k n Hkn) as [<- _].
    unfold summary. do 6 apply infix_r. eapply infix_concat; [|by apply summary_row_kind].
    apply list_elem_of_fmap. exists (category e). split; [done|]. apply list_elem_of_In. destruct (category e); cbn; tauto.
Qed.

(** ** Examples *)

Definition sample_log : str :=
  bstr "OpenSBI v1.8" ++ [10] ++ bstr "TASK_STARTED task=a" ++ [10; 10] ++ bstr "CAP_DENIED task=b why=" ++ [34; 92; 7]
  ++ [13; 10] ++ bstr "noise here".

Lemma json_export_lossless_witness :
  length (events (parse_log sample_log)) = 2%nat /\ skipped (parse_log sample_log) = 2 /\
  read_ndjson (length (cmd_events sample_log false)) (cmd_events sample_log false)
    = Some (events (parse_log sample_log)).
Proof.
  split; [vm_compute; reflexivity|]. split; [vm_compute; reflexivity|].
  apply (json_export_lossless sample_log).
  - apply Forall_forall. intros c Hc. apply list_elem_of_In in Hc.
    assert (forallb (Z.leb 0) sample_log = true) as H by (vm_compute; reflexivity).
    rewrite forallb_forall in H. apply Z.leb_le. exact (H c Hc).
  - vm_compute. reflexivity.
Defined.

Definition sample_events : list MonitorEvent :=
  [MonitorEvent_new 128 (mkThreadId 3) TaskStarted PBoot; MonitorEvent_new 129 (mkThreadId 3) CapDenied PSyscall].
Definition sample_out : list (list str) := map (fun e => [line_text e; [10]]) sample_events.

Lemma monitor_events_parsed_witness :
  parse_log (concat (concat sample_out)) = mkLog (number 0 (map monitor_seen sample_events)) 0.
Proof.
  apply (monitor_events_parsed sample_events sample_out).
  - repeat (apply Forall_cons; split); [..|apply Forall_nil_2]; vm_compute; repeat split; discriminate.
  - vm_compute. reflexivity.
Defined.

End Events.
