(* ===== verification/Utf8.v ===== *)
(** * UTF-8 text

    What the host tools use of [str] and [String]: the encoding behind
    [as_bytes] and [len], the check behind [String::from_utf8] and
    [read_line], character boundaries and slices, and the parsers of
    unsigned numbers.  A string is the list of its characters' code points. *)

From stdpp Require Import strings base decidable numbers option tactics list.
From S2P Require Import Prelude Bytes.
Local Open Scope Z_scope.

Module Utf8.

(** [char]: a Unicode scalar value. *)
Definition scalar (c : Z) : Prop := 0 <= c < 0xD800 \/ 0xE000 <= c < 0x110000.
#[export] Instance scalar_dec c : Decision (scalar c).
Proof. unfold scalar. apply _. Defined.
Definition text (s : list Z) : Prop := Forall scalar s.
#[export] Instance text_dec s : Decision (text s).
Proof. unfold text. apply _. Defined.

(** [char::encode_utf8] and [char::len_utf8] *)
Definition encode_char (c : Z) : list Z :=
  if c <? 0x80 then [c]
  else if c <? 0x800 then [0xC0 + c / 64; 0x80 + c mod 64]
  else if c <? 0x10000 then [0xE0 + c / 4096; 0x80 + (c / 64) mod 64; 0x80 + c mod 64]
  else [0xF0 + c / 262144; 0x80 + (c / 4096) mod 64; 0x80 + (c / 64) mod 64; 0x80 + c mod 64].
Definition len_utf8 (c : Z) : nat := length (encode_char c).

(** [str::as_bytes] and [str::len] *)
Fixpoint as_bytes (s : list Z) : list Z :=
  match s with [] => [] | c :: s => encode_char c ++ as_bytes s end.
Definition len (s : list Z) : Z := Z.of_nat (length (as_bytes s)).

(** [str::from_utf8]: the value of the sequence a lead byte opens, refused
    unless it is the encoding of a scalar value. *)
Definition sequence (bs : list Z) : option (nat * Z) :=
  match bs with
  | [] => None
  | b0 :: r =>
      if b0 <? 0x80 then Some (1%nat, b0)
      else if b0 <? 0xE0 then
        match r with b1 :: _ => Some (2%nat, (b0 - 0xC0) * 64 + (b1 - 0x80)) | _ => None end
      else if b0 <? 0xF0 then
        match r with
        | b1 :: b2 :: _ => Some (3%nat, (b0 - 0xE0) * 4096 + (b1 - 0x80) * 64 + (b2 - 0x80))
        | _ => None
        end
      else
        match r with
        | b1 :: b2 :: b3 :: _ =>
            Some (4%nat, (b0 - 0xF0) * 262144 + (b1 - 0x80) * 4096 + (b2 - 0x80) * 64 + (b3 - 0x80))
        | _ => None
        end
  end.
Definition decode_char (bs : list Z) : option (Z * list Z) :=
  '(n, c) ← sequence bs;
  if decide (scalar c /\ take n bs = encode_char c) then Some (c, drop n bs) else None.
Fixpoint from_utf8_fuel (fuel : nat) (bs : list Z) : option (list Z) :=
  match fuel, bs with
  | _, [] => Some []
  | O, _ => None
  | S fuel, _ => '(c, r) ← decode_char bs; s ← from_utf8_fuel fuel r; Some (c :: s)
  end.
Definition from_utf8 (bs : list Z) : option (list Z) := from_utf8_fuel (length bs) bs.

(** [str::is_char_boundary] *)
Definition is_char_boundary (s : list Z) (i : Z) : bool :=
  (i =? 0) || (i =? len s) ||
  match as_bytes s !! Z.to_nat i with Some b => negb ((0x80 <=? b) && (b <? 0xC0)) | None => false end.

(** [&s[start..]]: a panic off a character boundary. *)
Fixpoint slice_from (s : list Z) (start : nat) : outcome (list Z) :=
  match start, s with
  | O, _ => mret s
  | _, [] => Panic
  | _, c :: s' => if (len_utf8 c <=? start)%nat then slice_from s' (start - len_utf8 c) else Panic
  end.

(** [str::parse] to a [w]-bit unsigned integer: an optional plus sign, at
    least one digit, no overflow. *)
Fixpoint parse_digits (w acc : Z) (s : list Z) : option Z :=
  match s with
  | [] => Some acc
  | c :: s =>
      if (48 <=? c) && (c <=? 57) then
        let v := acc * 10 + (c - 48) in
        if v <? 2 ^ w then parse_digits w v s else None
      else None
  end.
Definition parse_uint (w : Z) (s : list Z) : option Z :=
  match s with
  | [] => None
  | [43] => None
  | 43 :: ds => parse_digits w 0 ds
  | ds => parse_digits w 0 ds
  end.

(** ** Encoding and decoding *)

Lemma encode_length c : (1 <= len_utf8 c <= 4)%nat.
Proof. unfold len_utf8, encode_char. repeat case_match; cbn [length]; lia. Qed.

Lemma sequence_encode c r : scalar c -> sequence (encode_char c ++ r) = Some (len_utf8 c, c).
Proof.
  intros H. unfold scalar in H. unfold len_utf8, encode_char, sequence.
  destruct (Z.ltb_spec c 0x80); cbn [app length].
  { rewrite (proj2 (Z.ltb_lt c 0x80)) by lia. done. }
  destruct (Z.ltb_spec c 0x800); cbn [app length].
  { rewrite (proj2 (Z.ltb_ge _ 0x80)), (proj2 (Z.ltb_lt _ 0xE0)) by divmod_lia.
    do 2 f_equal. divmod_lia. }
  destruct (Z.ltb_spec c 0x10000); cbn [app length].
  { rewrite (proj2 (Z.ltb_ge _ 0x80)), (proj2 (Z.ltb_ge _ 0xE0)), (proj2 (Z.ltb_lt _ 0xF0)) by divmod_lia.
    do 2 f_equal. divmod_lia. }
  rewrite (proj2 (Z.ltb_ge _ 0x80)), (proj2 (Z.ltb_ge _ 0xE0)), (proj2 (Z.ltb_ge _ 0xF0)) by divmod_lia.
  do 2 f_equal. divmod_lia.
Qed.

Lemma decode_encode c r : scalar c -> decode_char (encode_char c ++ r) = Some (c, r).
Proof.
  intros H. unfold decode_char. rewrite sequence_encode by done. cbn [mbind option_bind].
  unfold len_utf8. rewrite take_app_length, drop_app_length, decide_True by done. done.
Qed.

Lemma decode_char_inv bs c r : decode_char bs = Some (c, r) -> scalar c /\ bs = encode_char c ++ r.
Proof.
  unfold decode_char. destruct (sequence bs) as [[n v]|]; [|done]. cbn [mbind option_bind].
  case_decide as E; [|done]. intros [= <- <-]. destruct E as [Hs Ht]. split; [done|].
  by rewrite <- Ht, take_drop.
Qed.

Lemma from_utf8_complete s fuel : text s -> (length (as_bytes s) <= fuel)%nat ->
  from_utf8_fuel fuel (as_bytes s) = Some s.
Proof.
  intros H. revert fuel. induction H as [|c s Hc _ IH]; intros fuel Hf; [by destruct fuel|].
  cbn [as_bytes] in *. rewrite length_app in Hf. pose proof (encode_length c) as Hl. unfold len_utf8 in Hl.
  destruct fuel as [|fuel]; [lia|]. cbn [from_utf8_fuel].
  rewrite decode_encode by done. cbn [mbind option_bind]. rewrite IH by lia. cbn [mbind option_bind].
  destruct (encode_char c) eqn:E; [cbn [length] in Hl; lia|done].
Qed.

Lemma from_utf8_sound fuel bs s : from_utf8_fuel fuel bs = Some s -> text s /\ as_bytes s = bs.
Proof.
  revert bs s. induction fuel as [|fuel IH]; intros bs s; cbn [from_utf8_fuel].
  { destruct bs; [|done]. intros [= <-]. split; [constructor|done]. }
  destruct bs as [|b bs']; [intros [= <-]; split; [constructor|done]|].
  destruct (decode_char (b :: bs')) as [[c r]|] eqn:E; [|done]. cbn [mbind option_bind].
  destruct (from_utf8_fuel fuel r) as [s'|] eqn:E2; [|done]. cbn [mbind option_bind]. intros [= <-].
  apply decode_char_inv in E as [Hc ->]. apply IH in E2 as [Ht <-]. split; [by constructor|done].
Qed.

(** The strings are exactly the byte sequences [from_utf8] accepts. *)
Lemma from_utf8_iff bs s : from_utf8 bs = Some s <-> text s /\ as_bytes s = bs.
Proof.
  split; [apply from_utf8_sound|]. intros [Ht <-]. by apply from_utf8_complete.
Qed.

Lemma as_bytes_app s1 s2 : as_bytes (s1 ++ s2) = as_bytes s1 ++ as_bytes s2.
Proof. induction s1 as [|c s1 IH]; [done|]. cbn [app as_bytes]. by rewrite IH, app_assoc. Qed.
Lemma len_app s1 s2 : len (s1 ++ s2) = len s1 + len s2.
Proof. unfold len. rewrite as_bytes_app, length_app. lia. Qed.
Lemma len_nonneg s : 0 <= len s.
Proof. unfold len. lia. Qed.

Lemma as_bytes_ascii s : Forall (fun c => 0 <= c < 0x80) s -> as_bytes s = s.
Proof.
  induction 1 as [|c s Hc _ IH]; [done|]. cbn [as_bytes]. unfold encode_char.
  rewrite (proj2 (Z.ltb_lt c 0x80)), IH by lia. done.
Qed.

(** ** Boundaries *)

(** The first byte of a character opens it, the others continue it. *)
Lemma encode_lead c : scalar c -> exists b r, encode_char c = b :: r /\ ((0x80 <=? b) && (b <? 0xC0)) = false /\
  Forall (fun b => ((0x80 <=? b) && (b <? 0xC0)) = true) r.
Proof.
  intros H. unfold scalar in H. unfold encode_char.
  destruct (Z.ltb_spec c 0x80); [exists c, []|destruct (Z.ltb_spec c 0x800);
    [|destruct (Z.ltb_spec c 0x10000)]; (eexists _, _; split; [reflexivity|])].
  { repeat split; [|constructor]. apply andb_false_iff. left. lia. }
  all: split; [apply andb_false_iff; right; divmod_lia|].
  all: repeat (constructor; [apply andb_true_iff; split; divmod_lia|]); constructor.
Qed.

Lemma slice_from_app s1 s2 : slice_from (s1 ++ s2) (length (as_bytes s1)) = Val s2.
Proof.
  induction s1 as [|c s1 IH]; [by destruct s2|]. cbn [app as_bytes].
  rewrite length_app. pose proof (encode_length c) as Hl. unfold len_utf8 in Hl.
  destruct (length (encode_char c) + length (as_bytes s1))%nat eqn:E; [lia|]. cbn [slice_from].
  unfold len_utf8. rewrite (proj2 (Nat.leb_le _ _)) by lia. rewrite <- E.
  by replace (_ + _ - _)%nat with (length (as_bytes s1)) by lia.
Qed.

(** An offset is a boundary exactly when it lies between two characters. *)
Lemma boundary_split s i : text s -> 0 <= i <= len s ->
  (is_char_boundary s i = true <-> exists s1 s2, s = s1 ++ s2 /\ len s1 = i).
Proof.
  intros Ht Hi. split.
  - revert i Hi. induction Ht as [|c s Hc Ht IH]; intros i Hi Hb.
    { exists [], []. split; [done|]. unfold len in *. cbn in *. lia. }
    destruct (Z.eq_dec i 0) as [->|Hn]; [by exists [], (c :: s)|].
    assert (len (c :: s) = Z.of_nat (len_utf8 c) + len s) as Hl
      by (unfold len, len_utf8; cbn [as_bytes]; rewrite length_app; lia).
    destruct (encode_lead c Hc) as (b & r & Ee & _ & Hr).
    assert (Z.of_nat (len_utf8 c) <= i) as Hge.
    { destruct (Z.le_gt_cases (Z.of_nat (len_utf8 c)) i) as [|Hlt]; [done|]. exfalso.
      unfold is_char_boundary in Hb. rewrite (proj2 (Z.eqb_neq i 0)) in Hb by done. cbn [orb] in Hb.
      rewrite (proj2 (Z.eqb_neq i _)) in Hb by (pose proof (len_nonneg s); lia). cbn [orb as_bytes] in Hb.
      unfold len_utf8 in *. rewrite lookup_app_l in Hb by lia.
      destruct (encode_char c !! Z.to_nat i) as [x|] eqn:Ex; [|done]. rewrite Ee in Ex.
      destruct (Z.to_nat i) as [|n] eqn:En; [lia|]. cbn in Ex.
      pose proof (proj1 (Forall_lookup _ _) Hr n x Ex) as E. cbn in E. by rewrite E in Hb. }
    destruct (IH (i - Z.of_nat (len_utf8 c))) as (s1 & s2 & -> & E2); [lia| |].
    + unfold is_char_boundary in *. rewrite (proj2 (Z.eqb_neq i 0)) in Hb by done. cbn [orb] in Hb.
      apply orb_true_iff in Hb as [E|E].
      { apply Z.eqb_eq in E. rewrite (proj2 (Z.eqb_eq _ (len s))) by lia. by rewrite orb_true_r. }
      cbn [as_bytes] in E. unfold len_utf8 in *. rewrite lookup_app_r in E by lia.
      replace (Z.to_nat i - length (encode_char c))%nat with (Z.to_nat (i - Z.of_nat (length (encode_char c)))) in E by lia.
      rewrite E. by rewrite orb_true_r.
    + exists (c :: s1), s2. split; [done|]. unfold len, len_utf8 in *. cbn [as_bytes]. rewrite length_app. lia.
  - intros (s1 & s2 & -> & <-). unfold is_char_boundary. destruct s2 as [|c s2].
    { rewrite app_nil_r, Z.eqb_refl. by rewrite orb_true_r. }
    apply Forall_app in Ht as [_ Ht]. inversion_clear Ht as [|? ? Hc _].
    destruct (encode_lead c Hc) as (b & r & Ee & Hb & _).
    replace (as_bytes (s1 ++ c :: s2) !! Z.to_nat (len s1)) with (Some b); [rewrite Hb; by rewrite orb_true_r|].
    rewrite as_bytes_app. unfold len. rewrite Nat2Z.id, lookup_app_r, Nat.sub_diag by lia.
    cbn [as_bytes]. by rewrite Ee.
Qed.

(** ** Numbers *)

Definition digits (s : list Z) : Prop := Forall (fun c => 48 <= c <= 57) s.

Lemma parse_digits_range w acc s v : 0 <= acc < 2 ^ w -> parse_digits w acc s = Some v -> 0 <= v < 2 ^ w.
Proof.
  revert acc. induction s as [|c s IH]; intros acc Ha; cbn [parse_digits]; [by intros [= <-]|].
  case_match eqn:E; [|done]. cbv zeta. case_match eqn:E2; [|done]. bool_facts. apply IH. lia.
Qed.
(** A parsed number fits its type. *)
Lemma parse_uint_range w s v : 0 <= w -> parse_uint w s = Some v -> v ∈ᵤ w.
Proof.
  intros Hw. unfold parse_uint, uint. pose proof (Z.pow_pos_nonneg 2 w ltac:(lia) Hw).
  repeat case_match; try done; apply parse_digits_range; lia.
Qed.

End Utf8.
