(* ===== verification/Host.v ===== *)
(** * Host programs

    The host tools talk to the machine they run on: files, directories,
    processes, sockets, a lock.  A host program is a tree of calls whose
    branches are the machine's possible answers, [prog]; [run] executes one
    against an environment that answers each call from the calls made so far,
    so quantifying over environments covers every behaviour of the machine. *)

From stdpp Require Import strings base decidable numbers option tactics list sorting.
From S2P Require Import Prelude Bytes Events.
Local Open Scope Z_scope.

(** ** Programs over a signature of calls *)

Section prog.
Context {C : Type} (R : C -> Type).

(** [PCrash] is a panic of the thread. *)
Inductive prog (A : Type) : Type :=
| PRet (a : A)
| PCall (c : C) (k : R c -> prog A)
| PCrash.
Arguments PRet {A} a.
Arguments PCall {A} c k.
Arguments PCrash {A}.

#[export] Instance host_ret : MRet prog := @PRet.
Fixpoint prog_bind_def {A B} (f : A -> prog B) (p : prog A) : prog B :=
  match p with
  | PRet a => f a
  | PCall c k => PCall c (fun r => prog_bind_def f (k r))
  | PCrash => PCrash
  end.
#[export] Instance host_bind : MBind prog := @prog_bind_def.

(** A call, and a computation that may panic. *)
Definition perform (c : C) : prog (R c) := PCall c PRet.
Definition lift {A} (o : outcome A) : prog A := match o with Val a => PRet a | Panic => PCrash end.

(** [for x in l], and the early return of a [Result]. *)
Fixpoint for_each {A S} (f : S -> A -> prog S) (s : S) (l : list A) : prog S :=
  match l with [] => PRet s | a :: l => s' ← f s a; for_each f s' l end.

(** An environment answers a call from the history of calls. *)
Abbreviation environment := (list C -> forall c, R c).

Fixpoint run {A} (h : environment) (past : list C) (p : prog A) : list C * option A :=
  match p with
  | PRet a => (past, Some a)
  | PCall c k => run h (past ++ [c]) (k (h past c))
  | PCrash => (past, None)
  end.

Lemma run_bind {A B} h past (p : prog A) (f : A -> prog B) :
  run h past (p ≫= f) =
  match run h past p with (past', Some a) => run h past' (f a) | (past', None) => (past', None) end.
Proof.
  revert past. induction p as [a|c k IH|]; intros past; [done| |done].
  cbn [mbind host_bind prog_bind_def run]. apply IH.
Qed.

Lemma run_perform h past c : run h past (perform c) = (past ++ [c], Some (h past c)).
Proof. done. Qed.

Lemma run_past {A} h past (p : prog A) : exists t, (run h past p).1 = past ++ t.
Proof.
  revert past. induction p as [a|c k IH|]; intros past; cbn [run fst]; [by exists []; rewrite app_nil_r| |by exists []; rewrite app_nil_r].
  destruct (IH (h past c) (past ++ [c])) as [t ->]. exists (c :: t). by rewrite <- app_assoc.
Qed.

(** Weakest precondition: [Q] of the result whatever the answers, every call
    allowed by [P]. *)
Fixpoint wp {A} (P : C -> Prop) (p : prog A) (Q : A -> Prop) : Prop :=
  match p with
  | PRet a => Q a
  | PCall c k => P c /\ forall r, wp P (k r) Q
  | PCrash => False
  end.

Lemma hwp_bind {A B} P (p : prog A) (f : A -> prog B) Q :
  wp P p (fun a => wp P (f a) Q) -> wp P (p ≫= f) Q.
Proof.
  induction p as [a|c k IH|]; cbn [mbind host_bind prog_bind_def wp]; [done| |done].
  intros [Hc Hk]. split; [done|]. intros r. by apply IH.
Qed.
Lemma hwp_mono {A} (P P' : C -> Prop) (p : prog A) (Q Q' : A -> Prop) :
  (forall c, P c -> P' c) -> (forall a, Q a -> Q' a) -> wp P p Q -> wp P' p Q'.
Proof.
  intros HP HQ. induction p as [a|c k IH|]; cbn [wp]; [apply HQ| |done].
  intros [Hc Hk]. split; [by apply HP|]. intros r. by apply IH.
Qed.
Lemma wp_perform P c (Q : R c -> Prop) : P c -> (forall r, Q r) -> wp P (perform c) Q.
Proof. by split. Qed.
Lemma hwp_for_each {A S} P (f : S -> A -> prog S) s l (I : S -> Prop) :
  (forall s a, a ∈ l -> I s -> wp P (f s a) I) -> I s -> wp P (for_each f s l) I.
Proof.
  revert s. induction l as [|a l IH]; intros s Hf Hs; [done|]. cbn [for_each]. apply hwp_bind.
  eapply hwp_mono; [done| |apply Hf; [left|done]]. intros s' Hs'. apply IH; [|done].
  intros s0 a0 Ha. apply Hf. by right.
Qed.

(** [wp] speaks of every run. *)
Lemma wp_run {A} P (p : prog A) Q h past : wp P p Q -> Forall P past ->
  exists a, run h past p = ((run h past p).1, Some a) /\ Q a /\ Forall P (run h past p).1.
Proof.
  revert past. induction p as [a|c k IH|]; intros past Hp Hpast; cbn [wp run] in *; [by exists a| |done].
  destruct Hp as [Hc Hk]. apply IH; [apply Hk|]. apply Forall_app. split; [done|by constructor].
Qed.

(** The same with the trace of calls and answers, for answers that keep a
    contract [G]. *)
Abbreviation exchange := {c : C & R c}.
Definition said (c : C) (r : R c) : exchange := existT c r.

Fixpoint twp {A} (G : forall c, R c -> Prop) (p : prog A) (Q : list exchange -> A -> Prop) : Prop :=
  match p with
  | PRet a => Q [] a
  | PCall c k => forall r, G c r -> twp G (k r) (fun t a => Q (said c r :: t) a)
  | PCrash => False
  end.

Lemma twp_mono {A} G (p : prog A) (Q Q' : list exchange -> A -> Prop) :
  (forall t a, Q t a -> Q' t a) -> twp G p Q -> twp G p Q'.
Proof.
  revert Q Q'. induction p as [a|c k IH|]; intros Q Q' HQ; cbn [twp]; [apply HQ| |done].
  intros H r Hr. eapply IH; [|by apply H]. intros t a. apply HQ.
Qed.
Lemma twp_bind {A B} G (p : prog A) (f : A -> prog B) Q :
  twp G p (fun t1 a => twp G (f a) (fun t2 b => Q (t1 ++ t2) b)) -> twp G (p ≫= f) Q.
Proof.
  revert Q. induction p as [a|c k IH|]; intros Q; cbn [mbind host_bind prog_bind_def twp app]; [done| |done].
  intros H r Hr. apply IH. by apply H.
Qed.

(** The answers are the environment's. *)
Fixpoint given (h : environment) (past : list C) (t : list exchange) : Prop :=
  match t with
  | [] => True
  | x :: t => projT2 x = h past (projT1 x) /\ given h (past ++ [projT1 x]) t
  end.

(** [twp] speaks of the runs in every environment that keeps the contract. *)
Lemma twp_run {A} G (p : prog A) Q h past : (forall past c, G c (h past c)) -> twp G p Q ->
  exists t a, run h past p = (past ++ (projT1 <$> t), Some a) /\ given h past t /\ Q t a.
Proof.
  intros Hh. revert past Q. induction p as [a|c k IH|]; intros past Q; cbn [twp run]; [| |done].
  - intros H. exists [], a. by rewrite app_nil_r.
  - intros H. destruct (IH (h past c) (past ++ [c]) _ (H _ (Hh past c))) as (t & a & -> & Hg & Hq).
    exists (said c (h past c) :: t), a. by rewrite <- app_assoc.
Qed.

End prog.

Arguments PRet {C R A} a.
Arguments PCall {C R A} c k.
Arguments PCrash {C R A}.
Arguments perform {C R} c.
Arguments lift {C R A} o.
Arguments for_each {C R A S} f s l.
Arguments run {C R A} h past p.
Arguments wp {C R A} P p Q.
Arguments twp {C R A} G p Q.
Arguments said {C R} c r.
Arguments given {C R} h past t.

(** Execute the calls at the head of a run. *)
Ltac prun := cbn [mbind host_bind prog_bind_def perform mret host_ret run].

(** ** Paths *)

Module Path.
Import Events.

(** [Path::join]: an absolute component replaces the path. *)
Definition join (p c : str) : str :=
  if bool_decide (head c = Some 47) then c
  else if bool_decide (p = [] \/ last p = Some 47) then p ++ c else p ++ [47] ++ c.

(** A normalised absolute path is the list of its components. *)
Definition display (cs : list str) : str :=
  match cs with [] => [47] | _ => concat (map (fun c => 47 :: c) cs) end.

Lemma join_plain p c : head c <> Some 47 -> p <> [] -> last p <> Some 47 -> join p c = p ++ [47] ++ c.
Proof. intros Hc Hp Hl. unfold join. rewrite !bool_decide_eq_false_2; tauto. Qed.
End Path.

(** ** Sorting strings *)

(** [Ord for String]: byte order, which is the order of code points. *)
Fixpoint str_leb (a b : list Z) : bool :=
  match a, b with
  | [], _ => true
  | _, [] => false
  | x :: a, y :: b => (x <? y) || ((x =? y) && str_leb a b)
  end.
Definition str_le (a b : list Z) : Prop := str_leb a b = true.
#[export] Instance str_le_dec a b : Decision (str_le a b).
Proof. unfold str_le. apply _. Defined.
#[export] Instance str_le_total : Total str_le.
Proof.
  unfold str_le. intros a. induction a as [|x a IH]; intros b; [by left|]. destruct b as [|y b]; [by right|].
  cbn [str_leb]. destruct (Z.lt_trichotomy x y) as [H|[->|H]].
  - left. by rewrite (proj2 (Z.ltb_lt x y)).
  - rewrite Z.ltb_irrefl, Z.eqb_refl. cbn. apply IH.
  - right. by rewrite (proj2 (Z.ltb_lt y x)).
Qed.
(** [Vec<String>::sort] *)
Definition sort_strings : list (list Z) -> list (list Z) := merge_sort str_le.

(** ** The calls of the command line tools *)

Module Sys.
Import Events.

(** A directory entry: its name when it is UTF-8, and whether its path leads
    to a directory. *)
Record DirEntry := mkEntry { file_name : option str; is_dir : bool }.
(** [ExitStatus] with its text, [Output] with its decoded standard output. *)
Record ExitStatus := mkStatus { success : bool; status_text : str }.
Record Output := mkOutput { out_status : ExitStatus; stdout : str }.

Inductive call : Type :=
| CurrentDir
| IsFile (path : str)
| IsDir (path : str)
| ReadDir (path : str)
| ReadText (path : str)
| Status (dir : str) (program : str) (args : list str)
| RunOutput (dir : option str) (program : str) (args : list str)
| Print (s : str)
| Eprint (s : str)
| WriteOut (s : str).

(** How a write to standard output can fail. *)
Inductive WriteError := BrokenPipe | OtherError (e : str).

Definition answer (c : call) : Type :=
  match c with
  | CurrentDir => option (list str)
  | IsFile _ | IsDir _ => bool
  | ReadDir _ => result (list (option DirEntry)) str
  | ReadText _ => result str str
  | Status _ _ _ => result ExitStatus str
  | RunOutput _ _ _ => result Output str
  | Print _ | Eprint _ => unit
  | WriteOut _ => result unit WriteError
  end.

#[export] Instance host_call_eq_dec : EqDecision call.
Proof. solve_decision. Defined.
End Sys.
