(* ===== verification/Axiomctl.v ===== *)
(** * The developer command line tool

    Models [tools/axiomctl/src/main.rs] and [lib.rs]: the command table, the
    search for the repository root, and every command as a program over the
    machine's answers ([Host]).  [println!] is a [Print] call; the event
    parser behind [events parse] is [Events]. *)

From stdpp Require Import strings base decidable numbers option tactics list sorting sets.
From S2P Require Import Prelude Bytes Monitor Events Host.
Local Open Scope Z_scope.

Module Ctl.
Import Events Sys.

Abbreviation ctl := (prog Sys.answer).

Inductive ExitCode := SUCCESS | FAILURE.
#[export] Instance exit_eq_dec : EqDecision ExitCode.
Proof. solve_decision. Defined.

Definition print (s : str) : ctl unit := perform (Print s).
Definition println (s : str) : ctl unit := perform (Print (s ++ [10])).
Definition eprintln (s : str) : ctl unit := perform (Eprint (s ++ [10])).
Definition dash : str := [32; 0x2014; 32].
Definition cat (l : list str) : str := concat l.
Definition words (l : list string) : list str := map bstr l.
Definition unlines (l : list string) : str := concat (map (fun s => bstr s ++ [10]) l).

(** [str::contains] *)
Definition contains (s pat : str) : bool :=
  existsb (fun i => bool_decide (take (length pat) (drop i s) = pat)) (List.seq 0 (S (length s))).

Definition USAGE : str :=
  bstr "axiomctl" ++ dash ++ unlines [
"AxiomRT developer CLI"; "";
"USAGE:";
"    cargo axiomctl <command> [args]";
"    cargo run --target x86_64-unknown-linux-gnu -p axiomctl -- <command>"; "";
"COMMANDS:";
"    doctor           check toolchain, QEMU, Coq, and repository layout";
"    build            build the release kernel (default features)";
"    run              build and boot the kernel in QEMU (exit: Ctrl-A x)";
"    demo memory      run the memory-isolation demo (default build)";
"    demo full        run the full four-task fault-containment demo";
"    demo drivers     boot the interactive OS (os_boot) for the driver";
"                     framework: try drivers / driver info block /";
"                     driver fault block / driver restart block";
"    demo loader      boot the interactive OS (os_boot) for the restricted";
"                     app loader: try bin / app load hello /";
"                     run loaded hello / app load invalid_bad_magic";
"    verify           run the full verification sweep (QEMU + host + Coq)";
"    evidence list    list archived evidence versions";
"    evidence open <ver> [file]";
"                     list one evidence directory / print one file";
"    events parse <logfile>";
"                     parse a serial log into NDJSON events (docs/21)";
"    events summary <logfile>";
"                     per-category event counts for a serial log";
"    kit build        assemble the industrial evaluation kit under release/";
"    release check    release hygiene checklist";
"    version          print axiomctl and repository versions";
"    help             print this help" ].

(** ** Repository discovery and process helpers *)

(** The two marks of the root. *)
Definition marked (dir : list str) : ctl bool :=
  b ← perform (IsFile (Path.join (Path.display dir) (bstr "scripts/verify_all.sh")));
  if b : bool then perform (IsFile (Path.join (Path.display dir) (bstr "kernel/Cargo.toml"))) else mret false.

(** The loop of [repo_root]: test [dir], pop its last component; [up] holds
    the components from the last to the first. *)
Fixpoint search_up (up : list str) : ctl (option (list str)) :=
  b ← marked (reverse up);
  if b : bool then mret (Some (reverse up))
  else match up with [] => mret None | _ :: up => search_up up end.
Definition repo_root : ctl (option (list str)) :=
  d ← perform CurrentDir;
  match d : option (list str) with None => mret None | Some cs => search_up (reverse cs) end.

Definition not_inside : str :=
  bstr "axiomctl: not inside an AxiomRT repository (looked for scripts/verify_all.sh and kernel/Cargo.toml)".
Definition require_repo_root : ctl (result str ExitCode) :=
  r ← repo_root;
  match r with
  | Some dir => mret (Ok (Path.display dir))
  | None => eprintln not_inside ;; mret (Err FAILURE)
  end.

(** [match require_repo_root() { Ok(r) => r, Err(code) => return code }] *)
Definition with_root (f : str -> ctl ExitCode) : ctl ExitCode :=
  r ← require_repo_root;
  match r with Ok root => f root | Err code => mret code end.

Definition run_inherit (root program : str) (args : list str) : ctl ExitCode :=
  r ← perform (Status root program args);
  match r : result ExitStatus str with
  | Ok status =>
      if success status then mret SUCCESS
      else eprintln (cat [bstr "axiomctl: `"; program; bstr "` exited with "; status_text status]) ;; mret FAILURE
  | Err e => eprintln (cat [bstr "axiomctl: failed to start `"; program; bstr "`: "; e]) ;; mret FAILURE
  end.

Definition first_line (program : str) (args : list str) : ctl (option str) :=
  r ← perform (RunOutput None program args);
  match r : result Output str with
  | Ok out =>
      if success (out_status out) then
        let line := trim (default [] (head (lines (stdout out)))) in
        mret (if is_empty line then None else Some line)
      else mret None
  | Err _ => mret None
  end.

(** ** Subcommands *)

Definition CARGO_PKG_VERSION : str := bstr "0.1.0".

Definition cmd_version : ctl ExitCode :=
  println (bstr "axiomctl " ++ CARGO_PKG_VERSION) ;;
  with_root (fun root =>
    r ← perform (RunOutput (Some root) (bstr "git") (words ["describe"; "--tags"; "--always"; "--dirty"]));
    let describe := match r : result Output str with
                    | Ok o => if success (out_status o) then trim (stdout o) else bstr "unknown"
                    | Err _ => bstr "unknown"
                    end in
    println (cat [bstr "AxiomRT "; describe; bstr " ("; root; bstr ")"]) ;;
    mret SUCCESS).

(** The tools of [cmd_doctor]: label, program, required. *)
Definition tools : list (str * str * bool) :=
  [(bstr "rustc", bstr "rustc", true); (bstr "cargo", bstr "cargo", true);
   (bstr "qemu-system-riscv64", bstr "qemu-system-riscv64", true); (bstr "coqc (optional)", bstr "coqc", false)].
Definition doctor_files : list str :=
  words ["kernel/Cargo.toml"; "kernel/linker.ld"; "scripts/run_qemu.sh"; "scripts/verify_all.sh";
         "scripts/build_eval_kit.sh"; "tests/boot_smoke_test.sh"].
Definition TARGET : str := bstr "riscv64gc-unknown-none-elf".
Definition rule : str := bstr "---------------".

(** The turns of [cmd_doctor]'s loops; the state is [failed]. *)
Definition doctor_tool (failed : bool) (t : str * str * bool) : ctl bool :=
  let '(label, program, required) := t in
  l ← first_line program (words ["--version"]);
  match l with
  | Some line => println (cat [bstr "OK       "; label; bstr ": "; line]) ;; mret failed
  | None =>
      if required : bool then println (cat [bstr "MISSING  "; label; bstr " (required)"]) ;; mret true
      else println (cat [bstr "absent   "; label; dash; bstr "proof recompilation unavailable"]) ;; mret failed
  end.
Definition doctor_target (failed : bool) : ctl bool :=
  r ← perform (RunOutput None (bstr "rustup") (words ["target"; "list"; "--installed"]));
  let unknown :=
    println (bstr "unknown  riscv64gc target (rustup not found; assuming vendored toolchain)") ;; mret failed in
  match r : result Output str with
  | Ok out =>
      if success (out_status out) then
        if existsb (fun l => bool_decide (trim l = TARGET)) (lines (stdout out)) then
          println (cat [bstr "OK       target "; TARGET; bstr " installed"]) ;; mret failed
        else
          println (cat [bstr "MISSING  target "; TARGET; bstr " (rustup target add "; TARGET; bstr ")"]) ;; mret true
      else unknown
  | Err _ => unknown
  end.
Definition doctor_file (root : str) (failed : bool) (f : str) : ctl bool :=
  b ← perform (IsFile (Path.join root f));
  if b : bool then println (bstr "OK       " ++ f) ;; mret failed
  else println (cat [bstr "MISSING  "; f; bstr " (required)"]) ;; mret true.

Definition cmd_doctor : ctl ExitCode :=
  println (bstr "axiomctl doctor") ;;
  println rule ;;
  failed ← for_each doctor_tool false tools;
  failed ← doctor_target failed;
  with_root (fun root =>
    failed ← for_each (doctor_file root) failed doctor_files;
    println rule ;;
    if failed : bool then
      println (cat [bstr "doctor: FAIL"; dash; bstr "fix the MISSING items above"]) ;; mret FAILURE
    else println (bstr "doctor: PASS") ;; mret SUCCESS).

Definition cmd_build : ctl ExitCode :=
  with_root (fun root => run_inherit root (bstr "cargo") (words ["build"; "--release"])).

Definition cmd_run (extra : list str) : ctl ExitCode :=
  with_root (fun root =>
    println (bstr "axiomctl: booting QEMU (exit: Ctrl-A then x)") ;;
    run_inherit root (bstr "./scripts/run_qemu.sh") extra).

Definition qemu_args : list str :=
  words ["-machine"; "virt"; "-smp"; "1"; "-m"; "128M"; "-nographic"; "-bios"; "default"; "-kernel";
         "target/riscv64gc-unknown-none-elf/release/kernel"].
Definition restore_note : str :=
  bstr "axiomctl: note" ++ dash ++ bstr "run `axiomctl build` afterwards to restore the default kernel".

Definition cmd_demo (full : bool) : ctl ExitCode :=
  with_root (fun root =>
    if full then
      println (bstr "axiomctl: building demo_full kernel") ;;
      build ← run_inherit root (bstr "cargo") (words ["build"; "--release"; "--features"; "demo_full"; "-p"; "kernel"]);
      if bool_decide (build = SUCCESS) then
        println (bstr "axiomctl: booting full fault-containment demo (exit: Ctrl-A then x)") ;;
        println restore_note ;;
        run_inherit root (bstr "qemu-system-riscv64") qemu_args
      else mret build
    else
      println (bstr "axiomctl: memory-isolation demo is the default kernel build") ;;
      cmd_run []).

Definition cmd_demo_os (label hint : str) : ctl ExitCode :=
  with_root (fun root =>
    println (cat [bstr "axiomctl: building os_boot kernel ("; label; bstr ")"]) ;;
    build ← run_inherit root (bstr "cargo") (words ["build"; "--release"; "--features"; "os_boot"; "-p"; "kernel"]);
    if bool_decide (build = SUCCESS) then
      println (bstr "axiomctl: booting interactive OS (exit: Ctrl-A then x)") ;;
      println (bstr "axiomctl: try: " ++ hint) ;;
      println restore_note ;;
      run_inherit root (bstr "qemu-system-riscv64") qemu_args
    else mret build).

Definition cmd_verify : ctl ExitCode :=
  with_root (fun root => run_inherit root (bstr "./scripts/verify_all.sh") []).
Definition cmd_kit_build : ctl ExitCode :=
  with_root (fun root => run_inherit root (bstr "./scripts/build_eval_kit.sh") []).

(** [filter_map(|e| e.ok())] and [file_name().into_string().ok()] *)
Definition readable (l : list (option DirEntry)) : list DirEntry := omap id l.
Definition names (l : list DirEntry) : list str := omap file_name l.
Definition entries_of (r : result (list (option DirEntry)) str) : list DirEntry :=
  match r with Ok l => readable l | Err _ => [] end.

Definition evidence_row (evidence : str) (_ : unit) (v : str) : ctl unit :=
  r ← perform (ReadDir (Path.join evidence v));
  println (cat [bstr "  "; v; bstr "  ("; dec (Z.of_nat (length (entries_of r))); bstr " files)"]).
Definition cmd_evidence_list : ctl ExitCode :=
  with_root (fun root =>
    let evidence := Path.join root (bstr "evidence") in
    r ← perform (ReadDir evidence);
    match r : result (list (option DirEntry)) str with
    | Ok entries =>
        let versions := sort_strings (names (List.filter is_dir (readable entries))) in
        println (cat [bstr "evidence archives ("; evidence; bstr "):"]) ;;
        for_each (evidence_row evidence) tt versions ;;
        println (bstr "open one with: axiomctl evidence open <version> [file]") ;;
        mret SUCCESS
    | Err e => eprintln (cat [bstr "axiomctl: cannot read "; evidence; bstr ": "; e]) ;; mret FAILURE
    end).

Definition open_args (rest : list str) : option (str * option str) :=
  match rest with [v] => Some (v, None) | [v; f] => Some (v, Some f) | _ => None end.
Definition cmd_evidence_open (rest : list str) : ctl ExitCode :=
  with_root (fun root =>
    match open_args rest with
    | None => eprintln (bstr "usage: axiomctl evidence open <version> [file]") ;; mret FAILURE
    | Some (version, file) =>
        let dir := Path.join (Path.join root (bstr "evidence")) version in
        d ← perform (IsDir dir);
        if d : bool then
          match file with
          | Some f =>
              let path := Path.join dir f in
              r ← perform (ReadText path);
              match r : result str str with
              | Ok text => print text ;; mret SUCCESS
              | Err e => eprintln (cat [bstr "axiomctl: cannot read "; path; bstr ": "; e]) ;; mret FAILURE
              end
          | None =>
              println (dir ++ bstr ":") ;;
              r ← perform (ReadDir dir);
              for_each (fun (_ : unit) n => println (bstr "  " ++ n)) tt (sort_strings (names (entries_of r))) ;;
              println (cat [bstr "print one with: axiomctl evidence open "; version; bstr " <file>"]) ;;
              mret SUCCESS
          end
        else eprintln (bstr "axiomctl: no evidence directory " ++ dir) ;; mret FAILURE
    end).

(** [try_for_each(writeln!)]: stop at the first write that fails. *)
Fixpoint write_all (l : list str) : ctl (result unit WriteError) :=
  match l with
  | [] => mret (Ok tt)
  | s :: l =>
      r ← perform (WriteOut s);
      match r : result unit WriteError with Ok _ => write_all l | Err e => mret (Err e) end
  end.
Definition cmd_events (file : str) (want_summary : bool) : ctl ExitCode :=
  r ← perform (ReadText file);
  match r : result str str with
  | Err e => eprintln (cat [bstr "axiomctl: cannot read "; file; bstr ": "; e]) ;; mret FAILURE
  | Ok text =>
      let log := parse_log text in
      w ← write_all (if want_summary then [summary log] else map (fun ev => to_json ev ++ [10]) (events log));
      match w with
      | Ok _ => mret SUCCESS
      | Err BrokenPipe => mret SUCCESS
      | Err (OtherError e) => eprintln (bstr "axiomctl: write failed: " ++ e) ;; mret FAILURE
      end
  end.

(** The closure [check] of [cmd_release_check]; the state is [failed]. *)
Definition check (failed ok : bool) (label : str) : ctl bool :=
  println (cat [bstr (if ok then "PASS" else "FAIL"); bstr "  "; label]) ;;
  mret (if ok then failed else true).
Definition git_says (root : str) (args : list str) (good : str -> bool) : ctl bool :=
  r ← perform (RunOutput (Some root) (bstr "git") args);
  mret match r : result Output str with
       | Ok o => success (out_status o) && good (stdout o)
       | Err _ => false
       end.
Definition kit_documents : list str :=
  words ["LIMITATIONS"; "ASSUMPTIONS_OF_USE"; "SAFETY_CONCEPT"; "SECURITY_CONCEPT"; "VERIFICATION_REPORT";
         "TEST_REPORT"; "FINAL_REPORT"].
Definition release_scripts : list str :=
  words ["scripts/run_qemu.sh"; "scripts/verify_all.sh"; "scripts/build_eval_kit.sh"].
Definition clean_log : str := bstr "evidence/v1.0/verify_all_clean.log".
Definition check_file (root : str) (failed : bool) (path : str) : ctl bool :=
  ok ← perform (IsFile (Path.join root path)); check failed ok path.
Definition check_log (root : str) (failed : bool) : ctl bool :=
  r ← perform (ReadText (Path.join root clean_log));
  match r : result str str with
  | Ok log =>
      failed ← check failed (contains log (bstr "VERIFY ALL: PASS")) (bstr "verify_all_clean.log records VERIFY ALL: PASS");
      check failed (negb (contains log (bstr "warning"))) (bstr "verify_all_clean.log contains zero warnings")
  | Err _ => check failed false (clean_log ++ bstr " exists")
  end.

Definition cmd_release_check : ctl ExitCode :=
  with_root (fun root =>
    clean ← git_says root (words ["status"; "--porcelain"]) is_empty;
    failed ← check false clean (bstr "git tree is clean (no uncommitted changes)");
    tagged ← git_says root (words ["tag"; "--points-at"; "HEAD"]) (fun s => negb (is_empty s));
    failed ← check failed tagged (bstr "HEAD carries a release tag");
    failed ← for_each (check_file root) failed (map (fun d => cat [bstr "kit/"; d; bstr ".md"]) kit_documents);
    failed ← check_log root failed;
    failed ← for_each (check_file root) failed release_scripts;
    println rule ;;
    if failed : bool then println (bstr "release check: FAIL") ;; mret FAILURE
    else println (bstr "release check: PASS") ;; mret SUCCESS).

(** ** The command table *)

Definition drivers_hint : str :=
  bstr "bin | app load hello | run loaded hello | app load invalid_bad_magic | drivers".
Definition loader_hint : str :=
  bstr "bin | app load hello | app state hello | run loaded hello | app unload hello | app load invalid_bad_magic".
Definition help : ctl ExitCode := print USAGE ;; mret SUCCESS.
Definition unknown (other : list str) : ctl ExitCode :=
  eprintln (bstr "axiomctl: unknown command: " ++ join [32] other) ;;
  eprintln (bstr "Run `cargo axiomctl help` for usage.") ;;
  mret FAILURE.

(** An arm of [main]: fixed words, and whether more words may follow. *)
Inductive arm := Exactly (ws : list string) | Then (ws : list string) | OneMore (ws : list string).
Definition arm_args (a : arm) (cmd : list str) : option (list str) :=
  match a with
  | Exactly ws => if bool_decide (cmd = words ws) then Some [] else None
  | Then ws =>
      if bool_decide (take (length ws) cmd = words ws) then Some (drop (length ws) cmd) else None
  | OneMore ws =>
      if bool_decide (take (length ws) cmd = words ws /\ length cmd = S (length ws)) then Some (drop (length ws) cmd) else None
  end.
Definition arms : list (arm * (list str -> ctl ExitCode)) :=
  [(Exactly [], fun _ => help); (Exactly ["help"], fun _ => help); (Exactly ["-h"], fun _ => help);
   (Exactly ["--help"], fun _ => help);
   (Exactly ["version"], fun _ => cmd_version);
   (Exactly ["doctor"], fun _ => cmd_doctor);
   (Exactly ["build"], fun _ => cmd_build);
   (Then ["run"], cmd_run);
   (Exactly ["demo"; "memory"], fun _ => cmd_demo false);
   (Exactly ["demo"; "full"], fun _ => cmd_demo true);
   (Exactly ["demo"; "drivers"], fun _ => cmd_demo_os (bstr "driver framework") drivers_hint);
   (Exactly ["demo"; "loader"], fun _ => cmd_demo_os (bstr "restricted app loader") loader_hint);
   (Exactly ["verify"], fun _ => cmd_verify);
   (Exactly ["evidence"; "list"], fun _ => cmd_evidence_list);
   (Then ["evidence"; "open"], cmd_evidence_open);
   (OneMore ["events"; "parse"], fun rest => cmd_events (default [] (head rest)) false);
   (OneMore ["events"; "summary"], fun rest => cmd_events (default [] (head rest)) true);
   (Exactly ["kit"; "build"], fun _ => cmd_kit_build);
   (Exactly ["release"; "check"], fun _ => cmd_release_check)].
Fixpoint first_arm (l : list (arm * (list str -> ctl ExitCode))) (cmd : list str) : ctl ExitCode :=
  match l with
  | [] => unknown cmd
  | (a, f) :: l => match arm_args a cmd with Some rest => f rest | None => first_arm l cmd end
  end.
Definition main (args : list str) : ctl ExitCode := first_arm arms args.

(** ** The calls the tool may make *)

(** The read-only queries: program and arguments. *)
Definition queries : list (str * list str) :=
  map (fun p => (bstr p, words ["--version"])) ["rustc"; "cargo"; "qemu-system-riscv64"; "coqc"] ++
  [(bstr "rustup", words ["target"; "list"; "--installed"]);
   (bstr "git", words ["describe"; "--tags"; "--always"; "--dirty"]);
   (bstr "git", words ["status"; "--porcelain"]);
   (bstr "git", words ["tag"; "--points-at"; "HEAD"])].

(** What a command hands the work to, in order; [run] passes its arguments. *)
Definition cargo_build (features : list string) : str * list str :=
  (bstr "cargo", words (["build"; "--release"] ++ features)).
Definition boot_qemu : str * list str := (bstr "qemu-system-riscv64", qemu_args).
Definition delegation (args : list str) : option (list (str * list str)) :=
  let table :=
    [(["build"], [cargo_build []]);
     (["demo"; "memory"], [(bstr "./scripts/run_qemu.sh", [])]);
     (["demo"; "full"], [cargo_build ["--features"; "demo_full"; "-p"; "kernel"]; boot_qemu]);
     (["demo"; "drivers"], [cargo_build ["--features"; "os_boot"; "-p"; "kernel"]; boot_qemu]);
     (["demo"; "loader"], [cargo_build ["--features"; "os_boot"; "-p"; "kernel"]; boot_qemu]);
     (["verify"], [(bstr "./scripts/verify_all.sh", [])]);
     (["kit"; "build"], [(bstr "./scripts/build_eval_kit.sh", [])])] in
  match args with
  | w :: rest =>
      if str_is w "run" then Some [(bstr "./scripts/run_qemu.sh", rest)]
      else snd <$> List.find (fun e => bool_decide (args = words e.1)) table
  | [] => None
  end.

(** The processes a run started on the terminal, each with its success. *)
Definition succeeded (r : result ExitStatus str) : bool :=
  match r with Ok st => success st | Err _ => false end.
Definition proc : Type := str * str * list str.
Fixpoint procs (h : list call -> forall c, answer c) (past t : list call) : list (proc * bool) :=
  match t with
  | [] => []
  | c :: t =>
      match c with
      | Status d p a => [((d, p, a), succeeded (h past (Status d p a)))]
      | _ => []
      end ++ procs h (past ++ [c]) t
  end.
(** A run of a plan: in order, up to the first failure, which decides the
    exit code. *)
Definition follows (plan : list proc) (l : list (proc * bool)) (code : ExitCode) : Prop :=
  (code = SUCCESS /\ l = map (fun p => (p, true)) plan) \/
  (code = FAILURE /\ exists n p, plan !! n = Some p /\ l = map (fun p => (p, true)) (take n plan) ++ [(p, false)]).
Definition at_root (root : str) (plan : list (str * list str)) : list proc :=
  map (fun pa => (root, pa.1, pa.2)) plan.
(** The run saw both marks of the root. *)
Definition saw (h : list call -> forall c, answer c) (past t : list call) (path : str) : Prop :=
  exists t1 t2, t = t1 ++ IsFile path :: t2 /\ h (past ++ t1) (IsFile path) = true.
Definition is_root (h : list call -> forall c, answer c) (past t : list call) (root : str) : Prop :=
  saw h past t (Path.join root (bstr "scripts/verify_all.sh")) /\
  saw h past t (Path.join root (bstr "kernel/Cargo.toml")).

Lemma procs_app h past t1 t2 : procs h past (t1 ++ t2) = procs h past t1 ++ procs h (past ++ t1) t2.
Proof.
  revert past. induction t1 as [|c t1 IH]; intros past; [by rewrite app_nil_r|].
  cbn [app procs]. rewrite IH, <- !app_assoc. done.
Qed.
Lemma saw_app_l h past t1 t2 path : saw h past t1 path -> saw h past (t1 ++ t2) path.
Proof. intros (a & b & -> & H). exists a, (b ++ t2). by rewrite <- app_assoc. Qed.
Lemma saw_app_r h past t1 t2 path : saw h (past ++ t1) t2 path -> saw h past (t1 ++ t2) path.
Proof. intros (a & b & -> & H). exists (t1 ++ a), b. rewrite (app_assoc past), <- app_assoc. done. Qed.

(** [steps p root plan]: [p] runs the plan at [root]. *)
Definition steps (p : ctl ExitCode) (root : str) (plan : list (str * list str)) : Prop :=
  forall h past, exists t code, run h past p = (past ++ t, Some code) /\ follows (at_root root plan) (procs h past t) code.

Lemma steps_println s p root plan : steps p root plan -> steps (println s ;; p) root plan.
Proof.
  intros H h past. destruct (H h (past ++ [Print (s ++ [10])])) as (t & code & E & F).
  exists (Print (s ++ [10]) :: t), code. split; [|done]. cbn. by rewrite E, <- app_assoc.
Qed.
Lemma steps_inherit root program args : steps (run_inherit root program args) root [(program, args)].
Proof.
  intros h past. unfold run_inherit, eprintln. prun. cbn [at_root map fst snd].
  destruct (h past (Status root program args)) as [st|e] eqn:E; [destruct (success st) eqn:Es|].
  - exists [Status root program args], SUCCESS. split; [done|]. left. split; [done|]. cbn. by rewrite E; cbn; rewrite Es.
  - eexists [_; _], FAILURE. split; [cbn; by rewrite <- app_assoc|]. right. split; [done|].
    exists 0%nat. eexists. split; [done|]. cbn. by rewrite E; cbn; rewrite Es.
  - eexists [_; _], FAILURE. split; [cbn; by rewrite <- app_assoc|]. right. split; [done|].
    exists 0%nat. eexists. split; [done|]. cbn. by rewrite E.
Qed.
(** [if build != SUCCESS { return build }] *)
Lemma steps_then root program args q plan : steps q root plan ->
  steps (b ← run_inherit root program args; if bool_decide (b = SUCCESS) then q else mret b) root ((program, args) :: plan).
Proof.
  intros Hq h past. destruct (steps_inherit root program args h past) as (t1 & c1 & E1 & [[-> F1]|(-> & n & p & Hn & F1)]).
  - destruct (Hq h (past ++ t1)) as (t2 & c2 & E2 & F2). exists (t1 ++ t2), c2.
    rewrite run_bind, E1, bool_decide_eq_true_2, E2, app_assoc by done. split; [done|].
    rewrite procs_app, F1. cbn [at_root map app] in *. destruct F2 as [[-> ->]|(-> & n & p & Hn & ->)]; [by left|right].
    split; [done|]. by exists (S n), p.
  - exists t1, FAILURE. rewrite run_bind, E1. split; [done|]. right. split; [done|].
    destruct n; [|done]. by exists 0%nat, p.
Qed.

(** A file system that does not change during the run, and the root it
    determines: the nearest of the current directory and its parents that
    carries both marks. *)
Definition stable (h : list call -> forall c, answer c) (cwd : option (list str)) (files : str -> bool) : Prop :=
  forall past, h past CurrentDir = cwd /\ forall p, h past (IsFile p) = files p.
Definition marks (files : str -> bool) (dir : list str) : bool :=
  files (Path.join (Path.display dir) (bstr "scripts/verify_all.sh")) &&
  files (Path.join (Path.display dir) (bstr "kernel/Cargo.toml")).
Definition nearest (files : str -> bool) (cs dir : list str) : Prop :=
  dir `prefix_of` cs /\ marks files dir = true /\
  forall d, d `prefix_of` cs -> (length dir < length d)%nat -> marks files d = false.
Definition outside (files : str -> bool) (cs : list str) : Prop :=
  forall d, d `prefix_of` cs -> marks files d = false.

Lemma nearest_unique files cs d d' : nearest files cs d -> nearest files cs d' -> d = d'.
Proof.
  assert (forall d d', nearest files cs d -> nearest files cs d' -> (length d' <= length d)%nat) as Hle.
  { intros x y (Hx & Mx & Nx) (Hy & My & _). destruct (decide (length x < length y)%nat) as [Hl|]; [|lia].
    rewrite (Nx y Hy Hl) in My. done. }
  intros H H'. pose proof (Hle _ _ H H'). pose proof (Hle _ _ H' H). destruct H as ([k E] & _), H' as ([k' E'] & _).
  rewrite E in E'. apply app_inj_1 in E' as [-> _]; [done|lia].
Qed.
Lemma nearest_outside files cs d : nearest files cs d -> outside files cs -> False.
Proof. intros (Hp & Hm & _) Ho. by rewrite (Ho d Hp) in Hm. Qed.
Lemma prefix_reverse_cons d (c : str) up : d `prefix_of` reverse (c :: up) ->
  d = reverse (c :: up) \/ d `prefix_of` reverse up.
Proof.
  rewrite reverse_cons. intros [k E]. destruct k as [|x k] using rev_ind; [left; by rewrite app_nil_r in E|right].
  rewrite app_assoc in E. apply app_inj_2 in E as [-> _]; [|done]. by exists k.
Qed.

(** [delegates p plan]: [p] runs the plan at a root it saw, or reports that
    there is none; with a file system that does not change, it runs the plan
    at the nearest root, and reports only when there is none. *)
Definition delegates (p : ctl ExitCode) (plan : list (str * list str)) : Prop :=
  forall h past, exists t code, run h past p = (past ++ t, Some code) /\
  let refused := code = FAILURE /\ procs h past t = [] /\ Eprint (not_inside ++ [10]) ∈ t in
  (refused \/ exists root, is_root h past t root /\ follows (at_root root plan) (procs h past t) code) /\
  forall cwd files, stable h cwd files ->
    (forall cs dir, cwd = Some cs -> nearest files cs dir -> follows (at_root (Path.display dir) plan) (procs h past t) code) /\
    ((forall cs, cwd = Some cs -> outside files cs) -> refused).

Lemma search_up_miss files c up r : marks files (reverse (c :: up)) = false ->
  match r with Some dir => nearest files (reverse up) dir | None => outside files (reverse up) end ->
  match r with Some dir => nearest files (reverse (c :: up)) dir | None => outside files (reverse (c :: up)) end.
Proof.
  intros Hm. destruct r as [dir|].
  - intros ([k E] & Hd & Hn). split; [exists (k ++ [c]); by rewrite reverse_cons, E, app_assoc|]. split; [done|].
    intros d [->|Hp]%prefix_reverse_cons Hl; [done|by apply Hn].
  - intros Ho d [->|Hp]%prefix_reverse_cons; [done|by apply Ho].
Qed.

Lemma search_spec up h past : exists t r, run h past (search_up up) = (past ++ t, Some r) /\ procs h past t = [] /\
  match r with Some dir => is_root h past t (Path.display dir) | None => True end /\
  forall cwd files, stable h cwd files ->
    match r with Some dir => nearest files (reverse up) dir | None => outside files (reverse up) end.
Proof.
  revert past. induction up as [|c up IH]; intros past; cbn [search_up]; rewrite run_bind; unfold marked;
    set (c1 := IsFile (Path.join _ (bstr "scripts/verify_all.sh"))); set (c2 := IsFile (Path.join _ (bstr "kernel/Cargo.toml"))); prun;
    destruct (h past c1) eqn:E1; prun.
  1, 3: destruct (h (past ++ [c1]) c2) eqn:E2; prun.
  1, 3: (exists [c1; c2]; eexists; split; [by rewrite <- app_assoc|]; split; [done|];
    split; [split; [by exists [], [c2]; rewrite app_nil_r|by exists [c1], []]|]; intros cwd files Hst;
    split; [done|]; split;
    [unfold marks; rewrite <- (proj2 (Hst past)), <- (proj2 (Hst (past ++ [c1]))); fold c1 c2; by rewrite E1, E2
    |intros d [k Ek] Hl; rewrite Ek, length_app in Hl; lia]).
  - exists [c1; c2], None. split; [by rewrite <- app_assoc|]. split; [done|]. split; [done|]. intros cwd files Hst d [k Ek].
    destruct d; [|done]. unfold marks. rewrite <- (proj2 (Hst (past ++ [c1])) (Path.join _ (bstr "kernel/Cargo.toml"))).
    change (reverse []) with (@nil str) in c2. fold c2. rewrite E2. apply andb_false_r.
  - destruct (IH ((past ++ [c1]) ++ [c2])) as (t & r & -> & Hp & Hr & Hn). exists ([c1; c2] ++ t), r.
    rewrite <- !app_assoc in *. split; [done|]. split; [by rewrite procs_app|].
    split; [destruct r; [|done]; destruct Hr; split; by apply saw_app_r|].
    intros cwd files Hst. apply (search_up_miss files c up r); [|by eapply Hn].
    unfold marks. rewrite <- (proj2 (Hst (past ++ [c1])) (Path.join _ (bstr "kernel/Cargo.toml"))). fold c2. rewrite E2. apply andb_false_r.
  - exists [c1], None. split; [done|]. split; [done|]. split; [done|]. intros cwd files Hst d [k Ek].
    destruct d; [|done]. unfold marks. rewrite <- (proj2 (Hst past) (Path.join _ (bstr "scripts/verify_all.sh"))).
    change (reverse []) with (@nil str) in c1. fold c1. by rewrite E1.
  - destruct (IH (past ++ [c1])) as (t & r & E & Hp & Hr & Hn). rewrite E. exists ([c1] ++ t), r.
    rewrite <- !app_assoc in *. split; [done|]. split; [by rewrite procs_app|].
    split; [destruct r; [|done]; destruct Hr; split; by apply saw_app_r|].
    intros cwd files Hst. apply (search_up_miss files c up r); [|by eapply Hn].
    unfold marks. rewrite <- (proj2 (Hst past) (Path.join _ (bstr "scripts/verify_all.sh"))). fold c1. by rewrite E1.
Qed.

Lemma root_spec h past : exists t r, run h past require_repo_root = (past ++ t, Some r) /\ procs h past t = [] /\
  match r with Ok root => is_root h past t root | Err code => code = FAILURE /\ Eprint (not_inside ++ [10]) ∈ t end /\
  forall cwd files, stable h cwd files ->
    match r with
    | Ok root => exists cs dir, cwd = Some cs /\ nearest files cs dir /\ root = Path.display dir
    | Err _ => forall cs, cwd = Some cs -> outside files cs
    end.
Proof.
  unfold require_repo_root. rewrite run_bind. unfold repo_root, eprintln. prun.
  destruct (h past CurrentDir) as [cs|] eqn:E.
  - destruct (search_spec (reverse cs) h (past ++ [CurrentDir])) as (t & r & -> & Hp & Hr & Hn).
    rewrite reverse_involutive in Hn. destruct r as [dir|].
    + exists (CurrentDir :: t). eexists. split; [cbn; by rewrite <- app_assoc|]. split; [done|].
      change (CurrentDir :: t) with ([CurrentDir] ++ t). split; [destruct Hr; split; by apply saw_app_r|].
      intros cwd files Hst. exists cs, dir. split; [by rewrite <- (proj1 (Hst past))|]. split; [by eapply Hn|done].
    + eexists (CurrentDir :: t ++ [_]), _. split; [cbn; by rewrite <- !app_assoc|].
      split; [cbn [procs app]; by rewrite procs_app, Hp|]. split; [split; [done|set_solver]|].
      intros cwd files Hst cs' Hc. rewrite <- (proj1 (Hst past)), E in Hc. injection Hc as <-. by eapply Hn.
  - eexists [_; _], _. split; [cbn; by rewrite <- app_assoc|]. split; [done|]. split; [split; [done|set_solver]|].
    intros cwd files Hst cs' Hc. by rewrite <- (proj1 (Hst past)), E in Hc.
Qed.

Lemma with_root_delegates f plan : (forall root, steps (f root) root plan) -> delegates (with_root f) plan.
Proof.
  intros Hf h past. unfold with_root. rewrite run_bind. destruct (root_spec h past) as (t & [root|code] & -> & Hp & Hr & Hn).
  - destruct (Hf root h (past ++ t)) as (t2 & code & -> & F). exists (t ++ t2), code. rewrite app_assoc. split; [done|].
    cbv zeta. rewrite procs_app, Hp. split; [right; exists root; split; [destruct Hr; split; by apply saw_app_l|done]|].
    intros cwd files Hst. destruct (Hn cwd files Hst) as (cs & dir & -> & Hd & ->). split.
    + intros cs' dir' [= <-] Hd'. by rewrite (nearest_unique _ _ _ _ Hd' Hd).
    + intros Ho. destruct (nearest_outside _ _ _ Hd (Ho cs eq_refl)).
  - destruct Hr as [-> Hr]. exists t, FAILURE. split; [done|]. cbv zeta. split; [by left|]. intros cwd files Hst.
    split; [|done]. intros cs dir Hc Hd. destruct (nearest_outside _ _ _ Hd (Hn cwd files Hst cs Hc)).
Qed.
(** [demo memory] finds the root twice. *)
Lemma with_root_nested s p plan : delegates p plan -> delegates (with_root (fun _ => println s ;; p)) plan.
Proof.
  intros Hf h past. unfold with_root. rewrite run_bind. destruct (root_spec h past) as (t & [root|code] & -> & Hp & Hr & Hn).
  - set (c := Print (s ++ [10])). unfold println. prun. fold c.
    destruct (Hf h ((past ++ t) ++ [c])) as (t2 & code & E & F & Fs).
    exists ((t ++ [c]) ++ t2), code. split; [by rewrite E, !app_assoc|]. cbv zeta in *.
    rewrite <- app_assoc in F, Fs. rewrite procs_app, procs_app, Hp. cbn [procs app]. split.
    + destruct F as [(-> & -> & F)|(r & [F1 F2] & F)]; [left; set_solver|right]. exists r.
      split; [split; by apply saw_app_r|done].
    + intros cwd files Hst. destruct (Fs cwd files Hst) as [H1 H2]. split; [exact H1|].
      intros Ho. destruct (H2 Ho) as (-> & -> & H3). set_solver.
  - destruct Hr as [-> Hr]. exists t, FAILURE. split; [done|]. cbv zeta. split; [by left|]. intros cwd files Hst.
    split; [|done]. intros cs dir Hc Hd. destruct (nearest_outside _ _ _ Hd (Hn cwd files Hst cs Hc)).
Qed.

(** C34. Each delegating command hands its work to the programs of its row of
    [delegation], at a directory that showed both marks of the repository,
    one after the other up to the first that fails, and exits with success
    exactly when all succeeded.  While the file system does not change, that
    directory is the nearest of the current one and its parents with both
    marks, and only when there is none the command says so, starts nothing
    and fails. *)
Theorem ctl_delegates args plan : delegation args = Some plan -> delegates (main args) plan.
Proof.
  unfold delegation. destruct args as [|w rest]; [done|]. unfold str_is. case_bool_decide as E.
  { intros [= <-]. subst w. apply with_root_delegates. intros root. apply steps_println, steps_inherit. }
  cbn [List.find fmap option_fmap option_map snd fst].
  repeat (case_bool_decide as H; [intros [= <-]; rewrite H; clear|clear H]); try done.
  - apply with_root_delegates. intros root. apply steps_inherit.
  - apply with_root_nested, with_root_delegates. intros root. apply steps_println, steps_inherit.
  - apply with_root_delegates. intros root. apply steps_println, steps_then, steps_println, steps_println, steps_inherit.
  - apply with_root_delegates. intros root. apply steps_println, steps_then.
    do 3 apply steps_println. apply steps_inherit.
  - apply with_root_delegates. intros root. apply steps_println, steps_then.
    do 3 apply steps_println. apply steps_inherit.
  - apply with_root_delegates. intros root. apply steps_inherit.
  - apply with_root_delegates. intros root. apply steps_inherit.
Qed.

(** ** What a command can start *)

Definition documented (c : call) : Prop :=
  match c with
  | RunOutput _ p a => (p, a) ∈ queries
  | Status _ p a => exists args plan, delegation args = Some plan /\ (p, a) ∈ plan
  | _ => True
  end.

Lemma wp_print s : wp documented (println s) (fun _ => True).
Proof. by apply wp_perform. Qed.
Lemma wp_seq {A} (p : ctl unit) (q : ctl A) Q : wp documented p (fun _ => True) -> wp documented q Q -> wp documented (p ;; q) Q.
Proof. intros Hp Hq. apply hwp_bind. eapply hwp_mono; [done| |exact Hp]. done. Qed.
Lemma wp_search up : wp documented (search_up up) (fun _ => True).
Proof.
  induction up as [|c up IH]; cbn [search_up]; apply hwp_bind; (split; [done|]; intros []; [split; [done|]; intros []|]); done.
Qed.
Lemma wp_root f : (forall root, wp documented (f root) (fun _ => True)) -> wp documented (with_root f) (fun _ => True).
Proof.
  intros Hf. unfold with_root, require_repo_root, repo_root. do 2 apply hwp_bind. apply hwp_bind, wp_perform; [done|].
  intros [cs|]; [|by split]. eapply hwp_mono; [done| |apply wp_search]. intros [dir|] _; [apply Hf|by split].
Qed.
Lemma wp_inherit args plan root p a : delegation args = Some plan -> (p, a) ∈ plan ->
  wp documented (run_inherit root p a) (fun _ => True).
Proof.
  intros H1 H2. split; [by exists args, plan|].
  intros [st|e]; cbn; [destruct (success st); [done|]|]; by split.
Qed.
Lemma wp_weaken {A} (p : ctl A) (Q : A -> Prop) : (forall a, Q a) -> wp documented p (fun _ => True) -> wp documented p Q.
Proof. intros HQ. by apply hwp_mono. Qed.
Lemma wp_fold {A S} (f : S -> A -> ctl S) s l : (forall s a, a ∈ l -> wp documented (f s a) (fun _ => True)) ->
  wp documented (for_each f s l) (fun _ => True).
Proof. intros H. apply hwp_for_each; auto. Qed.
Lemma wp_arms l cmd : Forall (fun af => forall rest, wp documented (af.2 rest) (fun _ => True)) l ->
  wp documented (first_arm l cmd) (fun _ => True).
Proof.
  induction 1 as [|[a f] l Hf _ IH]; cbn [first_arm]; [by repeat split|]. case_match; [apply Hf|apply IH].
Qed.

Lemma wp_doctor : wp documented cmd_doctor (fun _ => True).
Proof.
  apply wp_seq; [apply wp_print|]. apply wp_seq; [apply wp_print|]. apply hwp_bind, wp_weaken.
  { intros failed. apply hwp_bind, wp_weaken.
    { intros failed'. apply wp_root. intros root. apply hwp_bind, wp_weaken.
      - intros []; by repeat split.
      - apply wp_fold. intros b f _. split; [done|]. intros []; by split. }
    split; [unfold documented; set_solver|]. intros [o|e]; cbn; repeat case_match; by split. }
  apply wp_fold. intros b [[label p] req] Ht. unfold doctor_tool, first_line. apply hwp_bind, hwp_bind. split.
  - unfold tools in Ht. set_solver.
  - intros [o|e]; cbn; repeat case_match; by split.
Qed.

Lemma wp_check failed ok label : wp documented (check failed ok label) (fun _ => True).
Proof. by split. Qed.
Lemma wp_check_file root failed path : wp documented (check_file root failed path) (fun _ => True).
Proof. split; [done|]. intros ok. apply wp_check. Qed.
Lemma wp_git root args good : (bstr "git", args) ∈ queries -> wp documented (git_says root args good) (fun _ => True).
Proof. by split. Qed.
Lemma wp_then {A B} (p : ctl A) (f : A -> ctl B) : wp documented p (fun _ => True) ->
  (forall a, wp documented (f a) (fun _ => True)) -> wp documented (p ≫= f) (fun _ => True).
Proof. intros Hp Hf. by apply hwp_bind, wp_weaken. Qed.

Lemma wp_release : wp documented cmd_release_check (fun _ => True).
Proof.
  apply wp_root. intros root.
  apply wp_then; [apply wp_git; unfold queries; set_solver|intros clean].
  apply wp_then; [apply wp_check|intros f1].
  apply wp_then; [apply wp_git; unfold queries; set_solver|intros tagged].
  apply wp_then; [apply wp_check|intros f2].
  apply wp_then; [apply wp_fold; intros; apply wp_check_file|intros f3].
  apply wp_then.
  { split; [done|]. intros [log|e]; [|by split]. apply wp_then; [apply wp_check|intros ?; apply wp_check]. }
  intros f4. apply wp_then; [apply wp_fold; intros; apply wp_check_file|intros f5].
  apply wp_seq; [apply wp_print|]. destruct f5; by split.
Qed.
Lemma wp_evidence_list : wp documented cmd_evidence_list (fun _ => True).
Proof.
  apply wp_root. intros root. split; [done|]. intros [l|e]; [|by split]. apply wp_seq; [apply wp_print|].
  apply wp_seq; [|by split]. apply wp_fold. intros [] v _. split; [done|]. intros r. apply wp_print.
Qed.
Lemma wp_evidence_open rest : wp documented (cmd_evidence_open rest) (fun _ => True).
Proof.
  apply wp_root. intros root. destruct (open_args rest) as [[v f]|]; [|by split]. split; [done|].
  intros []; [|by split]. destruct f as [f|]; split; try done.
  - intros [text|e]; by split.
  - intros u. split; [done|]. intros l. apply wp_then; [|by split]. apply wp_fold. intros [] n _. apply wp_print.
Qed.
Lemma wp_events file b : wp documented (cmd_events file b) (fun _ => True).
Proof.
  split; [done|]. intros [text|e]; [|by split]. apply wp_then; [|intros [|[]]; by repeat split].
  generalize (if b then [summary (parse_log text)] else map (fun ev => to_json ev ++ [10]) (events (parse_log text))).
  intros l. induction l as [|s l IH]; [done|]. split; [done|]. intros [[]|e]; [apply IH|done].
Qed.

(** Whatever its arguments and whatever the machine answers, the tool ends
    without a panic; the programs it starts on the terminal are those of the
    delegation table, and those it questions are asked only for a version, the
    installed targets, or read-only facts of the git tree: it performs no
    destructive git operation. *)
Theorem ctl_only_documented args h :
  exists t code, run h [] (main args) = (t, Some code) /\ Forall documented t.
Proof.
  assert (wp documented (main args) (fun _ => True)) as H.
  { apply wp_arms. repeat (apply Forall_cons_2; [intros rest; cbn [snd]|]); [..|by apply Forall_nil_2].
    5: { apply wp_seq; [apply wp_print|]. apply wp_root. intros root. split; [cbn; unfold queries; set_solver|]. by split. }
    5: apply wp_doctor.
    5: { apply wp_root. intros root. by eapply (wp_inherit (words ["build"])); [reflexivity|left]. }
    5: { apply wp_root. intros root. apply wp_seq; [apply wp_print|].
         by eapply (wp_inherit (words ["run"] ++ rest)); [reflexivity|left]. }
    5: { apply wp_root. intros root. apply wp_seq; [apply wp_print|]. apply wp_root. intros root'.
         apply wp_seq; [apply wp_print|]. by eapply (wp_inherit (words ["demo"; "memory"])); [reflexivity|left]. }
    5-7: (apply wp_root; intros root; apply wp_seq; [apply wp_print|]; apply wp_then; [|intros code; case_bool_decide; [|done]; repeat (apply wp_seq; [apply wp_print|])]).
    5-6: eapply (wp_inherit (words ["demo"; "full"])); [reflexivity|set_solver].
    5-8: eapply (wp_inherit (words ["demo"; "drivers"])); [reflexivity|set_solver].
    5: { apply wp_root. intros root. by eapply (wp_inherit (words ["verify"])); [reflexivity|left]. }
    5: apply wp_evidence_list.
    5: apply wp_evidence_open.
    5-6: apply wp_events.
    5: { apply wp_root. intros root. by eapply (wp_inherit (words ["kit"; "build"])); [reflexivity|left]. }
    5: apply wp_release.
    all: by split. }
  destruct (wp_run _ documented (main args) _ h [] H) as (code & E & _ & F); [by constructor|].
  eexists _, code. split; [exact E|exact F].
Qed.

(** ** The checklists, on a machine that stands still *)

Section still.
Context (w : forall c, answer c).

Definition printed (t : list call) : str :=
  concat (omap (fun c => match c with Print s => Some s | _ => None end) t).
(** [p] prints [out] and returns [a], whatever ran before. *)
Definition says {A} (p : ctl A) (out : str) (a : A) : Prop :=
  forall past, exists t, run (fun _ => w) past p = (past ++ t, Some a) /\ printed t = out.

Lemma printed_trace_app t1 t2 : printed (t1 ++ t2) = printed t1 ++ printed t2.
Proof. unfold printed. by rewrite omap_app, concat_app. Qed.
Lemma says_ret {A} (a : A) : says (mret a) [] a.
Proof. intros past. exists []. by rewrite app_nil_r. Qed.
Lemma says_bind {A B} (p : ctl A) (f : A -> ctl B) o1 o2 a b : says p o1 a -> says (f a) o2 b -> says (p ≫= f) (o1 ++ o2) b.
Proof.
  intros Hp Hf past. destruct (Hp past) as (t1 & E1 & <-). destruct (Hf (past ++ t1)) as (t2 & E2 & <-).
  exists (t1 ++ t2). by rewrite run_bind, E1, E2, printed_trace_app, app_assoc.
Qed.
Lemma says_bind0 {A B} (p : ctl A) (f : A -> ctl B) o a b : says p [] a -> says (f a) o b -> says (p ≫= f) o b.
Proof. apply (says_bind p f [] o). Qed.
Lemma says_println s : says (println s) (s ++ [10]) (w (Print (s ++ [10]))).
Proof. intros past. eexists. split; [done|]. cbn. by rewrite app_nil_r. Qed.
Lemma says_silent c : (forall s, c <> Print s) -> says (perform c) [] (w c).
Proof. intros Hc past. exists [c]. split; [done|]. destruct c; try done. by destruct (Hc s). Qed.
Lemma says_quiet {A} c (f : answer c -> ctl A) o a : (forall s, c <> Print s) -> says (f (w c)) o a -> says (perform c ≫= f) o a.
Proof. intros Hc. by apply says_bind0, says_silent. Qed.
(** A loop that only accumulates a verdict. *)
Lemma says_fold {A} (f : bool -> A -> ctl bool) (good : A -> bool) (line : A -> str) failed l :
  (forall b a, says (f b a) (line a) (if good a then b else true)) ->
  says (for_each f failed l) (concat (map line l)) (if forallb good l then failed else true).
Proof.
  intros Hf. revert failed. induction l as [|a l IH]; intros failed; [apply says_ret|]. cbn [for_each map concat forallb].
  eapply says_bind; [apply Hf|]. specialize (IH (if good a then failed else true)).
  by destruct (good a), (forallb good l).
Qed.

(** The nearest directory, from the current one up, with both marks. *)
Fixpoint ancestors (n : nat) (cs : list str) : list (list str) :=
  take n cs :: match n with O => [] | S m => ancestors m cs end.
Definition has_marks (dir : list str) : bool :=
  w (IsFile (Path.join (Path.display dir) (bstr "scripts/verify_all.sh"))) &&
  w (IsFile (Path.join (Path.display dir) (bstr "kernel/Cargo.toml"))).
Definition root_of : option str :=
  cs ← w CurrentDir; Path.display <$> List.find has_marks (ancestors (length (cs : list str)) cs).

Lemma says_marked dir : says (marked dir) [] (has_marks dir).
Proof.
  unfold marked, has_marks. apply says_quiet; [done|].
  destruct (w (IsFile (Path.join (Path.display dir) (bstr "scripts/verify_all.sh")))); cbn [andb]; [|apply says_ret].
  by apply (says_silent (IsFile _)).
Qed.
Lemma says_search cs n : (n <= length cs)%nat ->
  says (search_up (reverse (take n cs))) [] (List.find has_marks (ancestors n cs)).
Proof.
  induction n as [|n IH]; intros Hn.
  - change (reverse (take 0 cs)) with (@nil str). cbn [search_up ancestors List.find].
    change (take 0 cs) with (@nil str). change (reverse (@nil str)) with (@nil str).
    apply (says_bind _ _ [] []  (has_marks [])); [apply says_marked|]. destruct (has_marks []); apply says_ret.
  - destruct (lookup_lt_is_Some_2 cs n ltac:(lia)) as [x Hx].
    assert (reverse (take (S n) cs) = x :: reverse (take n cs)) as Er by (by rewrite (take_S_r _ _ x Hx), reverse_snoc).
    cbn [ancestors List.find]. rewrite Er. cbn [search_up].
    apply (says_bind _ _ [] [] (has_marks (take (S n) cs))).
    { rewrite <- Er, reverse_involutive. apply says_marked. }
    rewrite <- Er, reverse_involutive. destruct (has_marks (take (S n) cs)); [apply says_ret|apply IH; lia].
Qed.
Lemma says_require : says require_repo_root [] (match root_of with Some root => Ok root | None => Err FAILURE end).
Proof.
  assert (says repo_root [] (cs ← w CurrentDir; List.find has_marks (ancestors (length (cs : list str)) cs))) as H.
  { apply says_quiet; [done|]. destruct (w CurrentDir) as [cs|]; [|apply says_ret]. cbn [mbind option_bind].
    rewrite <- (firstn_all cs) at 1. by apply says_search. }
  apply (says_bind _ _ [] [] _ _ H). unfold root_of.
  assert (says (eprintln not_inside ;; mret (Err FAILURE)) [] (@Err str ExitCode FAILURE)) as He
    by (apply (says_quiet (Eprint _)); [done|apply says_ret]).
  destruct (w CurrentDir) as [cs|]; cbn [mbind option_bind]; [|apply He].
  destruct (List.find _ _); [apply says_ret|apply He].
Qed.
(** A command that needs the root works at the nearest marked directory,
    and without one prints nothing and fails. *)
Lemma says_root f out code : (forall root, root_of = Some root -> says (f root) (out root) (code root)) ->
  says (with_root f) (match root_of with Some root => out root | None => [] end)
                     (match root_of with Some root => code root | None => FAILURE end).
Proof.
  intros Hf. unfold with_root. apply (says_bind _ _ [] _ _ _ says_require).
  destruct root_of; [by apply Hf|apply says_ret].
Qed.

(** The release checklist: label and verdict of each item. *)
Definition git_good (root : str) (args : list string) (good : str -> bool) : bool :=
  match w (RunOutput (Some root) (bstr "git") (words args)) with
  | Ok o => success (out_status o) && good (stdout o)
  | Err _ => false
  end.
Definition exists_at (root path : str) : str * bool := (path, w (IsFile (Path.join root path))).
Definition log_items (root : str) : list (str * bool) :=
  match w (ReadText (Path.join root clean_log)) with
  | Ok log => [(bstr "verify_all_clean.log records VERIFY ALL: PASS", contains log (bstr "VERIFY ALL: PASS"));
               (bstr "verify_all_clean.log contains zero warnings", negb (contains log (bstr "warning")))]
  | Err _ => [(clean_log ++ bstr " exists", false)]
  end.
Definition release_items (root : str) : list (str * bool) :=
  [(bstr "git tree is clean (no uncommitted changes)", git_good root ["status"; "--porcelain"] is_empty);
   (bstr "HEAD carries a release tag", git_good root ["tag"; "--points-at"; "HEAD"] (fun s => negb (is_empty s)))] ++
  map (fun d => exists_at root (cat [bstr "kit/"; d; bstr ".md"])) kit_documents ++
  log_items root ++
  map (exists_at root) release_scripts.
Definition item_line (i : str * bool) : str := bstr (if i.2 then "PASS" else "FAIL") ++ bstr "  " ++ i.1 ++ [10].
Definition release_report (root : str) : str :=
  concat (map item_line (release_items root)) ++ rule ++ [10] ++
  bstr (if forallb snd (release_items root) then "release check: PASS" else "release check: FAIL") ++ [10].

Lemma says_check failed ok label : says (check failed ok label) (item_line (label, ok)) (if ok then failed else true).
Proof.
  replace (item_line (label, ok)) with ((cat [bstr (if ok then "PASS" else "FAIL"); bstr "  "; label] ++ [10]) ++ []).
  { eapply says_bind; [apply says_println|apply says_ret]. }
  unfold item_line, cat. cbn [concat fst snd]. by rewrite !app_nil_r, <- !app_assoc.
Qed.
Lemma says_check_file root failed path :
  says (check_file root failed path) (item_line (exists_at root path)) (if (exists_at root path).2 then failed else true).
Proof. apply (says_quiet (IsFile _)); [done|]. apply says_check. Qed.
Lemma says_git root args good : says (git_says root (words args) good) [] (git_good root args good).
Proof. apply (says_quiet (RunOutput _ _ _)); [done|]. apply says_ret. Qed.
Lemma says_checks root (f : str -> str) failed l :
  says (for_each (check_file root) failed (map f l)) (concat (map item_line (map (fun d => exists_at root (f d)) l)))
       (if forallb snd (map (fun d => exists_at root (f d)) l) then failed else true).
Proof.
  replace (forallb snd (map _ l)) with (forallb (fun p => (exists_at root p).2) (map f l))
    by (clear; induction l as [|a l IH]; [done|]; cbn [map forallb]; by rewrite IH).
  replace (map item_line _) with (map (fun p => item_line (exists_at root p)) (map f l)) by (by rewrite !map_map).
  apply says_fold. intros b p. apply says_check_file.
Qed.

Lemma says_log root failed :
  says (check_log root failed) (concat (map item_line (log_items root))) (if forallb snd (log_items root) then failed else true).
Proof.
  unfold log_items. apply (says_quiet (ReadText _)); [done|].
  destruct (w (ReadText (Path.join root clean_log))) as [log|e]; cbn [map concat forallb snd andb]; rewrite !app_nil_r; [|apply says_check].
  eapply says_bind; [apply says_check|].
  set (a := contains log (bstr "VERIFY ALL: PASS")). set (b := negb _).
  replace (if a && (b && true) then failed else true) with (if b then (if a then failed else true) else true) by (by destruct a, b).
  apply says_check.
Qed.

(** [axiomctl release check] works at the nearest directory with both marks:
    it prints one verdict line per item of the checklist, in order, then the
    overall verdict, and exits with success exactly when every item passes. *)
Theorem release_check_exact :
  says cmd_release_check
    (match root_of with Some root => release_report root | None => [] end)
    (match root_of with
     | Some root => if forallb snd (release_items root) then SUCCESS else FAILURE
     | None => FAILURE
     end).
Proof.
  apply (says_root _ release_report (fun root => if forallb snd (release_items root) then SUCCESS else FAILURE)).
  intros root _. unfold release_report, release_items. set (clean := git_good root ["status"; "--porcelain"] is_empty).
  set (tagged := git_good _ _ _). set (docs := map (fun d => exists_at _ _) kit_documents).
  set (logs := log_items root). set (scripts := map _ release_scripts).
  rewrite !forallb_app, !map_app, !concat_app, <- !app_assoc. cbn [map concat app forallb snd]. rewrite app_nil_r, <- !app_assoc.
  apply (says_bind _ _ [] _ clean); [apply says_git|]. eapply says_bind; [apply says_check|].
  apply (says_bind _ _ [] _ tagged); [apply says_git|]. eapply says_bind; [apply says_check|].
  eapply says_bind; [apply says_checks|]. eapply says_bind; [apply says_log|]. fold docs logs.
  eapply says_bind; [rewrite <- (map_id release_scripts) at 1; apply says_checks|]. fold scripts.
  change (map (fun d => exists_at root ((fun x => x) d)) release_scripts) with scripts.
  match goal with |- says _ (rule ++ 10 :: ?o) _ => change (10 :: o) with ([10] ++ o); rewrite (app_assoc rule) end.
  eapply says_bind; [apply says_println|].
  destruct clean, tagged, (forallb snd docs), (forallb snd logs), (forallb snd scripts); cbn [andb];
    rewrite <- (app_nil_r (_ ++ [10])); (eapply says_bind; [apply says_println|apply says_ret]).
Qed.

(** The doctor's findings: the version a tool reports, the installed target,
    the files. *)
Definition probed (program : str) : option str :=
  match w (RunOutput None program (words ["--version"])) with
  | Ok out =>
      let line := trim (default [] (head (lines (stdout out)))) in
      if success (out_status out) && negb (is_empty line) then Some line else None
  | Err _ => None
  end.
Definition tool_good (t : str * str * bool) : bool :=
  let '(_, program, required) := t in bool_decide (is_Some (probed program)) || negb required.
Definition tool_line (t : str * str * bool) : str :=
  let '(label, program, required) := t in
  match probed program with
  | Some v => bstr "OK       " ++ label ++ bstr ": " ++ v
  | None => if required : bool then bstr "MISSING  " ++ label ++ bstr " (required)"
            else bstr "absent   " ++ label ++ dash ++ bstr "proof recompilation unavailable"
  end ++ [10].
(** [None] when [rustup] does not answer. *)
Definition target_installed : option bool :=
  match w (RunOutput None (bstr "rustup") (words ["target"; "list"; "--installed"])) with
  | Ok out => if success (out_status out)
              then Some (existsb (fun l => bool_decide (trim l = TARGET)) (lines (stdout out))) else None
  | Err _ => None
  end.
Definition target_line : str :=
  match target_installed with
  | Some true => bstr "OK       target " ++ TARGET ++ bstr " installed"
  | Some false => bstr "MISSING  target " ++ TARGET ++ bstr " (rustup target add " ++ TARGET ++ bstr ")"
  | None => bstr "unknown  riscv64gc target (rustup not found; assuming vendored toolchain)"
  end ++ [10].
Definition target_good : bool := bool_decide (target_installed <> Some false).
Definition file_line (root f : str) : str :=
  (if (exists_at root f).2 then bstr "OK       " ++ f else bstr "MISSING  " ++ f ++ bstr " (required)") ++ [10].
Definition doctor_good (root : str) : bool :=
  forallb tool_good tools && target_good && forallb (fun f => (exists_at root f).2) doctor_files.
Definition doctor_verdict (root : str) : str :=
  concat (map (file_line root) doctor_files) ++ rule ++ [10] ++
  (if doctor_good root then bstr "doctor: PASS" else bstr "doctor: FAIL" ++ dash ++ bstr "fix the MISSING items above") ++ [10].

Lemma says_line {A} s (k : ctl A) o a : says k o a -> says (println s ;; k) ((s ++ [10]) ++ o) a.
Proof. intros H. eapply says_bind; [apply says_println|done]. Qed.
Lemma says_end {A} s (a : A) o : o = s ++ [10] -> says (println s ;; mret a) o a.
Proof. intros ->. rewrite <- (app_nil_r (s ++ [10])). apply says_line, says_ret. Qed.
Lemma says_first program : says (first_line program (words ["--version"])) [] (probed program).
Proof.
  apply (says_quiet (RunOutput _ _ _)); [done|]. unfold probed. case_match; [|apply says_ret].
  destruct (success _); cbn [andb]; [|apply says_ret]. destruct (is_empty _); apply says_ret.
Qed.
Lemma says_tool failed t : says (doctor_tool failed t) (tool_line t) (if tool_good t then failed else true).
Proof.
  destruct t as [[label program] required]. unfold tool_good, tool_line, doctor_tool, cat.
  apply (says_bind0 _ _ _ _ _ (says_first program)). destruct (probed program); cbn [concat].
  - apply says_end. by rewrite ?app_nil_r, <- ?app_assoc.
  - destruct required; apply says_end; by rewrite ?app_nil_r, <- ?app_assoc.
Qed.
Lemma says_target failed : says (doctor_target failed) target_line (if target_good then failed else true).
Proof.
  apply (says_quiet (RunOutput _ _ _)); [done|]. unfold target_good, target_line, target_installed, cat. cbn [concat].
  case_match; [destruct (success _); [destruct (existsb _ _)|]|]; apply says_end; by rewrite ?app_nil_r, <- ?app_assoc.
Qed.
Lemma says_file root failed f : says (doctor_file root failed f) (file_line root f) (if (exists_at root f).2 then failed else true).
Proof.
  apply (says_quiet (IsFile _)); [done|]. unfold file_line, exists_at, cat. cbn [snd concat].
  case_match; apply says_end; by rewrite ?app_nil_r, <- ?app_assoc.
Qed.

(** [axiomctl doctor] reports every tool, the target and, at the nearest
    marked directory, every required file, one line each; it exits with
    success exactly when no required item is missing (an optional tool, or a
    target [rustup] says nothing about, does not count). *)
Theorem doctor_exact :
  says cmd_doctor
    (bstr "axiomctl doctor" ++ [10] ++ rule ++ [10] ++ concat (map tool_line tools) ++ target_line ++
     match root_of with Some root => doctor_verdict root | None => [] end)
    (match root_of with Some root => if doctor_good root then SUCCESS else FAILURE | None => FAILURE end).
Proof.
  unfold cmd_doctor. rewrite app_assoc. apply says_line. rewrite app_assoc. apply says_line.
  eapply says_bind; [apply (says_fold doctor_tool tool_good tool_line), says_tool|].
  eapply says_bind; [apply says_target|].
  apply (says_root _ doctor_verdict (fun root => if doctor_good root then SUCCESS else FAILURE)). intros root _.
  unfold doctor_verdict, doctor_good. eapply says_bind; [apply (says_fold _ (fun f => (exists_at root f).2) (file_line root)), says_file|].
  rewrite app_assoc. apply says_line.
  destruct (forallb tool_good tools), target_good, (forallb _ doctor_files); cbn [andb]; apply says_end; unfold cat; cbn [concat];
    by rewrite ?app_nil_r, <- ?app_assoc.
Qed.

End still.

(** A machine whose repository is the parent of the current directory, and
    one with no repository. *)
Definition sample_files (p : str) : bool :=
  bool_decide (p ∈ words ["/axiom/scripts/verify_all.sh"; "/axiom/kernel/Cargo.toml"]).
Definition sample_host (files : str -> bool) (past : list call) (c : call) : answer c :=
  match c return answer c with
  | CurrentDir => Some (words ["axiom"; "docs"])
  | IsFile p => files p
  | IsDir _ => false
  | ReadDir _ | ReadText _ | RunOutput _ _ _ => Err []
  | Status _ _ _ => Ok (mkStatus true [])
  | Print _ | Eprint _ => tt
  | WriteOut _ => Ok tt
  end.
Lemma sample_nearest : nearest sample_files (words ["axiom"; "docs"]) (words ["axiom"]).
Proof.
  split; [by exists (words ["docs"])|]. split; [vm_compute; reflexivity|].
  intros d [k E] Hl. destruct d as [|x [|y [|z d]]]; cbn in Hl; [lia|lia| |discriminate E].
  injection E as <- <- _. vm_compute. reflexivity.
Qed.

Lemma ctl_delegates_witness :
  (exists t code, run (sample_host sample_files) [] (main (words ["demo"; "full"])) = (t, Some code) /\
     follows (at_root (bstr "/axiom") [cargo_build ["--features"; "demo_full"; "-p"; "kernel"]; boot_qemu])
       (procs (sample_host sample_files) [] t) code) /\
  (exists t, run (sample_host (fun _ => false)) [] (main (words ["run"; "-s"])) = (t, Some FAILURE) /\
     procs (sample_host (fun _ => false)) [] t = []).
Proof.
  split.
  - destruct (ctl_delegates (words ["demo"; "full"]) [cargo_build ["--features"; "demo_full"; "-p"; "kernel"]; boot_qemu]
      eq_refl (sample_host sample_files) []) as (t & code & E & _ & H).
    exists t, code. split; [exact E|].
    apply (proj1 (H (Some (words ["axiom"; "docs"])) sample_files (fun _ => conj eq_refl (fun _ => eq_refl)))
      (words ["axiom"; "docs"]) (words ["axiom"]) eq_refl sample_nearest).
  - destruct (ctl_delegates (words ["run"; "-s"]) [(bstr "./scripts/run_qemu.sh", words ["-s"])]
      eq_refl (sample_host (fun _ => false)) []) as (t & code & E & _ & H).
    destruct (proj2 (H (Some (words ["axiom"; "docs"])) (fun _ => false) (fun _ => conj eq_refl (fun _ => eq_refl))))
      as (-> & Hp & _); [intros cs _ d _; reflexivity|].
    exists t. split; [exact E|exact Hp].
Defined.

End Ctl.
