(* ===== verification/StudioView.v ===== *)
(** * What the dashboard derives from a log

    The pure half of [studio/src/main.rs]: the task table and the network
    view derived from parsed events, the counts, and the JSON document of
    [/api/events]; [Studio] serves it. *)

From stdpp Require Import strings base decidable numbers option tactics list sets.
From S2P Require Import Prelude Bytes Monitor Events Utf8.
Local Open Scope Z_scope.

Module View.
Import Events.

(** ** The task table *)

(** [set_state]: the first row with the name. *)
Fixpoint set_state (tasks : list (str * str)) (name state : str) : list (str * str) :=
  match tasks with
  | [] => []
  | (n, s) :: tasks => if bool_decide (n = name) then (n, state) :: tasks else (n, s) :: set_state tasks name state
  end.

(** The loop of [derive_tasks]: the table and [last_faulted]. *)
Definition task_step (acc : list (str * str) * option str) (ev : Event) : list (str * str) * option str :=
  let '(tasks, last_faulted) := acc in
  if str_is (kind ev) "TASK_STARTED" then
    match field (fields ev) "task" with
    | Some t => (tasks ++ [(t, bstr "running")], last_faulted)
    | None => acc
    end
  else if str_is (kind ev) "TASK_EXITED" then
    match field (fields ev) "task" with
    | Some t => (set_state tasks t (bstr "exited"), last_faulted)
    | None => acc
    end
  else if one_of (kind ev) ["FAULT"; "TASK_FAULTED"] then
    match field (fields ev) "task" with
    | Some t => (set_state tasks t (bstr "faulted"), Some t)
    | None => acc
    end
  else if str_is (kind ev) "RECOVERY_APPLIED" then
    match field (fields ev) "policy", last_faulted with
    | Some policy, Some t => if str_is policy "Kill" then (set_state tasks t (bstr "killed"), last_faulted) else acc
    | _, _ => acc
    end
  else acc.
Definition derive_tasks (evs : list Event) : list (str * str) := (foldl task_step ([], None) evs).1.

(** ** The network view *)

Record NetworkView := mkNet {
  net_state : str; net_tx : Z; net_rx : Z; net_mode : str;
  net_faults : Z; net_restarts : Z; last_event : str }.
#[export] Instance network_view_eq_dec : EqDecision NetworkView.
Proof. solve_decision. Defined.

Definition default_view : NetworkView :=
  mkNet (bstr "not_observed") 0 0 (bstr "not_observed") 0 0 (bstr "no network event in this log").

Definition event_field (ev : Event) (k : string) : option str := field (fields ev) k.

(** [and_then(|v| v.parse().ok()).unwrap_or(old)] *)
Definition counter (ev : Event) (k : string) (old : Z) : Z :=
  default old (event_field ev k ≫= Utf8.parse_uint 64).

(** The body of the loop of [derive_network]. *)
Definition net_step (view : NetworkView) (ev : Event) : NetworkView :=
  let '(mkNet st tx rx mode faults restarts _) := view in
  let last := raw ev in
  if str_is (kind ev) "NET_SERVICE" then
    mkNet (default st (event_field ev "state")) tx rx (default mode (event_field ev "mode")) faults restarts last
  else if str_is (kind ev) "NET_DRIVER" then
    if bool_decide (event_field ev "state" = Some (bstr "faulted")) then
      mkNet (bstr "faulted") tx rx mode (faults + 1) restarts last
    else if bool_decide (is_Some (event_field ev "restarted")) then
      mkNet (bstr "up") 0 0 mode faults (restarts + 1) last
    else if bool_decide (is_Some (event_field ev "started")) then
      mkNet (bstr "up") tx rx mode faults restarts last
    else mkNet st tx rx mode faults restarts last
  else if str_is (kind ev) "NET_TX" then mkNet st (counter ev "tx" tx) rx mode faults restarts last
  else if str_is (kind ev) "NET_RX" then mkNet st tx (counter ev "rx" rx) mode faults restarts last
  else mkNet st tx rx mode faults restarts last.
Definition derive_network (evs : list Event) : NetworkView :=
  foldl net_step default_view (filter (fun ev => category ev = CNetwork) evs).

(** ** The document of [/api/events] *)

Definition EVENT_CAP : nat := 1500.

(** Per-kind counts per category, in first-seen order. *)
Fixpoint count_in (kinds : list (Category * str * Z)) (c : Category) (k : str) : list (Category * str * Z) :=
  match kinds with
  | [] => [(c, k, 1)]
  | (c', k', n) :: kinds =>
      if bool_decide (c' = c /\ k' = k) then (c', k', n + 1) :: kinds else (c', k', n) :: count_in kinds c k
  end.
Definition kinds_of (evs : list Event) : list (Category * str * Z) :=
  foldl (fun ks ev => count_in ks (category ev) (kind ev)) [] evs.
(** Scheduler selections per task. *)
Definition sched_step (sched : list (str * Z)) (ev : Event) : list (str * Z) :=
  if bool_decide (category ev = CScheduler) then
    match field (fields ev) "selected" with Some v => count_kind sched v | None => sched end
  else sched.
Definition sched_of (evs : list Event) : list (str * Z) := foldl sched_step [] evs.

Definition brackets (s : str) : str := [91] ++ s ++ [93].
Definition jstr (s : str) : str := quoted (json_escape s).
Definition pair_json (p : str * str) : str := brackets (jstr p.1 ++ [44] ++ jstr p.2).
Definition kind_json (r : Category * str * Z) : str :=
  brackets (quoted (category_name r.1.1) ++ [44] ++ jstr r.1.2 ++ [44] ++ dec r.2).
Definition sched_json (r : str * Z) : str := brackets (jstr r.1 ++ [44] ++ dec r.2).
Definition array {A} (f : A -> str) (l : list A) : str := brackets (join [44] (map f l)).
Definition network_json (v : NetworkView) : str :=
  [123] ++ key "state" ++ jstr (net_state v) ++ [44] ++ key "tx" ++ dec (net_tx v) ++ [44] ++
  key "rx" ++ dec (net_rx v) ++ [44] ++ key "mode" ++ jstr (net_mode v) ++ [44] ++
  key "faults" ++ dec (net_faults v) ++ [44] ++ key "restarts" ++ dec (net_restarts v) ++ [44] ++
  key "last_event" ++ jstr (last_event v) ++ [125].

Definition events_body (log_text : str) : str :=
  let parsed := parse_log log_text in
  let evs := events parsed in
  [123] ++ key "total" ++ dec (Z.of_nat (length evs)) ++ [44] ++ key "skipped" ++ dec (skipped parsed) ++ [44] ++
  key "shown" ++ dec (Z.of_nat (length evs `min` EVENT_CAP)) ++ [44] ++
  key "summary" ++ array kind_json (kinds_of evs) ++ [44] ++ key "sched" ++ array sched_json (sched_of evs) ++ [44] ++
  key "tasks" ++ array pair_json (derive_tasks evs) ++ [44] ++ key "network" ++ network_json (derive_network evs) ++ [44] ++
  key "events" ++ array to_json (take EVENT_CAP evs) ++ [125].

(** ** Reading the document back *)

(** The reader of the page: each part of the document in turn. *)
Definition read_number (s : str) : Z * str := let '(n, s) := read_digits s in (dec_value n, s).
Definition read_array {A} (item : str -> option (A * str)) (s : str) : option (list A * str) :=
  read_lit [91] s ≫= read_list item 93.
Definition read_row (s : str) : option (str * str * str) :=
  s ← read_lit [91] s; '(a, s) ← read_quoted s; s ← read_lit [44] s; '(b, s) ← read_quoted s;
  s ← read_lit [93] s; Some (a, b, s).
Definition read_kind (s : str) : option (Category * str * Z * str) :=
  s ← read_lit [91] s; '(c, s) ← read_quoted s;
  cat ← List.find (fun x => bool_decide (category_name x = c)) ORDER;
  s ← read_lit [44] s; '(k, s) ← read_quoted s; s ← read_lit [44] s;
  let '(n, s) := read_number s in
  s ← read_lit [93] s; Some (cat, k, n, s).
Definition read_sched (s : str) : option (str * Z * str) :=
  s ← read_lit [91] s; '(t, s) ← read_quoted s; s ← read_lit [44] s;
  let '(n, s) := read_number s in
  s ← read_lit [93] s; Some (t, n, s).
Definition read_network (s : str) : option (NetworkView * str) :=
  s ← read_lit ([123] ++ key "state") s; '(st, s) ← read_quoted s;
  s ← read_lit ([44] ++ key "tx") s; let '(tx, s) := read_number s in
  s ← read_lit ([44] ++ key "rx") s; let '(rx, s) := read_number s in
  s ← read_lit ([44] ++ key "mode") s; '(mode, s) ← read_quoted s;
  s ← read_lit ([44] ++ key "faults") s; let '(faults, s) := read_number s in
  s ← read_lit ([44] ++ key "restarts") s; let '(restarts, s) := read_number s in
  s ← read_lit ([44] ++ key "last_event") s; '(last, s) ← read_quoted s;
  s ← read_lit [125] s; Some (mkNet st tx rx mode faults restarts last, s).

Record Document := mkDoc {
  d_total : Z; d_skipped : Z; d_shown : Z; d_summary : list (Category * str * Z); d_sched : list (str * Z);
  d_tasks : list (str * str); d_network : NetworkView; d_events : list Event }.
Definition read_document (s : str) : option Document :=
  s ← read_lit ([123] ++ key "total") s; let '(total, s) := read_number s in
  s ← read_lit ([44] ++ key "skipped") s; let '(skipped, s) := read_number s in
  s ← read_lit ([44] ++ key "shown") s; let '(shown, s) := read_number s in
  s ← read_lit ([44] ++ key "summary") s; '(summary, s) ← read_array read_kind s;
  s ← read_lit ([44] ++ key "sched") s; '(sched, s) ← read_array read_sched s;
  s ← read_lit ([44] ++ key "tasks") s; '(tasks, s) ← read_array read_row s;
  s ← read_lit ([44] ++ key "network") s; '(net, s) ← read_network s;
  s ← read_lit ([44] ++ key "events") s; '(evs, s) ← read_array read_event s;
  s ← read_lit [125] s;
  if is_empty s then Some (mkDoc total skipped shown summary sched tasks net evs) else None.

Lemma read_number_app n c rest : n ∈ᵤ 64 -> ~ 48 <= c <= 57 -> read_number (dec n ++ [c] ++ rest) = (n, [c] ++ rest).
Proof. intros Hn Hc. unfold read_number. cbn [app]. rewrite read_digits_app by (try apply dec_range; done). by rewrite dec_roundtrip. Qed.

(** Take the next literal, string or number. *)
Ltac rd := first [rewrite read_lit2|rewrite read_lit_app|rewrite read_quoted_app by done|rewrite read_number_app by (done || lia)];
  cbn [mbind option_bind].

Lemma read_array_app {A} item (print : A -> str) (ok : A -> Prop) open l rest :
  (forall a rest, ok a -> item (print a ++ rest) = Some (a, rest)) -> (forall a, exists s, print a = open :: s) ->
  open <> 93 -> Forall ok l -> read_array item (array print l ++ rest) = Some (l, rest).
Proof.
  intros Hi Hp Ho Hl. unfold read_array, array, brackets. rewrite <- !app_assoc. rd.
  by apply (read_list_app item print ok open 93).
Qed.
Lemma read_row_app p rest : chars p.1 /\ chars p.2 -> read_row (pair_json p ++ rest) = Some (p, rest).
Proof.
  intros [H1 H2]. unfold read_row, pair_json, brackets, jstr. rewrite <- !app_assoc. do 5 rd. by destruct p.
Qed.
Lemma read_sched_app p rest : chars p.1 /\ p.2 ∈ᵤ 64 -> read_sched (sched_json p ++ rest) = Some (p, rest).
Proof.
  intros [H1 H2]. unfold read_sched, sched_json, brackets, jstr. rewrite <- !app_assoc. do 5 rd. by destruct p.
Qed.
Lemma read_kind_app p rest : chars p.1.2 /\ p.2 ∈ᵤ 64 -> read_kind (kind_json p ++ rest) = Some (p, rest).
Proof.
  intros [H1 H2]. unfold read_kind, kind_json, brackets, jstr. destruct (category_chars p.1.1) as [Ec Hc].
  rewrite <- Ec, <- !app_assoc. do 2 rd. rewrite find_category. cbn [mbind option_bind]. do 5 rd. by destruct p as [[c k] n].
Qed.

Record view_ok (v : NetworkView) : Prop := {
  vo_state : chars (net_state v); vo_tx : net_tx v ∈ᵤ 64; vo_rx : net_rx v ∈ᵤ 64; vo_mode : chars (net_mode v);
  vo_faults : net_faults v ∈ᵤ 64; vo_restarts : net_restarts v ∈ᵤ 64; vo_last : chars (last_event v) }.
Lemma read_network_app v rest : view_ok v -> read_network (network_json v ++ rest) = Some (v, rest).
Proof.
  intros [H1 H2 H3 H4 H5 H6 H7]. unfold read_network, network_json, jstr. rewrite <- !app_assoc.
  do 15 rd. by destruct v.
Qed.

(** ** What is derived can be printed *)

Lemma field_chars e k v : printable e -> field (fields e) k = Some v -> chars v.
Proof.
  intros He. unfold field. destruct (List.find _ _) as [f|] eqn:E; [|done]. intros [= <-]. apply List.find_some in E as [E _].
  pose proof (pr_fields e He) as Hf. rewrite Forall_forall in Hf. apply list_elem_of_In, Hf in E. apply E.
Qed.

Definition counted (n : Z) (r : str * Z) : Prop := chars r.1 /\ 0 <= r.2 <= n.
Lemma count_kind_ok n ks k : 0 <= n -> Forall (counted n) ks -> chars k -> Forall (counted (n + 1)) (count_kind ks k).
Proof.
  intros Hn H Hk. assert (forall l, Forall (counted n) l -> Forall (counted (n + 1)) l) as Hup.
  { intros l Hl. eapply Forall_impl; [exact Hl|]. intros r [? ?]. split; [done|lia]. }
  induction H as [|[k' m] ks [Hc Hm] Hks IH]; cbn [count_kind].
  - constructor; [|constructor]. split; [done|cbn; lia].
  - case_bool_decide; constructor; [split; [done|cbn in *; lia]|by apply Hup|split; [done|cbn in *; lia]|done].
Qed.
Definition counted_in (n : Z) (r : Category * str * Z) : Prop := chars r.1.2 /\ 0 <= r.2 <= n.
Lemma count_in_ok n ks c k : 0 <= n -> Forall (counted_in n) ks -> chars k -> Forall (counted_in (n + 1)) (count_in ks c k).
Proof.
  intros Hn H Hk. assert (forall l, Forall (counted_in n) l -> Forall (counted_in (n + 1)) l) as Hup.
  { intros l Hl. eapply Forall_impl; [exact Hl|]. intros r [? ?]. split; [done|lia]. }
  induction H as [|[[c' k'] m] ks [Hc Hm] Hks IH]; cbn [count_in].
  - constructor; [|constructor]. split; [done|cbn; lia].
  - case_bool_decide; constructor; [split; [done|cbn in *; lia]|by apply Hup|split; [done|cbn in *; lia]|done].
Qed.

Lemma derived_counts evs : Forall printable evs ->
  Forall (counted_in (Z.of_nat (length evs))) (kinds_of evs) /\ Forall (counted (Z.of_nat (length evs))) (sched_of evs).
Proof.
  unfold kinds_of, sched_of. induction evs as [|e evs IH] using rev_ind; intros H; [by repeat constructor|].
  apply Forall_app in H as [H He]. inversion_clear He as [|? ? Hp _]. destruct (IH H) as [H1 H2].
  rewrite !foldl_snoc, length_app. cbn [length]. replace (Z.of_nat (length evs + 1)) with (Z.of_nat (length evs) + 1) by lia.
  split; [apply count_in_ok; [lia|done|apply (pr_kind _ Hp)]|].
  assert (forall l, Forall (counted (Z.of_nat (length evs))) l -> Forall (counted (Z.of_nat (length evs) + 1)) l) as Hup.
  { intros l Hl. eapply Forall_impl; [exact Hl|]. intros r [? ?]. split; [done|lia]. }
  unfold sched_step. case_bool_decide; [|by apply Hup]. case_match eqn:E; [|by apply Hup].
  apply count_kind_ok; [lia|done|by eapply field_chars].
Qed.

Definition rows_ok (tasks : list (str * str)) : Prop := Forall (fun r => chars r.1 /\ chars r.2) tasks.
Lemma set_state_ok tasks n st : rows_ok tasks -> chars st -> rows_ok (set_state tasks n st).
Proof.
  intros H Hs. induction H as [|[n' s'] tasks [H1 H2] Hr IH]; cbn [set_state]; [constructor|].
  case_bool_decide; by constructor.
Qed.
Lemma derived_tasks evs : Forall printable evs -> rows_ok (derive_tasks evs).
Proof.
  intros H. unfold derive_tasks.
  assert (forall acc, rows_ok acc.1 -> rows_ok (foldl task_step acc evs).1) as G; [|by apply G; constructor].
  induction H as [|e evs He _ IH]; intros [tasks lf] Hr; [done|]. cbn [foldl]. apply IH. unfold task_step. cbn [fst] in Hr.
  repeat case_match; cbn [fst]; try done; try (apply set_state_ok; [done|apply chars_bstr]).
  apply Forall_app. split; [done|]. constructor; [|constructor]. split; [by eapply field_chars|apply chars_bstr].
Qed.

Lemma net_step_ok n v e : 0 <= n < 2 ^ 64 - 1 -> printable e -> view_ok v -> net_faults v <= n -> net_restarts v <= n ->
  view_ok (net_step v e) /\ net_faults (net_step v e) <= n + 1 /\ net_restarts (net_step v e) <= n + 1.
Proof.
  intros Hn He [H1 H2 H3 H4 H5 H6 H7] Hf Hr. destruct v as [st tx rx md fl rs le]. cbn in *. unfold net_step.
  assert (forall k old, chars old -> chars (default old (event_field e k))) as Hd.
  { intros k old Ho. unfold event_field. destruct (field _ _) eqn:E; [by eapply field_chars|done]. }
  assert (forall k old, old ∈ᵤ 64 -> counter e k old ∈ᵤ 64) as Hc.
  { intros k old Ho. unfold counter. destruct (_ ≫= _) as [v|] eqn:E; [|done]. apply bind_Some in E as (s & _ & E).
    eapply Utf8.parse_uint_range; [|exact E]. lia. }
  pose proof (pr_raw e He) as Hraw. pose proof (chars_bstr "up"). pose proof (chars_bstr "faulted"). unfold uint in *.
  repeat case_match; (split; [split|]); cbn [net_state net_tx net_rx net_mode net_faults net_restarts last_event]; unfold uint; try done; try (by apply Hd); try (by apply Hc); lia.
Qed.
Lemma derived_view evs : Forall printable evs -> Z.of_nat (length evs) < 2 ^ 64 -> view_ok (derive_network evs).
Proof.
  unfold derive_network. set (l := filter _ evs). intros H Hn.
  assert (Forall printable l) as Hl.
  { rewrite Forall_forall in H |- *. intros x Hx. apply list_elem_of_filter in Hx as [_ Hx]. by apply H. }
  assert (length l <= length evs)%nat as Hle by (apply length_filter).
  clearbody l. assert (view_ok (foldl net_step default_view l) /\ net_faults (foldl net_step default_view l) <= Z.of_nat (length l) /\
    net_restarts (foldl net_step default_view l) <= Z.of_nat (length l)) as [G _]; [|done].
  revert Hle. induction l as [|e l IH] using rev_ind; intros Hle.
  - cbn [foldl default_view net_faults net_restarts length]. split; [|lia].
    split; [apply chars_bstr|unfold uint; cbn; lia|unfold uint; cbn; lia|apply chars_bstr|unfold uint; cbn; lia|unfold uint; cbn; lia|apply chars_bstr].
  - apply Forall_app in Hl as [Hl He]. inversion_clear He. rewrite length_app in Hle. cbn in Hle. rewrite foldl_snoc, length_app. cbn [length].
    destruct IH as (I1 & I2 & I3); [done|lia|]. replace (Z.of_nat (length l + 1)) with (Z.of_nat (length l) + 1) by lia.
    apply net_step_ok; [lia|done..].
Qed.

(** C33. The document [/api/events] sends is lossless: a reader of the JSON gets
    back the totals, the counts, the task table, the network view and the
    first 1500 events exactly, whatever characters the log holds. *)
Theorem events_document_lossless log_text :
  let parsed := parse_log log_text in
  chars log_text -> Z.of_nat (length (events parsed)) < 2 ^ 64 -> skipped parsed ∈ᵤ 64 ->
  read_document (events_body log_text) =
  Some (mkDoc (Z.of_nat (length (events parsed))) (skipped parsed) (Z.of_nat (length (events parsed) `min` EVENT_CAP))
          (kinds_of (events parsed)) (sched_of (events parsed)) (derive_tasks (events parsed))
          (derive_network (events parsed)) (take EVENT_CAP (events parsed))).
Proof.
  intros parsed Hc Hn Hs. pose proof (log_printable log_text Hc Hn) as Hp. fold parsed in Hp.
  unfold events_body. fold parsed. cbv zeta. set (evs := events parsed) in *.
  destruct (derived_counts evs Hp) as [Hk Hsch]. unfold read_document. rewrite <- ?app_assoc.
  assert (Z.of_nat (length evs) ∈ᵤ 64) as H1 by (unfold uint; lia).
  assert (Z.of_nat (length evs `min` EVENT_CAP) ∈ᵤ 64) as H2 by (unfold uint; lia).
  do 7 rd. rewrite (read_array_app read_kind kind_json (fun r => chars r.1.2 /\ r.2 ∈ᵤ 64) 91); [|by intros; apply read_kind_app|by eexists|done|].
  2: { eapply Forall_impl; [exact Hk|]. intros r [? ?]. split; [done|]. unfold uint in *. lia. }
  cbn [mbind option_bind]. rd.
  rewrite (read_array_app read_sched sched_json (fun r => chars r.1 /\ r.2 ∈ᵤ 64) 91); [|by intros; apply read_sched_app|by eexists|done|].
  2: { eapply Forall_impl; [exact Hsch|]. intros r [? ?]. split; [done|]. unfold uint in *. lia. }
  cbn [mbind option_bind]. rd.
  rewrite (read_array_app read_row pair_json (fun r => chars r.1 /\ chars r.2) 91);
    [|by intros; apply read_row_app|by eexists|done|by apply derived_tasks].
  cbn [mbind option_bind]. rd. rewrite read_network_app by (by apply derived_view). cbn [mbind option_bind]. rd.
  rewrite (read_array_app read_event to_json printable 123); [|by intros; apply read_to_json|by eexists|done|by apply Forall_take].
  done.
Qed.

Definition sample_log : str :=
  concat (map (fun l => bstr l ++ [10])
    ["TASK_STARTED task=faulty_task"; "SCHED selected=faulty_task"; "FAULT type=WatchdogTimeout task=faulty_task";
     "RECOVERY_APPLIED policy=Kill"; "NET_TX bytes=64 tx=2"; "hello"]).
Example sample_tasks : derive_tasks (events (parse_log sample_log)) = [(bstr "faulty_task", bstr "killed")].
Proof. vm_compute. reflexivity. Qed.
Lemma events_document_lossless_witness :
  read_document (events_body sample_log) =
  Some (mkDoc 5 1 5 (kinds_of (events (parse_log sample_log))) [(bstr "faulty_task", 1)] [(bstr "faulty_task", bstr "killed")]
          (derive_network (events (parse_log sample_log))) (take EVENT_CAP (events (parse_log sample_log)))).
Proof.
  apply (events_document_lossless sample_log); [|vm_compute; reflexivity|split; [vm_compute; discriminate|vm_compute; reflexivity]].
  apply (bool_decide_unpack (Forall (fun c => 0 <= c) sample_log)). vm_compute. exact I.
Defined.

End View.
