(* ===== verification/Studio.v ===== *)
(** * The dashboard server: requests

    Models [studio/src/main.rs]: a request as the bytes a client sends, its
    parsing and routing, every handler as a program over the machine's
    answers, and the job thread.  The shared state is reached through the
    lock's calls: [Lock] returns it, [Unlock] stores it back and releases the
    lock.  How threads interleave is [StudioServer]'s subject. *)

From stdpp Require Import strings base decidable numbers option tactics list sorting sets.
From S2P Require Import Prelude Bytes Monitor Events Utf8 Host Axiomctl StudioView.
Local Open Scope Z_scope.

Module Studio.
Import Events Utf8.

(** ** State *)

Inductive JobStatus := JIdle | JRunning | JOk | JFailed.
#[export] Instance job_status_eq_dec : EqDecision JobStatus.
Proof. solve_decision. Defined.
Definition status_name (s : JobStatus) : str :=
  bstr match s with JIdle => "idle" | JRunning => "running" | JOk => "ok" | JFailed => "failed" end.

Record Job := mkJob { status : option JobStatus; log : str }.
Definition default_job : Job := mkJob None [].
Record State := mkState { busy : option str; demo : Job; verify : Job; kit : Job; doctor : list (str * str) }.

(** [job_mut], to read and to write through. *)
Definition job_of (st : State) (which : str) : Job :=
  if str_is which "demo" then demo st else if str_is which "verify" then verify st else kit st.
Definition set_job (st : State) (which : str) (j : Job) : State :=
  if str_is which "demo" then mkState (busy st) j (verify st) (kit st) (doctor st)
  else if str_is which "verify" then mkState (busy st) (demo st) j (kit st) (doctor st)
  else mkState (busy st) (demo st) (verify st) j (doctor st).
Definition set_busy (st : State) (b : option str) : State := mkState b (demo st) (verify st) (kit st) (doctor st).

(** ** The calls of the server's threads *)

Inductive call : Type :=
| Lock
| Unlock (st : State)
| TryClone
| ReadExact (n : Z)
| Write (bytes : list Z)
| Spawn (which shell : str)
| StartChild (shell : str)
| WaitChild
| Bind (port : Z)
| OnHost (c : Sys.call).

(** A poisoned lock answers [None]; the lines of a child are those its
    output will hold, [None] where one is not UTF-8. *)
Definition answer (c : call) : Type :=
  match c with
  | Lock => option State
  | Unlock _ | Spawn _ _ => unit
  | TryClone | ReadExact _ | Write _ | WaitChild => bool
  | StartChild _ => option (list (option str))
  | Bind _ => result unit str
  | OnHost c => Sys.answer c
  end.
Abbreviation srv := (prog answer).

(** [state.lock().unwrap()] *)
Definition lock : srv State :=
  r ← perform Lock; match r : option State with Some st => mret st | None => PCrash end.
Definition unlock (st : State) : srv unit := perform (Unlock st).
(** Programs of the command line tool's library. *)
Fixpoint on_host {A} (p : prog Sys.answer A) : srv A :=
  match p with
  | PRet a => PRet a
  | PCall c k => PCall (OnHost c) (fun r => on_host (k r))
  | PCrash => PCrash
  end.
Definition host (c : Sys.call) : srv (Sys.answer c) := perform (OnHost c).

(** ** HTTP plumbing *)

(** The bytes a client sends, cut after each line feed, and whether the
    connection then ends or fails. *)
Record Conn := mkConn { incoming : list Z; at_end : bool }.
Fixpoint chunks (bs cur : list Z) : list (list Z) :=
  match bs with
  | [] => match cur with [] => [] | _ => [cur] end
  | b :: bs => if b =? 10 then (cur ++ [b]) :: chunks bs [] else chunks bs (cur ++ [b])
  end.
(** [read_line]: [None] is an error (the connection's, or bytes that are not
    UTF-8); at the end of the input the line is empty. *)
Definition read_line (eof : bool) (cs : list (list Z)) : option (str * list (list Z)) :=
  match cs with
  | [] => if eof then Some ([], []) else None
  | c :: cs => if bool_decide (last c = Some 10) || eof then s ← from_utf8 c; Some (s, cs) else None
  end.

Definition parse_request_line (line : str) : option (str * str) :=
  match split_whitespace line with
  | method :: target :: _ =>
      if one_of method ["GET"; "POST"] && bool_decide (head target = Some 47) then Some (method, target) else None
  | _ => None
  end.

Definition to_ascii_lowercase (s : str) : str := map (fun c => if (65 <=? c) && (c <=? 90) then c + 32 else c) s.
Definition strip_prefix (p s : str) : option str :=
  if bool_decide (take (length p) s = p) then Some (drop (length p) s) else None.
Definition header (content_length : Z) (line : str) : Z :=
  match strip_prefix (bstr "content-length:") (to_ascii_lowercase line) with
  | Some v => default 0 (parse_uint 64 (trim v))
  | None => content_length
  end.
(** The loop that drains the headers. *)
Fixpoint drain (eof : bool) (cs : list (list Z)) (content_length : Z) : option Z :=
  match cs with
  | [] => if eof then Some content_length else None
  | c :: cs' =>
      '(s, _) ← read_line eof (c :: cs');
      if is_empty (trim_end s) then Some content_length else drain eof cs' (header content_length (trim_end s))
  end.

Definition page_route (path : str) : bool :=
  one_of path ["/"; "/run"; "/tasks"; "/scheduler"; "/faults"; "/ipc"; "/capabilities"; "/drivers"; "/network";
               "/loader"; "/tests"; "/proofs"; "/evidence"; "/limitations"; "/release"].

Definition reason (code : Z) : str :=
  bstr (if code =? 200 then "OK" else if code =? 400 then "Bad Request" else if code =? 404 then "Not Found"
        else if code =? 409 then "Conflict" else "Error").
Definition crlf : str := [13; 10].
Definition response_head (code : Z) (ctype : str) (length : Z) : str :=
  bstr "HTTP/1.1 " ++ dec code ++ [32] ++ reason code ++ crlf ++ bstr "Content-Type: " ++ ctype ++ crlf ++
  bstr "Content-Length: " ++ dec length ++ crlf ++ bstr "Connection: close" ++ crlf ++ crlf.
(** [true] is [Ok(())]. *)
Definition respond (code : Z) (ctype body : str) : srv bool :=
  r ← perform (Write (as_bytes (response_head code ctype (len body))));
  if r : bool then perform (Write (as_bytes body)) else mret false.

(** [str::split(sep)] *)
Fixpoint split_on (sep : Z) (s cur : str) : list str :=
  match s with
  | [] => [cur]
  | c :: s => if c =? sep then cur :: split_on sep s [] else split_on sep s (cur ++ [c])
  end.
Definition query_param (query : str) (k : string) : option str :=
  snd <$> List.find (fun kv => str_is kv.1 k) (omap (split_once 61) (split_on 38 query [])).

Definition is_ascii_alphanumeric (c : Z) : bool :=
  ((48 <=? c) && (c <=? 57)) || ((65 <=? c) && (c <=? 90)) || ((97 <=? c) && (c <=? 122)).
Definition safe_name (s : str) : bool :=
  negb (is_empty s) && bool_decide (head s <> Some 46) &&
  forallb (fun c => is_ascii_alphanumeric c || (c =? 46) || (c =? 95) || (c =? 45)) s.

(** [(cut..s.len()).find(..)]: [n] offsets are left. *)
Fixpoint find_boundary (s : str) (i : Z) (n : nat) : option Z :=
  match n with
  | O => None
  | S n => if is_char_boundary s i then Some i else find_boundary s (i + 1) n
  end.
Definition tail (s : str) (max : Z) : outcome str :=
  if len s <=? max then mret s
  else
    let cut := len s - max in
    let start := default cut (find_boundary s cut (Z.to_nat (len s - cut))) in
    rest ← slice_from s (Z.to_nat start);
    mret (bstr "[... truncated, showing last " ++ dec max ++ bstr " bytes ...]" ++ [10] ++ rest).

Definition TEXT : str := bstr "text/plain".
Definition TEXT_UTF8 : str := bstr "text/plain; charset=utf-8".
Definition JSON : str := bstr "application/json".

(** ** Background jobs *)

Definition DEMO_QEMU_SECONDS : Z := 25.
Definition job_shell (which : str) : outcome str :=
  if str_is which "demo" then
    mret (bstr "cargo build --release --features demo_full -p kernel 2>&1 && timeout " ++ dec DEMO_QEMU_SECONDS ++
          bstr " qemu-system-riscv64 -machine virt -smp 1 -m 128M -nographic -bios default -kernel target/riscv64gc-unknown-none-elf/release/kernel 2>&1; cargo build --release >/dev/null 2>&1")
  else if str_is which "verify" then mret (bstr "./scripts/verify_all.sh 2>&1")
  else if str_is which "kit" then mret (bstr "./scripts/build_eval_kit.sh 2>&1")
  else Panic.

(** The state [api_start] leaves: the job claimed, its log empty. *)
Definition started (st : State) (which : str) : State :=
  set_job (set_busy st (Some which)) which (mkJob (Some JRunning) []).
Definition busy_body : str := [123] ++ key "started" ++ bstr "false," ++ key "reason" ++ quoted (bstr "busy") ++ [125].
Definition started_body : str := [123] ++ key "started" ++ bstr "true}".

Definition api_start (which : str) : srv bool :=
  st ← lock;
  if bool_decide (is_Some (busy st)) then
    r ← respond 409 JSON busy_body; unlock st ;; mret r
  else
    unlock (started st which) ;;
    shell ← lift (job_shell which);
    perform (Spawn which shell) ;;
    respond 200 JSON started_body.

(** The loop over the child's lines: each appended under the lock. *)
Definition appended (st : State) (which line : str) : State :=
  let j := job_of st which in set_job st which (mkJob (status j) (log j ++ line ++ [10])).
Fixpoint append_lines (which : str) (out : list (option str)) : srv unit :=
  match out with
  | Some line :: out => st ← lock; unlock (appended st which line) ;; append_lines which out
  | _ => mret tt
  end.
Definition finished (st : State) (which : str) (ok : bool) : State :=
  set_busy (set_job st which (mkJob (Some (if ok then JOk else JFailed)) (log (job_of st which)))) None.
Definition demo_came_up (st : State) : bool :=
  Ctl.contains (log (demo st)) (bstr "AxiomRT kernel booted") && Ctl.contains (log (demo st)) (bstr "RECOVERY_APPLIED").

Definition run_job (which shell : str) : srv unit :=
  child ← perform (StartChild shell);
  ok ← match child : option (list (option str)) with
       | Some out =>
           append_lines which out ;;
           status_ok ← perform WaitChild;
           if str_is which "demo" then st ← lock; unlock st ;; mret (demo_came_up st) else mret (status_ok : bool)
       | None => mret false
       end;
  st ← lock;
  unlock (finished st which ok).

(** ** JSON APIs *)

Definition job_json (j : Job) : str :=
  [123] ++ key "status" ++ quoted (status_name (default JIdle (status j))) ++ [44] ++
  key "log_bytes" ++ dec (len (log j)) ++ [125].
Definition state_body (st : State) : str :=
  [123] ++ key "busy" ++ match busy st with Some b => quoted b | None => bstr "null" end ++ [44] ++
  key "demo" ++ job_json (demo st) ++ [44] ++ key "verify" ++ job_json (verify st) ++ [44] ++
  key "kit" ++ job_json (kit st) ++ [44] ++ key "doctor" ++ View.array View.pair_json (doctor st) ++ [125].
Definition api_state : srv bool :=
  st ← lock; r ← respond 200 JSON (state_body st); unlock st ;; mret r.

Definition api_log : srv bool :=
  st ← lock;
  text ← lift (tail (log (demo st)) 200000);
  unlock st ;;
  respond 200 TEXT_UTF8 text.

Definition api_events : srv bool :=
  st ← lock; unlock st ;; respond 200 JSON (View.events_body (log (demo st))).

Section handlers.
Context (root : str) (HTML : str).

Definition no_log : str := bstr "no verify log yet " ++ [0x2014] ++ bstr " run the sweep".
Definition api_verify_log : srv bool :=
  st ← lock;
  unlock st ;;
  let live := log (verify st) in
  text ← (if is_empty live then
            r ← host (Sys.ReadText (Path.join root Ctl.clean_log));
            mret match r : result str str with
                 | Ok t => bstr "[archived evidence/v1.0/verify_all_clean.log]" ++ [10] ++ t
                 | Err _ => no_log
                 end
          else mret live);
  shown ← lift (tail text 200000);
  respond 200 TEXT_UTF8 shown.

(** The directories under [evidence/] with their sorted files. *)
Definition version_entry (dir : str) (versions : list (str * list str)) (e : Sys.DirEntry) : srv (list (str * list str)) :=
  if Sys.is_dir e then
    match Sys.file_name e with
    | Some name =>
        d ← host (Sys.ReadDir (Path.join dir name));
        mret (versions ++ [(name, sort_strings (Ctl.names (Ctl.entries_of d)))])
    | None => mret versions
    end
  else mret versions.
(** [Ord for (String, Vec<String>)] *)
Fixpoint list_leb (a b : list str) : bool :=
  match a, b with
  | [], _ => true
  | _, [] => false
  | x :: a, y :: b => if bool_decide (x = y) then list_leb a b else str_leb x y
  end.
Definition version_le (a b : str * list str) : Prop :=
  (if bool_decide (a.1 = b.1) then list_leb a.2 b.2 else str_leb a.1 b.1) = true.
#[local] Instance version_le_dec a b : Decision (version_le a b).
Proof. unfold version_le. apply _. Defined.
Definition version_json (v : str * list str) : str :=
  [123] ++ key "name" ++ View.jstr v.1 ++ [44] ++ key "files" ++ View.array View.jstr v.2 ++ [125].
Definition evidence_body (versions : list (str * list str)) : str :=
  [123] ++ key "versions" ++ View.array version_json versions ++ [125].
Definition api_evidence : srv bool :=
  let dir := Path.join root (bstr "evidence") in
  r ← host (Sys.ReadDir dir);
  versions ← for_each (version_entry dir) [] (Ctl.entries_of r);
  respond 200 JSON (evidence_body (merge_sort version_le versions)).

Definition serve_file (path : str) : srv bool :=
  r ← host (Sys.ReadText path);
  match r : result str str with
  | Ok text => shown ← lift (tail text 400000); respond 200 TEXT_UTF8 shown
  | Err _ => respond 404 TEXT (bstr "no such file")
  end.

Definition api_evidence_file (query : str) : srv bool :=
  match query_param query "ver", query_param query "file" with
  | Some ver, Some file =>
      if negb (safe_name ver) || negb (safe_name file) then respond 400 TEXT (bstr "invalid name")
      else serve_file (Path.join (Path.join (Path.join root (bstr "evidence")) ver) file)
  | _, _ => respond 400 TEXT (bstr "ver and file required")
  end.

Definition doc_path (name : option str) : option str :=
  match name with
  | Some n =>
      if str_is n "limitations" then Some (bstr "kit/LIMITATIONS.md")
      else if str_is n "assumptions" then Some (bstr "kit/ASSUMPTIONS_OF_USE.md")
      else if str_is n "final" then Some (bstr "kit/FINAL_REPORT.md") else None
  | None => None
  end.
Definition api_doc (query : str) : srv bool :=
  match doc_path (query_param query "name") with
  | Some p => serve_file (Path.join root p)
  | None => respond 400 TEXT (bstr "unknown doc")
  end.

Definition release_command : str := bstr "cargo axiomctl release check 2>&1".
Definition release_body (ok : bool) (text : str) : str :=
  [123] ++ key "ok" ++ bstr (if ok then "true" else "false") ++ [44] ++ key "text" ++ View.jstr text ++ [125].
Definition api_release_check : srv bool :=
  out ← host (Sys.RunOutput (Some root) (bstr "sh") [bstr "-c"; release_command]);
  let '(ok, text) := match out : result Sys.Output str with
                     | Ok o => (Sys.success (Sys.out_status o), Sys.stdout o)
                     | Err e => (false, bstr "failed to run release check: " ++ e)
                     end in
  respond 200 JSON (release_body ok text).

(** The routing [match] of [handle]. *)
Definition route (method path query : str) : srv bool :=
  let get := str_is method "GET" in
  let post := str_is method "POST" in
  if get && str_is path "/api/state" then api_state
  else if post && str_is path "/api/run_demo" then api_start (bstr "demo")
  else if post && str_is path "/api/run_verify" then api_start (bstr "verify")
  else if post && str_is path "/api/kit_build" then api_start (bstr "kit")
  else if get && str_is path "/api/events" then api_events
  else if get && str_is path "/api/log" then api_log
  else if get && str_is path "/api/verify_log" then api_verify_log
  else if get && str_is path "/api/evidence" then api_evidence
  else if get && str_is path "/api/evidence/file" then api_evidence_file query
  else if get && str_is path "/api/doc" then api_doc query
  else if get && str_is path "/api/release_check" then api_release_check
  else if get && page_route path then respond 200 (bstr "text/html; charset=utf-8") HTML
  else respond 404 TEXT (bstr "not found").

Definition handle (c : Conn) : srv bool :=
  cloned ← perform TryClone;
  if cloned : bool then
    match read_line (at_end c) (chunks (incoming c) []) with
    | None => mret false
    | Some (request_line, rest) =>
        match parse_request_line request_line with
        | None => respond 400 TEXT (bstr "bad request")
        | Some (method, target) =>
            match drain (at_end c) rest 0 with
            | None => mret false
            | Some content_length =>
                (if 0 <? content_length then perform (ReadExact (content_length `min` 65536)) else mret true) ;;
                let '(path, query) := default (target, []) (split_once 63 target) in
                route method path query
            end
        end
    end
  else mret false.

End handlers.

(** ** Start *)

Definition doctor_probe (name : str) : prog Sys.answer (str * str) :=
  r ← perform (Sys.RunOutput None name [bstr "--version"]);
  mret (name, match r : result Sys.Output str with
              | Ok o => if Sys.success (Sys.out_status o) then trim (default [] (head (lines (Sys.stdout o)))) else bstr "missing"
              | Err _ => bstr "missing"
              end).
Definition doctor_info : prog Sys.answer (list (str * str)) :=
  for_each (fun l name => p ← doctor_probe name; mret (l ++ [p])) []
    (Ctl.words ["rustc"; "cargo"; "qemu-system-riscv64"; "coqc"]).

(** [main] up to the accept loop: the root and the shared state, or an exit
    with status 1. *)
Definition port_of (args : list str) : Z := default 8787 (head args ≫= parse_uint 16).
Definition main_start (args : list str) : srv (option (str * State)) :=
  r ← on_host Ctl.repo_root;
  match r with
  | None => host (Sys.Eprint (bstr "studio: not inside an AxiomRT repository" ++ [10])) ;; mret None
  | Some dir =>
      let port := port_of args in
      tools ← on_host doctor_info;
      b ← perform (Bind port);
      match b : result unit str with
      | Err e => host (Sys.Eprint (bstr "studio: cannot bind 127.0.0.1:" ++ dec port ++ bstr ": " ++ e ++ [10])) ;; mret None
      | Ok _ =>
          host (Sys.Print (bstr "AxiomRT Studio: http://127.0.0.1:" ++ dec port ++ bstr "/  (Ctrl-C to stop)" ++ [10])) ;;
          host (Sys.Print (bstr "local dashboard only " ++ [0x2014] ++ bstr " do not port-forward (docs/24 " ++ [0xA7] ++ bstr "6)" ++ [10])) ;;
          mret (Some (Path.display dir, mkState None default_job default_job default_job tools))
      end
  end.

End Studio.
