(* ===== verification/StudioSafe.v ===== *)
(** * The dashboard server: what a request can do

    Every handler of [Studio], for every request and every answer of the
    machine: it never panics, it reads only files it may read and starts only
    the documented commands, and it answers with one well-framed response. *)

From stdpp Require Import strings base decidable numbers option tactics list sorting sets.
From S2P Require Import Prelude Bytes Monitor Events Utf8 Host Axiomctl StudioView Studio.
Local Open Scope Z_scope.

Module StudioSafe.
Import Events Utf8 Studio.

(** ** Truncation *)

Lemma find_boundary_spec s i n : match find_boundary s i n with
  | Some j => i <= j < i + Z.of_nat n /\ is_char_boundary s j = true /\ forall k, i <= k < j -> is_char_boundary s k = false
  | None => forall k, i <= k < i + Z.of_nat n -> is_char_boundary s k = false
  end.
Proof.
  revert i. induction n as [|n IH]; intros i; cbn [find_boundary]; [lia|].
  destruct (is_char_boundary s i) eqn:E; [split; [lia|split; [done|lia]]|].
  assert (forall k, i <= k < i + 1 -> is_char_boundary s k = false) as Hi by (intros k Hk; by replace k with i by lia).
  specialize (IH (i + 1)). destruct (find_boundary s (i + 1) n) as [j|].
  - destruct IH as (? & ? & H). split; [lia|]. split; [done|]. intros k Hk. destruct (Z.eq_dec k i); [apply Hi; lia|apply H; lia].
  - intros k Hk. destruct (Z.eq_dec k i); [apply Hi; lia|apply IH; lia].
Qed.

(** Among four consecutive offsets one is a boundary. *)
Lemma boundary_near s i : text s -> 0 <= i -> i + 3 <= len s ->
  exists j, i <= j <= i + 3 /\ is_char_boundary s j = true.
Proof.
  intros Ht. revert i. induction Ht as [|c s Hc Ht IH]; intros i Hi Hl.
  { unfold len in Hl. cbn in Hl. lia. }
  destruct (Z.eq_dec i 0) as [->|Hn]; [by exists 0|].
  assert (len (c :: s) = Z.of_nat (len_utf8 c) + len s) as El by (unfold len, len_utf8; cbn [as_bytes]; rewrite length_app; lia).
  pose proof (encode_length c) as Hlen. pose proof (len_nonneg s).
  assert (text (c :: s)) as Htc by (by constructor).
  assert (forall j, 0 <= j <= len s -> is_char_boundary s j = true -> is_char_boundary (c :: s) (Z.of_nat (len_utf8 c) + j) = true) as Hup.
  { intros j Hj Hb. apply boundary_split in Hb as (s1 & s2 & -> & Hs1); [|done|done].
    apply boundary_split; [done|lia|]. exists (c :: s1), s2. split; [done|].
    unfold len, len_utf8 in *. cbn [as_bytes]. rewrite length_app. lia. }
  destruct (Z.le_gt_cases i (Z.of_nat (len_utf8 c))) as [Hle|Hgt].
  - exists (Z.of_nat (len_utf8 c)). split; [lia|]. rewrite <- (Z.add_0_r (Z.of_nat _)). apply Hup; [lia|done].
  - destruct (IH (i - Z.of_nat (len_utf8 c))) as (j & Hj & Hb); [lia|lia|].
    exists (Z.of_nat (len_utf8 c) + j). split; [lia|]. apply Hup; [lia|done].
Qed.

Definition truncation_note (max : Z) : str := bstr "[... truncated, showing last " ++ dec max ++ bstr " bytes ...]" ++ [10].

(** A long text is cut at a character: what is shown is its longest suffix
    of whole characters within [max] bytes, and there is no panic. *)
Lemma tail_spec s max : text s -> 4 <= max ->
  tail s max = Val s /\ len s <= max \/
  exists pre suf, s = pre ++ suf /\ tail s max = Val (truncation_note max ++ suf) /\ max - 3 <= len suf <= max.
Proof.
  intros Ht Hm. unfold tail. destruct (Z.leb_spec (len s) max) as [|Hl]; [by left|]. right. cbv zeta.
  remember (len s - max) as cut eqn:Hcut. pose proof (find_boundary_spec s cut (Z.to_nat (len s - cut))) as F.
  destruct (boundary_near s cut Ht ltac:(lia) ltac:(lia)) as (j & Hj & Hb).
  destruct (find_boundary s cut (Z.to_nat (len s - cut))) as [i|]; [change (default cut (Some i)) with i|].
  - destruct F as (Hi & Hib & Hmin). apply boundary_split in Hib as (pre & suf & -> & Hp); [|done|lia].
    exists pre, suf. split; [done|]. replace (Z.to_nat i) with (length (as_bytes pre)) by (unfold len in Hp; lia).
    rewrite slice_from_app. split; [|rewrite len_app in *; destruct (Z.lt_ge_cases j i) as [Hji|]; [rewrite (Hmin j) in Hb by lia; done|lia]].
    cbn [mbind outcome_bind]. unfold truncation_note. by rewrite <- !app_assoc.
  - rewrite F in Hb by lia. done.
Qed.

(** ** Paths *)

(** One normal path component. *)
Definition component (s : str) : Prop := s <> [] /\ (47 ∉ s) /\ s <> bstr "." /\ s <> bstr "..".

Lemma safe_name_component s : safe_name s = true -> component s.
Proof.
  unfold safe_name. intros H. bool_facts. repeat split.
  - by destruct s.
  - intros Hin. rewrite forallb_forall in H0. apply list_elem_of_In, H0 in Hin. vm_compute in Hin. done.
  - by intros ->.
  - by intros ->.
Qed.
Lemma component_ends s : component s -> head s <> Some 47 /\ last s <> Some 47.
Proof.
  intros (_ & Hs & _). split; intros E; apply Hs.
  - destruct s; [done|]. injection E as ->. left.
  - apply last_Some in E as [l ->]. set_solver.
Qed.
Lemma join_app root c x : c <> [] -> Path.join root (c ++ x) = Path.join root c ++ x.
Proof.
  intros Hc. destruct c as [|y c]; [done|]. unfold Path.join. cbn [app head].
  case_bool_decide; [done|]. case_bool_decide; by rewrite <- !app_assoc.
Qed.
Lemma path_join_last root c : c <> [] -> last (Path.join root c) = last c /\ Path.join root c <> [].
Proof.
  intros Hc. unfold Path.join. case_bool_decide; [done|].
  assert (forall p : str, last (p ++ c) = last c /\ p ++ c <> []) as Hall.
  { intros p. split; [|by destruct p, c]. rewrite last_app. destruct (last c) eqn:E; [done|]. by apply last_None in E. }
  case_bool_decide; [apply Hall|]. rewrite app_assoc. apply Hall.
Qed.
(** A file of an evidence directory. *)
Lemma evidence_path root v f : component v -> component f ->
  Path.join (Path.join (Path.join root (bstr "evidence")) v) f = Path.join root (bstr "evidence/" ++ v ++ [47] ++ f).
Proof.
  intros Hv Hf. destruct (component_ends v Hv) as [Hv1 Hv2]. destruct (component_ends f Hf) as [Hf1 Hf2].
  destruct (path_join_last root (bstr "evidence") ltac:(done)) as [Hl Hn].
  rewrite (Path.join_plain _ v) by (rewrite ?Hl; done).
  rewrite (Path.join_plain _ f); [|done| |].
  - change (bstr "evidence/" ++ v ++ [47] ++ f) with (bstr "evidence" ++ [47] ++ v ++ [47] ++ f).
    rewrite join_app by done. by rewrite <- !app_assoc.
  - intros E. apply app_eq_nil in E as [E _]. done.
  - rewrite app_assoc, last_app. destruct (last v) eqn:E; [by injection 1 as ->|]. apply last_None in E as ->. by destruct Hv.
Qed.
Lemma evidence_dir root v : component v ->
  Path.join (Path.join root (bstr "evidence")) v = Path.join root (bstr "evidence/" ++ v).
Proof.
  intros Hv. destruct (component_ends v Hv) as [Hv1 Hv2]. destruct (path_join_last root (bstr "evidence") ltac:(done)) as [Hl Hn].
  rewrite (Path.join_plain _ v) by (rewrite ?Hl; done).
  change (bstr "evidence/" ++ v) with (bstr "evidence" ++ [47] ++ v). by rewrite join_app by done.
Qed.

(** ** The contract and the effects *)

(** What the machine promises: the lock is not poisoned and guards texts,
    strings are UTF-8, a directory lists single components. *)
Definition state_ok (st : State) : Prop := text (log (demo st)) /\ text (log (verify st)) /\ text (log (kit st)).
Definition host_contract (c : Sys.call) : Sys.answer c -> Prop :=
  match c return Sys.answer c -> Prop with
  | Sys.ReadText _ => fun r => match r with Ok t => text t | Err _ => True end
  | Sys.ReadDir _ => fun r => Forall (fun e => forall n, Sys.file_name e = Some n -> component n) (Ctl.entries_of r)
  | _ => fun _ => True
  end.
Definition contract (c : call) : answer c -> Prop :=
  match c return answer c -> Prop with
  | Lock => fun r => exists st, r = Some st /\ state_ok st
  | StartChild _ => fun r => forall l, r = Some l -> Forall (fun o => forall s, o = Some s -> text s) l
  | OnHost c => host_contract c
  | _ => fun _ => True
  end.

Definition documents : list str := Ctl.words ["kit/LIMITATIONS.md"; "kit/ASSUMPTIONS_OF_USE.md"; "kit/FINAL_REPORT.md"].
Definition may_read (root path : str) : Prop :=
  path = Path.join root (bstr "evidence/v1.0/verify_all_clean.log") \/
  (exists d, d ∈ documents /\ path = Path.join root d) \/
  (exists v f, component v /\ component f /\ path = Path.join root (bstr "evidence/" ++ v ++ [47] ++ f)).
(** What handling a request may do to the machine. *)
Definition confined (root : str) (c : call) : Prop :=
  match c with
  | Lock | Unlock _ | TryClone | Write _ => True
  | ReadExact n => 0 < n <= 65536
  | Spawn which shell => which ∈ Ctl.words ["demo"; "verify"; "kit"] /\ job_shell which = Val shell
  | OnHost (Sys.ReadText p) => may_read root p
  | OnHost (Sys.ReadDir p) =>
      p = Path.join root (bstr "evidence") \/ exists v, component v /\ p = Path.join root (bstr "evidence/" ++ v)
  | OnHost (Sys.RunOutput dir program args) =>
      dir = Some root /\ program = bstr "sh" /\ args = Ctl.words ["-c"; "cargo axiomctl release check 2>&1"]
  | _ => False
  end.

(** ** Responses *)

Definition writes (t : list call) : list (list Z) := omap (fun c => match c with Write b => Some b | _ => None end) t.

(** A client that trusts the declared length. *)
Fixpoint until_cr (s : str) : str * str :=
  match s with
  | c :: s' => if c =? 13 then ([], s) else let '(a, b) := until_cr s' in (c :: a, b)
  | [] => ([], [])
  end.
Definition read_response (bs : list Z) : option (Z * str * list Z) :=
  s ← read_lit (bstr "HTTP/1.1 ") bs;
  let '(n, s) := read_digits s in
  s ← read_lit [32] s;
  let '(_, s) := until_cr s in
  s ← read_lit (crlf ++ bstr "Content-Type: ") s;
  let '(ct, s) := until_cr s in
  s ← read_lit (crlf ++ bstr "Content-Length: ") s;
  let '(l, s) := read_digits s in
  s ← read_lit (crlf ++ bstr "Connection: close" ++ crlf ++ crlf) s;
  if bool_decide (dec_value l = Z.of_nat (length s)) then Some (dec_value n, ct, s) else None.

Definition CODES : list Z := [200; 400; 404; 409].
Definition TYPES : list str := [TEXT; TEXT_UTF8; JSON; bstr "text/html; charset=utf-8"].

Lemma until_cr_app s rest : Forall (fun c => c <> 13) s -> until_cr (s ++ 13 :: rest) = (s, 13 :: rest).
Proof.
  induction 1 as [|c s Hc _ IH]; [done|]. cbn [app until_cr]. rewrite (proj2 (Z.eqb_neq c 13)), IH by done. done.
Qed.
Definition ascii_b (s : str) : bool := forallb (fun c => (0 <=? c) && (c <? 128)) s.
Lemma ascii_bytes s : ascii_b s = true -> as_bytes s = s.
Proof.
  intros H. apply as_bytes_ascii, Forall_forall. intros c Hc. unfold ascii_b in H. rewrite forallb_forall in H.
  apply list_elem_of_In, H in Hc. bool_facts. lia.
Qed.
Lemma dec_ascii_b x : as_bytes (dec x) = dec x.
Proof. apply as_bytes_ascii. eapply Forall_impl; [apply dec_range|]. intros c Hc. cbn in Hc. lia. Qed.
Lemma types_plain ct : ct ∈ TYPES -> ascii_b ct = true /\ Forall (fun c => c <> 13) ct.
Proof.
  intros H. assert (forallb (fun ct => ascii_b ct && forallb (fun c => negb (c =? 13)) ct) TYPES = true) as E by done.
  rewrite forallb_forall in E. apply list_elem_of_In, E in H. apply andb_true_iff in H as [H1 H2]. split; [done|].
  apply Forall_forall. intros c Hc. rewrite forallb_forall in H2. apply list_elem_of_In, H2 in Hc. bool_facts. done.
Qed.
Lemma codes_plain code : code ∈ CODES -> code ∈ᵤ 64 /\ ascii_b (reason code) = true /\ Forall (fun c => c <> 13) (reason code).
Proof.
  intros H. assert (forallb (fun code => (0 <=? code) && (code <? 2 ^ 64) && ascii_b (reason code) && forallb (fun c => negb (c =? 13)) (reason code)) CODES = true) as E by done.
  rewrite forallb_forall in E. apply list_elem_of_In, E in H. bool_facts. unfold uint. repeat split; [lia|lia|done|].
  apply Forall_forall. intros c Hc. rewrite forallb_forall in H0. apply list_elem_of_In, H0 in Hc. bool_facts. done.
Qed.

Lemma head_bytes code ct n : code ∈ CODES -> ct ∈ TYPES -> as_bytes (response_head code ct n) = response_head code ct n.
Proof.
  intros Hc Ht. apply codes_plain in Hc as (_ & Hr & _). apply types_plain in Ht as [Ht _].
  unfold response_head. rewrite !as_bytes_app, !dec_ascii_b, !(ascii_bytes (reason code)), !(ascii_bytes ct) by done.
  by rewrite !(ascii_bytes (bstr _)), !(ascii_bytes crlf), !(ascii_bytes [32]) by done.
Qed.

Lemma until_cr_crlf s rest : Forall (fun c => c <> 13) s -> until_cr (s ++ crlf ++ rest) = (s, crlf ++ rest).
Proof. apply until_cr_app. Qed.
Lemma read_dec x c rest : ~ 48 <= c <= 57 -> read_digits (dec x ++ [c] ++ rest) = (dec x, [c] ++ rest).
Proof. apply read_digits_app, dec_range. Qed.
Lemma read_dec_crlf x rest : read_digits (dec x ++ crlf ++ rest) = (dec x, crlf ++ rest).
Proof. apply read_digits_app; [apply dec_range|lia]. Qed.

(** A client recovers the status, the type and the exact body. *)
Lemma response_framed code ct body : code ∈ CODES -> ct ∈ TYPES -> len body ∈ᵤ 64 ->
  read_response (as_bytes (response_head code ct (len body)) ++ as_bytes body) = Some (code, ct, as_bytes body).
Proof.
  intros Hc Ht Hl. rewrite head_bytes by done. apply codes_plain in Hc as (Hcode & _ & Hr). apply types_plain in Ht as [_ Ht].
  unfold response_head, read_response. rewrite <- !app_assoc.
  rewrite read_lit_app. cbn [mbind option_bind]. rewrite read_dec by lia.
  rewrite read_lit_app. cbn [mbind option_bind]. rewrite until_cr_crlf by done.
  rewrite read_lit2. cbn [mbind option_bind]. rewrite until_cr_crlf by done.
  rewrite read_lit2. cbn [mbind option_bind]. rewrite read_dec_crlf.
  set (stop := crlf ++ bstr "Connection: close" ++ crlf ++ crlf).
  replace (crlf ++ bstr "Connection: close" ++ crlf ++ crlf ++ as_bytes body) with (stop ++ as_bytes body)
    by (unfold stop; by rewrite <- !app_assoc).
  rewrite read_lit_app. cbn [mbind option_bind]. rewrite !dec_roundtrip by done. by rewrite bool_decide_eq_true_2.
Qed.

(** What was written to the connection, with whether each write succeeded:
    of a list of exchanges, and of the calls of a run. *)
Definition write_of (c : call) : answer c -> option (list Z * bool) :=
  match c return answer c -> option (list Z * bool) with Write b => fun r => Some (b, r) | _ => fun _ => None end.
Definition wrote (t : list {c & answer c}) : list (list Z * bool) := omap (fun x => write_of (projT1 x) (projT2 x)) t.
Fixpoint written (h : list call -> forall c, answer c) (past t : list call) : list (list Z * bool) :=
  match t with
  | [] => []
  | c :: t => option_list (write_of c (h past c)) ++ written h (past ++ [c]) t
  end.

Lemma given_wrote h past t : given h past t -> written h past (projT1 <$> t) = wrote t.
Proof.
  revert past. induction t as [|[c r] t IH]; intros past; [done|]. intros [E Hg]. cbn in E. subst r.
  cbn [fmap list_fmap projT1 written]. rewrite IH by done. unfold wrote. cbn [omap list_omap projT1 projT2].
  by destruct (write_of c (h past c)).
Qed.

(** One response: both parts were written, and the answer is whether the
    second write succeeded, or the first write failed. *)
Definition responded (w : list (list Z * bool)) (r : bool) : Prop :=
  exists code ct body, code ∈ CODES /\ ct ∈ TYPES /\
  (w = [(as_bytes (response_head code ct (len body)), true); (as_bytes body, r)] \/
   (w = [(as_bytes (response_head code ct (len body)), false)] /\ r = false)).
Definition served (root : str) (t : list {c & answer c}) (r : bool) : Prop :=
  Forall (confined root) (projT1 <$> t) /\ responded (wrote t) r.

Section serve.
Context (root HTML : str).

Lemma served_cons c a t r : confined root c -> (forall b, c <> Write b) -> served root t r -> served root (said c a :: t) r.
Proof.
  intros Hc Hw [Ht H]. split; [by constructor|].
  assert (wrote (said c a :: t) = wrote t) as -> by (destruct c; try done; by destruct (Hw bytes)). done.
Qed.
Lemma served_snoc c a t r : confined root c -> (forall b, c <> Write b) -> served root t r -> served root (t ++ [said c a]) r.
Proof.
  intros Hc Hw [Ht H]. split; [rewrite fmap_app; apply Forall_app; split; [done|by constructor]|].
  assert (wrote (t ++ [said c a]) = wrote t) as ->; [|done]. unfold wrote. rewrite omap_app.
  destruct c; try apply app_nil_r. by destruct (Hw bytes).
Qed.
Lemma respond_wp code ct body : code ∈ CODES -> ct ∈ TYPES -> twp contract (respond code ct body) (served root).
Proof.
  intros Hc Ht. unfold respond. intros [] _; cbn; [intros r _|].
  - split; [by repeat constructor|]. exists code, ct, body. split; [done|]. split; [done|by left].
  - split; [by repeat constructor|]. exists code, ct, body. split; [done|]. split; [done|by right].
Qed.
(** A call before the response, and the end of a critical section after it. *)
Lemma serve_call (c : call) (k : answer c -> srv bool) : confined root c -> (forall b, c <> Write b) ->
  (forall r, contract c r -> twp contract (k r) (served root)) -> twp contract (perform c ≫= k) (served root).
Proof. intros Hc Hw Hk r Hr. eapply twp_mono; [|by apply Hk]. intros t a. by apply served_cons. Qed.
Lemma serve_lock (k : State -> srv bool) : (forall st, state_ok st -> twp contract (k st) (served root)) ->
  twp contract (lock ≫= k) (served root).
Proof.
  intros Hk. unfold lock. intros r (st & -> & Hst). eapply twp_mono; [|by apply Hk]. intros t a. by apply served_cons.
Qed.
Lemma serve_then_unlock p st : twp contract p (served root) -> twp contract (r ← p; unlock st ;; mret r) (served root).
Proof.
  intros Hp. apply twp_bind. eapply twp_mono; [|exact Hp]. intros t r Ht [] _. cbn. by apply served_snoc.
Qed.

Ltac in_list := apply list_elem_of_In; cbn; tauto.
Ltac reply := apply respond_wp; in_list.

Lemma start_wp which : which ∈ Ctl.words ["demo"; "verify"; "kit"] -> twp contract (api_start which) (served root).
Proof.
  intros Hw. apply serve_lock. intros st Hst. case_bool_decide; [apply serve_then_unlock; reply|].
  apply serve_call; [done|done|]. intros [] _.
  destruct (job_shell which) as [shell|] eqn:E; [|by apply list_elem_of_In in Hw as [<-|[<-|[<-|[]]]]].
  apply serve_call; [done|done|]. intros [] _. reply.
Qed.
Lemma tail_total s max : text s -> 4 <= max -> exists s', tail s max = Val s'.
Proof. intros Hs Hm. destruct (tail_spec s max Hs Hm) as [[-> _]|(pre & suf & _ & -> & _)]; eauto. Qed.

Lemma file_wp path : may_read root path -> twp contract (serve_file path) (served root).
Proof.
  intros Hp. apply (serve_call (OnHost (Sys.ReadText path))); [done|done|]. intros [t|e] Ht; [|reply].
  destruct (tail_total t 400000 Ht ltac:(lia)) as [s ->]. reply.
Qed.
Lemma evidence_file_wp query : twp contract (api_evidence_file root query) (served root).
Proof.
  unfold api_evidence_file. destruct (query_param query "ver") as [v|]; [|reply].
  destruct (query_param query "file") as [f|]; [|reply]. case_match eqn:E; [reply|].
  apply orb_false_iff in E as [E1%negb_false_iff E2%negb_false_iff].
  apply safe_name_component in E1, E2. apply file_wp. right. right. exists v, f. by rewrite evidence_path.
Qed.
Lemma doc_wp query : twp contract (api_doc root query) (served root).
Proof.
  unfold api_doc, doc_path. destruct (query_param query "name") as [n|]; [|reply].
  repeat case_match; simplify_eq; try reply; (apply file_wp; right; left; eexists; split; [|done]; in_list).
Qed.
Lemma verify_log_wp : twp contract (api_verify_log root) (served root).
Proof.
  apply serve_lock. intros st (_ & Hst & _). apply serve_call; [done|done|]. intros [] _.
  assert (forall t, text t -> twp contract (shown ← lift (tail t 200000); respond 200 TEXT_UTF8 shown) (served root)) as H.
  { intros t Ht. destruct (tail_total t 200000 Ht ltac:(lia)) as [s ->]. reply. }
  cbv zeta. destruct (is_empty (log (verify st))); [|by apply H].
  apply (serve_call (OnHost (Sys.ReadText _))); [by left|done|]. intros [t|e] Ht; apply H.
  - do 2 (apply Forall_app; split; [by apply (bool_decide_unpack (text _))|]). done.
  - by apply (bool_decide_unpack (text _)).
Qed.
Lemma log_wp : twp contract api_log (served root).
Proof.
  apply serve_lock. intros st (Hst & _). destruct (tail_total _ 200000 Hst ltac:(lia)) as [s ->].
  apply serve_call; [done|done|]. intros [] _. reply.
Qed.

Lemma evidence_wp : twp contract (api_evidence root) (served root).
Proof.
  apply (serve_call (OnHost (Sys.ReadDir _))); [by left|done|]. intros r Hr. cbn [contract host_contract] in Hr.
  apply twp_bind. generalize (@nil (str * list str)).
  induction Hr as [|e l He _ IH]; intros vs; [cbn [for_each twp app]; reply|]. cbn [for_each]. apply twp_bind.
  unfold version_entry. destruct (Sys.is_dir e); [|by apply IH]. destruct (Sys.file_name e) as [name|]; [|by apply IH].
  intros d _. cbn [twp mbind host_bind prog_bind_def mret host_ret app]. eapply twp_mono; [|apply IH]. intros t vs' H. cbn beta in *.
  eapply twp_mono; [|exact H]. intros t' a. cbn [app]. apply served_cons; [|done]. right. exists name.
  split; [by apply He|]. by apply evidence_dir, He.
Qed.

Lemma route_wp method path query : twp contract (route root HTML method path query) (served root).
Proof.
  unfold route. repeat (case_match; [|]).
  - apply serve_lock. intros st _. apply serve_then_unlock. reply.
  - apply start_wp. in_list.
  - apply start_wp. in_list.
  - apply start_wp. in_list.
  - apply serve_lock. intros st _. apply serve_call; [done|done|]. intros [] _. reply.
  - apply log_wp.
  - apply verify_log_wp.
  - apply evidence_wp.
  - apply evidence_file_wp.
  - apply doc_wp.
  - apply (serve_call (OnHost (Sys.RunOutput _ _ _))); [done|done|]. intros [o|e] _; reply.
  - reply.
  - reply.
Qed.

(** A request whose lines arrive whole: its first line, and its headers
    unless the first line is refused. *)
Definition readable (c : Conn) : bool :=
  match read_line (at_end c) (chunks (incoming c) []) with
  | None => false
  | Some (line, rest) =>
      match parse_request_line line with
      | None => true
      | Some _ => bool_decide (is_Some (drain (at_end c) rest 0))
      end
  end.

(** [handle] once the socket is cloned: an unreadable request is dropped
    without a word. *)
Lemma handle_run c h : (forall past c, contract c (h past c)) ->
  exists t r, run h [] (handle root HTML c) = (TryClone :: t, Some r) /\
  if (h [] TryClone : bool) && readable c
  then Forall (confined root) t /\ responded (written h [TryClone] t) r else t = [] /\ r = false.
Proof.
  intros Hh. unfold handle, readable. prun. destruct (h [] TryClone : bool); [cbn [andb]|by exists [], false].
  assert (forall p, twp contract p (served root) -> exists t r, run h [TryClone] p = (TryClone :: t, Some r) /\
    Forall (confined root) t /\ responded (written h [TryClone] t) r) as Hs.
  { intros p Hp. destruct (twp_run _ _ _ _ h [TryClone] Hh Hp) as (t & r & E & Hg & H1 & H2).
    exists (projT1 <$> t), r. split; [exact E|]. split; [done|]. by rewrite given_wrote. }
  destruct (read_line _ _) as [[line rest]|]; [|by exists [], false].
  destruct (parse_request_line line) as [[method target]|]; [|apply Hs; reply].
  destruct (drain _ rest 0) as [n|]; [|by exists [], false]. rewrite bool_decide_eq_true_2 by done. apply Hs.
  destruct (default _ _) as [path query]. destruct (Z.ltb_spec 0 n).
  - apply serve_call; [cbn; lia|done|]. intros b _. apply route_wp.
  - apply twp_bind, route_wp.
Qed.

(** C31. Whatever bytes a client sends and whatever the machine answers, handling
    them ends without a panic; the only files read are the archived
    verification log, the three kit documents and [evidence/<v>/<f>] with [v]
    and [f] single components (no separator, no [..]); the only directories
    listed are [evidence] and those it contains; the only processes are the
    release check and one of the three fixed job commands, so no byte of a
    request reaches a shell; and at most 64 KiB of body are buffered. *)
Theorem request_confined c h : (forall past c, contract c (h past c)) ->
  exists t r, run h [] (handle root HTML c) = (t, Some r) /\ Forall (confined root) t.
Proof.
  intros Hh. destruct (handle_run c h Hh) as (t & r & E & H). exists (TryClone :: t), r. split; [done|].
  constructor; [done|]. destruct (_ && _); [apply H|]. by destruct H as [-> _].
Qed.

(** C32. A request that can be read is answered by exactly one response with one
    of the documented codes: its head is written, and if the connection took
    it, so is its body, and nothing else; handling reports success exactly
    when both writes succeeded.  From what is written a client that trusts
    the declared length recovers the status, the type and the exact body.  A
    request that cannot be read gets nothing. *)
Theorem request_answered c h : (forall past c, contract c (h past c)) ->
  exists t r, run h [] (handle root HTML c) = (t, Some r) /\
  if (h [] TryClone : bool) && readable c then
    exists code ct body, code ∈ CODES /\ ct ∈ TYPES /\
      let head := as_bytes (response_head code ct (len body)) in
      (written h [] t = [(head, true); (as_bytes body, r)] \/ (written h [] t = [(head, false)] /\ r = false)) /\
      (len body ∈ᵤ 64 -> read_response (head ++ as_bytes body) = Some (code, ct, as_bytes body))
  else r = false /\ written h [] t = [].
Proof.
  intros Hh. destruct (handle_run c h Hh) as (t & r & E & H). exists (TryClone :: t), r. split; [done|].
  destruct (_ && _); [|by destruct H as [-> ->]]. destruct H as [_ (code & ct & body & Hc & Ht & Hw)].
  exists code, ct, body. split; [done|]. split; [done|]. cbv zeta. change (written h [] (TryClone :: t)) with (written h [TryClone] t).
  split; [done|]. intros Hl. by apply response_framed.
Qed.

(** ** One request from end to end *)

Lemma chunks_line s rest : Forall (fun b => b <> 10) s -> forall cur, chunks (s ++ 10 :: rest) cur = (cur ++ s ++ [10]) :: chunks rest [].
Proof.
  induction 1 as [|b s Hb _ IH]; intros cur; cbn [app chunks]; [done|].
  rewrite (proj2 (Z.eqb_neq b 10)), IH by done. by rewrite <- app_assoc.
Qed.
Lemma split_on_app sep s c : Forall (fun x => x <> sep) s -> forall cur, split_on sep (s ++ sep :: c) cur = (cur ++ s) :: split_on sep c [].
Proof.
  induction 1 as [|x s Hx _ IH]; intros cur; cbn [app split_on]; [by rewrite Z.eqb_refl, app_nil_r|].
  rewrite (proj2 (Z.eqb_neq x sep)), IH by done. by rewrite <- app_assoc.
Qed.
Lemma split_on_end sep s : Forall (fun x => x <> sep) s -> forall cur, split_on sep s cur = [cur ++ s].
Proof.
  induction 1 as [|x s Hx _ IH]; intros cur; cbn [split_on]; [by rewrite app_nil_r|].
  rewrite (proj2 (Z.eqb_neq x sep)), IH by done. by rewrite <- app_assoc.
Qed.
Lemma split_once_app sep s c : Forall (fun x => x <> sep) s -> split_once sep (s ++ sep :: c) = Some (s, c).
Proof.
  induction 1 as [|x s Hx _ IH]; cbn [app split_once]; [by rewrite Z.eqb_refl|]. by rewrite (proj2 (Z.eqb_neq x sep)), IH by done.
Qed.

(** The characters a safe name can have. *)
Definition name_char (c : Z) : Prop := 45 <= c <= 122 /\ c <> 47 /\ c <> 61 /\ c <> 63.
Lemma safe_chars s : safe_name s = true -> Forall name_char s.
Proof.
  unfold safe_name, is_ascii_alphanumeric. intros H. bool_facts. apply Forall_forall. intros c Hc. rewrite forallb_forall in H0.
  apply list_elem_of_In, H0 in Hc. unfold name_char. repeat (apply orb_true_iff in Hc as [Hc|Hc]); bool_facts; lia.
Qed.
Lemma query_of v f : Forall name_char v -> Forall name_char f ->
  query_param (bstr "ver=" ++ v ++ bstr "&file=" ++ f) "ver" = Some v /\
  query_param (bstr "ver=" ++ v ++ bstr "&file=" ++ f) "file" = Some f.
Proof.
  intros Hv Hf. assert (split_on 38 (bstr "ver=" ++ v ++ bstr "&file=" ++ f) [] = [bstr "ver=" ++ v; bstr "file=" ++ f]) as E.
  { change (bstr "ver=" ++ v ++ bstr "&file=" ++ f) with (bstr "ver=" ++ v ++ 38 :: bstr "file=" ++ f). rewrite app_assoc.
    rewrite split_on_app, split_on_end; [done|..]; apply Forall_app; (split; [by repeat (constructor; [done|])|]);
      (eapply Forall_impl; [done|]); unfold name_char; intros; cbn; lia. }
  assert (forall x, split_once 61 (bstr "ver=" ++ x) = Some (bstr "ver", x) /\ split_once 61 (bstr "file=" ++ x) = Some (bstr "file", x)) as E2 by done.
  unfold query_param. rewrite E. cbn [omap list_omap]. rewrite (proj1 (E2 v)), (proj2 (E2 f)). done.
Qed.

Definition evidence_request (v f : str) : Conn :=
  mkConn (bstr "GET /api/evidence/file?ver=" ++ v ++ bstr "&file=" ++ f ++ bstr " HTTP/1.1" ++ crlf ++ crlf) true.

Lemma evidence_line v f : Forall name_char v -> Forall name_char f ->
  exists rest, read_line true (chunks (incoming (evidence_request v f)) []) =
    Some (bstr "GET /api/evidence/file?ver=" ++ v ++ bstr "&file=" ++ f ++ bstr " HTTP/1.1" ++ crlf, rest) /\
  drain true rest 0 = Some 0.
Proof.
  intros Hv Hf. exists [crlf]. split; [|done]. set (l := bstr "GET /api/evidence/file?ver=" ++ v ++ bstr "&file=" ++ f ++ bstr " HTTP/1.1" ++ [13]).
  assert (forall P : Z -> Prop, Forall P (bstr "GET /api/evidence/file?ver=") -> Forall P (bstr "&file=") -> Forall P (bstr " HTTP/1.1" ++ [13]) ->
    (forall c, name_char c -> P c) -> Forall P l) as Hl.
  { intros P H1 H2 H3 HP. rewrite Forall_app in H3. unfold l. rewrite !Forall_app.
    repeat split; try done; try tauto; (eapply Forall_impl; [done|exact HP]). }
  cbn [evidence_request incoming].
  replace (bstr "GET /api/evidence/file?ver=" ++ v ++ bstr "&file=" ++ f ++ bstr " HTTP/1.1" ++ crlf ++ crlf) with (l ++ 10 :: crlf)
    by (unfold l, crlf; by rewrite <- !app_assoc).
  replace (bstr "GET /api/evidence/file?ver=" ++ v ++ bstr "&file=" ++ f ++ bstr " HTTP/1.1" ++ crlf) with (l ++ [10])
    by (unfold l, crlf; by rewrite <- !app_assoc).
  rewrite chunks_line.
  - cbn [app read_line]. rewrite last_snoc, bool_decide_eq_true_2 by done. cbn [orb].
    rewrite (proj2 (from_utf8_iff (l ++ [10]) (l ++ [10]))); [done|]. split.
    + apply Forall_app. split; [|by repeat (constructor; [by left|])].
      apply Hl; try (by apply (bool_decide_unpack (text _))). intros c Hc. left. unfold name_char in Hc. lia.
    + apply as_bytes_ascii, Forall_app. split; [|by repeat (constructor; [done|])].
      apply Hl; try (by repeat (constructor; [done|])). intros c Hc. unfold name_char in Hc. lia.
  - apply Hl; try (by repeat (constructor; [done|])). intros c Hc. unfold name_char in Hc. lia.
Qed.

Lemma evidence_target v f : Forall name_char v -> Forall name_char f ->
  parse_request_line (bstr "GET /api/evidence/file?ver=" ++ v ++ bstr "&file=" ++ f ++ bstr " HTTP/1.1" ++ crlf) =
  Some (bstr "GET", bstr "/api/evidence/file?ver=" ++ v ++ bstr "&file=" ++ f).
Proof.
  intros Hv Hf. set (tg := bstr "/api/evidence/file?ver=" ++ v ++ bstr "&file=" ++ f).
  assert (forall x, name_char x -> is_whitespace x = false) as Hw.
  { intros x Hx. unfold name_char in Hx. unfold is_whitespace. rewrite !orb_false_iff, !andb_false_iff. lia. }
  assert (Forall (fun c => is_whitespace c = false) tg) as Ht.
  { unfold tg. rewrite !Forall_app. repeat split; try (by repeat (constructor; [done|])); (eapply Forall_impl; [done|exact Hw]). }
  replace (bstr "GET /api/evidence/file?ver=" ++ v ++ bstr "&file=" ++ f ++ bstr " HTTP/1.1" ++ crlf)
    with (bstr "GET" ++ 32 :: tg ++ 32 :: bstr "HTTP/1.1" ++ crlf) by (unfold tg; by rewrite <- !app_assoc).
  unfold parse_request_line, split_whitespace. rewrite split_ws_word by (by repeat (constructor; [done|])).
  cbn [app split_ws]. change (is_whitespace 32) with true. cbn iota. rewrite split_ws_word by done. cbn [app split_ws].
  change (is_whitespace 32) with true. cbn iota. unfold tg at 1. cbn [app]. done.
Qed.

Lemma respond_run h past code ct body : exists t r, run h past (respond code ct body) = (past ++ t, Some r) /\
  writes t `prefix_of` [as_bytes (response_head code ct (len body)); as_bytes body] /\
  (r = true -> writes t = [as_bytes (response_head code ct (len body)); as_bytes body]).
Proof.
  unfold respond. prun. destruct (h past _); prun.
  - eexists [_; _], _. rewrite <- app_assoc. by repeat split.
  - eexists [_], false. split; [done|]. split; [by eexists|done].
Qed.

(** Asking for [evidence/<v>/<f>] reads exactly that file, once, and sends its
    text whole (up to 400000 bytes), or 404 when there is no such file. *)
Theorem evidence_served v f (h : list call -> forall c, answer c) : safe_name v = true -> safe_name f = true -> (h [] TryClone : bool) = true ->
  let path := Path.join root (bstr "evidence/" ++ v ++ [47] ++ f) in
  let '(code, ct, body) := match h [TryClone] (OnHost (Sys.ReadText path)) with
                           | Ok t => (200, TEXT_UTF8, t)
                           | Err _ => (404, TEXT, bstr "no such file")
                           end in
  len body <= 400000 ->
  exists t r, run h [] (handle root HTML (evidence_request v f)) = ([TryClone; OnHost (Sys.ReadText path)] ++ t, Some r) /\
    writes t `prefix_of` [as_bytes (response_head code ct (len body)); as_bytes body] /\
    (r = true -> writes t = [as_bytes (response_head code ct (len body)); as_bytes body]).
Proof.
  intros Hv Hf Hc path. pose proof (safe_chars v Hv) as Cv. pose proof (safe_chars f Hf) as Cf.
  unfold handle. prun. rewrite Hc. change (at_end (evidence_request v f)) with true.
  destruct (evidence_line v f Cv Cf) as (rest & -> & ->). rewrite evidence_target by done. cbn [Z.ltb Z.compare]. prun.
  change (bstr "/api/evidence/file?ver=" ++ v ++ bstr "&file=" ++ f)
    with (bstr "/api/evidence/file" ++ 63 :: bstr "ver=" ++ v ++ bstr "&file=" ++ f).
  rewrite split_once_app by (by repeat (constructor; [done|])).
  set (q := bstr "ver=" ++ v ++ bstr "&file=" ++ f). change (default _ (Some ?x)) with x. cbv beta iota.
  assert (route root HTML (bstr "GET") (bstr "/api/evidence/file") q = serve_file path) as ->.
  { change (route root HTML (bstr "GET") (bstr "/api/evidence/file") q) with (api_evidence_file root q).
    destruct (query_of v f Cv Cf) as [E1 E2]. unfold api_evidence_file. fold q in E1, E2. rewrite E1, E2, Hv, Hf. cbn [negb orb].
    unfold path. by rewrite evidence_path by (by apply safe_name_component). }
  unfold serve_file, host. prun. cbn [app].
  destruct (h [TryClone] (OnHost (Sys.ReadText path))) as [t|e]; intros Hl; [|apply respond_run].
  unfold tail. rewrite (proj2 (Z.leb_le _ _)) by done. apply respond_run.
Qed.

End serve.

(** A machine with one evidence file, and a request for it. *)
Definition sample_root : str := bstr "/home/axiom".
Definition sample_state : State := mkState None default_job default_job default_job [].
Definition sample_env (past : list call) (c : call) : answer c :=
  match c with
  | Lock => Some sample_state
  | Unlock _ | Spawn _ _ => tt
  | TryClone | ReadExact _ | Write _ | WaitChild => true
  | StartChild _ => None
  | Bind _ => Ok tt
  | OnHost c =>
      match c with
      | Sys.CurrentDir => None
      | Sys.IsFile _ | Sys.IsDir _ => true
      | Sys.ReadDir _ => Err []
      | Sys.ReadText p => if bool_decide (p = sample_root ++ bstr "/evidence/v1.0/a.log") then Ok (bstr "PASS") else Err []
      | Sys.Status _ _ _ => Err []
      | Sys.RunOutput _ _ _ => Err []
      | Sys.Print _ | Sys.Eprint _ => tt
      | Sys.WriteOut _ => Ok tt
      end
  end.
Lemma sample_contract past c : contract c (sample_env past c).
Proof.
  destruct c as [| | | | | | | | |c]; try done; [exists sample_state; by repeat constructor|].
  destruct c; cbn; try done. case_bool_decide; [by apply (bool_decide_unpack (text _))|done].
Qed.

Lemma request_confined_witness : exists t r,
  run sample_env [] (handle sample_root [] (evidence_request (bstr "v1.0") (bstr "a.log"))) = (t, Some r) /\ Forall (confined sample_root) t.
Proof. apply request_confined, sample_contract. Defined.
Lemma request_answered_witness : readable (evidence_request (bstr "v1.0") (bstr "a.log")) = true /\ exists t r,
  run sample_env [] (handle sample_root [] (evidence_request (bstr "v1.0") (bstr "a.log"))) = (t, Some r) /\
  exists head body, written sample_env [] t = [(head, true); (body, true)] /\ r = true.
Proof.
  assert (readable (evidence_request (bstr "v1.0") (bstr "a.log")) = true) as E by (vm_compute; reflexivity).
  split; [exact E|].
  destruct (request_answered sample_root [] (evidence_request (bstr "v1.0") (bstr "a.log")) sample_env sample_contract)
    as (t & r & Er & H).
  rewrite E in H. destruct H as (code & ct & body & _ & _ & Hw & _). exists t, r. split; [exact Er|].
  assert (r = true) as ->.
  { pose proof (f_equal snd Er) as Es. vm_compute in Es. by injection Es as <-. }
  destruct Hw as [Hw|[_ Hw]]; [|discriminate Hw]. eexists _, _. split; [exact Hw|reflexivity].
Defined.
Definition sample_path : str := Path.join sample_root (bstr "evidence/" ++ bstr "v1.0" ++ [47] ++ bstr "a.log").
Example sample_path_text : sample_path = bstr "/home/axiom/evidence/v1.0/a.log".
Proof. reflexivity. Qed.
Lemma evidence_served_witness : exists t r,
  run sample_env [] (handle sample_root [] (evidence_request (bstr "v1.0") (bstr "a.log"))) =
    ([TryClone; OnHost (Sys.ReadText sample_path)] ++ t, Some r) /\
  writes t `prefix_of` [as_bytes (response_head 200 TEXT_UTF8 (len (bstr "PASS"))); as_bytes (bstr "PASS")] /\
  (r = true -> writes t = [as_bytes (response_head 200 TEXT_UTF8 (len (bstr "PASS"))); as_bytes (bstr "PASS")]).
Proof.
  pose proof (evidence_served sample_root [] (bstr "v1.0") (bstr "a.log") sample_env eq_refl eq_refl eq_refl) as H.
  assert (sample_env [TryClone] (OnHost (Sys.ReadText sample_path)) = Ok (bstr "PASS")) as E by (vm_compute; reflexivity).
  cbv zeta in H. fold sample_path in H. rewrite E in H. cbv beta iota in H. apply H. vm_compute. discriminate.
Defined.

End StudioSafe.
