(* ===== verification/StudioServer.v ===== *)
(** * The dashboard server: threads

    The server of [studio/src/main.rs] as a whole: a thread per connection
    ([Studio.handle]) and per job ([Studio.run_job]), interleaved call by
    call, around one lock.  The threads together implement the machine of
    [docs/24] section 3: one job at a time. *)

From stdpp Require Import strings base decidable numbers option tactics list sorting sets relations.
From S2P Require Import Prelude Bytes Monitor Events Utf8 Host Axiomctl StudioView Studio StudioSafe.
Local Open Scope Z_scope.

Module Server.
Import Events Utf8 Studio StudioSafe.

(** ** The threads' steps *)

Abbreviation thread := (prog answer unit).

Record config := mkConfig { shared : State; holder : option nat; poisoned : bool; threads : list thread }.

Definition connection (root HTML : str) (c : Conn) : thread := handle root HTML c ;; mret tt.

Section server.
Context (root HTML : str).

(** One call of thread [i]. *)
Inductive tstep (i : nat) : config -> config -> Prop :=
| t_lock st p (k : answer Lock -> thread) ths : ths !! i = Some (PCall Lock k) -> p = false ->
    tstep i (mkConfig st None p ths) (mkConfig st (Some i) p (<[i := k (Some st)]> ths))
| t_lock_poisoned st (k : answer Lock -> thread) ths : ths !! i = Some (PCall Lock k) ->
    tstep i (mkConfig st None true ths) (mkConfig st None true (<[i := k None]> ths))
| t_unlock st st' p (k : answer (Unlock st') -> thread) ths : ths !! i = Some (PCall (Unlock st') k) ->
    tstep i (mkConfig st (Some i) p ths) (mkConfig st' None p (<[i := k tt]> ths))
| t_spawn st h p which shell (k : answer (Spawn which shell) -> thread) ths : ths !! i = Some (PCall (Spawn which shell) k) ->
    tstep i (mkConfig st h p ths) (mkConfig st h p (<[i := k tt]> ths ++ [run_job which shell]))
| t_call st h p c (k : answer c -> thread) r ths : ths !! i = Some (PCall c k) ->
    (forall w s, c <> Spawn w s) -> c <> Lock -> (forall s, c <> Unlock s) -> contract c r ->
    tstep i (mkConfig st h p ths) (mkConfig st h p (<[i := k r]> ths))
| t_crash_holding st p ths : ths !! i = Some PCrash ->
    tstep i (mkConfig st (Some i) p ths) (mkConfig st None true (<[i := PRet tt]> ths))
| t_crash st h p ths : ths !! i = Some PCrash -> h <> Some i ->
    tstep i (mkConfig st h p ths) (mkConfig st h p (<[i := PRet tt]> ths)).

(** A connection arrives, or a thread moves. *)
Inductive step : config -> config -> Prop :=
| s_accept st h p ths c : step (mkConfig st h p ths) (mkConfig st h p (ths ++ [connection root HTML c]))
| s_thread i cfg cfg' : tstep i cfg cfg' -> step cfg cfg'.

Definition initial (doctor : list (str * str)) : config :=
  mkConfig (mkState None default_job default_job default_job doctor) None false [].
Inductive reachable (doctor : list (str * str)) : config -> Prop :=
| r_initial : reachable doctor (initial doctor)
| r_step cfg cfg' : reachable doctor cfg -> step cfg cfg' -> reachable doctor cfg'.

(** ** The specification: one job at a time *)

Definition JOBS : list str := Ctl.words ["demo"; "verify"; "kit"].

Inductive job_step (st : State) : State -> Prop :=
| j_start w : busy st = None -> w ∈ JOBS -> job_step st (started st w)
| j_line w line : busy st = Some w -> text line -> job_step st (appended st w line)
| j_finish w ok : busy st = Some w -> job_step st (finished st w ok).

(** A job is shown as running exactly while it holds the server. *)
Definition consistent (st : State) : Prop :=
  state_ok st /\ (forall w, busy st = Some w -> w ∈ JOBS) /\
  forall w, w ∈ JOBS -> (status (job_of st w) = Some JRunning <-> busy st = Some w).

(** ** Ownership: who may change the state *)

(** A client, or the one thread that must bring a job to its end. *)
Inductive mode := Client | Owner (w : str).
Definition knows (m : mode) (st : State) : Prop := match m with Client => True | Owner w => busy st = Some w end.
Inductive allowed : mode -> State -> mode -> State -> Prop :=
| a_same m st : allowed m st m st
| a_start st w : busy st = None -> w ∈ JOBS -> allowed Client st (Owner w) (started st w)
| a_line st w line : text line -> allowed (Owner w) st (Owner w) (appended st w line)
| a_finish st w ok : allowed (Owner w) st Client (finished st w ok).

Fixpoint behaves {A} (m : mode) (held : option State) (p : prog answer A) (Q : mode -> option State -> A -> Prop) : Prop :=
  match p with
  | PRet a => Q m held a
  | PCrash => False
  | PCall c k =>
      match c as c return (answer c -> prog answer A) -> Prop with
      | Lock => fun k => held = None /\ forall st, consistent st -> knows m st -> behaves m (Some st) (k (Some st)) Q
      | Unlock st' => fun k => exists st m', held = Some st /\ allowed m st m' st' /\ behaves m' None (k tt) Q
      | Spawn w sh => fun k => held = None /\ m = Owner w /\ behaves Client None (k tt) Q
      | c => fun k => forall r, contract c r -> behaves m held (k r) Q
      end k
  end.

Definition done : mode -> option State -> unit -> Prop := fun m held _ => m = Client /\ held = None.

Lemma behaves_bind {A B} m held (p : srv A) (f : A -> srv B) Q :
  behaves m held p (fun m' held' a => behaves m' held' (f a) Q) -> behaves m held (p ≫= f) Q.
Proof.
  revert m held. induction p as [a|c k IH|]; intros m held; cbn [mbind host_bind prog_bind_def behaves]; [done| |done].
  destruct c; try (intros H r Hr; by apply IH, H).
  - intros [Hh Hk]. split; [done|]. intros st0 Hc Hv. by apply IH, Hk.
  - intros (st0 & m' & Hh & Ha & Hk). exists st0, m'. repeat split; [done|done|]. by apply IH.
  - intros (Hh & Hm & Hk). repeat split; [done|done|]. by apply IH.
Qed.
Lemma behaves_mono {A} m held (p : srv A) (Q Q' : mode -> option State -> A -> Prop) :
  (forall m h a, Q m h a -> Q' m h a) -> behaves m held p Q -> behaves m held p Q'.
Proof.
  intros HQ. revert m held. induction p as [a|c k IH|]; intros m held; cbn [behaves]; [apply HQ| |done].
  destruct c; try (intros H r Hr; by apply IH, H).
  - intros [Hh Hk]. split; [done|]. intros st0 Hc Hv. by apply IH, Hk.
  - intros (st0 & m' & Hh & Ha & Hk). exists st0, m'. repeat split; [done|done|]. by apply IH.
  - intros (Hh & Hm & Hk). repeat split; [done|done|]. by apply IH.
Qed.

(** ** The handlers are clients *)

Lemma b_respond {A} m held code ct body (f : bool -> srv A) Q :
  (forall r, behaves m held (f r) Q) -> behaves m held (respond code ct body ≫= f) Q.
Proof. intros H. apply behaves_bind. intros [] _; cbn; [intros r _|]; apply H. Qed.
Lemma b_lock {A} m (f : State -> srv A) Q :
  (forall st, consistent st -> knows m st -> behaves m (Some st) (f st) Q) -> behaves m None (lock ≫= f) Q.
Proof. intros H. split; [done|]. intros st Hc Hv. by apply H. Qed.
Lemma b_unlock {A} m m' st st' (f : unit -> srv A) Q :
  allowed m st m' st' -> behaves m' None (f tt) Q -> behaves m (Some st) (unlock st' ≫= f) Q.
Proof. intros Ha Hf. by exists st, m'. Qed.
Lemma b_same {A} m st (f : unit -> srv A) Q : behaves m None (f tt) Q -> behaves m (Some st) (unlock st ≫= f) Q.
Proof. apply b_unlock, a_same. Qed.
Lemma b_host {A} m held c (f : Sys.answer c -> srv A) Q :
  (forall r, host_contract c r -> behaves m held (f r) Q) -> behaves m held (host c ≫= f) Q.
Proof. intros H r Hr. by apply H. Qed.

(** A handler that ends as it began. *)
Definition client (p : srv bool) : Prop := behaves Client None p (fun m held _ => m = Client /\ held = None).

Lemma client_respond code ct body : client (respond code ct body).
Proof. intros [] _; cbn; [intros r _|]; done. Qed.
Lemma client_tail t max code ct : text t -> 4 <= max -> client (shown ← lift (tail t max); respond code ct shown).
Proof. intros Ht Hm. destruct (tail_total t max Ht Hm) as [s ->]. apply client_respond. Qed.

Lemma client_start which : which ∈ JOBS -> client (api_start which).
Proof.
  intros Hw. apply b_lock. intros st Hc _. case_bool_decide as Hb.
  - apply b_respond. intros r. by apply b_same.
  - assert (busy st = None) as Hn by (destruct (busy st) eqn:E; [by destruct Hb|done]).
    apply (b_unlock Client (Owner which)); [by apply a_start|].
    destruct (job_shell which) as [shell|] eqn:E; [|by apply list_elem_of_In in Hw as [<-|[<-|[<-|[]]]]].
    split; [done|]. split; [done|]. apply client_respond.
Qed.
Lemma client_file path : client (serve_file path).
Proof. apply (b_host _ _ (Sys.ReadText path)). intros [t|e] Ht; [apply client_tail; [done|lia]|apply client_respond]. Qed.
Lemma client_verify_log : client (api_verify_log root).
Proof.
  apply b_lock. intros st ((_ & Ht & _) & _) _. apply b_same. cbv zeta.
  destruct (is_empty _); [|by apply client_tail; [|lia]].
  apply (b_host _ _ (Sys.ReadText _)). intros [t|e] Hr; apply client_tail; try lia.
  - do 2 (apply Forall_app; split; [by apply (bool_decide_unpack (text _))|]). done.
  - by apply (bool_decide_unpack (text _)).
Qed.
Lemma client_evidence : client (api_evidence root).
Proof.
  apply (b_host _ _ (Sys.ReadDir _)). intros r _. apply behaves_bind. generalize (@nil (str * list str)).
  induction (Ctl.entries_of r) as [|e l IH]; intros vs; [apply client_respond|]. cbn [for_each]. apply behaves_bind.
  unfold version_entry. destruct (Sys.is_dir e); [|apply IH]. destruct (Sys.file_name e); [|apply IH].
  intros d _. apply IH.
Qed.
Lemma client_route method path query : client (route root HTML method path query).
Proof.
  unfold route. repeat (case_match; [|]).
  - apply b_lock. intros st _ _. apply b_respond. intros r. by apply b_same.
  - apply client_start. apply list_elem_of_In. cbn. tauto.
  - apply client_start. apply list_elem_of_In. cbn. tauto.
  - apply client_start. apply list_elem_of_In. cbn. tauto.
  - apply b_lock. intros st _ _. apply b_same, client_respond.
  - apply b_lock. intros st ((Ht & _) & _) _. destruct (tail_total _ 200000 Ht ltac:(lia)) as [s ->]. apply b_same, client_respond.
  - apply client_verify_log.
  - apply client_evidence.
  - unfold api_evidence_file. destruct (query_param query "ver"); [|apply client_respond].
    destruct (query_param query "file"); [|apply client_respond]. case_match; [apply client_respond|apply client_file].
  - unfold api_doc. case_match; [apply client_file|apply client_respond].
  - apply (b_host _ _ (Sys.RunOutput _ _ _)). intros [o|e] _; apply client_respond.
  - apply client_respond.
  - apply client_respond.
Qed.
Lemma connection_behaves c : behaves Client None (connection root HTML c) done.
Proof.
  unfold connection, handle. apply behaves_bind. intros cloned _. destruct cloned; [|done].
  prun. destruct (read_line _ _) as [[line rest]|]; [|done].
  destruct (parse_request_line line) as [[method target]|]; [|apply client_respond].
  destruct (drain _ rest 0) as [n|]; [|done]. apply behaves_bind.
  destruct (default _ _) as [path query]. destruct (0 <? n); [intros r _|]; apply client_route.
Qed.

(** ** A job's thread owns its job *)

Lemma append_behaves w out Q : Forall (fun o => forall s, o = Some s -> text s) out -> Q (Owner w) None tt ->
  behaves (Owner w) None (append_lines w out) Q.
Proof.
  intros H HQ. induction H as [|o out Ho _ IH]; [done|]. destruct o as [line|]; [|done]. cbn [append_lines].
  apply b_lock. intros st _ _. apply (b_unlock (Owner w) (Owner w)); [|done]. apply a_line. by apply Ho.
Qed.
Lemma job_behaves w shell : behaves (Owner w) None (run_job w shell) done.
Proof.
  unfold run_job. intros child Hc. prun. apply behaves_bind.
  assert (forall ok, behaves (Owner w) None (st ← lock; unlock (finished st w ok)) done) as Hend.
  { intros ok. apply b_lock. intros st _ _. exists st, Client. split; [done|]. split; [apply a_finish|done]. }
  destruct child as [out|]; [|apply Hend]. apply behaves_bind, append_behaves; [by apply Hc|].
  intros ok _. prun. case_match; [|apply Hend]. apply b_lock. intros st _ _. apply b_same, Hend.
Qed.

(** ** What a critical section does to the state *)

Lemma job_set st w j v : w ∈ JOBS -> v ∈ JOBS ->
  job_of (set_job st w j) v = if bool_decide (v = w) then j else job_of st v.
Proof.
  intros Hw Hv. apply list_elem_of_In in Hw as [<-|[<-|[<-|[]]]]; apply list_elem_of_In in Hv as [<-|[<-|[<-|[]]]]; reflexivity.
Qed.
Lemma busy_set st w j : busy (set_job st w j) = busy st.
Proof. unfold set_job. by repeat case_match. Qed.
Lemma job_busy st b w : job_of (set_busy st b) w = job_of st w.
Proof. done. Qed.
Lemma state_ok_job st : state_ok st <-> forall w, w ∈ JOBS -> text (log (job_of st w)).
Proof.
  split.
  - intros (H1 & H2 & H3) w _. unfold job_of. by repeat case_match.
  - intros H. repeat split; [apply (H (bstr "demo"))|apply (H (bstr "verify"))|apply (H (bstr "kit"))]; apply list_elem_of_In; cbn; tauto.
Qed.

(** The invariant survives, and the step is one of the specification's. *)
Lemma allowed_step m st m' st' : consistent st -> knows m st -> allowed m st m' st' ->
  consistent st' /\ knows m' st' /\ (st' = st \/ job_step st st') /\
  (m' = m /\ busy st' = busy st \/
   (exists w, m = Client /\ m' = Owner w /\ busy st = None /\ busy st' = Some w) \/
   (exists w, m = Owner w /\ m' = Client /\ busy st = Some w /\ busy st' = None)).
Proof.
  intros (Hok & Hj & Hr) Hm Ha. rewrite state_ok_job in Hok. unfold consistent. setoid_rewrite state_ok_job.
  destruct Ha as [m st|st w Hb Hw|st w line Ht|st w ok].
  - repeat split; auto; try tauto; by apply Hr.
  - split; [|split; [by unfold knows, started; rewrite busy_set|split; [right; by constructor|unfold started; rewrite busy_set; right; left; by exists w]]].
    unfold started. rewrite busy_set. cbn [busy set_busy].
    split; [|split; [by intros ? [= <-]|]]; intros v Hv; rewrite job_set by done; rewrite job_busy; case_bool_decide; subst; try done.
    + by constructor.
    + by apply Hok.
    + rewrite Hr, Hb by done. split; [done|congruence].
  - cbn [knows] in Hm. pose proof (Hj w Hm) as Hw. split; [|split; [unfold knows, appended; cbv zeta; by rewrite busy_set|split; [right; by constructor|left; split; [done|]; unfold appended; cbv zeta; by rewrite busy_set]]].
    unfold appended. cbv zeta. rewrite busy_set.
    split; [|split; [done|]]; intros v Hv; rewrite job_set by done; case_bool_decide; subst; cbn [log status]; try by auto.
    apply Forall_app. split; [by apply Hok|]. apply Forall_app. split; [done|]. by apply (bool_decide_unpack (text _)).
  - cbn [knows] in Hm. pose proof (Hj w Hm) as Hw. split; [|split; [done|split; [right; by constructor|right; right; by exists w]]].
    unfold finished. cbn [busy set_busy].
    split; [|split; [done|]]; intros v Hv; rewrite job_busy, job_set by done; case_bool_decide; subst; cbn [log status]; try by auto.
    + split; [by destruct ok|done].
    + rewrite Hr, Hm by done. split; [congruence|done].
Qed.

(** ** The invariant of the server *)

Definition held (cfg : config) (i : nat) : option State := if decide (holder cfg = Some i) then Some (shared cfg) else None.
Definition owner (m : mode) : option str := match m with Owner w => Some w | Client => None end.
(** The running job has exactly one owner among the threads' modes [ms]. *)
Record Inv (cfg : config) (ms : list mode) : Prop := {
  inv_len : length ms = length (threads cfg);
  inv_poison : poisoned cfg = false;
  inv_shared : consistent (shared cfg);
  inv_thread : forall i p m, threads cfg !! i = Some p -> ms !! i = Some m -> behaves m (held cfg i) p done;
  inv_owner : omap owner ms = option_list (busy (shared cfg));
  inv_holder : forall i, holder cfg = Some i -> (i < length (threads cfg))%nat }.

Lemma inv_initial doctor : Inv (initial doctor) [].
Proof.
  split; [done|done| |done|done|done].
  split; [by repeat constructor|]. split; [done|]. intros w _. cbn. unfold job_of. cbn.
  split; [by repeat case_match|done].
Qed.

Lemma inv_knows cfg ms i m : Inv cfg ms -> ms !! i = Some m -> knows m (shared cfg).
Proof.
  intros H Hm. destruct m as [|w]; [done|]. assert (w ∈ omap owner ms) as Hw.
  { apply list_elem_of_omap. exists (Owner w). split; [by eapply list_elem_of_lookup_2|done]. }
  rewrite (inv_owner _ _ H) in Hw. cbn. destruct (busy (shared cfg)); cbn in Hw; set_solver.
Qed.
Lemma inv_mode cfg ms i p : Inv cfg ms -> threads cfg !! i = Some p -> exists m, ms !! i = Some m /\ behaves m (held cfg i) p done.
Proof.
  intros H Hp. destruct (lookup_lt_is_Some_2 ms i) as [m Hm].
  { rewrite (inv_len _ _ H). by eapply lookup_lt_Some. }
  exists m. split; [done|]. by eapply (inv_thread _ _ H).
Qed.

(** Thread [i] moves to [p] without a change of state or mode. *)
Lemma inv_move st h h' p0 ths ms i m q : Inv (mkConfig st h p0 ths) ms -> (i < length ths)%nat -> ms !! i = Some m ->
  (forall j, j <> i -> h = Some j <-> h' = Some j) ->
  behaves m (held (mkConfig st h' p0 ths) i) q done -> Inv (mkConfig st h' p0 (<[i := q]> ths)) ms.
Proof.
  intros [Hl Hp Hs Ht Ho Hh] Hi Hm Hj Hq. split; cbn [threads holder shared poisoned] in *; [by rewrite length_insert|done|done| |done|].
  2: { intros j Hj'. rewrite length_insert. destruct (decide (j = i)) as [->|Hne]; [done|]. apply Hh. by apply Hj. }
  intros j p m' Hj1 Hj2. apply insert_lookup_cases in Hj1 as [[-> ->]|[Hne Hj1]].
  - rewrite Hm in Hj2. injection Hj2 as <-. exact Hq.
  - specialize (Ht j p m' Hj1 Hj2). unfold held in *. cbn [holder shared] in *.
    destruct (decide (h = Some j)), (decide (h' = Some j)); try done; exfalso; specialize (Hj j Hne); tauto.
Qed.

Lemma held_other st h p0 ths i : h <> Some i -> held (mkConfig st h p0 ths) i = None.
Proof. intros H. unfold held. by rewrite decide_False. Qed.
Lemma held_self st p0 ths i : held (mkConfig st (Some i) p0 ths) i = Some st.
Proof. unfold held. by rewrite decide_True. Qed.

(** Accounting of owners. *)
Lemma owners_at ms i m m' : ms !! i = Some m -> exists a b, omap owner ms = a ++ option_list (owner m) ++ b /\
  omap owner (<[i := m']> ms) = a ++ option_list (owner m') ++ b.
Proof.
  intros H. apply list_elem_of_split_length in H as (l1 & l2 & -> & ->). exists (omap owner l1), (omap owner l2).
  rewrite insert_app_r_alt, Nat.sub_diag by lia. cbn [insert list_insert]. rewrite !omap_app. cbn [omap list_omap].
  by destruct m, m'.
Qed.

(** A thread leaves its critical section, perhaps in another mode. *)
Lemma inv_release st st' p0 ths ms i m m' q : Inv (mkConfig st (Some i) p0 ths) ms -> (i < length ths)%nat -> ms !! i = Some m ->
  allowed m st m' st' -> behaves m' None q done -> Inv (mkConfig st' None p0 (<[i := q]> ths)) (<[i := m']> ms).
Proof.
  intros HI Hi Hm Ha Hq. pose proof (inv_knows _ _ _ _ HI Hm) as Hk. destruct HI as [Hl Hp Hs Ht Ho Hh]. cbn [shared threads] in *.
  destruct (allowed_step m st m' st' Hs Hk Ha) as (Hs' & _ & _ & Hb).
  split; cbn [threads shared poisoned holder]; [by rewrite !length_insert|done|done| | |done].
  - intros j p n Hj1 Hj2. apply insert_lookup_cases in Hj1 as [[-> ->]|[Hne Hj1]].
    + rewrite list_lookup_insert_eq in Hj2 by lia. by injection Hj2 as <-.
    + rewrite list_lookup_insert_ne in Hj2 by done. specialize (Ht j p n Hj1 Hj2). rewrite held_other in Ht by congruence.
      by rewrite held_other.
  - destruct (owners_at ms i m m' Hm) as (a & b & E1 & ->). rewrite Ho in E1.
    destruct Hb as [[-> ->]|[(w & -> & -> & Hb & ->)|(w & -> & -> & Hb & ->)]]; [done|rewrite Hb in E1..]; cbn in *.
    + symmetry in E1. apply app_eq_nil in E1 as [-> ->]. done.
    + destruct a as [|x [|y a]]; [injection E1 as <-; done|done|done].
Qed.

(** A job's thread takes over from the request that claimed the job. *)
Lemma inv_spawn st h p0 ths ms i w q shell : Inv (mkConfig st h p0 ths) ms -> ms !! i = Some (Owner w) -> h <> Some i ->
  behaves Client None q done -> Inv (mkConfig st h p0 (<[i := q]> ths ++ [run_job w shell])) (<[i := Client]> ms ++ [Owner w]).
Proof.
  intros HI Hm Hh Hq. pose proof (inv_knows _ _ _ _ HI Hm) as Hk. destruct HI as [Hl Hp Hs Ht Ho Hd]. cbn [shared threads knows holder] in *.
  assert (h <> Some (length ths)) as Hh' by (intros E; apply Hd in E; lia).
  split; cbn [threads shared poisoned holder]; [rewrite !length_app, !length_insert; cbn; lia|done|done| | |].
  3: { intros j Hj. apply Hd in Hj. rewrite length_app, length_insert. lia. }
  - intros j p n Hj1 Hj2. apply lookup_app_Some in Hj1 as [Hj1|[Hge Hj1]].
    + pose proof (lookup_lt_Some _ _ _ Hj1) as Hlt. rewrite length_insert in Hlt.
      rewrite lookup_app_l in Hj2 by (rewrite length_insert; lia).
      apply insert_lookup_cases in Hj1 as [[-> ->]|[Hne Hj1]].
      * apply lookup_lt_Some in Hm. rewrite list_lookup_insert_eq in Hj2 by lia. injection Hj2 as <-. by rewrite held_other.
      * rewrite list_lookup_insert_ne in Hj2 by done. exact (Ht j p n Hj1 Hj2).
    + rewrite length_insert in Hge, Hj1. assert (j = length ths) as ->.
      { apply lookup_lt_Some in Hj1. cbn in Hj1. lia. }
      rewrite lookup_app_r, length_insert, Hl, Nat.sub_diag in Hj2 by (rewrite length_insert; lia). rewrite Nat.sub_diag in Hj1.
      injection Hj1 as <-. injection Hj2 as <-. rewrite held_other by done. apply job_behaves.
  - destruct (owners_at ms i (Owner w) Client Hm) as (a & b & E1 & E2). rewrite omap_app, E2. rewrite Ho, Hk in E1. cbn in *.
    rewrite Hk. destruct a as [|x [|y a]]; [injection E1 as <-; done|done|done].
Qed.

(** A connection's thread joins as a client. *)
Lemma inv_accept st h p0 ths ms c : Inv (mkConfig st h p0 ths) ms ->
  Inv (mkConfig st h p0 (ths ++ [connection root HTML c])) (ms ++ [Client]).
Proof.
  intros [Hl Hp Hs Ht Ho Hd]. cbn [shared threads holder] in *.
  split; cbn [threads shared poisoned holder]; [rewrite !length_app; cbn; lia|done|done| | |].
  - intros j p n Hj1 Hj2. apply lookup_app_Some in Hj1 as [Hj1|[Hge Hj1]].
    + pose proof (lookup_lt_Some _ _ _ Hj1). rewrite lookup_app_l in Hj2 by lia. exact (Ht j p n Hj1 Hj2).
    + assert (j = length ths) as -> by (apply lookup_lt_Some in Hj1; cbn in Hj1; lia).
      rewrite lookup_app_r, Hl, Nat.sub_diag in Hj2 by lia. rewrite Nat.sub_diag in Hj1.
      injection Hj1 as <-. injection Hj2 as <-. rewrite held_other by (intros E; apply Hd in E; lia). apply connection_behaves.
  - by rewrite omap_app, Ho, app_nil_r.
  - intros i Hi. apply Hd in Hi. rewrite length_app. lia.
Qed.

(** Every step keeps the invariant and is a step of the specification. *)
Lemma inv_step cfg cfg' ms : Inv cfg ms -> step cfg cfg' ->
  (exists ms', Inv cfg' ms') /\ (shared cfg' = shared cfg \/ job_step (shared cfg) (shared cfg')).
Proof.
  intros HI Hs. destruct Hs as [st h p ths c|i cfg cfg' Hs]; [split; [eexists; by apply inv_accept|by left]|].
  destruct Hs as [st p k ths E Hp|st k ths E|st st' p k ths E|st h p w shell k ths E|st h p c k r ths E Hs Hl Hu Hr|st p ths E|st h p ths E Hh];
    pose proof (inv_mode _ _ i _ HI E) as (m & Hm & Hb); pose proof (lookup_lt_Some _ _ _ E) as Hi.
  - split; [|by left]. exists ms. eapply inv_move; [done|done|done| |].
    + intros j Hj. split; [done|congruence].
    + rewrite held_self. destruct Hb as [_ Hb]. apply Hb; [apply (inv_shared _ _ HI)|by eapply (inv_knows _ _ _ _ HI)].
  - by pose proof (inv_poison _ _ HI).
  - destruct Hb as (st0 & m' & Hh & Ha & Hb). rewrite held_self in Hh. injection Hh as <-. split.
    + eexists. by eapply inv_release.
    + by destruct (allowed_step m st m' st' (inv_shared _ _ HI) (inv_knows _ _ _ _ HI Hm) Ha) as (_ & _ & ? & _).
  - destruct Hb as (Hh & -> & Hb). split; [|by left]. eexists. apply inv_spawn; [done|done| |done].
    intros ->. by rewrite held_self in Hh.
  - split; [|by left]. exists ms. eapply inv_move; [done|done|done|done|]. fold (held (mkConfig st h p ths) i).
    destruct c; try (by apply Hb); [done|by destruct (Hu st0)|by destruct (Hs which shell)].
  - done.
  - done.
Qed.

Lemma reachable_inv doctor cfg : reachable doctor cfg -> exists ms, Inv cfg ms.
Proof.
  induction 1 as [|cfg cfg' _ [ms IH] Hs]; [eexists; apply inv_initial|]. by destruct (inv_step _ _ _ IH Hs).
Qed.

(** C29. However connections and threads interleave, the server implements the
    one-job machine: each step leaves the shared state alone or is a step of
    the machine (a start only when idle, a line or the verdict only of the
    running job); in every reachable state the lock is not poisoned, no
    thread has panicked, a job is shown as running exactly while it holds
    the server, and its logs are valid text. *)
Theorem server_refines_jobs doctor cfg : reachable doctor cfg ->
  poisoned cfg = false /\ (PCrash ∉ threads cfg) /\ consistent (shared cfg) /\
  forall cfg', step cfg cfg' -> shared cfg' = shared cfg \/ job_step (shared cfg) (shared cfg').
Proof.
  intros Hr. destruct (reachable_inv doctor cfg Hr) as [ms HI]. split; [apply (inv_poison _ _ HI)|]. split; [|split].
  - intros Hin. apply list_elem_of_lookup_1 in Hin as [i Hi]. by destruct (inv_mode _ _ _ _ HI Hi) as (m & _ & Hb).
  - apply (inv_shared _ _ HI).
  - intros cfg' Hs. by apply (inv_step _ _ _ HI).
Qed.

(** ** No job is stuck *)

(** The threads alone, no new connection. *)
Definition move (cfg cfg' : config) : Prop := exists i, tstep i cfg cfg'.

Lemma contract_inhabited c : c <> Lock -> exists r, contract c r.
Proof.
  intros H. destruct c as [| | | | | | | | |c]; [done|by exists tt|by exists true..|by exists tt|by exists None|by exists true|by exists (Ok tt)|].
  destruct c; [by exists None|by exists true|by exists true|exists (Err []); constructor|by exists (Err [])|by exists (Err [])|
    by exists (Err [])|by exists tt|by exists tt|by exists (Ok tt)].
Qed.

(** A call outside the lock's protocol can always be made. *)
Lemma can_call st h p0 ths ms i m c (k : answer c -> thread) : Inv (mkConfig st h p0 ths) ms -> ths !! i = Some (PCall c k) -> ms !! i = Some m ->
  (forall w s, c <> Spawn w s) -> c <> Lock -> (forall s, c <> Unlock s) ->
  exists r, move (mkConfig st h p0 ths) (mkConfig st h p0 (<[i := k r]> ths)) /\ Inv (mkConfig st h p0 (<[i := k r]> ths)) ms.
Proof.
  intros HI E Hm Hs Hl Hu. destruct (contract_inhabited c Hl) as [r Hr]. exists r.
  split; [exists i; by apply t_call|]. destruct (inv_mode _ _ i _ HI E) as (m' & Hm' & Hb). rewrite Hm in Hm'. injection Hm' as <-.
  eapply inv_move; [done|by eapply lookup_lt_Some|done|done|]. fold (held (mkConfig st h p0 ths) i).
  destruct c; try (by apply Hb); [done|by destruct (Hu st0)|by destruct (Hs which shell)].
Qed.

(** The holder reaches the end of its critical section. *)
Lemma lock_released p st i p0 ths ms : Inv (mkConfig st (Some i) p0 ths) ms -> ths !! i = Some p ->
  exists cfg' ms', rtc move (mkConfig st (Some i) p0 ths) cfg' /\ Inv cfg' ms' /\ holder cfg' = None.
Proof.
  revert ths ms. induction p as [a|c k IH|]; intros ths ms HI E;
    destruct (inv_mode _ _ i _ HI E) as (m & Hm & Hb); rewrite held_self in Hb; cbn [behaves] in Hb; [by destruct Hb| |done].
  pose proof (lookup_lt_Some _ _ _ E) as Hi.
  assert (((forall w s, c <> Spawn w s) /\ c <> Lock /\ (forall s, c <> Unlock s)) -> exists cfg' ms',
    rtc move (mkConfig st (Some i) p0 ths) cfg' /\ Inv cfg' ms' /\ holder cfg' = None) as Hcall.
  { intros (Hs & Hl & Hu). destruct (can_call _ _ _ _ _ _ _ _ _ HI E Hm Hs Hl Hu) as (r & Hmv & HI').
    destruct (IH r _ _ HI') as (cfg' & ms' & H1 & H2 & H3); [by apply list_lookup_insert_eq|].
    exists cfg', ms'. split; [by eapply rtc_l|done]. }
  destruct c; try (by apply Hcall); [by destruct Hb| |by destruct Hb].
  destruct Hb as (st1 & m' & Hst & Ha & Hb). injection Hst as <-. eexists _, _. split; [|split].
  - apply rtc_once. exists i. by apply t_unlock.
  - by eapply inv_release.
  - done.
Qed.

Definition idle_after (cfg : config) : Prop := exists cfg', rtc move cfg cfg' /\ busy (shared cfg') = None.
Lemma idle_l cfg cfg' : move cfg cfg' -> idle_after cfg' -> idle_after cfg.
Proof. intros H (c & H1 & H2). exists c. split; [by eapply rtc_l|done]. Qed.

(** Programs that start no thread. *)
Fixpoint no_spawn {A} (p : srv A) : Prop :=
  match p with PCall c k => (forall w s, c <> Spawn w s) /\ forall r, no_spawn (k r) | _ => True end.
Lemma no_spawn_bind {A B} (p : srv A) (f : A -> srv B) : no_spawn p -> (forall a, no_spawn (f a)) -> no_spawn (p ≫= f).
Proof.
  intros Hp Hf. induction p as [a|c k IH|]; [apply Hf| |done]. destruct Hp as [Hc Hk]. split; [done|]. intros r. by apply IH.
Qed.
Lemma job_no_spawn w shell : no_spawn (run_job w shell).
Proof.
  assert (no_spawn lock) as Hl by (split; [done|]; by intros [st|]).
  split; [done|]. intros child. apply no_spawn_bind; [|intros ok; apply no_spawn_bind; [done|by split]].
  destruct child as [out|]; [|done]. apply no_spawn_bind.
  - induction out as [|[line|] out IH]; [done| |done]. cbn [append_lines]. apply no_spawn_bind; [done|]. by split.
  - intros _. split; [done|]. intros ok. case_match; [|done]. apply no_spawn_bind; [done|]. by split.
Qed.

(** An owner with the lock within reach brings its job to the end; where it
    hands the job to a thread, provided that thread does. *)
Definition jobs_finish : Prop := forall st p0 ths ms i w shell, Inv (mkConfig st None p0 ths) ms ->
  ths !! i = Some (run_job w shell) -> ms !! i = Some (Owner w) -> idle_after (mkConfig st None p0 ths).
Lemma owner_finishes p : forall st h p0 ths ms i w, jobs_finish \/ no_spawn p ->
  Inv (mkConfig st h p0 ths) ms -> ths !! i = Some p -> ms !! i = Some (Owner w) -> h = None \/ h = Some i ->
  idle_after (mkConfig st h p0 ths).
Proof.
  induction p as [a|c k IH|]; intros st h p0 ths ms i w Hns HI E Hm Hh;
    destruct (inv_mode _ _ i _ HI E) as (m & Hm' & Hb); rewrite Hm in Hm'; injection Hm' as <-; [by destruct Hb| |done].
  pose proof (lookup_lt_Some _ _ _ E) as Hi.
  assert (forall r, jobs_finish \/ no_spawn (k r)) as Hns' by (intros r; destruct Hns as [|[_ H]]; auto).
  assert ((forall w s, c <> Spawn w s) /\ c <> Lock /\ (forall s, c <> Unlock s) -> idle_after (mkConfig st h p0 ths)) as Hcall.
  { intros (Hs & Hl & Hu). destruct (can_call _ _ _ _ _ _ _ _ _ HI E Hm Hs Hl Hu) as (r & Hmv & HI').
    eapply idle_l; [done|]. eapply IH; [done|done|by apply list_lookup_insert_eq|done|done]. }
  destruct c; try (by apply Hcall).
  - destruct Hb as [Hn Hb]. destruct Hh as [-> | ->]; [|by rewrite held_self in Hn].
    assert (Inv (mkConfig st (Some i) p0 (<[i := k (Some st)]> ths)) ms) as HI'.
    { eapply inv_move; [done|done|done| |]; [intros j Hj; split; [done|congruence]|]. rewrite held_self.
      apply Hb; [apply (inv_shared _ _ HI)|by eapply (inv_knows _ _ _ _ HI)]. }
    eapply idle_l; [exists i; apply t_lock; [done|apply (inv_poison _ _ HI)]|].
    eapply IH; [done|done|by apply list_lookup_insert_eq|done|by right].
  - destruct Hb as (st1 & m' & Hst & Ha & Hb). destruct Hh as [-> | ->]; [by rewrite held_other in Hst|].
    rewrite held_self in Hst. injection Hst as <-.
    assert (move (mkConfig st (Some i) p0 ths) (mkConfig st0 None p0 (<[i := k tt]> ths))) as Hmv by (exists i; by apply t_unlock).
    destruct m' as [|w'].
    + exists (mkConfig st0 None p0 (<[i := k tt]> ths)). split; [by apply rtc_once|]. by inversion Ha; subst.
    + eapply idle_l; [done|]. eapply (IH tt _ _ _ _ (<[i := Owner w']> ms)); [done|by eapply inv_release|by apply list_lookup_insert_eq| |by left].
      apply list_lookup_insert_eq. pose proof (inv_len _ _ HI). cbn [threads] in *. lia.
  - destruct Hb as (Hn & [= ->] & Hb). destruct Hh as [-> | ->]; [|by rewrite held_self in Hn].
    destruct Hns as [Hjobs|[Hs _]]; [|by destruct (Hs which shell)].
    eapply idle_l; [exists i; by apply t_spawn|].
    eapply (Hjobs _ _ _ (<[i := Client]> ms ++ [Owner which]) (length ths) which); [by apply inv_spawn| |].
    + by rewrite lookup_app_r, length_insert, Nat.sub_diag by (rewrite length_insert; lia).
    + pose proof (inv_len _ _ HI) as Hl. cbn [threads] in Hl.
      by rewrite lookup_app_r, length_insert, Hl, Nat.sub_diag by (rewrite length_insert; lia).
Qed.

(** C30. No job can be stuck: from every reachable state in which a job is
    running, the threads present can, with no further request, bring the
    server back to idle. *)
Theorem server_job_finishes doctor cfg w : reachable doctor cfg -> busy (shared cfg) = Some w ->
  exists cfg', rtc move cfg cfg' /\ busy (shared cfg') = None.
Proof.
  intros Hr _. destruct (reachable_inv doctor cfg Hr) as [ms HI]. clear Hr. change (idle_after cfg).
  assert (jobs_finish) as Hjobs.
  { intros st p0 ths ms0 i v shell HI0 E Hm. eapply (owner_finishes (run_job v shell)); [right; apply job_no_spawn|done|done|done|by left]. }
  assert (forall cfg ms, Inv cfg ms -> holder cfg = None -> idle_after cfg) as Hfree.
  { clear - Hjobs. intros [st h p0 ths] ms HI Hh. cbn in Hh. subst h. destruct (busy st) as [v|] eqn:Eb; [|by eexists].
    pose proof (inv_owner _ _ HI) as Ho. cbn in Ho. rewrite Eb in Ho.
    assert (v ∈ omap owner ms) as Hv by (rewrite Ho; cbn; left). apply list_elem_of_omap in Hv as ([|v'] & Hin & [= ->]).
    apply list_elem_of_lookup_1 in Hin as [i Hi]. destruct (lookup_lt_is_Some_2 ths i) as [p Hp].
    { apply lookup_lt_Some in Hi. pose proof (inv_len _ _ HI) as Hl. cbn in Hl. lia. }
    eapply (owner_finishes p); [by left|done|done|done|by left]. }
  destruct cfg as [st [i|] p0 ths]; [|by eapply Hfree].
  destruct (lookup_lt_is_Some_2 ths i) as [p Hp]; [by apply (inv_holder _ _ HI)|].
  destruct (lock_released p st i p0 ths ms HI Hp) as (cfg' & ms' & H1 & H2 & H3).
  destruct (Hfree cfg' ms' H2 H3) as (c & H4 & H5). exists c. split; [by etrans|done].
Qed.

End server.
(** A client posts [/api/run_demo]; its thread claims the job. *)
Definition start_request : Conn := mkConn (bstr "POST /api/run_demo HTTP/1.1" ++ crlf ++ crlf) true.
Lemma sample_busy : exists cfg, reachable (bstr "/r") [] [] cfg /\ busy (shared cfg) = Some (bstr "demo") /\ holder cfg = None.
Proof.
  set (p := connection (bstr "/r") [] start_request).
  assert (exists k, p = PCall TryClone k /\ exists k2, k true = PCall Lock k2 /\
    exists k3, k2 (Some sample_state) = PCall (Unlock (started sample_state (bstr "demo"))) k3) as (k & E1 & k2 & E2 & k3 & E3).
  { eexists. split; [reflexivity|]. eexists. split; [reflexivity|]. eexists. reflexivity. }
  eexists. split; [|split].
  - eapply r_step; [|apply s_thread with (i := 0%nat), (t_unlock 0 sample_state (started sample_state (bstr "demo")) false k3 [k2 (Some sample_state)]); cbn; by rewrite E3].
    eapply r_step; [|apply s_thread with (i := 0%nat), (t_lock 0 sample_state false k2 [PCall Lock k2]); done].
    rewrite <- E2. eapply r_step; [|apply s_thread with (i := 0%nat), (t_call 0 sample_state None false TryClone k true [PCall TryClone k]); done].
    rewrite <- E1. eapply r_step; [apply r_initial|]. apply (s_accept _ _ _ _ _ []).
  - reflexivity.
  - reflexivity.
Qed.

Lemma server_refines_jobs_witness : exists cfg, reachable (bstr "/r") [] [] cfg /\ busy (shared cfg) = Some (bstr "demo") /\
  poisoned cfg = false /\ consistent (shared cfg).
Proof.
  destruct sample_busy as (cfg & H & Hb & _). exists cfg. split; [exact H|]. split; [exact Hb|].
  destruct (server_refines_jobs (bstr "/r") [] [] cfg H) as (H1 & _ & H2 & _). split; [exact H1|exact H2].
Defined.
Lemma server_job_finishes_witness : exists cfg, reachable (bstr "/r") [] [] cfg /\ busy (shared cfg) = Some (bstr "demo") /\
  exists cfg', rtc move cfg cfg' /\ busy (shared cfg') = None.
Proof.
  destruct sample_busy as (cfg & H & Hb & _). exists cfg. split; [exact H|]. split; [exact Hb|].
  exact (server_job_finishes (bstr "/r") [] [] cfg (bstr "demo") H Hb).
Defined.

End Server.
