(* ===== verification/StudioNet.v ===== *)
(** * From the network service to the dashboard

    The event lines the network service prints ([SvcNet]) travel over the
    serial line, are parsed by the host ([Events]) and shown by the dashboard
    ([StudioView.derive_network]): the counters shown are the service's. *)

From stdpp Require Import strings base decidable numbers option tactics list sets.
From S2P Require Import Prelude Bytes Monitor UserText UserProg UserLib SvcNet Events Utf8 StudioView.
Local Open Scope Z_scope.

Module NetView.
Import Events View.

(** ** Numbers survive printing and parsing *)

Definition accumulate (acc : Z) (s : str) : Z := foldl (fun v d => 10 * v + (d - 48)) acc s.
Lemma accumulate_ge acc s : Utf8.digits s -> 0 <= acc -> acc <= accumulate acc s.
Proof.
  intros H. revert acc. induction H as [|c s Hc _ IH]; intros acc Ha; [done|]. cbn [accumulate foldl].
  specialize (IH (10 * acc + (c - 48)) ltac:(lia)). unfold accumulate in IH. lia.
Qed.
Lemma parse_digits_value w acc s : Utf8.digits s -> 0 <= acc -> accumulate acc s < 2 ^ w ->
  Utf8.parse_digits w acc s = Some (accumulate acc s).
Proof.
  intros H. revert acc. induction H as [|c s Hc Hs IH]; intros acc Ha Hv; [done|]. cbn [Utf8.parse_digits accumulate foldl] in *.
  rewrite (proj2 (Z.leb_le 48 c)), (proj2 (Z.leb_le c 57)) by lia. cbn [andb]. cbv zeta.
  replace (acc * 10 + (c - 48)) with (10 * acc + (c - 48)) by lia.
  pose proof (accumulate_ge (10 * acc + (c - 48)) s Hs ltac:(lia)) as Hg. unfold accumulate in *.
  rewrite (proj2 (Z.ltb_lt _ _)) by lia. apply IH; lia.
Qed.
Lemma parse_uint_dec x : x ∈ᵤ 64 -> Utf8.parse_uint 64 (dec x) = Some x.
Proof.
  intros Hx. pose proof (dec_range x) as Hr. pose proof (dec_roundtrip x Hx) as Hv.
  destruct (wordy_dec x (proj1 Hx)) as [Hn _].
  assert (Utf8.parse_uint 64 (dec x) = Utf8.parse_digits 64 0 (dec x)) as ->.
  { destruct (dec x) as [|c [|d ds]]; [done|..]; inversion_clear Hr; unfold Utf8.parse_uint; repeat case_match; try done; lia. }
  rewrite parse_digits_value; [f_equal; exact Hv|exact Hr|done|]. change (accumulate 0 (dec x)) with (dec_value (dec x)).
  rewrite Hv. apply Hx.
Qed.

(** ** A line of a kind and fields *)

Lemma parse_words k fs cat : wordy k -> Forall (fun c => c <> 61) k -> Forall plain fs -> k <> bstr "EVT" ->
  categorize k fs = Some cat ->
  let line := join [32] (k :: map assign fs) in parse_line line = Some (mkEv 0 cat k [] fs line).
Proof.
  intros Hk Hk2 Hp He Hc line. set (toks := k :: map assign fs).
  assert (Forall wordy toks) as Hw.
  { constructor; [done|]. apply Forall_map. eapply Forall_impl; [exact Hp|]. apply assign_wordy. }
  destruct (join_last toks) as (s & c & E & Hcw); [done|done|]. change (join [32] toks) with line in E.
  assert (trim_end line = line) as Et by (rewrite E; by apply trim_end_word).
  assert (split_whitespace line = toks) as Es by (by apply split_join).
  unfold parse_line. cbv zeta. rewrite Et.
  assert (is_empty (trim line) = false) as ->.
  { destruct (trim line) eqn:En; [|done]. apply trim_nil in En. rewrite E in En.
    apply Forall_app in En as [_ En]. inversion En. congruence. }
  assert (str_is line "AxiomRT kernel booted" = false) as ->.
  { apply bool_decide_eq_false. intros El. rewrite El in Es. vm_compute in Es. injection Es as <- _.
    vm_compute in Hc. done. }
  rewrite Es. unfold toks. assert (split_once 61 k = None) as Ek.
  { clear -Hk2. induction Hk2 as [|c k Hc _ IH]; [done|]. cbn. by rewrite (proj2 (Z.eqb_neq c 61)), IH by done. }
  unfold line_kind. rewrite Ek. cbn [mbind option_bind]. rewrite sort_assign by done.
  unfold str_is. rewrite bool_decide_eq_false_2 by done. cbn [mbind option_bind]. by rewrite Hc.
Qed.

Definition tx_line (n : Z) : str := NS_TX_EVENT_P ++ dec n.
Definition rx_line (n : Z) : str := NS_RX_EVENT_P ++ dec n.
Lemma plain_dec k n : plain (bstr k, [48]) -> 0 <= n -> plain (bstr k, dec n).
Proof. intros (H1 & _ & H2) Hn. split; [done|]. split; [by apply wordy_dec|done]. Qed.
Lemma tx_parsed n : 0 <= n ->
  parse_line (tx_line n) = Some (mkEv 0 CNetwork (bstr "NET_TX") [] [(bstr "bytes", bstr "64"); (bstr "tx", dec n)] (tx_line n)).
Proof.
  intros Hn. apply (parse_words (bstr "NET_TX") [(bstr "bytes", bstr "64"); (bstr "tx", dec n)] CNetwork); [by apply wordy_b|..|done|done].
  - by repeat (constructor; [done|]).
  - constructor; [|constructor; [apply (plain_dec "tx"); [|done]|constructor]];
      (split; [by apply wordy_b|]; split; [by apply wordy_b|]; by repeat (constructor; [done|])).
Qed.
Lemma rx_parsed n : 0 <= n ->
  parse_line (rx_line n) = Some (mkEv 0 CNetwork (bstr "NET_RX") [] [(bstr "rx", dec n)] (rx_line n)).
Proof.
  intros Hn. apply (parse_words (bstr "NET_RX") [(bstr "rx", dec n)] CNetwork); [by apply wordy_b|..|done|done].
  - by repeat (constructor; [done|]).
  - constructor; [apply (plain_dec "rx"); [|done]|constructor];
      (split; [by apply wordy_b|]; split; [by apply wordy_b|]; by repeat (constructor; [done|])).
Qed.

(** ** The log grows by whole lines *)

Definition whole (before : str) : Prop := before = [] \/ last before = Some 10.
Lemma lines_snoc b x cur : lines_from (b ++ [10] ++ x) cur = lines_from (b ++ [10]) cur ++ lines_from x [].
Proof.
  revert cur. induction b as [|c b IH]; intros cur; [done|]. cbn [app lines_from]. case_match; [cbn [app]; f_equal|]; apply IH.
Qed.
Lemma lines_whole before x : whole before -> lines (before ++ x) = lines before ++ lines x.
Proof. intros [->|H]; [done|]. apply last_Some in H as [b ->]. unfold lines. rewrite <- app_assoc. apply lines_snoc. Qed.
Lemma wordy_line toks : toks <> [] -> Forall wordy toks -> lines (join [32] toks ++ [10]) = [join [32] toks].
Proof.
  intros Hn Hw. unfold lines. rewrite lines_one.
  - cbn [app lines_from]. destruct (join_last toks) as (s & c & -> & Hc); [done|done|]. unfold strip_cr. rewrite last_snoc. f_equal.
    repeat case_match; done.
  - assert (forall t, wordy t -> one_line t) as Ht.
    { intros t [_ H]. eapply Forall_impl; [exact H|]. intros c Hc ->. discriminate Hc. }
    clear Hn. induction Hw as [|t l Hl Hls IH]; [constructor|].
    destruct l as [|u l]; [by apply Ht|]. change (join [32] (t :: u :: l)) with (t ++ [32] ++ join [32] (u :: l)).
    rewrite !one_line_app. split; [by apply Ht|]. split; [by repeat constructor|done].
Qed.
Lemma tx_alone n : 0 <= n -> lines (tx_line n ++ [10]) = [tx_line n].
Proof.
  intros Hn. change (tx_line n) with (join [32] [bstr "NET_TX"; bstr "bytes=64"; bstr "tx=" ++ dec n]). apply wordy_line; [done|].
  pose proof (assign_wordy (bstr "tx", dec n)) as H.
  constructor; [by apply wordy_b|]. constructor; [by apply wordy_b|]. constructor; [|constructor]. apply H, plain_dec; [|done].
  split; [by apply wordy_b|]. split; [by apply wordy_b|]. by repeat (constructor; [done|]).
Qed.
Lemma rx_alone n : 0 <= n -> lines (rx_line n ++ [10]) = [rx_line n].
Proof.
  intros Hn. change (rx_line n) with (join [32] [bstr "NET_RX"; bstr "rx=" ++ dec n]). apply wordy_line; [done|].
  pose proof (assign_wordy (bstr "rx", dec n)) as H.
  constructor; [by apply wordy_b|]. constructor; [|constructor]. apply H, plain_dec; [|done].
  split; [by apply wordy_b|]. split; [by apply wordy_b|]. by repeat (constructor; [done|]).
Qed.
Lemma whole_snoc s : whole (s ++ [10]).
Proof. right. by rewrite last_snoc. Qed.

(** The view after a packet's two lines. *)
Lemma view_of_packet before tx rx : whole before -> tx ∈ᵤ 64 -> rx ∈ᵤ 64 ->
  let v := derive_network (events (parse_log before)) in
  derive_network (events (parse_log (before ++ (tx_line tx ++ [10]) ++ (rx_line rx ++ [10])))) =
  mkNet (net_state v) tx rx (net_mode v) (net_faults v) (net_restarts v) (rx_line rx).
Proof.
  intros Hb Ht Hr. cbv zeta. unfold parse_log. rewrite !log_fold. cbn [events].
  rewrite lines_whole, (lines_whole (tx_line tx ++ [10])), tx_alone, rx_alone by first [done|apply whole_snoc|apply Ht|apply Hr].
  rewrite omap_app. cbn [app omap list_omap]. rewrite tx_parsed, rx_parsed by (apply Ht || apply Hr).
  rewrite number_app. unfold derive_network. rewrite filter_app, foldl_app. cbn [number].
  set (v := foldl net_step default_view _). set (n := _ + _).
  rewrite !filter_cons_True by done. cbn [filter list_filter foldl]. destruct v as [st t r md fl rs le].
  unfold net_step at 2. cbn [with_seq kind]. change (str_is (bstr "NET_TX") "NET_SERVICE") with false.
  change (str_is (bstr "NET_TX") "NET_DRIVER") with false. change (str_is (bstr "NET_TX") "NET_TX") with true. cbn iota.
  unfold net_step. cbn [with_seq kind raw]. change (str_is (bstr "NET_RX") "NET_SERVICE") with false.
  change (str_is (bstr "NET_RX") "NET_DRIVER") with false. change (str_is (bstr "NET_RX") "NET_TX") with false.
  change (str_is (bstr "NET_RX") "NET_RX") with true. cbn iota. cbn [net_state net_mode net_faults net_restarts].
  unfold counter, event_field. cbn [fields with_seq].
  change (field [(bstr "bytes", bstr "64"); (bstr "tx", dec tx)] "tx") with (Some (dec tx)).
  change (field [(bstr "rx", dec rx)] "rx") with (Some (dec rx)). cbn [mbind option_bind].
  by rewrite !parse_uint_dec.
Qed.

(** ** The service prints these lines *)

Definition accepted (t : trace) : Prop := Forall (fun ca : call * answer => 0 < ret ca.2) t.

Lemma con_bytes_app t1 t2 : con_bytes (t1 ++ t2) = con_bytes t1 ++ con_bytes t2.
Proof. unfold con_bytes. by rewrite fmap_app, concat_app. Qed.
Lemma event_prints r l D : line r l -> (length l < 64)%nat ->
  uwp (ns_event r.1 r.2) (fun q t => length q = 64%nat /\ (accepted t -> con_bytes t = l ++ [10])) D.
Proof.
  intros Hl Hlen. unfold ns_event. destruct r as [d n]. eapply (uwp_newline (d, n)); [exact Hl|]. intros r' Hl'.
  pose proof Hl' as [Hn Hh Hc]. apply uwp_bind. rewrite Hn. eapply uwp_mono; [by apply uwrite_wp| |done].
  intros [] t [_ Hb]. cbn. split; [done|]. rewrite app_nil_r. intros Ha. rewrite Hb by exact Ha.
  apply take_ge. rewrite length_app. cbn. lia.
Qed.

(** When the network service has counted a packet, it prints two event
    lines; whatever the serial log held before, once those lines reach the
    console the dashboard shows exactly the service's counters, and nothing
    else of its network view but the last event has changed. *)
Theorem dashboard_shows_counters dst tx rx before D : length dst = 64%nat -> tx ∈ᵤ 64 -> rx ∈ᵤ 64 -> whole before ->
  uwp (ns_packet_events dst tx rx) (fun _ t => accepted t ->
    let v := derive_network (events (parse_log before)) in
    derive_network (events (parse_log (before ++ con_bytes t))) =
    mkNet (net_state v) tx rx (net_mode v) (net_faults v) (net_restarts v) (rx_line rx)) D.
Proof.
  intros Hd Ht Hr Hw. unfold ns_packet_events. apply uwp_copy0; [done|]. intros [d1 n1] H1. cbn [fst snd].
  eapply uwp_dec; [exact H1|done|]. intros r2 H2. apply uwp_bind.
  pose proof (dec_length tx). pose proof (dec_length rx).
  eapply uwp_mono; [apply (event_prints r2 _ (fun _ => False) H2); rewrite length_app; change (length NS_TX_EVENT_P) with 19%nat; lia| |done]. intros d t [Hl Hc].
  apply uwp_copy0; [done|]. intros [d3 n3] H3. cbn [fst snd]. eapply uwp_dec; [exact H3|done|]. intros r4 H4.
  eapply uwp_mono; [apply (event_prints r4 _ (fun _ => False) H4); rewrite length_app; change (length NS_RX_EVENT_P) with 10%nat; lia| |done]. intros q t' [Hq Hc'] Ha.
  apply Forall_app in Ha as [Ha Ha']. rewrite con_bytes_app, Hc, Hc' by done. by apply view_of_packet.
Qed.

Lemma dashboard_shows_counters_witness :
  uwp (ns_packet_events (uninit 64) 3 2) (fun _ t => accepted t ->
    let v := derive_network (events (parse_log (bstr "NET_DRIVER started=net_driver_service" ++ [10]))) in
    derive_network (events (parse_log ((bstr "NET_DRIVER started=net_driver_service" ++ [10]) ++ con_bytes t))) =
    mkNet (net_state v) 3 2 (net_mode v) (net_faults v) (net_restarts v) (bstr "NET_RX rx=2")) (fun _ => False).
Proof.
  apply (dashboard_shows_counters (uninit 64) 3 2 (bstr "NET_DRIVER started=net_driver_service" ++ [10]));
    [reflexivity|split; [discriminate|reflexivity]..|right; reflexivity].
Defined.

End NetView.
