(* ===== verification/Machine.v ===== *)
(** * User code on the hart

    The demonstration tasks are written in assembly.  This file gives the
    assembly its meaning: the instructions the bodies use, their execution in
    user mode through the active page table, and the traps they take into
    [Trap.trap_handler].  It also proves what a user task built by
    [PagingHw.build_user_address_space] can reach.

    How many bytes the assembler gives each line ([size]) and where the
    linker puts a body are parameters; an [ecall] has four bytes, which is
    what the trap handler skips. *)

From stdpp Require Import strings base decidable numbers option tactics list.
From S2P Require Import Prelude Bytes Caps Memory PageTable Sv39 Paging PagingHw Device Kernel Dispatch Trap.
Local Open Scope Z_scope.

Module Machine.

(** ** What a user task can reach *)

(** The kernel part, two code pages and one private stack page. *)
Definition user_view (l : Linker) (code_phys stack_phys va : Z) : option (PhysAddr * Permissions) :=
  if decide (in_span va USER_STACK_VA (USER_STACK_VA + 0x1000))
  then Some (mkPhys (stack_phys / PAGE_SIZE * PAGE_SIZE + (va - USER_STACK_VA)), user_rw)
  else if decide (in_span va USER_CODE_VA (USER_CODE_VA + 0x2000))
  then Some (mkPhys (code_phys / PAGE_SIZE * PAGE_SIZE + (va - USER_CODE_VA)), urx)
  else kernel_view l va.

Import ArenaInv.

Lemma user_space_tr l TS i code stack uas TS' :
  linker_ok l -> TS !! i = Some fresh_tables -> code ∈ᵤ 55 -> stack ∈ᵤ 55 ->
  build_user_address_space l TS i code stack = Val (uas, TS') ->
  exists a lvl, inv a lvl /\ Arena.base_pa a = arena_base l i /\
    TS' = <[i := Arena.tables a]> TS /\ root uas = Arena.root_pa a /\
    forall va, va ∈ᵤ 39 -> tr a va = user_view l code stack va.
Proof.
  intros L HT Hc Hst. unfold build_user_address_space.
  assert (forall x, x ∈ᵤ 55 -> 0 <= x / PAGE_SIZE * PAGE_SIZE /\ x / PAGE_SIZE * PAGE_SIZE + 8192 <= 2 ^ 56 /\ x ∈ᵤ 64) as Hx.
  { intros x. unfold uint, PAGE_SIZE. change (2 ^ 55) with 36028797018963968. change (2 ^ 56) with 72057594037927936.
    change (2 ^ 64) with 18446744073709551616. intros. divmod_lia. }
  destruct (Hx code Hc) as (Hc0 & Hc1 & Hc2), (Hx stack Hst) as (Hs0 & Hs1 & Hs2).
  case_decide as Hi; [|done]. rewrite (arr_get_lookup _ _ _ HT). ostep.
  destruct (arena_base_ok l i L Hi) as (B0 & Bm & Bl).
  destruct (new_inv ARENA_TABLES (arena_base l i)) as [I0 T0]; [unfold ARENA_TABLES; lia|done..|].
  destruct (map_kernel_regions _ _) as [a1|] eqn:E1; [ostep|done].
  apply (map_kernel_regions_tr l _ _ _ L I0 T0) in E1 as (lvl1 & I1 & B1 & T1).
  rewrite !mask_page by done.
  destruct (map_pages a1 _ _ 2 urx) as [a2|] eqn:E2; [ostep|done].
  apply (map_pages_tr _ a1 lvl1) in E2 as (lvl2 & I2 & B2 & T2); [|done|by vm_compute|by vm_compute|done|exact Hc1|by vm_compute].
  destruct (map_pages a2 _ _ _ user_rw) as [a3|] eqn:E3; [ostep|done].
  apply (map_pages_tr _ a2 lvl2) in E3 as (lvl3 & I3 & B3 & T3);
    [|done|by vm_compute|by vm_compute|done|unfold USER_STACK_PAGES; lia|by vm_compute].
  rewrite arr_set_lt by (by eapply lookup_lt_Some). ostep. intros [= <- <-].
  exists a3, lvl3. split; [done|]. split; [by rewrite B3, B2, B1|]. split; [done|]. split; [done|].
  intros va Hva. by rewrite T3, T2, T1.
Qed.

(** The tables the kernel built translate as [user_view] says. *)
Lemma user_space_translates l TS i code stack uas TS' va :
  linker_ok l -> TS !! i = Some fresh_tables -> code ∈ᵤ 55 -> stack ∈ᵤ 55 -> va ∈ᵤ 39 ->
  build_user_address_space l TS i code stack = Val (uas, TS') ->
  Arena.translate (space_of l TS' i) (mkVirt va) = Val (user_view l code stack va).
Proof.
  intros L HT Hc Hst Hva E.
  destruct (user_space_tr l TS i code stack uas TS' L HT Hc Hst E) as (a & lvl & I & B & -> & R & T).
  pose proof (lookup_lt_Some _ _ _ HT) as Hi.
  assert (space_of l (<[i := Arena.tables a]> TS) i = Arena.Mk (Arena.tables a) 1 (Arena.base_pa a))
    as -> by (unfold space_of; by rewrite list_lookup_insert_eq, B).
  rewrite (translate_used _ 1 (Arena.used a)). destruct a. cbn [Arena.tables Arena.base_pa Arena.used].
  rewrite (translate_tr _ lvl I). cbn [va_u64]. by rewrite T.
Qed.

(** ** Instructions *)

(** Registers, by their place in the trap frame. *)
Definition t0 : nat := 4.
Definition t1 : nat := 5.
Definition s0 : nat := 7.
Definition a0 : nat := 9.
Definition a1 : nat := 10.
Definition a2 : nat := 11.
Definition a7 : nat := 16.

(** A line of an [asm!] block. *)
Inductive line :=
| Label (n : nat)
| Li (rd : nat) (v : Z)
| Addi (rd rs : nat) (v : Z)
| Sb (rs : nat) (off : Z) (base : nat)
| Sd_zero (off : Z) (base : nat)
| Ld (rd : nat) (off : Z) (base : nat)
| Jalr_zero (off : Z) (base : nat)
| Beqz (rs n : nat)
| J (n : nat)
| Ecall.
#[export] Instance line_eq_dec : EqDecision line.
Proof. solve_decision. Defined.

Section cpu.
Context (size : line -> Z).

Definition bytes_of (l : line) : Z := match l with Label _ => 0 | _ => size l end.

(** The address of line [i], relative to the first. *)
Definition offset (body : list line) (i : nat) : Z := foldr (fun l z => bytes_of l + z) 0 (take i body).

(** The line at a relative address; a label has no address of its own. *)
Fixpoint line_at (body : list line) (off : Z) : option nat :=
  match body with
  | [] => None
  | Label _ :: body => S <$> line_at body off
  | l :: body => if off =? 0 then Some 0%nat else S <$> line_at body (off - bytes_of l)
  end.

Definition label_of (body : list line) (n : nat) : option nat :=
  fst <$> list_find (fun l => l = Label n) body.

(** ** Addresses of lines *)

Definition size_ok : Prop := size Ecall = 4 /\ forall l, 0 < size l <= 8.

Definition is_instr (l : line) : bool := match l with Label _ => false | _ => true end.

Lemma offset_nonneg body i : size_ok -> 0 <= offset body i <= 8 * Z.of_nat (length body).
Proof.
  intros [_ Hs]. unfold offset. revert i. induction body as [|l body IH]; intros [|i]; cbn [take foldr length]; [lia..|].
  specialize (IH i). destruct l; cbn [bytes_of]; try lia; match goal with |- context [size ?l] => specialize (Hs l); lia end.
Qed.

Lemma line_at_offset body i l : size_ok -> body !! i = Some l -> is_instr l = true ->
  line_at body (offset body i) = Some i.
Proof.
  intros Hs. revert i. induction body as [|l' body IH]; intros [|i] Hl Hi; [done..| |].
  - injection Hl as ->. by destruct l.
  - cbn [lookup list_lookup] in Hl. specialize (IH i Hl Hi). unfold offset in *. cbn [take foldr].
    assert (0 <= foldr (fun l z => bytes_of l + z) 0 (take i body)) as Hn by (apply (offset_nonneg body i Hs)).
    destruct Hs as [_ Hs]. destruct l'; cbn [line_at bytes_of] in *; rewrite ?Z.add_0_l, ?IH; try done;
      match goal with |- context [size ?l] => specialize (Hs l) end; case_match; bool_facts; try lia;
      match goal with |- context [line_at body ?x] => replace x with (foldr (fun l z => bytes_of l + z) 0 (take i body)) by lia end;
      by rewrite IH.
Qed.

Lemma offset_S body i l : body !! i = Some l -> offset body (S i) = offset body i + bytes_of l.
Proof.
  intros H. unfold offset. rewrite (take_S_r _ _ _ H). generalize (take i body). intros xs.
  induction xs as [|x xs IH]; cbn [app foldr]; [lia|]. rewrite IH. lia.
Qed.

(** ** Execution *)

Context {P : Platform} (read_time : Kernel -> Z).

(** The code of each task: where it starts and what it is; and the
    permissions the active page table gives an address. *)
Context (code : nat -> Z * list line) (view : Kernel -> Z -> option Permissions).

(** What user mode may do at an address. *)
Definition allowed (k : Kernel) (need : Permissions -> bool) (va : Z) : bool :=
  match view k va with Some p => p_user p && need p | None => false end.

Definition set_reg (rd : nat) (v : Z) (f : TrapFrame) : TrapFrame :=
  mkFrame (<[rd := wrapping 64 v]> (regs f)) (sepc f) (sstatus f).
Definition set_pc (v : Z) (f : TrapFrame) : TrapFrame := mkFrame (regs f) v (sstatus f).
Definition update (g : TrapFrame -> TrapFrame) : M () := f ← get live; modify (set_live (g f)).

Definition advance (l : line) : M () := update (fun f => set_pc (wrapping_add 64 (sepc f) (size l)) f).
Definition jump (entry : Z) (body : list line) (n : nat) : M () :=
  match label_of body n with
  | Some i => update (set_pc (entry + offset body i))
  | None => crash
  end.

Definition touched (va : Z) (n : nat) : list Z := map (user_addr va) (seq 0 n).
Definition store (need : nat) (va v : Z) : M () :=
  for_each (fun i : nat => write_user (user_addr va i) (wrapping 8 (v .>> (8 * Z.of_nat i)))) (seq 0 need).
Definition load (n : nat) (va : Z) : M Z :=
  get (fun k => foldr (fun a v => umem k (satp k) a + 256 * v) 0 (touched va n)).

(** A memory access of [n] bytes: done if every byte is allowed, else a
    page fault at the address. *)
Definition guarded (need : Permissions -> bool) (cause va : Z) (n : nat) (access : M ()) : M () :=
  ok ← get (fun k => forallb (allowed k need) (touched va n));
  if (ok : bool) then access else trap_handler read_time cause va.

(** What a line does in frame [f]. *)
Definition exec_line (entry : Z) (body : list line) (f : TrapFrame) (l : line) : M () :=
  match l with
  | Label _ => crash
  | Li rd v => update (set_reg rd v) ;; advance l
  | Addi rd rs v => update (set_reg rd (reg f rs + v)) ;; advance l
  | Sb rs off base =>
      let va := wrapping_add 64 (reg f base) off in
      guarded p_write CAUSE_STORE_PAGE_FAULT va 1 (store 1 va (reg f rs) ;; advance l)
  | Sd_zero off base =>
      let va := wrapping_add 64 (reg f base) off in
      guarded p_write CAUSE_STORE_PAGE_FAULT va 8 (store 8 va 0 ;; advance l)
  | Ld rd off base =>
      let va := wrapping_add 64 (reg f base) off in
      guarded p_read CAUSE_LOAD_PAGE_FAULT va 8 (v ← load 8 va; update (set_reg rd v) ;; advance l)
  | Jalr_zero off base => update (set_pc (wrapping_add 64 (reg f base) off))
  | Beqz rs n => if reg f rs =? 0 then jump entry body n else advance l
  | J n => jump entry body n
  | Ecall => trap_handler read_time CAUSE_ECALL_FROM_U 0
  end.

(** One instruction of the current task; where the body has no line, the
    meaning is not known. *)
Definition instr : M () :=
  cur ← get current;
  f ← get live;
  let '(entry, body) := code cur in
  guarded p_execute CAUSE_INSTRUCTION_PAGE_FAULT (sepc f) 1 (
    match line_at body (sepc f - entry) ≫= (fun i => body !! i) with
    | Some l => exec_line entry body f l
    | None => crash
    end).

(** A supervisor timer interrupt. *)
Definition tick : M () := trap_handler read_time (INTERRUPT_BIT .| CAUSE_SUPERVISOR_TIMER) 0.

Inductive event := Instr | Tick.
#[export] Instance hart_event_eq_dec : EqDecision event.
Proof. solve_decision. Defined.
Definition event_step (e : event) : M () := match e with Instr => instr | Tick => tick end.

(** The permissions the tables of the current address space give. *)
Definition hw_view (k : Kernel) (va : Z) : option Permissions :=
  match Arena.translate (space_of linker (user_tables k) (current k)) (mkVirt va) with
  | Val (Some (_, p)) => Some p
  | _ => None
  end.

Lemma touched_one va : va ∈ᵤ 64 -> touched va 1 = [va].
Proof. intros H. unfold touched, user_addr, wrapping_add, wrapping. cbn. rewrite Z.add_0_r, Z.mod_small; done. Qed.

Lemma instr_line k entry body i l : size_ok -> code (current k) = (entry, body) -> sepc (live k) = entry + offset body i ->
  sepc (live k) ∈ᵤ 64 -> body !! i = Some l -> is_instr l = true -> allowed k p_execute (sepc (live k)) = true ->
  instr k = exec_line entry body (live k) l k.
Proof.
  intros Hs Hc Hp Hr Hl Hi Ha. unfold instr, guarded, mbind, M_bind, get. rewrite Hc.
  rewrite touched_one by done. cbn [forallb]. rewrite Ha. cbn [andb]. rewrite Hp.
  replace (entry + offset body i - entry) with (offset body i) by lia.
  rewrite (line_at_offset body i l Hs Hl Hi). cbn. by rewrite Hl.
Qed.

End cpu.

End Machine.
