(* ===== verification/Demos.v ===== *)
(** * The demonstrations and the kernel entry

    Models [arch/riscv64/multitask.rs], [preempt.rs], [watchdog_demo.rs],
    [ipc_demo.rs], [cap_demo.rs], [supervisor_demo.rs] and [demo_full.rs]:
    the bodies of their tasks, line by line, and the boot sequence of each;
    [user/mod.rs], the memory-isolation demonstration with its three probes;
    and [main.rs], which prints the banner, turns on paging and selects one
    of them.

    A body is its [asm!] block.  [timer::init] sets an interrupt-enable bit;
    that a timer interrupt comes only where it was called is part of the
    schedules considered in [DemoRun].  [trap::init] is the assumption that
    traps reach [trap_handler]. *)

From stdpp Require Import strings base decidable numbers option tactics list.
From S2P Require Import Prelude Thread Loader Bytes Caps Memory PageTable Sv39 Paging PagingHw Device Kernel Dispatch.
From S2P Require Import Trap System OsBoot Machine.
Local Open Scope Z_scope.

Module Demos.
Import Machine.

(** ** The bodies *)

(** Line by line as in the [asm!] blocks; [1b] and [3f] name the label. *)

(** [multitask.rs] *)
Definition task_body : list line :=
  [Li s0 2; Label 2; Beqz s0 3; Li a7 1; Ecall; Addi s0 s0 (-1); J 2; Label 3; Li a7 2; Ecall; Label 4; J 4].

(** [preempt.rs] *)
Definition low_loop_body : list line :=
  [Label 1; J 1].
Definition preempt_critical_body : list line :=
  [Li s0 3; Label 2; Beqz s0 3; Li a7 1; Ecall; Addi s0 s0 (-1); J 2; Label 3; Li a7 2; Ecall; Label 4; J 4].

(** [watchdog_demo.rs] *)
Definition watchdog_faulty_body : list line :=
  [Label 1; J 1].
Definition watchdog_critical_body : list line :=
  [Label 1; Li a7 1; Ecall; J 1].

(** [ipc_demo.rs] *)
Definition ipc_receiver_body : list line :=
  [Li a0 0; Li a1 0x200040; Li a2 64; Li a7 4; Ecall; Li a7 2; Ecall; Label 1; J 1].
Definition ipc_sender_body : list line :=
  [Li t0 0x200040; Li t1 0x50; Sb t1 0 t0; Li t1 0x49; Sb t1 1 t0; Li t1 0x4e; Sb t1 2 t0; Li t1 0x47; Sb t1 3 t0;
   Li a0 0; Li a1 0x200040; Li a2 4; Li a7 3; Ecall; Li a7 2; Ecall; Label 1; J 1].

(** [cap_demo.rs] *)
Definition cap_receiver_body : list line :=
  [Li a0 0; Li a1 0x200040; Li a2 64; Li a7 4; Ecall; Li a7 2; Ecall; Label 1; J 1].
Definition cap_faulty_body : list line :=
  [Li a0 0; Li a1 0x200040; Li a2 4; Li a7 3; Ecall; Li a7 2; Ecall; Label 1; J 1].
Definition cap_good_sender_body : list line :=
  [Li t0 0x200040; Li t1 0x50; Sb t1 0 t0; Li t1 0x49; Sb t1 1 t0; Li t1 0x4e; Sb t1 2 t0; Li t1 0x47; Sb t1 3 t0;
   Li a0 0; Li a1 0x200040; Li a2 4; Li a7 3; Ecall; Li a7 2; Ecall; Label 1; J 1].

(** [supervisor_demo.rs] *)
Definition supervisor_body : list line :=
  [Label 1; Li a0 0; Li a1 0x200040; Li a2 64; Li a7 4; Ecall; Li a1 2; Li a7 7; Ecall; J 1].
Definition logger_body : list line :=
  [Label 1; Li a0 0; Li a1 0x200040; Li a2 64; Li a7 4; Ecall; J 1].
Definition supervisor_faulty_body : list line :=
  [Label 1; J 1].

(** [demo_full.rs] *)
Definition full_supervisor_body : list line :=
  [Label 1; Li a0 0; Li a1 0x200040; Li a2 64; Li a7 4; Ecall; Li a1 2; Li a7 7; Ecall; J 1].
Definition full_logger_body : list line :=
  [Label 1; Li a0 0; Li a1 0x200040; Li a2 64; Li a7 4; Ecall; J 1].
Definition full_faulty_body : list line :=
  [Li a0 0; Li a1 0x200040; Li a2 4; Li a7 3; Ecall; Label 1; J 1].
Definition full_critical_body : list line :=
  [Label 1; Li a7 1; Ecall; J 1].

(** ** The tasks of each demonstration *)

Record DemoTask := mkDemoTask { dt_name : string; dt_prio : Z; dt_body : list line }.

Definition multitask_tasks : list DemoTask :=
  [mkDemoTask "task_a" 1 task_body; mkDemoTask "task_b" 1 task_body].
Definition preempt_tasks : list DemoTask :=
  [mkDemoTask "low_loop" 0 low_loop_body; mkDemoTask "critical_task" 7 preempt_critical_body].
Definition watchdog_tasks : list DemoTask :=
  [mkDemoTask "faulty_task" 5 watchdog_faulty_body; mkDemoTask "critical_task" 5 watchdog_critical_body].
Definition ipc_tasks : list DemoTask :=
  [mkDemoTask "receiver" 3 ipc_receiver_body; mkDemoTask "sender" 3 ipc_sender_body].
Definition cap_tasks : list DemoTask :=
  [mkDemoTask "receiver" 3 cap_receiver_body; mkDemoTask "faulty_task" 3 cap_faulty_body;
   mkDemoTask "good_sender" 3 cap_good_sender_body].
Definition supervisor_tasks : list DemoTask :=
  [mkDemoTask "supervisor_task" 6 supervisor_body; mkDemoTask "logger_task" 5 logger_body;
   mkDemoTask "faulty_task" 4 supervisor_faulty_body].
Definition full_tasks : list DemoTask :=
  [mkDemoTask "supervisor_task" 7 full_supervisor_body; mkDemoTask "logger_task" 6 full_logger_body;
   mkDemoTask "faulty_task" 5 full_faulty_body; mkDemoTask "critical_task" 4 full_critical_body].

Definition ENDPOINT_ID : Z := 1.

(** [dispatch::set_endpoint_cap(task, slot, endpoint, rights)], in order. *)
Definition ipc_grants : list (nat * nat * Z * Z) := [(0, 0, ENDPOINT_ID, RIGHT_RECV); (1, 0, ENDPOINT_ID, RIGHT_SEND)]%nat.
Definition cap_grants : list (nat * nat * Z * Z) := [(0, 0, ENDPOINT_ID, RIGHT_RECV); (2, 0, ENDPOINT_ID, RIGHT_SEND)]%nat.
Definition supervisor_grants : list (nat * nat * Z * Z) :=
  [(0, 0, EP_FAULT, RIGHT_RECV .| RIGHT_CONTROL); (1, 0, EP_EVENT, RIGHT_RECV)]%nat.
Definition full_grants : list (nat * nat * Z * Z) :=
  [(0, 0, EP_FAULT, RIGHT_RECV .| RIGHT_CONTROL); (1, 0, EP_EVENT, RIGHT_RECV)]%nat.

(** ** Boot *)

(** Where the linker put the bodies and the stacks, by task. *)
Record Layout := mkLayout { code_phys : nat -> Z; stack_phys : nat -> Z }.

Section boot.
Context {P : Platform} (read_time : Kernel -> Z) (L : Layout).

Definition build_user (i : nat) : M UserAddressSpace :=
  ut ← get user_tables;
  r ← lift (build_user_address_space linker ut i (code_phys L i) (stack_phys L i));
  modify (set_user_tables r.2) ;; mret r.1.

(** One turn of the loop every demonstration starts with. *)
Definition register_demo_task (it : nat * DemoTask) : M () :=
  uas ← build_user it.1;
  register_task it.1 (dt_name it.2) (dt_prio it.2) (root uas) (entry_va uas) (stack_top_va uas) ;;
  put_str "TASK_STARTED task=" ;; put_str (dt_name it.2) ;; put_str nl.
Definition grant (g : nat * nat * Z * Z) : M () :=
  let '(i, slot, id, r) := g in set_endpoint_cap i slot id r.

Definition demo_boot (ts : list DemoTask) (grants : list (nat * nat * Z * Z)) (timer : bool) : M (Z * Z) :=
  for_each register_demo_task (imap pair ts) ;;
  for_each grant grants ;;
  (if timer then arm_next read_time else mret tt) ;;
  start.

Definition multitask_demo : M (Z * Z) := demo_boot multitask_tasks [] false.
Definition preempt_demo : M (Z * Z) := demo_boot preempt_tasks [] true.
Definition watchdog_demo : M (Z * Z) := demo_boot watchdog_tasks [] true.
Definition ipc_demo : M (Z * Z) := demo_boot ipc_tasks ipc_grants false.
Definition cap_demo : M (Z * Z) := demo_boot cap_tasks cap_grants false.
Definition supervisor_demo : M (Z * Z) := demo_boot supervisor_tasks supervisor_grants true.
Definition demo_full : M (Z * Z) := demo_boot full_tasks full_grants true.

(** [__enter_user]: the program counter, the stack and user privilege; the
    other registers hold what the kernel left in them. *)
Definition enter_user (left : list Z) (status : Z) (e : Z * Z) : M () :=
  modify (set_live (mkFrame (<[1%nat := e.2]> left) e.1 (status .& bitnot 64 SSTATUS_SPP))).

(** ** [user/mod.rs] *)

Definition KERNEL_PROBE_ADDR : Z := 0x80200000.
Definition UNMAPPED_USER_ADDR : Z := 0x400000.
Definition NONEXEC_USER_ADDR : Z := 0x200000.

(** The access [demo_user_task] is built with. *)
Inductive Probe := ReadKernel | WriteUnmapped | ExecNonexec.
Definition demo_user_task (p : Probe) : list line :=
  match p with
  | WriteUnmapped => [Li t0 UNMAPPED_USER_ADDR; Sd_zero 0 t0]
  | ExecNonexec => [Li t0 NONEXEC_USER_ADDR; Jalr_zero 0 t0]
  | ReadKernel => [Li t0 KERNEL_PROBE_ADDR; Ld t1 0 t0]
  end.

(** Link addresses: the continuation and the boot stack. *)
Context (user_demo_done_pc __stack_top : Z).

Definition user_demo_done : M () :=
  put_line "USER demo=memory_isolation result=contained kernel=survived" ;;
  put_line "phase=user-demo-complete" ;;
  stop IdleLoop.

Definition first_user_task_demo : M (Z * Z) :=
  let spec := UserImage_new (mkVirt 0x10000) (mkVirt (0x200000 + PAGE_SIZE)) PAGE_SIZE (mkAddressSpaceId 1) in
  if negb (is_ok spec) then
    put_line "PANIC kernel=axiomrt reason=invalid_user_image_spec" ;; stop IdleLoop
  else
    set_user_fault_continuation user_demo_done_pc __stack_top ;;
    uas ← build_user 0;
    switch_to_user_space (root uas) ;;
    put_line "USER enter=demo_task mode=U isolation=memory" ;;
    mret (entry_va uas, stack_top_va uas).

(** ** [main.rs] *)

Record Features := mkFeatures {
  f_os_boot : bool; f_demo_full : bool; f_demo_supervisor : bool; f_demo_cap : bool; f_demo_ipc : bool;
  f_demo_watchdog : bool; f_demo_preempt : bool; f_demo_multitask : bool
}.

Inductive Choice := COs | CFull | CSupervisor | CCap | CIpc | CWatchdog | CPreempt | CMultitask | CFirstUser.

(** The blocks the [cfg] attributes leave in [kernel_main], in order. *)
Definition blocks (f : Features) : list Choice :=
  let '(mkFeatures os full sup cap ipc wd pre mt) := f in
  let block (on : bool) (c : Choice) := if on then [c] else [] in
  block os COs ++
  block (full && negb os) CFull ++
  block (sup && negb full && negb os) CSupervisor ++
  block (cap && negb sup && negb full && negb os) CCap ++
  block (ipc && negb cap && negb sup && negb os) CIpc ++
  block (wd && negb ipc && negb cap && negb os) CWatchdog ++
  block (pre && negb wd && negb ipc && negb cap && negb os) CPreempt ++
  block (mt && negb pre && negb wd && negb ipc && negb cap && negb os) CMultitask ++
  block (negb (mt || pre || wd || ipc || cap || sup || full || os)) CFirstUser.

Context (OL : Boot.Layout).

Definition entry_of (c : Choice) : M (Z * Z) :=
  match c with
  | COs => Boot.os_boot read_time OL
  | CFull => demo_full
  | CSupervisor => supervisor_demo
  | CCap => cap_demo
  | CIpc => ipc_demo
  | CWatchdog => watchdog_demo
  | CPreempt => preempt_demo
  | CMultitask => multitask_demo
  | CFirstUser => first_user_task_demo
  end.

Definition enable_paging : M () :=
  r ← lift (enable_kernel_paging linker fresh_tables);
  modify (set_satp r.1) ;;
  put_line "MMU status=enabled mode=sv39 scope=kernel".

(** None of the blocks returns, so the first one decides. *)
Definition kernel_main (f : Features) : M (Z * Z) :=
  put_line "AxiomRT kernel booted" ;; put_line "arch=riscv64" ;; put_line "phase=boot" ;;
  enable_paging ;;
  match blocks f with c :: _ => entry_of c | [] => crash end.

(** Every choice of features boots something, and it is the first feature of
    the documented order that is set. *)
Lemma kernel_main_selects f : exists rest, blocks f =
  (if f_os_boot f then COs else if f_demo_full f then CFull else if f_demo_supervisor f then CSupervisor
   else if f_demo_cap f then CCap else if f_demo_ipc f then CIpc else if f_demo_watchdog f then CWatchdog
   else if f_demo_preempt f then CPreempt else if f_demo_multitask f then CMultitask else CFirstUser) :: rest.
Proof. destruct f as [[] [] [] [] [] [] [] []]; by eexists. Qed.

End boot.

End Demos.
