(* ===== verification/Isolation.v ===== *)
(** * The memory-isolation demonstration

    [user/mod.rs] runs one task that makes a forbidden access: it reads
    kernel memory, writes an unmapped address, or jumps into its own
    non-executable stack.  The theorem follows the whole demonstration, from
    the statics to the last line it prints, through the page tables
    [build_user_address_space] builds and the trap handler. *)

From stdpp Require Import strings base decidable numbers option tactics list.
From S2P Require Import Prelude Bytes Caps Memory PageTable Sv39 Paging PagingHw Capacity Device Kernel Dispatch.
From S2P Require Import DispatchLogic Trap TrapSafe System OsBoot Machine Demos.
Local Open Scope Z_scope.

Module Isolation.
Import Machine Demos.

(** What [put_str] sends: a carriage return before each newline. *)
Definition text (s : string) : list Z := concat (map (fun b => if b =? 10 then [13; b] else [b]) (bstr s)).

Lemma put_str_text s k : put_str s k = Ret tt (set_uart_out (uart_out k ++ text s) k).
Proof.
  unfold put_str, text, put_str_bytes. generalize (bstr s). intros l. set (F := fun b : Z => _).
  assert (forall b k, F b k = Ret tt (set_uart_out (uart_out k ++ (if b =? 10 then [13; b] else [b])) k)) as HF.
  { intros b k1. unfold F. destruct (b =? 10); [|done]. unfold put_byte, mbind, M_bind, get, modify. ksimpl.
    by rewrite <- ?app_assoc. }
  revert k. induction l as [|b l IH]; intros k; cbn [map concat].
  - cbn. rewrite app_nil_r. by destruct k.
  - change (for_each F (b :: l) k) with
      (match F b k with Ret _ k' => for_each F l k' | Stop r k' => Stop r k' | Crash => Crash end).
    rewrite HF, IH. ksimpl. by rewrite <- app_assoc.
Qed.

Lemma wp_put_str s Q S k : Q tt (set_uart_out (uart_out k ++ text s) k) -> wp (put_str s) Q S k.
Proof. unfold wp. by rewrite put_str_text. Qed.

Definition contained (reason : string) : list Z :=
  text "CONTAIN scope=user reason=" ++ text reason ++ text (" action=terminate_task kernel=alive" +:+ nl).

(** The instructions the probe needs, and why the kernel refuses it. *)
Definition probe_steps (p : Probe) : nat := match p with ExecNonexec => 3 | _ => 2 end.
Definition probe_reason (p : Probe) : string :=
  match p with
  | ReadKernel => "user_access_kernel_memory"
  | WriteUnmapped => "user_access_unmapped"
  | ExecNonexec => "user_execute_nonexecutable"
  end.

Section isolation.
Context {P : Platform} (read_time : Kernel -> Z) (size : line -> Z) (L : Layout).
Context (user_demo_done_pc __stack_top : Z).

Definition code_of (p : Probe) (_ : nat) : Z * list line :=
  (USER_CODE_VA + (code_phys L 0 .& 0xfff), demo_user_task p).

(** The demonstration: boot, user mode, the probe, and the continuation the
    trap handler returned to in kernel mode. *)
Definition probe_run (p : Probe) (left : list Z) (status : Z) : M () :=
  e ← first_user_task_demo L user_demo_done_pc __stack_top;
  enter_user left status e ;;
  for_each (fun _ => instr size read_time (code_of p) hw_view) (seq 0 (probe_steps p)).
Definition isolation_run (p : Probe) (left : list Z) (status : Z) : M () :=
  probe_run p left status ;;
  f ← get live;
  if negb (is_from_user f) && (sepc f =? user_demo_done_pc) && (reg f 1 =? __stack_top)
  then user_demo_done else crash.

Hypothesis (Himage : Fit.linker_fits linker) (Hsize : size_ok size).
Hypothesis (Hcode : code_phys L 0 ∈ᵤ 55) (Hstack : stack_phys L 0 ∈ᵤ 55).
Hypothesis (Hpc : user_demo_done_pc <> 0) (Hsp : __stack_top <> 0).

(** The state in which the probe runs. *)
Definition probing (um : Z -> Z -> Z) (k : Kernel) : Prop :=
  active k = false /\ current k = 0%nat /\ cont_pc k = user_demo_done_pc /\ cont_sp k = __stack_top /\
  umem k = um /\ length (regs (live k)) = 31%nat /\ is_from_user (live k) = true /\
  forall va, va ∈ᵤ 39 -> hw_view k va = snd <$> user_view linker (code_phys L 0) (stack_phys L 0) va.

(** What is left once the fault is contained. *)
Definition halted (um : Z -> Z -> Z) (reason : string) (k : Kernel) : Prop :=
  umem k = um /\ is_from_user (live k) = false /\ sepc (live k) = user_demo_done_pc /\
  reg (live k) 1 = __stack_top /\ exists pre, uart_out k = pre ++ contained reason.

Lemma land_spp x : (x .| SSTATUS_SPP) .& SSTATUS_SPP = SSTATUS_SPP.
Proof.
  apply Z.bits_inj'. intros i Hi. rewrite Z.land_spec, Z.lor_spec.
  by destruct (Z.testbit x i), (Z.testbit SSTATUS_SPP i).
Qed.

Lemma page_fault_contained um cause va k S : probing um k ->
  cause = CAUSE_INSTRUCTION_PAGE_FAULT \/ cause = CAUSE_LOAD_PAGE_FAULT \/ cause = CAUSE_STORE_PAGE_FAULT ->
  wp (trap_handler read_time cause va) (fun _ => halted um (page_fault_reason cause va)) S k.
Proof.
  intros (Ha & Hc & Hp & Hs & Hm & Hl & Hu & _) Hcause.
  assert (trap_handler read_time cause va =
    (report "page-fault" cause va ;;
     fault_path (page_fault_reason cause va) "PANIC kernel=axiomrt reason=kernel_page_fault phase=trap")) as ->
    by (by destruct Hcause as [-> | [-> | ->]]).
  kstep. kstep. unfold fault_path. kstep. kstep. rewrite Hu.
  kstep. unfold contain_fault. kstep. kstep. rewrite Ha. cbn [negb]. kstep.
  cbn beta. kstep. unfold contain_user_fault. do 4 kstep. rewrite Hp, Hs.
  rewrite (proj2 (Z.eqb_neq _ _) Hpc), (proj2 (Z.eqb_neq _ _) Hsp). cbn [orb].
  kstep. apply wp_put_str. kstep. apply wp_put_str. kstep. unfold put_line. apply wp_put_str. do 5 kstep. kstep.
  unfold halted. ksimpl. split; [done|]. split; [|split; [done|split]].
  - unfold is_from_user. cbn [sstatus]. by rewrite land_spp.
  - unfold reg. cbn [regs]. by rewrite list_lookup_insert_eq by lia.
  - unfold contained. rewrite <- !app_assoc. eauto.
Qed.

Definition entry : Z := USER_CODE_VA + (code_phys L 0 .& 0xfff).

Lemma entry_range : 0x10000 <= entry < 0x11000.
Proof.
  unfold entry, USER_CODE_VA. change 0xfff with (Z.ones 12). rewrite Z.land_ones by lia.
  pose proof (Z.mod_pos_bound (code_phys L 0) (2 ^ 12)). lia.
Qed.

Lemma probing_exec um k va : probing um k -> 0x10000 <= va < 0x12000 -> allowed hw_view k p_execute va = true.
Proof.
  intros (_ & _ & _ & _ & _ & _ & _ & V) Hva. unfold allowed. rewrite V by (unfold uint; lia).
  unfold user_view. rewrite decide_False by (unfold in_span, USER_STACK_VA; lia).
  by rewrite decide_True by (unfold in_span, USER_CODE_VA; lia).
Qed.

(** Nothing of the kernel part is open to user mode. *)
Lemma kernel_view_closed va pa p : kernel_view linker va = Some (pa, p) -> p_user p = false.
Proof. unfold kernel_view. by repeat case_decide; intros [= <- <-]. Qed.

Lemma probing_closed um k need va : probing um k -> va ∈ᵤ 39 -> ~ 0x10000 <= va < 0x12000 -> ~ 0x200000 <= va < 0x201000 ->
  allowed hw_view k need va = false.
Proof.
  intros (_ & _ & _ & _ & _ & _ & _ & V) Hva H1 H2. unfold allowed. rewrite V by done.
  unfold user_view. rewrite decide_False by (unfold in_span, USER_STACK_VA; lia).
  rewrite decide_False by (unfold in_span, USER_CODE_VA; lia).
  destruct (kernel_view linker va) as [[pa p]|] eqn:E; [|done]. cbn. by rewrite (kernel_view_closed _ _ _ E).
Qed.

(** The stack page is not executable. *)
Lemma probing_stack um k : probing um k -> allowed hw_view k p_execute NONEXEC_USER_ADDR = false.
Proof. intros (_ & _ & _ & _ & _ & _ & _ & V). unfold allowed. by rewrite V by (by vm_compute). Qed.

Lemma wp_instr_line um k p i l Q S : probing um k -> sepc (live k) = entry + offset size (demo_user_task p) i ->
  demo_user_task p !! i = Some l -> is_instr l = true ->
  wp (exec_line size read_time hw_view entry (demo_user_task p) (live k) l) Q S k ->
  wp (instr size read_time (code_of p) hw_view) Q S k.
Proof.
  intros Hk Hp Hl Hi HQ. pose proof entry_range as He. pose proof (offset_nonneg size (demo_user_task p) i Hsize) as Ho.
  assert (length (demo_user_task p) = 2%nat) as Hlen by (by destruct p). rewrite Hlen in Ho.
  unfold wp. rewrite (instr_line size read_time (code_of p) hw_view k entry (demo_user_task p) i l); try done.
  - rewrite Hp. unfold uint. lia.
  - eapply probing_exec; [done|]. rewrite Hp. lia.
Qed.

(** The frame of a state in which the probe runs can be replaced. *)
Lemma probing_live um k f : probing um k -> length (regs f) = 31%nat -> is_from_user f = true -> probing um (set_live f k).
Proof. intros (? & ? & ? & ? & ? & _ & _ & V) ? ?. repeat split; try done. Qed.

(** The first line loads the address. *)
Lemma wp_load_address um k p v Q S : probing um k -> sepc (live k) = entry ->
  demo_user_task p !! 0%nat = Some (Li t0 v) -> v ∈ᵤ 64 ->
  (forall k', probing um k' -> sepc (live k') = entry + offset size (demo_user_task p) 1 -> reg (live k') t0 = v -> Q tt k') ->
  wp (instr size read_time (code_of p) hw_view) Q S k.
Proof.
  intros Hk Hp Hl Hv HQ. pose proof entry_range as He.
  eapply (wp_instr_line um k p 0); [done| |done|done|]; [by rewrite Hp; unfold offset; rewrite take_0; cbn [foldr]; lia|].
  unfold exec_line, update, advance. do 3 kstep. unfold update. do 2 kstep. apply HQ.
  - apply probing_live; [by apply probing_live; [done|cbn; rewrite length_insert; apply Hk|apply Hk]
                        |cbn; rewrite length_insert; apply Hk|apply Hk].
  - rewrite (offset_S size _ 0 (Li t0 v)) by done. unfold offset. rewrite take_0. cbn [foldr bytes_of].
    cbn [live set_live set_pc set_reg sepc]. rewrite Hp.
    destruct Hsize as [_ Hs]. specialize (Hs (Li t0 v)). unfold wrapping_add, wrapping. rewrite Z.mod_small; lia.
  - cbn. unfold reg. cbn. rewrite list_lookup_insert_eq by (destruct Hk as (_ & _ & _ & _ & _ & -> & _); unfold t0; lia).
    cbn. unfold wrapping. by rewrite Z.mod_small.
Qed.

(** An access that is not allowed at its first byte is a page fault. *)
Lemma wp_refused um k need cause va n m : probing um k -> va ∈ᵤ 64 -> allowed hw_view k need va = false ->
  cause = CAUSE_INSTRUCTION_PAGE_FAULT \/ cause = CAUSE_LOAD_PAGE_FAULT \/ cause = CAUSE_STORE_PAGE_FAULT ->
  wp (guarded read_time hw_view need cause va (S n) m) (fun _ => halted um (page_fault_reason cause va)) (fun _ => False) k.
Proof.
  intros Hk Hv Ha Hc. unfold guarded. do 2 kstep. unfold touched, user_addr, wrapping_add, wrapping. cbn [seq map forallb].
  rewrite Z.add_0_r, Z.mod_small, Ha by done. by apply page_fault_contained.
Qed.

(** The probe after its address is loaded. *)
Lemma wp_probe um k p v l Q S : probing um k -> sepc (live k) = entry -> demo_user_task p = [Li t0 v; l] -> v ∈ᵤ 64 ->
  is_instr l = true ->
  (forall k', probing um k' -> reg (live k') t0 = v ->
     wp (exec_line size read_time hw_view entry (demo_user_task p) (live k') l) Q S k') ->
  wp (instr size read_time (code_of p) hw_view) (fun _ => wp (instr size read_time (code_of p) hw_view) Q S) S k.
Proof.
  intros Hk Hp Hb Hv Hi HQ. eapply wp_load_address; [done|done|by rewrite Hb|done|]. intros k' Hk' Hp' Hr'.
  eapply (wp_instr_line um k' p 1); [done|done|by rewrite Hb|done|]. by apply HQ.
Qed.

Lemma wp_done (m : M ()) Q k : wp m Q (fun _ => False) k -> wp (m ;; mret tt) Q (fun _ => False) k.
Proof. intros H. kstep. eapply wp_mono; [exact H| |done]. by intros [] k'. Qed.

Lemma probe_refused um k p : probing um k -> sepc (live k) = entry ->
  wp (for_each (fun _ => instr size read_time (code_of p) hw_view) (seq 0 (probe_steps p)))
    (fun _ => halted um (probe_reason p)) (fun _ => False) k.
Proof.
  intros Hk Hp. destruct p; cbn [probe_steps seq for_each]; kstep.
  - eapply wp_mono; [eapply (wp_probe um k ReadKernel KERNEL_PROBE_ADDR _ (fun _ => halted um (probe_reason ReadKernel)) (fun _ => False)); [done|done|reflexivity|by vm_compute|done|]| |done].
    2: intros [] k1 H1; by apply wp_done.
    intros k1 Hk1 Hr1. cbn [exec_line]. rewrite Hr1. change (wrapping_add 64 KERNEL_PROBE_ADDR 0) with 0x80200000.
    apply (wp_refused um k1 p_read CAUSE_LOAD_PAGE_FAULT); [done|by vm_compute| |auto].
    apply (probing_closed um); [done|by vm_compute|lia..].
  - eapply wp_mono; [eapply (wp_probe um k WriteUnmapped UNMAPPED_USER_ADDR _ (fun _ => halted um (probe_reason WriteUnmapped)) (fun _ => False)); [done|done|reflexivity|by vm_compute|done|]| |done].
    2: intros [] k1 H1; by apply wp_done.
    intros k1 Hk1 Hr1. cbn [exec_line]. rewrite Hr1. change (wrapping_add 64 UNMAPPED_USER_ADDR 0) with 0x400000.
    apply (wp_refused um k1 p_write CAUSE_STORE_PAGE_FAULT); [done|by vm_compute| |auto].
    apply (probing_closed um); [done|by vm_compute|lia..].
  - eapply wp_mono; [eapply (wp_probe um k ExecNonexec NONEXEC_USER_ADDR _
      (fun _ => wp (instr size read_time (code_of ExecNonexec) hw_view) (fun _ => halted um (probe_reason ExecNonexec)) (fun _ => False))
      (fun _ => False)); [done|done|reflexivity|by vm_compute|done|]| |done].
    2: intros [] k1 H1; kstep; eapply wp_mono; [exact H1| |done]; intros [] k2 H2; apply wp_done; exact H2.
    intros k1 Hk1 Hr1. cbn [exec_line]. unfold update. do 2 kstep. rewrite Hr1.
    set (k2 := set_live (set_pc NONEXEC_USER_ADDR (live k1)) k1).
    apply wp_modify. change (wp (instr size read_time (code_of ExecNonexec) hw_view)
      (fun _ => halted um (probe_reason ExecNonexec)) (fun _ => False) k2).
    assert (probing um k2) as Hk2 by (apply probing_live; [done|apply Hk1..]).
    unfold instr. do 4 kstep. cbn [code_of].
    apply (wp_refused um k2 p_execute CAUSE_INSTRUCTION_PAGE_FAULT NONEXEC_USER_ADDR); [done|by vm_compute| |auto].
    by apply (probing_stack um).
Qed.

Lemma wp_first_user_task um left status : length left = 31%nat ->
  wp (e ← first_user_task_demo L user_demo_done_pc __stack_top; enter_user left status e)
    (fun _ k => probing um k /\ sepc (live k) = entry) (fun _ => False) (static_state um).
Proof.
  intros Hl. pose proof (Fit.lf_ok _ Himage) as Hlink.
  destruct (Fit.user_space_fits linker Himage (replicate MAX_USER_AS fresh_tables) 0 (code_phys L 0) (stack_phys L 0))
    as [[uas ts] E]; [done|unfold MAX_USER_AS; lia|done..|]. kstep. unfold first_user_task_demo.
  change (negb (is_ok _)) with false. cbn iota. unfold set_user_fault_continuation, build_user.
  do 6 kstep. kstep. kstep. eapply wp_lift; [exact E|]. do 2 kstep. kstep. kstep. unfold switch_to_user_space. kstep.
  do 3 kstep. unfold enter_user. kstep. split.
  - unfold probing. ksimpl. repeat (split; [done|]). split; [cbn; by rewrite length_insert|]. split.
    + unfold is_from_user. cbn [sstatus]. rewrite <- Z.land_assoc. change (bitnot 64 SSTATUS_SPP .& SSTATUS_SPP) with 0.
      by rewrite Z.land_0_r.
    + intros va Hva. unfold hw_view. ksimpl. cbn [static_state current snd].
      rewrite (user_space_translates _ _ _ _ _ _ _ _ Hlink (eq_refl : replicate MAX_USER_AS fresh_tables !! 0%nat = _) Hcode Hstack Hva E).
      by destruct (user_view _ _ _ _) as [[? ?]|].
  - ksimpl. cbn [sepc fst]. unfold build_user_address_space in E. revert E. clear. case_decide; [|done].
    unfold mbind, outcome_bind. repeat case_match; try done. by intros [= <- <-].
Qed.

(** C16. Each of the three forbidden accesses ends the same way: nothing of user
    memory changes, the trap handler contains the fault with the reason that
    fits the access, execution continues in the kernel at the registered
    continuation on the boot stack, and the demonstration prints that the
    kernel survived and halts.  No access reaches memory, whatever the
    linker placed where. *)
Theorem isolation_demo_contained p um left status : length left = 31%nat ->
  exists k pre, isolation_run p left status (static_state um) = Stop IdleLoop k /\ umem k = um /\
    uart_out k = pre ++ contained (probe_reason p) ++
      text ("USER demo=memory_isolation result=contained kernel=survived" +:+ nl) ++
      text ("phase=user-demo-complete" +:+ nl).
Proof.
  intros Hl.
  assert (wp (probe_run p left status) (fun _ => halted um (probe_reason p)) (fun _ => False) (static_state um)) as H.
  { pose proof (wp_first_user_task um left status Hl) as H. apply Boot.wp_bind_inv in H. unfold probe_run.
    kstep. eapply wp_mono; [exact H| |done]. intros e k0 H0. kstep. eapply wp_mono; [exact H0| |done].
    intros [] k1 [Hk1 Hp1]. by apply probe_refused. }
  destruct (Boot.wp_returns _ _ _ H) as ([] & k & E & Hm & Hf & Hpc2 & Hsp2 & pre & Ho).
  eexists _, pre. unfold isolation_run, mbind at 1, M_bind at 1. rewrite E. unfold mbind at 1, M_bind at 1, get.
  rewrite Hf, Hpc2, Hsp2, !Z.eqb_refl. cbn [negb andb]. unfold user_demo_done, put_line, mbind, M_bind.
  rewrite !put_str_text. split; [reflexivity|]. ksimpl. split; [exact Hm|]. rewrite Ho. by rewrite <- !app_assoc.
Qed.

End isolation.

(** ** A sample layout *)

Definition sample_size (_ : line) : Z := 4.
Definition sample_layout : Layout :=
  mkLayout (fun i => 0x80201000 + 0x100 * Z.of_nat i) (fun i => 0x80230000 + 0x1000 * Z.of_nat i).

Lemma sample_size_ok : size_ok sample_size.
Proof. split; [reflexivity|]. intros l. unfold sample_size. lia. Qed.

Lemma isolation_demo_contained_witness : exists k pre,
  isolation_run sample_time sample_size sample_layout 0x80202000 0x80240000 ReadKernel (replicate 31 7) 0
    (static_state blank) = Stop IdleLoop k /\ umem k = blank /\
  uart_out k = pre ++ contained "user_access_kernel_memory" ++
      text ("USER demo=memory_isolation result=contained kernel=survived" +:+ nl) ++
      text ("phase=user-demo-complete" +:+ nl).
Proof.
  apply (isolation_demo_contained sample_time sample_size sample_layout 0x80202000 0x80240000).
  - exact Fit.sample_linker_fits.
  - exact sample_size_ok.
  - vm_compute. split; congruence.
  - vm_compute. split; congruence.
  - lia.
  - lia.
  - reflexivity.
Defined.

End Isolation.
