(* ===== verification/DemoSim.v ===== *)
(** * Runs that differ only in what the kernel never looks at

    Two kernels of possibly different builds are related ([sim]) when their
    scheduling state agrees: tasks, endpoints, watchdog, interrupt routes and
    registers, up to where the code of the tasks was linked.  What is printed,
    the counters, the event ring, message contents and memory may differ.
    Every path of the trap handler the demonstrations use keeps them
    related: nothing of the ignored state influences scheduling.

    This reduces a demonstration under an arbitrary platform to one
    execution that can be computed ([DemoRun]).  On the computed side a
    register may be [UNKNOWN], which stands for any value. *)

From stdpp Require Import strings base decidable numbers option tactics list.
From S2P Require Import Prelude Bytes Caps Memory PageTable Sv39 Paging PagingHw Device Kernel Dispatch.
From S2P Require Import DispatchLogic Trap.
Local Open Scope Z_scope.

Module DemoSim.

(** ** Relational weakest preconditions *)

Definition rwp {A B} (m1 : M A) (m2 : M B) (Q : A -> B -> Kernel -> Kernel -> Prop) (S : Kernel -> Kernel -> Prop)
    (k1 k2 : Kernel) : Prop :=
  match m1 k1, m2 k2 with
  | Ret a k, Ret b k' => Q a b k k'
  | Stop r k, Stop r' k' => r = r' /\ S k k'
  | Crash, Crash => True
  | _, _ => False
  end.

Lemma rwp_bind {A B A' B'} (m1 : M A) (m2 : M B) (f1 : A -> M A') (f2 : B -> M B') Q S k1 k2 :
  rwp m1 m2 (fun a b => rwp (f1 a) (f2 b) Q S) S k1 k2 -> rwp (m1 ≫= f1) (m2 ≫= f2) Q S k1 k2.
Proof. unfold rwp, mbind, M_bind. by destruct (m1 k1), (m2 k2). Qed.
Lemma rwp_mono {A B} (m1 : M A) (m2 : M B) Q Q' (S S' : Kernel -> Kernel -> Prop) k1 k2 : rwp m1 m2 Q S k1 k2 ->
  (forall a b k k', Q a b k k' -> Q' a b k k') -> (forall k k', S k k' -> S' k k') -> rwp m1 m2 Q' S' k1 k2.
Proof. unfold rwp. destruct (m1 k1), (m2 k2); naive_solver. Qed.

(** ** Output only appends *)

Class Prints {A} (m : M A) : Prop := prints : forall k, exists a o, m k = Ret a (set_uart_out (uart_out k ++ o) k).

#[export] Instance prints_ret {A} (a : A) : Prints (mret a).
Proof. intros k. exists a, []. rewrite app_nil_r. by destruct k. Qed.
#[export] Instance prints_bind {A B} (m : M A) (f : A -> M B) : Prints m -> (forall a, Prints (f a)) -> Prints (m ≫= f).
Proof.
  intros Hm Hf k. destruct (Hm k) as (a & o & E). destruct (Hf a (set_uart_out (uart_out k ++ o) k)) as (b & o' & E').
  exists b, (o ++ o'). unfold mbind, M_bind. rewrite E, E'. ksimpl. by rewrite app_assoc.
Qed.
#[export] Instance prints_if {A} (b : bool) (m m' : M A) : Prints m -> Prints m' -> Prints (if b then m else m').
Proof. by destruct b. Qed.
#[export] Instance prints_put_byte b : Prints (put_byte b).
Proof. intros k. by eexists _, _. Qed.
#[export] Instance prints_for_each {A} (f : A -> M ()) l : (forall a, Prints (f a)) -> Prints (for_each f l).
Proof. intros Hf. induction l; simpl; apply _. Qed.
#[export] Instance prints_put_str s : Prints (put_str s).
Proof. unfold put_str, put_str_bytes. apply _. Qed.
#[export] Instance prints_put_line s : Prints (put_line s).
Proof. unfold put_line. apply _. Qed.
#[export] Instance prints_emit p n : Prints (emit p n).
Proof. unfold emit. apply _. Qed.
#[export] Instance prints_put_dec v : Prints (put_dec v).
Proof. unfold put_dec, put_bytes. apply _. Qed.
#[export] Instance prints_emit_irq a b : Prints (emit_irq_delivered a b).
Proof. unfold emit_irq_delivered. apply _. Qed.

Section sim.
(** Program counters of task [j] that correspond; the tables and the output
    the first kernel had at the start. *)
Context (R : nat -> Z -> Z -> Prop) (UT : list (list Table)) (O : list Z).

Definition UNKNOWN : Z := -1.
Definition rsim (x y : Z) : Prop := y = UNKNOWN \/ x = y.
Definition fsim (j : nat) (f1 f2 : TrapFrame) : Prop := Forall2 rsim (regs f1) (regs f2) /\ R j (sepc f1) (sepc f2).
Definition psim (p1 p2 : option PendingMsg) : Prop :=
  match p1, p2 with
  | Some a, Some b => pm_dst a = pm_dst b /\ pm_len a = pm_len b /\ length (pm_data a) = length (pm_data b)
  | None, None => True
  | _, _ => False
  end.
Record tsim (j : nat) (t1 t2 : Tcb) : Prop := {
  ts_state : t_state t1 = t_state t2; ts_prio : t_prio t1 = t_prio t2; ts_caps : t_caps t1 = t_caps t2;
  ts_name : t_name t1 = t_name t2; ts_frame : fsim j (t_frame t1) (t_frame t2);
  ts_pending : psim (t_pending_ipc t1) (t_pending_ipc t2)
}.
Definition tasks_sim (ts1 ts2 : list Tcb) : Prop :=
  length ts1 = length ts2 /\ forall j t1 t2, ts1 !! j = Some t1 -> ts2 !! j = Some t2 -> tsim j t1 t2.

(** [c] is the current task and the live frame is task [o]'s: they differ
    only while a task is being resumed. *)
Record sim (o c : nat) (k1 k2 : Kernel) : Prop := {
  sm_tasks : tasks_sim (tasks k1) (tasks k2);
  sm_cur1 : current k1 = c; sm_cur2 : current k2 = c;
  sm_active : active k1 = active k2;
  sm_watchdog : watchdog_miss k1 = watchdog_miss k2;
  sm_endpoints : endpoints k1 = endpoints k2;
  sm_irq : irq_routes k1 = irq_routes k2;
  sm_kmsg : length (kmsg k1) = length (kmsg k2);
  sm_ring : length (ring k1) = length (ring k2);
  sm_ring1 : length (ring k1) = RING_LEN;
  sm_live : fsim o (live k1) (live k2);
  sm_tables : user_tables k1 = UT;
  sm_out : O `prefix_of` uart_out k1
}.
Definition stopped (k1 k2 : Kernel) : Prop := exists o c, sim o c k1 k2.

(** From related states with the owners [I] admits, [m1] and [m2] do the
    same and end in [Q]. *)
Definition related {A B} (I : nat -> nat -> Prop) (Q : nat -> nat -> A -> B -> Kernel -> Kernel -> Prop)
    (m1 : M A) (m2 : M B) : Prop :=
  forall o c k1 k2, I o c -> sim o c k1 k2 -> rwp m1 m2 (Q o c) stopped k1 k2.
Definition any (_ _ : nat) : Prop := True.
Definition settled (k1 k2 : Kernel) : Prop := exists c, sim c c k1 k2.
(** The states stay related and the current task stays. *)
Definition same {A} (o c : nat) (a b : A) (k k' : Kernel) : Prop := a = b /\ sim o c k k'.
Definition keeps {A} : M A -> M A -> Prop := related any same.
(** The handler ends with the current task's frame live. *)
Definition lands : M () -> M () -> Prop := related any (fun _ _ _ _ => settled).
Definition handles : M () -> M () -> Prop := related eq (fun _ _ _ _ => settled).

Lemma keeps_ret {A} (a : A) : keeps (mret a) (mret a).
Proof. intros o c k1 k2 _ H. by split. Qed.
Lemma rel_bind {A B C} I Q (m1 m2 : M A) (f1 : A -> M B) (f2 : A -> M C) : keeps m1 m2 ->
  (forall a, related I Q (f1 a) (f2 a)) -> related I Q (m1 ≫= f1) (m2 ≫= f2).
Proof.
  intros Hm Hf o c k1 k2 HI H. apply rwp_bind. eapply rwp_mono; [by apply Hm| |done].
  intros a b k k' [-> H']. by apply Hf.
Qed.
Lemma keeps_handles (m1 m2 : M ()) : keeps m1 m2 -> handles m1 m2.
Proof. intros H c c' k1 k2 <- Hs. eapply rwp_mono; [by apply H| |done]. intros [] [] k k' [_ H']. by exists c. Qed.
Lemma lands_handles (m1 m2 : M ()) : lands m1 m2 -> handles m1 m2.
Proof. intros H o c k1 k2 _. by apply H. Qed.
Lemma rel_if {A B} I Q (b : bool) (m1 n1 : M A) (m2 n2 : M B) : related I Q m1 m2 -> related I Q n1 n2 ->
  related I Q (if b then m1 else n1) (if b then m2 else n2).
Proof. by destruct b. Qed.
Lemma rel_stop {A B} I Q r : related (A := A) (B := B) I Q (stop r) (stop r).
Proof. intros o c k1 k2 _ H. unfold rwp, stop. split; [done|]. by exists o, c. Qed.
Lemma rel_crash {A B} I Q : related (A := A) (B := B) I Q crash crash.
Proof. by intros o c k1 k2 _ H. Qed.
Lemma rel_lift {A B C} I Q (x : outcome A) (f1 : A -> M B) (f2 : A -> M C) :
  (forall a, related I Q (f1 a) (f2 a)) -> related I Q (lift x ≫= f1) (lift x ≫= f2).
Proof. intros Hf. destruct x as [a|]; [apply (Hf a)|]. by intros o c k1 k2 _ H. Qed.

Lemma sim_out o c k1 k2 o1 o2 : sim o c k1 k2 -> sim o c (set_uart_out (uart_out k1 ++ o1) k1) (set_uart_out o2 k2).
Proof. intros []. split; try done. ksimpl. by apply prefix_app_r. Qed.
Lemma keeps_prints (m1 m2 : M ()) : Prints m1 -> Prints m2 -> keeps m1 m2.
Proof.
  intros H1 H2 o c k1 k2 _ H. unfold rwp. destruct (H1 k1) as ([] & o1 & ->), (H2 k2) as ([] & o2 & ->).
  split; [done|]. by apply sim_out.
Qed.
Lemma keeps_for_each {A} (f1 f2 : A -> M ()) l : (forall a, keeps (f1 a) (f2 a)) -> keeps (for_each f1 l) (for_each f2 l).
Proof. intros Hf. induction l as [|a l IH]; cbn; [apply keeps_ret|]. by apply rel_bind; [apply Hf|intros _]. Qed.

(** A field both kernels agree on, and an update both make. *)
Lemma keeps_get {A} (f : Kernel -> A) : (forall o c k1 k2, sim o c k1 k2 -> f k1 = f k2) -> keeps (get f) (get f).
Proof. intros Hf o c k1 k2 _ H. split; [by eapply Hf|done]. Qed.
Lemma keeps_modify f1 f2 : (forall o c k1 k2, sim o c k1 k2 -> sim o c (f1 k1) (f2 k2)) -> keeps (modify f1) (modify f2).
Proof. intros Hf o c k1 k2 _ H. split; [done|]. by apply Hf. Qed.

(** ** Tasks *)

Lemma tasks_sim_insert ts1 ts2 i t1 t2 : tasks_sim ts1 ts2 -> tsim i t1 t2 -> tasks_sim (<[i := t1]> ts1) (<[i := t2]> ts2).
Proof.
  intros [L H] T. split; [by rewrite !length_insert|]. intros j x1 x2.
  intros [[-> ->]|[N H1]]%insert_lookup_cases [[? ->]|[? H2]]%insert_lookup_cases; try done. by apply H.
Qed.
Lemma tasks_sim_lookup ts1 ts2 i : tasks_sim ts1 ts2 ->
  (ts1 !! i = None /\ ts2 !! i = None) \/ exists t1 t2, ts1 !! i = Some t1 /\ ts2 !! i = Some t2 /\ tsim i t1 t2.
Proof.
  intros [L H]. destruct (ts1 !! i) as [t1|] eqn:E1, (ts2 !! i) as [t2|] eqn:E2; [right; eauto 6| | |by left].
  - apply lookup_lt_Some in E1. apply lookup_ge_None in E2. lia.
  - apply lookup_lt_Some in E2. apply lookup_ge_None in E1. lia.
Qed.

Lemma rel_task {A B} I Q i (f1 : Tcb -> M A) (f2 : Tcb -> M B) : (forall t1 t2, tsim i t1 t2 -> related I Q (f1 t1) (f2 t2)) ->
  related I Q (task i ≫= f1) (task i ≫= f2).
Proof.
  intros Hf o c k1 k2 HI H. destruct (tasks_sim_lookup _ _ i (sm_tasks _ _ _ _ H)) as [[E1 E2]|(t1 & t2 & E1 & E2 & T)];
    unfold rwp, task, mbind, M_bind, get, lift, arr_get, expect; rewrite E1, E2; [done|]. by apply Hf.
Qed.
Lemma keeps_put_task i t1 t2 : tsim i t1 t2 -> keeps (put_task i t1) (put_task i t2).
Proof.
  intros T o c k1 k2 _ H. pose proof (sm_tasks _ _ _ _ H) as Ht. pose proof Ht as [L _].
  unfold rwp, put_task, mbind, M_bind, get, lift, arr_set. rewrite L. case_decide; [|done]. cbn.
  split; [done|]. destruct H. split; try done. by apply tasks_sim_insert.
Qed.
Lemma keeps_upd_task i f1 f2 : (forall t1 t2, tsim i t1 t2 -> tsim i (f1 t1) (f2 t2)) -> keeps (upd_task i f1) (upd_task i f2).
Proof. intros Hf. apply rel_task. intros t1 t2 T. apply keeps_put_task. auto. Qed.

Lemma tsim_state i s t1 t2 : tsim i t1 t2 -> tsim i (with_state s t1) (with_state s t2).
Proof. intros []. by split. Qed.
Lemma tsim_pending i p1 p2 t1 t2 : psim p1 p2 -> tsim i t1 t2 -> tsim i (with_pending p1 t1) (with_pending p2 t2).
Proof. intros ? []. by split. Qed.
Lemma tsim_frame i f1 f2 t1 t2 : fsim i f1 f2 -> tsim i t1 t2 -> tsim i (with_frame f1 t1) (with_frame f2 t2).
Proof. intros ? []. by split. Qed.
Lemma fsim_a0 i f1 f2 v : fsim i f1 f2 -> fsim i (frame_set_a0 f1 v) (frame_set_a0 f2 v).
Proof. intros [H ?]. split; [|done]. cbn. apply Forall2_insert; [done|]. by right. Qed.

(** ** The primitives *)

Lemma keeps_current : keeps (get current) (get current).
Proof. apply keeps_get. intros o c k1 k2 []. congruence. Qed.
Lemma keeps_active : keeps (get active) (get active).
Proof. apply keeps_get. by intros o c k1 k2 []. Qed.
Lemma keeps_watchdog : keeps (get watchdog_miss) (get watchdog_miss).
Proof. apply keeps_get. by intros o c k1 k2 []. Qed.
Lemma keeps_set_watchdog n : keeps (modify (set_watchdog_miss n)) (modify (set_watchdog_miss n)).
Proof. apply keeps_modify. intros o c k1 k2 []. by split. Qed.
Lemma keeps_ep_get id : keeps (ep_get id) (ep_get id).
Proof.
  intros o c k1 k2 _ H. unfold rwp, ep_get, mbind, M_bind, get, lift. rewrite (sm_endpoints _ _ _ _ H).
  by destruct (arr_get _ _).
Qed.
Lemma keeps_ep_set id e : keeps (ep_set id e) (ep_set id e).
Proof.
  intros o c k1 k2 _ H. unfold rwp, ep_set, mbind, M_bind, get, lift. rewrite (sm_endpoints _ _ _ _ H).
  destruct (arr_set _ _ _); [|done]. cbn. split; [done|]. destruct H. by split.
Qed.
Lemma keeps_irq_route i : keeps (irq_route i) (irq_route i).
Proof.
  intros o c k1 k2 _ H. unfold rwp, irq_route, mbind, M_bind, get, lift. rewrite (sm_irq _ _ _ _ H).
  by destruct (arr_get _ _).
Qed.
Lemma keeps_irq_route_set i r : keeps (irq_route_set i r) (irq_route_set i r).
Proof.
  intros o c k1 k2 _ H. unfold rwp, irq_route_set, mbind, M_bind, get, lift. rewrite (sm_irq _ _ _ _ H).
  destruct (arr_set _ _ _); [|done]. cbn. split; [done|]. destruct H. by split.
Qed.
Lemma keeps_set_a0 v : keeps (set_a0 v) (set_a0 v).
Proof.
  intros o c k1 k2 _ H. unfold rwp, set_a0, mbind, M_bind, get, modify. split; [done|].
  destruct H. split; try done. ksimpl. by apply fsim_a0.
Qed.
Lemma keeps_ring_push kind slot : keeps (ring_push kind slot) (ring_push kind slot).
Proof.
  intros o c k1 k2 _ H. pose proof (sm_ring _ _ _ _ H) as Hr. pose proof (sm_ring1 _ _ _ _ H) as H1.
  unfold rwp, ring_push, mbind, M_bind, get, modify, lift, arr_set. ksimpl.
  assert (forall h, Z.to_nat (h mod Z.of_nat RING_LEN) < RING_LEN)%nat as Hh.
  { intros h. unfold RING_LEN. pose proof (Z.mod_pos_bound h 32). lia. }
  rewrite !decide_True by (rewrite <- ?Hr, H1; apply Hh). cbn. split; [done|].
  destruct H. split; try done; ksimpl; by rewrite ?length_insert.
Qed.

Lemma better_sim ts1 ts2 best idx : tasks_sim ts1 ts2 -> better ts1 best idx = better ts2 best idx.
Proof.
  intros H. unfold better, arr_get, expect.
  destruct (tasks_sim_lookup _ _ idx H) as [[-> ->]|(t1 & t2 & -> & -> & T)]; [done|]. cbn.
  rewrite (ts_state _ _ _ T). destruct (negb _); [done|]. destruct best as [b|]; [|done].
  destruct (tasks_sim_lookup _ _ b H) as [[-> ->]|(u1 & u2 & -> & -> & U)]; [done|]. cbn.
  by rewrite (ts_prio _ _ _ T), (ts_prio _ _ _ U).
Qed.
Lemma keeps_select cur : keeps (select_highest cur) (select_highest cur).
Proof.
  intros o c k1 k2 _ H. unfold rwp, select_highest, mbind, M_bind, get, lift.
  assert (for_m (better (tasks k1)) None (scan_order cur) = for_m (better (tasks k2)) None (scan_order cur)) as ->.
  { generalize (scan_order cur), (None : option nat). intros l. induction l as [|x l IH]; intros best; [done|]. cbn [for_m].
    rewrite (better_sim _ _ best x (sm_tasks _ _ _ _ H)). destruct (better (tasks k2) best x); [apply IH|done]. }
  by destruct (for_m _ _ _).
Qed.

(** The arguments are known on the computed side. *)
Definition known (i : nat) (k2 : Kernel) : Prop := reg (live k2) i <> UNKNOWN.
Lemma sim_reg o c k1 k2 i : sim o c k1 k2 -> known i k2 -> reg (live k1) i = reg (live k2) i.
Proof.
  intros H K. destruct (sm_live _ _ _ _ H) as [Hr _]. unfold known, reg in *.
  destruct (regs (live k2) !! i) as [y|] eqn:E.
  - destruct (Forall2_lookup_r _ _ _ _ _ Hr E) as (x & -> & [-> | ->]); [by destruct K|done].
  - apply (Forall2_length) in Hr. apply lookup_ge_None in E. by rewrite (proj2 (lookup_ge_None _ _)) by lia.
Qed.

(** ** User memory: contents do not matter *)

Lemma write_user_umem va b k : exists m, write_user va b k = Ret tt (set_umem m k).
Proof. by eexists. Qed.
Lemma copy_bytes_umem va bs k : exists m, copy_bytes_to_user va bs k = Ret tt (set_umem m k).
Proof.
  unfold copy_bytes_to_user. generalize (imap pair bs). intros l. revert k.
  induction l as [|[i b] l IH]; intros k; [exists (umem k); by destruct k|]. cbn [for_each].
  destruct (write_user_umem (user_addr va i) b k) as [m E]. destruct (IH (set_umem m k)) as [m' E'].
  exists m'. unfold mbind, M_bind. cbn [fst snd]. by rewrite E, E'.
Qed.
Lemma keeps_umem (m1 m2 : M ()) : (forall k, exists m, m1 k = Ret tt (set_umem m k)) ->
  (forall k, exists m, m2 k = Ret tt (set_umem m k)) -> keeps m1 m2.
Proof.
  intros H1 H2 o c k1 k2 _ H. unfold rwp. destruct (H1 k1) as [m ->], (H2 k2) as [m' ->]. split; [done|].
  destruct H. by split.
Qed.
Lemma keeps_copy_bytes va bs1 bs2 : keeps (copy_bytes_to_user va bs1) (copy_bytes_to_user va bs2).
Proof. apply keeps_umem; intros k; apply copy_bytes_umem. Qed.

Lemma keeps_copy_from_user va len : keeps (copy_from_user va len) (copy_from_user va len).
Proof.
  apply keeps_for_each. intros i o c k1 k2 _ H. pose proof (sm_kmsg _ _ _ _ H) as L.
  unfold rwp, read_user, mbind, M_bind, get, modify, lift, arr_set. rewrite L. case_decide; [|done]. cbn.
  split; [done|]. destruct H. split; try done. ksimpl. by rewrite !length_insert.
Qed.

(** Slices of lists of the same length succeed together. *)
Lemma rel_slice {A B} I Q l1 l2 a b (f1 : list Z -> M A) (f2 : list Z -> M B) : length l1 = length l2 ->
  (forall x y, length x = length y -> related I Q (f1 x) (f2 y)) ->
  related I Q (lift (slice l1 a b) ≫= f1) (lift (slice l2 a b) ≫= f2).
Proof.
  intros L Hf. unfold slice. rewrite L. case_decide; [|by apply (rel_crash I Q)]. apply (Hf _ _).
  rewrite !length_take, !length_drop. by rewrite L.
Qed.
Lemma rel_copy_at {A B} I Q buf a b s1 s2 (f1 : list Z -> M A) (f2 : list Z -> M B) : length s1 = length s2 ->
  (forall x y, length x = length y -> related I Q (f1 x) (f2 y)) ->
  related I Q (lift (copy_at buf a b s1) ≫= f1) (lift (copy_at buf a b s2) ≫= f2).
Proof.
  intros L Hf. unfold copy_at. rewrite L. case_decide; [|by apply (rel_crash I Q)]. apply (Hf _ _).
  rewrite !length_app. by rewrite L.
Qed.
Lemma rel_kmsg {A B} I Q (f1 : list Z -> M A) (f2 : list Z -> M B) :
  (forall x y, length x = length y -> related I Q (f1 x) (f2 y)) ->
  related I Q (get kmsg ≫= f1) (get kmsg ≫= f2).
Proof. intros Hf o c k1 k2 HI H. by apply (Hf _ _ (sm_kmsg _ _ _ _ H) o c k1 k2). Qed.
(** A counter, read for itself. *)
Lemma rel_get {A B C} I Q (g1 g2 : Kernel -> C) (f1 : C -> M A) (f2 : C -> M B) :
  (forall x y, related I Q (f1 x) (f2 y)) -> related I Q (get g1 ≫= f1) (get g2 ≫= f2).
Proof. intros Hf o c k1 k2 HI H. by apply (Hf _ _ o c k1 k2). Qed.
Lemma rel_ret {A B C D} I Q (a : A) (b : B) (f1 : A -> M C) (f2 : B -> M D) : related I Q (f1 a) (f2 b) ->
  related I Q (mret a ≫= f1) (mret b ≫= f2).
Proof. done. Qed.
Lemma rel_seq_prints {A B} I Q (m1 m2 : M ()) (f1 : () -> M A) (f2 : () -> M B) : Prints m1 -> Prints m2 ->
  related I Q (f1 tt) (f2 tt) -> related I Q (m1 ≫= f1) (m2 ≫= f2).
Proof. intros. apply rel_bind; [by apply keeps_prints|]. by intros []. Qed.

(** ** Resuming a task *)

Lemma rwp_modify {A B} f1 f2 (g1 : () -> M A) (g2 : () -> M B) Q S k1 k2 : rwp (g1 tt) (g2 tt) Q S (f1 k1) (f2 k2) ->
  rwp (modify f1 ≫= g1) (modify f2 ≫= g2) Q S k1 k2.
Proof. done. Qed.

Definition ends {A B} (_ _ : nat) (_ : A) (_ : B) : Kernel -> Kernel -> Prop := settled.

Lemma rel_set_current next (f1 f2 : () -> M ()) : related (fun _ c => c = next) ends (f1 tt) (f2 tt) ->
  lands (modify (set_current next) ≫= f1) (modify (set_current next) ≫= f2).
Proof. intros Hf o c k1 k2 _ H. apply rwp_modify, (Hf o next); [done|]. destruct H. by split. Qed.
Lemma rel_set_live next t1 t2 (f1 f2 : () -> M ()) : tsim next t1 t2 -> handles (f1 tt) (f2 tt) ->
  related (fun _ c => c = next) ends (modify (set_live (t_frame t1)) ≫= f1) (modify (set_live (t_frame t2)) ≫= f2).
Proof.
  intros T Hf o c k1 k2 -> H. apply rwp_modify, (Hf next next); [done|]. destruct H. split; try done. by destruct T.
Qed.

Lemma lands_resume next : lands (resume_task next) (resume_task next).
Proof.
  apply rel_bind; [apply keeps_upd_task; intros; by apply tsim_state|]. intros _. apply rel_set_current.
  apply rel_bind; [apply keeps_set_watchdog|]. intros _. apply rel_task. intros t1 t2 T.
  apply rel_bind; [apply keeps_modify; intros o c k1 k2 []; by split|]. intros _. apply rel_set_live; [done|].
  pose proof (ts_pending _ _ _ T) as Hp. destruct (t_pending_ipc t1) as [p1|], (t_pending_ipc t2) as [p2|]; try done.
  2: apply keeps_handles, keeps_ret.
  destruct Hp as (Hd & Hl & Hn). rewrite Hd, Hl. apply keeps_handles.
  apply rel_bind; [apply keeps_upd_task; intros; by apply tsim_pending|]. intros _.
  apply rel_get. intros x y. apply rel_bind; [apply keeps_modify; intros o c k1 k2 []; by split|]. intros _.
  apply rel_slice; [done|]. intros bs1 bs2 _. apply rel_bind; [apply keeps_copy_bytes|]. intros _.
  apply rel_bind; [apply keeps_set_a0|]. intros _. apply keeps_prints; apply _.
Qed.
Lemma lands_select_and_resume next : lands (select_and_resume next) (select_and_resume next).
Proof. apply rel_task. intros t1 t2 T. apply rel_seq_prints; [apply _..|]. apply lands_resume. Qed.
Lemma lands_idle (l1 l2 : string) : lands (spin l1) (spin l2).
Proof. unfold spin. do 2 (apply rel_seq_prints; [apply _..|]). apply rel_stop. Qed.
Lemma lands_idle_halt : lands idle_halt idle_halt.
Proof. unfold idle_halt. do 3 (apply rel_seq_prints; [apply _..|]). apply rel_stop. Qed.
(** The choice of the next task, and what happens without one. *)
Lemma lands_next n (f1 f2 : nat -> M ()) (g1 g2 : M ()) : (forall i, lands (f1 i) (f2 i)) -> lands g1 g2 ->
  lands (match n with Some i => f1 i | None => g1 end) (match n with Some i => f2 i | None => g2 end).
Proof. intros Hf Hg. by destruct n. Qed.

(** [cur] is the current task, and its frame is live. *)
Definition at_task (cur o c : nat) : Prop := o = cur /\ c = cur.
Lemma rel_weaken {A B} (I J : nat -> nat -> Prop) Q (m1 : M A) (m2 : M B) : (forall o c, J o c -> I o c) ->
  related I Q m1 m2 -> related J Q m1 m2.
Proof. intros HJ H o c k1 k2 Hj. apply H. auto. Qed.
Lemma lands_at cur (m1 m2 : M ()) : lands m1 m2 -> related (at_task cur) ends m1 m2.
Proof. by apply rel_weaken. Qed.
Lemma keeps_at cur (m1 m2 : M ()) : keeps m1 m2 -> related (at_task cur) ends m1 m2.
Proof. intros H%keeps_handles. eapply rel_weaken; [|exact H]. by intros o c [-> ->]. Qed.
Lemma handles_cur (f1 f2 : nat -> M ()) : (forall cur, related (at_task cur) ends (f1 cur) (f2 cur)) ->
  handles (get current ≫= f1) (get current ≫= f2).
Proof.
  intros Hf o c k1 k2 <- H. change (rwp (f1 (current k1)) (f2 (current k2)) (ends o o) stopped k1 k2).
  rewrite (sm_cur1 _ _ _ _ H), (sm_cur2 _ _ _ _ H). by apply Hf.
Qed.
Lemma rel_live cur (f1 f2 : TrapFrame -> M ()) : (forall x y, fsim cur x y -> related (at_task cur) ends (f1 x) (f2 y)) ->
  related (at_task cur) ends (get live ≫= f1) (get live ≫= f2).
Proof. intros Hf o c k1 k2 [-> ->] H. by apply (Hf _ _ (sm_live _ _ _ _ H) cur cur). Qed.
(** Saving the live frame in the current task. *)
Lemma keeps_save cur x y : fsim cur x y -> keeps (upd_task cur (with_frame x)) (upd_task cur (with_frame y)).
Proof. intros F. apply keeps_upd_task. intros t1 t2 T. by apply tsim_frame. Qed.
Lemma keeps_state i s : keeps (upd_task i (with_state s)) (upd_task i (with_state s)).
Proof. apply keeps_upd_task. intros t1 t2 T. by apply tsim_state. Qed.
Lemma bind_assoc_m {A B C} (m : M A) (f : A -> M B) (g : B -> M C) k : ((m ≫= f) ≫= g) k = (m ≫= (fun a => f a ≫= g)) k.
Proof. unfold mbind, M_bind. by destruct (m k). Qed.
Lemma rel_assoc {A B C A' B' C'} I Q (m1 : M A) (f1 : A -> M B) (g1 : B -> M C) (m2 : M A') (f2 : A' -> M B') (g2 : B' -> M C') :
  related I Q (m1 ≫= (fun a => f1 a ≫= g1)) (m2 ≫= (fun a => f2 a ≫= g2)) -> related I Q ((m1 ≫= f1) ≫= g1) ((m2 ≫= f2) ≫= g2).
Proof. intros H o c k1 k2 HI Hs. unfold rwp. rewrite !bind_assoc_m. by apply H. Qed.

(** ** Scheduling, for two builds *)

Context (P1 P2 : Platform) (rt1 rt2 : Kernel -> Z).
Hypothesis same_feature : @os_boot P1 = @os_boot P2.

Lemma keeps_emit_selected next (g1 g2 : M ()) : Prints g1 -> Prints g2 ->
  keeps (g1 ;; tn ← task next; emit "SCHED selected=" (t_name tn)) (g2 ;; tn ← task next; emit "SCHED selected=" (t_name tn)).
Proof.
  intros. apply rel_seq_prints; [apply _..|]. apply rel_task. intros t1 t2 T. apply keeps_prints; apply _.
Qed.

Lemma handles_switch exiting : handles (switch (P := P1) exiting) (switch (P := P2) exiting).
Proof.
  apply handles_cur. intros cur. apply rel_task. intros t1 t2 T. rewrite same_feature.
  assert (forall n, lands
    (match n with
     | Some next => (if negb (os_boot && negb exiting && bool_decide (next = cur)) then
         (if negb exiting then emit "SYSCALL name=sys_yield task=" (t_name t1) else mret tt) ;;
         tn ← task next; emit "SCHED selected=" (t_name tn) else mret tt) ;; resume_task next
     | None => idle_halt end)
    (match n with
     | Some next => (if negb (os_boot && negb exiting && bool_decide (next = cur)) then
         (if negb exiting then emit "SYSCALL name=sys_yield task=" (t_name t2) else mret tt) ;;
         tn ← task next; emit "SCHED selected=" (t_name tn) else mret tt) ;; resume_task next
     | None => idle_halt end)) as Hn.
  { intros n. apply lands_next; [|apply lands_idle_halt]. intros next. apply rel_bind; [|intros _; apply lands_resume].
    apply rel_if; [|apply keeps_ret]. apply keeps_emit_selected; apply _. }
  destruct exiting.
  - apply rel_bind; [|intros _; apply rel_bind; [apply keeps_select|intros n; apply lands_at, Hn]].
    apply rel_seq_prints; [apply _..|]. apply rel_bind; [apply keeps_state|]. intros _.
    apply rel_seq_prints; [apply _..|]. apply keeps_ring_push.
  - apply rel_assoc, rel_live. intros x y F. apply rel_assoc. apply rel_bind; [by apply keeps_save|]. intros _.
    apply rel_bind; [apply keeps_state|]. intros _.
    apply rel_bind; [apply keeps_select|intros n; apply lands_at, Hn].
Qed.

Lemma handles_block : handles block_and_switch block_and_switch.
Proof.
  apply handles_cur. intros cur. apply rel_live. intros x y F. apply rel_bind; [by apply keeps_save|]. intros _. apply rel_bind; [apply keeps_state|]. intros _.
  apply rel_bind; [apply keeps_select|]. intros n. apply lands_at, lands_next; [apply lands_select_and_resume|apply lands_idle].
Qed.

Lemma handles_preempt : handles preempt preempt.
Proof.
  apply rel_bind; [apply keeps_active|]. intros act. apply rel_if; [apply keeps_handles, keeps_ret|].
  apply handles_cur. intros cur. apply rel_bind; [apply keeps_select|]. intros [next|]; [|apply keeps_at, keeps_ret].
  apply rel_task. intros c1 c2 C. apply rel_task. intros n1 n2 N. rewrite (ts_prio _ _ _ C), (ts_prio _ _ _ N).
  apply rel_if; [apply keeps_at, keeps_ret|]. do 5 (apply rel_seq_prints; [apply _..|]).
  apply rel_live. intros x y F. apply rel_bind; [by apply keeps_save|]. intros _. apply rel_bind; [apply keeps_state|]. intros _. apply lands_at, lands_resume.
Qed.

(** ** Faults and the watchdog *)

Lemma keeps_irq_drop slot : keeps (irq_drop_for_task slot) (irq_drop_for_task slot).
Proof.
  apply keeps_for_each. intros i. apply rel_bind; [apply keeps_irq_route|]. intros r.
  apply rel_if; [|apply keeps_ret]. apply rel_bind; [apply keeps_irq_route_set|]. intros _. apply keeps_prints; apply _.
Qed.
Lemma psim_one dst code : psim (Some (one_byte dst code)) (Some (one_byte dst code)).
Proof. done. Qed.
Lemma keeps_notify_endpoint ep code : keeps (notify_endpoint ep code) (notify_endpoint ep code).
Proof.
  apply rel_bind; [apply keeps_ep_get|]. intros [|tid len|tid dst cap]; [apply keeps_ret..|].
  apply rel_bind; [|intros _; apply rel_bind; [apply keeps_ep_set|intros _; apply keeps_ret]].
  apply rel_if; [|apply keeps_ret]. apply rel_bind; [apply keeps_upd_task; intros; by apply tsim_pending|]. intros _.
  apply keeps_state.
Qed.
Lemma keeps_notify n1 n2 : keeps (notify_supervisor_and_logger n1) (notify_supervisor_and_logger n2).
Proof.
  apply rel_bind; [apply keeps_notify_endpoint|]. intros a. apply rel_seq_prints; [apply _..|].
  apply rel_bind; [apply keeps_notify_endpoint|]. intros b. apply keeps_prints; apply _.
Qed.
Lemma lands_fault cur n1 n2 : lands (fault_and_switch cur n1) (fault_and_switch cur n2).
Proof.
  apply rel_bind; [apply keeps_state|]. intros _.
  apply rel_bind; [apply keeps_irq_drop|]. intros _. apply rel_bind; [apply keeps_notify|]. intros _.
  apply rel_bind; [apply keeps_select|]. intros n. apply lands_next; [apply lands_select_and_resume|apply lands_idle].
Qed.

Lemma rel_bind_if {A B C} I Q (b : bool) (m1 n1 : M A) (m2 n2 : M A) (f1 : A -> M B) (f2 : A -> M C) :
  related I Q (m1 ≫= f1) (m2 ≫= f2) -> related I Q (n1 ≫= f1) (n2 ≫= f2) ->
  related I Q ((if b then m1 else n1) ≫= f1) ((if b then m2 else n2) ≫= f2).
Proof. by destruct b. Qed.
Lemma lands_then (m1 m2 : M ()) (f1 f2 : () -> M ()) : lands m1 m2 -> handles (f1 tt) (f2 tt) -> lands (m1 ≫= f1) (m2 ≫= f2).
Proof.
  intros Hm Hf o c k1 k2 _ H. apply rwp_bind. eapply rwp_mono; [by apply (Hm o c)| |done].
  intros [] [] k k' [c' H']. by apply (Hf c' c').
Qed.

(** The tick: [true] when the watchdog switched. *)
Lemma handles_watchdog (f1 f2 : bool -> M ()) : handles (f1 false) (f2 false) -> handles (f1 true) (f2 true) ->
  handles (watchdog_tick ≫= f1) (watchdog_tick ≫= f2).
Proof.
  intros Hf Ht. unfold watchdog_tick. apply rel_assoc, rel_bind; [apply keeps_active|]. intros act. apply rel_bind_if; [exact Hf|].
  apply rel_assoc, rel_get. intros x y. apply rel_assoc, rel_bind; [apply keeps_modify; intros o c k1 k2 []; by split|]. intros _.
  apply rel_assoc, rel_bind; [apply keeps_watchdog|]. intros w. apply rel_assoc, rel_bind; [apply keeps_set_watchdog|]. intros _.
  apply rel_bind_if; [exact Hf|]. apply rel_assoc, rel_bind; [apply keeps_current|]. intros cur.
  apply rel_assoc, rel_task. intros t1 t2 T. apply rel_assoc, rel_bind; [apply keeps_ring_push|]. intros _.
  do 2 (apply rel_assoc, rel_seq_prints; [apply _..|]). apply rel_assoc, lands_handles, lands_then; [apply lands_fault|exact Ht].
Qed.

Lemma handles_timer : handles (on_timer_interrupt rt1) (on_timer_interrupt rt2).
Proof.
  apply rel_get. intros x y. apply rel_bind; [apply keeps_modify; intros o c k1 k2 []; by split|]. intros _.
  apply rel_seq_prints; [apply _..|].
  apply rel_bind; [apply rel_get; intros t t'; apply keeps_modify; intros o c k1 k2 []; by split|]. intros _.
  apply handles_watchdog; [apply handles_preempt|apply keeps_handles, keeps_ret].
Qed.

(** ** System calls *)

Lemma keeps_cap_check cur i r : keeps (cap_check cur i r) (cap_check cur i r).
Proof.
  apply rel_if; [apply keeps_ret|]. apply rel_task. intros t1 t2 T. rewrite (ts_caps _ _ _ T).
  apply rel_lift. intros slot. apply keeps_ret.
Qed.
Lemma keeps_deny_cap cur c : keeps (deny_cap cur c) (deny_cap cur c).
Proof.
  apply rel_bind; [apply keeps_ring_push|]. intros _. apply rel_seq_prints; [apply _..|]. apply rel_task. intros t1 t2 T.
  do 3 (apply rel_seq_prints; [apply _..|]). apply keeps_ret.
Qed.
Lemma handles_deny cur c : related (at_task cur) ends (code ← deny_cap cur c; set_a0 code) (code ← deny_cap cur c; set_a0 code).
Proof. apply keeps_at, rel_bind; [apply keeps_deny_cap|]. intros v. apply keeps_set_a0. Qed.
Lemma keeps_refuse v (m1 m2 : M ()) : Prints m1 -> Prints m2 -> keeps (set_a0 v ;; m1) (set_a0 v ;; m2).
Proof. intros. apply rel_bind; [apply keeps_set_a0|]. intros _. apply keeps_prints; apply _. Qed.

Definition handles_if (pre : Kernel -> Prop) (m1 m2 : M ()) : Prop := forall c k1 k2, sim c c k1 k2 -> pre k2 ->
  rwp m1 m2 (fun _ _ => settled) stopped k1 k2.
Definition args_known (k2 : Kernel) : Prop := known 9 k2 /\ known 10 k2 /\ known 11 k2.

Lemma handles_fault_ack : handles fault_ack fault_ack.
Proof.
  apply keeps_handles, rel_bind; [apply keeps_current|]. intros cur. apply rel_task. intros t1 t2 T.
  unfold arg. apply rel_assoc, rel_get. intros x y.
  apply rel_ret.
  do 8 (apply rel_seq_prints; [apply _..|]). apply rel_bind; [apply keeps_ring_push|]. intros _. apply keeps_set_a0.
Qed.

Lemma handles_args (f1 f2 : nat -> Z -> Z -> Z -> M ()) (pre : Z -> Z -> Z -> Prop) :
  (forall cur x y z, pre x y z -> related (at_task cur) ends (f1 cur x y z) (f2 cur x y z)) ->
  handles_if (fun k => args_known k /\ pre (reg (live k) 9) (reg (live k) 10) (reg (live k) 11))
    (cur ← get current; x ← arg 9; y ← arg 10; z ← arg 11; f1 cur x y z)
    (cur ← get current; x ← arg 9; y ← arg 10; z ← arg 11; f2 cur x y z).
Proof.
  intros Hf c k1 k2 H [(K9 & K10 & K11) Hp].
  change (rwp (f1 (current k1) (reg (live k1) 9) (reg (live k1) 10) (reg (live k1) 11))
              (f2 (current k2) (reg (live k2) 9) (reg (live k2) 10) (reg (live k2) 11)) (fun _ _ => settled) stopped k1 k2).
  rewrite (sim_reg _ _ _ _ _ H K9), (sim_reg _ _ _ _ _ H K10), (sim_reg _ _ _ _ _ H K11), (sm_cur1 _ _ _ _ H), (sm_cur2 _ _ _ _ H).
  by apply (Hf c _ _ _ Hp c c).
Qed.

Lemma handles_send : handles_if (fun k => args_known k /\ in_stack_window (reg (live k) 10) (reg (live k) 11) = true)
  (ipc_send (P := P1)) (ipc_send (P := P2)).
Proof.
  apply (handles_args _ _ (fun _ y z => in_stack_window y z = true)). intros cur ci buf len Hw.
  apply rel_task. intros t1 t2 T. apply rel_bind; [apply keeps_cap_check|]. intros [ep| | |]; try apply handles_deny.
  apply rel_if; [apply keeps_at, keeps_refuse; apply _|]. unfold in_readable_window. rewrite Hw.
  apply rel_if; [apply keeps_at, keeps_refuse; apply _|]. apply rel_bind; [apply keeps_copy_from_user|]. intros _.
  apply rel_bind; [apply keeps_ep_get|]. intros [|tid l|tid dst cap].
  - apply rel_bind; [apply keeps_ep_set|]. intros _. do 2 (apply rel_seq_prints; [apply _..|]).
    eapply rel_weaken; [|apply handles_block]. by intros o c [-> ->].
  - apply keeps_at, keeps_refuse; apply _.
  - do 2 (apply rel_seq_prints; [apply _..|]). apply keeps_at, rel_kmsg. intros m1 m2 L. apply rel_bind.
    + apply rel_if.
      * apply rel_slice; [done|]. intros b1 b2 Lb. apply rel_copy_at; [done|]. intros d1 d2 Ld.
        apply keeps_upd_task. intros. by apply tsim_pending.
      * apply keeps_upd_task. intros u1 u2 U. apply tsim_frame; [|done]. apply fsim_a0, (ts_frame _ _ _ U).
    + intros _. apply rel_bind; [apply keeps_state|]. intros _. apply rel_bind; [apply keeps_ep_set|]. intros _. apply keeps_set_a0.
Qed.

Lemma keeps_irq_pending ep cur : keeps (irq_pending_for ep cur) (irq_pending_for ep cur).
Proof.
  unfold irq_pending_for. generalize (seq 0 (length DEVICES)). intros l. induction l as [|i l IH]; [apply keeps_ret|].
  apply rel_lift. intros d. apply rel_if; [|exact IH]. apply rel_bind; [apply keeps_irq_route|]. intros r.
  apply rel_if; [apply keeps_ret|exact IH].
Qed.

Lemma handles_recv : handles_if args_known ipc_recv ipc_recv.
Proof.
  intros c k1 k2 H K. refine (handles_args _ _ (fun _ _ _ => True) _ c k1 k2 H (conj K I)). clear c k1 k2 H K.
  intros cur ci dst cap _. apply rel_task. intros t1 t2 T. apply rel_bind; [apply keeps_cap_check|].
  intros [ep| | |]; try apply handles_deny. apply rel_bind; [apply keeps_irq_pending|]. intros [dev|].
  - apply rel_if; [apply keeps_at; unfold recv_bad_buffer; apply keeps_refuse; apply _|]. apply keeps_at, rel_bind; [apply keeps_irq_route_set|]. intros _.
    apply rel_bind; [apply keeps_copy_bytes|]. intros _. apply rel_lift. intros d. apply rel_seq_prints; [apply _..|].
    apply keeps_set_a0.
  - apply rel_bind; [apply keeps_ep_get|]. intros [|tid l|tid d' c'].
    + apply rel_if; [apply keeps_at; unfold recv_bad_buffer; apply keeps_refuse; apply _|]. apply rel_bind; [apply keeps_ep_set|]. intros _.
      do 2 (apply rel_seq_prints; [apply _..|]). eapply rel_weaken; [|apply handles_block]. by intros o c [-> ->].
    + apply rel_if; [apply keeps_at; unfold recv_bad_buffer; apply keeps_refuse; apply _|]. apply keeps_at, rel_bind.
      { apply rel_kmsg. intros m1 m2 L. apply rel_slice; [done|]. intros. apply keeps_copy_bytes. }
      intros _. apply rel_bind; [apply keeps_set_a0|]. intros _. apply rel_bind; [apply keeps_state|]. intros _.
      apply rel_bind; [apply keeps_upd_task; intros u1 u2 U; apply tsim_frame; [apply fsim_a0, (ts_frame _ _ _ U)|done]|]. intros _.
      apply rel_bind; [apply keeps_ep_set|]. intros _. do 3 (apply rel_seq_prints; [apply _..|]). apply keeps_prints; apply _.
    + apply keeps_at, keeps_refuse; apply _.
Qed.

(** The system calls the demonstrations make. *)
Definition call_ok (num : Z) (k2 : Kernel) : Prop :=
  num = SYS_YIELD \/ num = SYS_EXIT \/ num = SYS_FAULT_ACK \/
  (num = SYS_RECV /\ args_known k2) \/
  (num = SYS_SEND /\ args_known k2 /\ in_stack_window (reg (live k2) 10) (reg (live k2) 11) = true).

Lemma handles_syscall num c k1 k2 : sim c c k1 k2 -> call_ok num k2 -> active k2 = true ->
  rwp (on_syscall (P := P1) num) (on_syscall (P := P2) num) (fun a b k k' => a = true /\ b = true /\ settled k k') stopped k1 k2.
Proof.
  intros H Hc Ha. unfold on_syscall.
  change (rwp (if negb (active k1) then mret false else modify (set_watchdog_miss 0) ;;
                 match syscall_body (P := P1) num with Some body => body ;; mret true | None => mret false end)
              (if negb (active k2) then mret false else modify (set_watchdog_miss 0) ;;
                 match syscall_body (P := P2) num with Some body => body ;; mret true | None => mret false end)
              (fun a b k k' => a = true /\ b = true /\ settled k k') stopped k1 k2).
  rewrite (sm_active _ _ _ _ H), Ha. cbn [negb]. apply rwp_modify.
  assert (sim c c (set_watchdog_miss 0 k1) (set_watchdog_miss 0 k2)) as H1 by (destruct H; by split).
  assert (forall m1 m2 : M (), rwp m1 m2 (fun _ _ => settled) stopped (set_watchdog_miss 0 k1) (set_watchdog_miss 0 k2) ->
    rwp (m1 ;; mret true) (m2 ;; mret true) (fun a b k k' => a = true /\ b = true /\ settled k k') stopped
      (set_watchdog_miss 0 k1) (set_watchdog_miss 0 k2)) as Hb.
  { intros m1 m2 Hm. apply rwp_bind. eapply rwp_mono; [exact Hm| |done]. by intros [] [] k k' Hs. }
  destruct Hc as [-> | [-> | [-> | [[-> Hk] | [-> [Hk Hw]]]]]]; cbn [syscall_body Z.eqb]; apply Hb.
  - by apply (handles_switch false c c).
  - by apply (handles_switch true c c).
  - by apply (handles_fault_ack c c).
  - by apply (handles_recv c).
  - by apply (handles_send c).
Qed.

End sim.
End DemoSim.
