(* ===== verification/DemoRun.v ===== *)
(** * Running the demonstrations

    One instruction or timer interrupt of a demonstration under any platform
    and layout corresponds to one of a computed machine ([step_sim]); the
    computed machine has finitely many states under a schedule that leaves
    the tasks some instructions between two interrupts, and [explore] visits
    them all.  What holds in all of them holds in every run of the
    demonstration on the kernel. *)

From stdpp Require Import strings base decidable numbers option sets tactics list.
From S2P Require Import Prelude Bytes Caps Memory PageTable Sv39 Paging PagingHw Capacity Device Kernel Dispatch.
From S2P Require Import DispatchLogic Trap TrapSafe System IpcRt OsBoot Machine Demos DemoSim Isolation.
Local Open Scope Z_scope.

Module DemoRun.
Import Machine Demos DemoSim.

(** ** Lines and addresses *)

(** The instruction control reaches from line [i]. *)
Definition next_instr (body : list line) (i : nat) : option nat :=
  (fun p => (i + p.1)%nat) <$> list_find (fun l => is_instr l = true) (drop i body).

Lemma line_at_next size body i : size_ok size -> (i <= length body)%nat ->
  line_at size body (offset size body i) = next_instr body i.
Proof.
  intros Hs. revert i. induction body as [|l body IH]; intros i Hi; cbn [length] in Hi.
  { assert (i = 0%nat) as -> by lia. done. }
  destruct i as [|i].
  - unfold offset, next_instr. cbn [take foldr drop]. destruct l; cbn [line_at is_instr list_find]; try done.
    specialize (IH 0%nat ltac:(lia)). unfold offset, next_instr in IH. rewrite take_0, drop_0 in IH. cbn [foldr] in IH. rewrite IH.
    rewrite decide_False by done. by destruct (list_find _ body) as [[j x]|].
  - specialize (IH i ltac:(lia)). unfold next_instr in *. cbn [drop].
    replace ((fun p : nat * line => (S i + p.1)%nat) <$> list_find (fun l => is_instr l = true) (drop i body))
      with (S <$> ((fun p : nat * line => (i + p.1)%nat) <$> list_find (fun l => is_instr l = true) (drop i body)))
      by (by destruct (list_find _ _) as [[j x]|]).
    rewrite <- IH. pose proof (offset_nonneg size body i Hs) as Hn. unfold offset in *. cbn [take foldr].
    destruct Hs as [_ Hs]. destruct l; cbn [line_at bytes_of]; try (by rewrite Z.add_0_l);
      (match goal with |- context [size ?x] => specialize (Hs x) end; case_match; bool_facts; [lia|]);
      do 2 f_equal; lia.
Qed.

Lemma next_instr_spec body i j : next_instr body i = Some j ->
  exists l, body !! j = Some l /\ is_instr l = true /\ (i <= j)%nat /\ forall size, offset size body j = offset size body i.
Proof.
  unfold next_instr. intros H. apply fmap_Some in H as ([m l] & (H1 & H2 & H3)%list_find_Some & ->). cbn [fst].
  exists l. rewrite lookup_drop in H1. split; [done|]. split; [done|]. split; [lia|]. intros size. clear H2.
  assert (forall n, (n <= m)%nat -> offset size body (i + n) = offset size body i) as Hn; [|by apply Hn].
  intros n. induction n as [|n IH]; intros Hm; [by rewrite Nat.add_0_r|].
  assert (exists x, body !! (i + n)%nat = Some x) as [x Hx].
  { apply lookup_lt_is_Some. apply lookup_lt_Some in H1. lia. }
  replace (i + S n)%nat with (S (i + n)) by lia. rewrite (offset_S size _ _ x Hx), IH by lia.
  assert (~ is_instr x = true) as Hi by (apply (H3 n); [by rewrite lookup_drop|lia]).
  destruct x; cbn in *; try done. lia.
Qed.

(** ** Control states *)

(** What of a kernel the relation reads. *)
Record Ctl := mkCtl {
  c_tasks : list Tcb; c_current : nat; c_miss : Z; c_eps : list Ep; c_irq : list IrqRoute; c_live : TrapFrame
}.
#[export] Instance TrapFrame_eq_dec : EqDecision TrapFrame.
Proof. solve_decision. Defined.
#[export] Instance PendingMsg_eq_dec : EqDecision PendingMsg.
Proof. solve_decision. Defined.
#[export] Instance Cap_eq_dec : EqDecision Cap.
Proof. solve_decision. Defined.
#[export] Instance Tcb_eq_dec : EqDecision Tcb.
Proof. solve_decision. Defined.
#[export] Instance Ep_eq_dec : EqDecision Ep.
Proof. solve_decision. Defined.
#[export] Instance IrqRoute_eq_dec : EqDecision IrqRoute.
Proof. solve_decision. Defined.
#[export] Instance Ctl_eq_dec : EqDecision Ctl.
Proof. solve_decision. Defined.

Definition ctl_of (k : Kernel) : Ctl := mkCtl (tasks k) (current k) (watchdog_miss k) (endpoints k) (irq_routes k) (live k).
Definition embed (c : Ctl) : Kernel :=
  mkKernel (c_tasks c) (c_current c) true (c_miss c) (c_eps c) (replicate (Z.to_nat IPC_MSG_MAX) 0) (c_irq c) [] 0 0
    (replicate RING_LEN (0, 0)) 0 None [] (c_live c) 0 blank [] [] [] 0 0 0 0.
Definition fits (k : Kernel) : bool :=
  active k && bool_decide (length (kmsg k) = Z.to_nat IPC_MSG_MAX) && bool_decide (length (ring k) = RING_LEN).

Lemma sim_embed R UT O o c k1 k2 : sim R UT O o c k1 k2 -> fits k2 = true -> sim R UT O o c k1 (embed (ctl_of k2)).
Proof. unfold fits. intros [] H. bool_facts. split; cbn -[replicate]; rewrite ?length_replicate; done || congruence. Qed.

(** A control state with what the schedule did so far: instructions since the
    last interrupt, interrupts (both up to a bound), and whether the
    supervisor has decided to kill. *)
Record Node := mkNode { n_ctl : Ctl; n_gap : nat; n_ticks : nat; n_acked : bool }.
#[export] Instance Node_eq_dec : EqDecision Node.
Proof. solve_decision. Defined.

(** The schedules considered: at least [G] instructions before each
    interrupt, and no interrupt where the timer is off. *)
Section pace.
Context (G : nat) (timer : bool).
Fixpoint paced (gap : nat) (evs : list event) : bool :=
  match evs with
  | [] => true
  | Instr :: evs => paced (S gap) evs
  | Tick :: evs => timer && (G <=? gap)%nat && paced 0 evs
  end.
Definition gap_step (gap : nat) (e : event) : nat := match e with Instr => S gap | Tick => 0 end.
Definition gap_after (gap : nat) (evs : list event) : nat := foldl gap_step gap evs.
Definition tick_inc (e : event) : nat := match e with Tick => 1 | Instr => 0 end.
Definition tick_count (evs : list event) : nat := sum_list_with tick_inc evs.
End pace.

(** ** One step of a demonstration and of the computed machine *)

Section step.
Context (bodies : list (list line)).

(** The demonstration under some platform. *)
Context (P1 : Platform) (rt1 : Kernel -> Z) (size : line -> Z) (entry : nat -> Z) (UT : list (list Table)).
Hypothesis Hsize : size_ok size.
Hypothesis Hfeature : @os_boot P1 = false.
Hypothesis Hentry : forall j, 0x10000 <= entry j < 0x11000.
Hypothesis Hshort : forall body, body ∈ bodies -> (length body <= 32)%nat.
(** What the tables built at boot give user mode. *)
Hypothesis Htables : forall k va, user_tables k = UT -> (current k < length bodies)%nat ->
  (0x200000 <= va < 0x201000 -> hw_view (P := P1) k va = Some user_rw) /\
  (0x10000 <= va < 0x12000 -> hw_view (P := P1) k va = Some urx).

Definition code1 (j : nat) : Z * list line := (entry j, default [] (bodies !! j)).
Definition instr1 : M () := instr (P := P1) size rt1 code1 (hw_view (P := P1)).

(** The computed machine: the sample platform, four bytes per line. *)
Definition entry2 (j : nat) : Z := 0x10000 + 0x100 * Z.of_nat j.
Definition code2 (j : nat) : Z * list line := (entry2 j, default [] (bodies !! j)).
Definition view2 (_ : Kernel) (va : Z) : option Permissions :=
  if (0x200000 <=? va) && (va <? 0x201000) then Some user_rw
  else if (0x10000 <=? va) && (va <? 0x12000) then Some urx else None.
Definition instr2 : M () := instr (P := sample_platform) Isolation.sample_size sample_time code2 view2.

(** Program counters at the same line. *)
Definition R (j : nat) (p1 p2 : Z) : Prop :=
  match bodies !! j with
  | None => True
  | Some body => exists i, (i <= length body)%nat /\ p1 = entry j + offset size body i /\
                           p2 = entry2 j + offset Isolation.sample_size body i
  end.
Abbreviation sim := (sim R UT).

(** The line the computed machine is at, and that its effect does not depend
    on what it does not know. *)
Definition line_of (k : Kernel) : option line :=
  body ← bodies !! current k;
  i ← line_at Isolation.sample_size body (sepc (live k) - entry2 (current k));
  body !! i.
Definition is_known (k : Kernel) (i : nat) : bool := bool_decide (reg (live k) i <> UNKNOWN).
Definition call_fine (k : Kernel) : bool :=
  let num := reg (live k) a7 in
  let args := is_known k 9 && is_known k 10 && is_known k 11 in
  (num =? SYS_YIELD) || (num =? SYS_EXIT) || (num =? SYS_FAULT_ACK) || ((num =? SYS_RECV) && args) ||
  ((num =? SYS_SEND) && args && in_stack_window (reg (live k) 10) (reg (live k) 11)).
Definition step_ok (k : Kernel) : bool :=
  bool_decide (current k < 8)%nat && active k && bool_decide (is_Some (tasks k !! current k)) &&
  match line_of k with
  | Some (Li _ _ | J _) => true
  | Some (Addi _ rs _ | Beqz rs _) => is_known k rs
  | Some (Sb rs off base) =>
      let va := wrapping_add 64 (reg (live k) base) off in is_known k base && (0x200000 <=? va) && (va <? 0x201000)
  | Some Ecall => is_known k a7 && call_fine k
  | _ => false
  end.

Lemma entry2_range j : (j < 8)%nat -> 0x10000 <= entry2 j < 0x11000.
Proof. unfold entry2. lia. Qed.

Lemma sim_set_live O c k1 k2 f1 f2 : sim O c c k1 k2 -> fsim R c f1 f2 -> settled R UT O (set_live f1 k1) (set_live f2 k2).
Proof. intros H F. exists c. destruct H. by split. Qed.

(** The addresses of line [j] of task [c]'s body. *)
Record at_line (c : nat) (body : list line) (j : nat) (l : line) (f1 f2 : TrapFrame) : Prop := {
  al_body : bodies !! c = Some body;
  al_line : body !! j = Some l;
  al_instr : is_instr l = true;
  al_pc1 : sepc f1 = entry c + offset size body j;
  al_pc2 : sepc f2 = entry2 c + offset Isolation.sample_size body j;
  al_range1 : 0x10000 <= sepc f1 < 0x11101;
  al_range2 : 0x10000 <= sepc f2 < 0x11101
}.

Lemma find_line O c k1 k2 l : sim O c c k1 k2 -> (c < 8)%nat -> line_of k2 = Some l ->
  exists body j, at_line c body j l (live k1) (live k2).
Proof.
  intros H Hc. unfold line_of. rewrite (sm_cur2 _ _ _ _ _ _ _ H). destruct (sm_live _ _ _ _ _ _ _ H) as [_ HR].
  unfold R in HR. destruct (bodies !! c) as [body|] eqn:Eb; [|done]. destruct HR as (i & Hi & E1 & E2). cbn.
  rewrite E2. replace (entry2 c + offset Isolation.sample_size body i - entry2 c) with (offset Isolation.sample_size body i) by lia.
  rewrite (line_at_next _ _ _ Isolation.sample_size_ok Hi). destruct (next_instr body i) as [j|] eqn:En; [|done]. cbn.
  destruct (next_instr_spec _ _ _ En) as (l' & Hl & Hil & _ & Ho). rewrite Hl. intros [= <-]. exists body, j.
  assert (length body <= 32)%nat as Hlen by (eapply Hshort, list_elem_of_lookup_2, Eb).
  pose proof (Hentry c) as He1. pose proof (entry2_range c Hc) as He2.
  pose proof (offset_nonneg size body i Hsize) as O1.
  pose proof (offset_nonneg _ body i Isolation.sample_size_ok) as O2.
  split; try done; rewrite ?Ho; try done; rewrite ?E1, ?E2; lia.
Qed.

(** Past the line: the next line on both sides. *)
Lemma at_next c body j l f1 f2 g1 g2 : at_line c body j l f1 f2 -> Forall2 rsim (regs g1) (regs g2) ->
  fsim R c (set_pc (wrapping_add 64 (sepc f1) (size l)) g1) (set_pc (wrapping_add 64 (sepc f2) (Isolation.sample_size l)) g2).
Proof.
  intros [Hb Hl Hi E1 E2 R1 R2] Hr. split; [done|]. cbn [sepc set_pc]. unfold R. rewrite Hb. exists (S j).
  split; [by apply lookup_lt_Some in Hl|]. rewrite !(offset_S _ _ _ _ Hl). pose proof (proj2 Hsize l) as Hs.
  assert (forall sz, bytes_of sz l = sz l) as Hy by (by destruct l). rewrite !Hy.
  assert (Isolation.sample_size l = 4) as H4 by done. unfold wrapping_add, wrapping.
  rewrite !Z.mod_small by lia. split; lia.
Qed.
(** A jump: the same label on both sides. *)
Lemma at_label c body j l f1 f2 g1 g2 n i : at_line c body j l f1 f2 -> Forall2 rsim (regs g1) (regs g2) ->
  label_of body n = Some i ->
  fsim R c (set_pc (entry c + offset size body i) g1) (set_pc (entry2 c + offset Isolation.sample_size body i) g2).
Proof.
  intros [Hb Hl _ _ _ _ _] Hr Hn. split; [done|]. cbn. unfold R. rewrite Hb. exists i. split; [|done].
  unfold label_of in Hn. apply fmap_Some in Hn as ([i' x] & (Hx & _)%list_find_Some & ->). cbn.
  apply lookup_lt_Some in Hx. lia.
Qed.

Lemma rsim_insert l1 l2 rd v : Forall2 rsim l1 l2 -> Forall2 rsim (<[rd := v]> l1) (<[rd := v]> l2).
Proof. intros. apply Forall2_insert; [done|]. by right. Qed.

Lemma jump_sim O c k1 k2 body j l n : sim O c c k1 k2 -> at_line c body j l (live k1) (live k2) ->
  rwp (jump size (entry c) body n) (jump Isolation.sample_size (entry2 c) body n) (fun _ _ => settled R UT O) (stopped R UT O) k1 k2.
Proof.
  intros H A. unfold jump. destruct (label_of body n) as [i|] eqn:E; [|done].
  apply (sim_set_live O c k1 k2 _ _ H). eapply at_label; [exact A| |done]. by destruct (sm_live _ _ _ _ _ _ _ H).
Qed.

Lemma call_fine_ok k : is_known k a7 = true -> call_fine k = true -> call_ok (reg (live k) a7) k.
Proof.
  unfold call_fine, call_ok, args_known, known, is_known. intros _ H.
  repeat (apply orb_true_iff in H as [H|H]); bool_facts; auto 6; right; right; right; [left|right]; auto.
Qed.

(** A system call of the task. *)
Lemma ecall_sim O c k1 k2 body j : sim O c c k1 k2 -> at_line c body j Ecall (live k1) (live k2) ->
  is_known k2 a7 = true -> call_fine k2 = true -> active k2 = true ->
  rwp (trap_handler (P := P1) rt1 CAUSE_ECALL_FROM_U 0) (trap_handler (P := sample_platform) sample_time CAUSE_ECALL_FROM_U 0)
    (fun _ _ => settled R UT O) (stopped R UT O) k1 k2.
Proof.
  intros H A Hk Hc Ha. set (f1 := mkFrame (regs (live k1)) (wrapping_add 64 (sepc (live k1)) 4) (sstatus (live k1))).
  set (f2 := mkFrame (regs (live k2)) (wrapping_add 64 (sepc (live k2)) 4) (sstatus (live k2))).
  assert (sim O c c (set_live f1 k1) (set_live f2 k2)) as H1.
  { destruct (sim_set_live O c k1 k2 f1 f2 H) as [c' H']; [|by destruct H, H'; subst; split].
    pose proof (at_next c body j Ecall (live k1) (live k2) (live k1) (live k2) A) as F.
    rewrite (proj1 Hsize) in F. apply F. by destruct (sm_live _ _ _ _ _ _ _ H). }
  change (rwp (consumed ← on_syscall (P := P1) (Kernel.a7 (live k1)); if negb consumed then result ← dispatch (Kernel.a7 (live k1)); set_a0 result else mret tt)
    (consumed ← on_syscall (P := sample_platform) (Kernel.a7 (live k2)); if negb consumed then result ← dispatch (Kernel.a7 (live k2)); set_a0 result else mret tt)
    (fun _ _ => settled R UT O) (stopped R UT O) (set_live f1 k1) (set_live f2 k2)).
  assert (Kernel.a7 (live k1) = Kernel.a7 (live k2)) as -> by (eapply sim_reg; [exact H|]; by apply bool_decide_eq_true in Hk).
  apply rwp_bind. eapply rwp_mono.
  - apply (handles_syscall R UT O P1 sample_platform) with (c := c); [done|exact H1| |exact Ha].
    by apply (call_fine_ok k2).
  - by intros a b k k' (-> & -> & Hs).
  - done.
Qed.

Lemma allowed1 O c k1 k2 need va : sim O c c k1 k2 -> (c < length bodies)%nat ->
  (0x200000 <= va < 0x201000 -> allowed (hw_view (P := P1)) k1 need va = need user_rw) /\
  (0x10000 <= va < 0x12000 -> allowed (hw_view (P := P1)) k1 need va = need urx).
Proof.
  intros H Hc. destruct (Htables k1 va (sm_tables _ _ _ _ _ _ _ H)) as [V1 V2]; [by rewrite (sm_cur1 _ _ _ _ _ _ _ H)|].
  split; intros Hva; unfold allowed; [rewrite V1 by done|rewrite V2 by done]; done.
Qed.

Lemma instr_lines O c k1 k2 l : sim O c c k1 k2 -> (c < 8)%nat -> line_of k2 = Some l ->
  exists body j, at_line c body j l (live k1) (live k2) /\
    instr1 k1 = exec_line (P := P1) size rt1 (hw_view (P := P1)) (entry c) body (live k1) l k1 /\
    instr2 k2 = exec_line (P := sample_platform) Isolation.sample_size sample_time view2 (entry2 c) body (live k2) l k2.
Proof.
  intros H Hc Hl. destruct (find_line O c k1 k2 l H Hc Hl) as (body & j & A). exists body, j. split; [done|].
  pose proof A as [Hb Hbl Hi E1 E2 R1 R2].
  assert (forall x, 0x10000 <= x < 0x11101 -> x ∈ᵤ 64) as Hu.
  { intros x Hx. unfold uint. change (2 ^ 64) with 18446744073709551616. lia. }
  split; eapply instr_line; try done; auto.
  - unfold code1. by rewrite (sm_cur1 _ _ _ _ _ _ _ H), Hb.
  - destruct (allowed1 O c k1 k2 p_execute (sepc (live k1)) H) as [_ V]; [by eapply lookup_lt_Some|]. apply V. lia.
  - unfold code2. by rewrite (sm_cur2 _ _ _ _ _ _ _ H), Hb.
  - unfold allowed, view2. replace (0x200000 <=? sepc (live k2)) with false by lia. cbn [andb].
    replace (0x10000 <=? sepc (live k2)) with true by lia. by replace (sepc (live k2) <? 0x12000) with true by lia.
Qed.

Lemma known_reg O c k1 k2 i : sim O c c k1 k2 -> is_known k2 i = true -> reg (live k1) i = reg (live k2) i.
Proof. intros H Hk. eapply sim_reg; [exact H|]. by apply bool_decide_eq_true in Hk. Qed.

(** One instruction, on both machines. *)
Lemma instr_sim O c k1 k2 : sim O c c k1 k2 -> step_ok k2 = true ->
  rwp instr1 instr2 (fun _ _ => settled R UT O) (stopped R UT O) k1 k2.
Proof.
  intros H Hok. unfold step_ok in Hok. rewrite (sm_cur2 _ _ _ _ _ _ _ H) in Hok. bool_facts.
  destruct (line_of k2) as [l|] eqn:El; [|done].
  destruct (instr_lines O c k1 k2 l H) as (body & j & A & I1 & I2); [done|done|].
  assert (forall Q S, rwp (exec_line (P := P1) size rt1 (hw_view (P := P1)) (entry c) body (live k1) l)
    (exec_line (P := sample_platform) Isolation.sample_size sample_time view2 (entry2 c) body (live k2) l) Q S k1 k2 -> rwp instr1 instr2 Q S k1 k2) as Hx
    by (intros Q S; unfold rwp; by rewrite I1, I2).
  apply Hx. clear Hx I1 I2. destruct (sm_live _ _ _ _ _ _ _ H) as [Fr _].
  pose proof (al_body _ _ _ _ _ _ A) as Hb%lookup_lt_Some.
  destruct l; try done; cbn [exec_line].
  - (* li *) apply (sim_set_live O c k1 k2 _ _ H), (at_next c body j (Li rd v) (live k1) (live k2) (set_reg rd v (live k1)) (set_reg rd v (live k2)) A).
    by apply rsim_insert.
  - (* addi *) rewrite (known_reg _ _ _ _ _ H) by done.
    apply (sim_set_live O c k1 k2 _ _ H), (at_next c body j (Addi rd rs v) (live k1) (live k2)
      (set_reg rd (reg (live k2) rs + v) (live k1)) (set_reg rd (reg (live k2) rs + v) (live k2)) A).
    by apply rsim_insert.
  - (* sb *) bool_facts. rewrite (known_reg _ _ _ _ base H) by done.
    set (va := wrapping_add 64 (reg (live k2) base) off) in *.
    assert (va ∈ᵤ 64) as Hu by (unfold uint; change (2 ^ 64) with 18446744073709551616; lia).
    unfold rwp, guarded, mbind, M_bind, get. rewrite touched_one by done. cbn [forallb].
    destruct (allowed1 O c k1 k2 p_write va H Hb) as [-> _]; [|lia].
    assert (allowed view2 k2 p_write va = true) as ->.
    { unfold allowed, view2. replace (0x200000 <=? va) with true by lia. by replace (va <? 0x201000) with true by lia. }
    cbn [andb p_write user_rw]. unfold store. cbn [seq for_each]. unfold mbind, M_bind.
    destruct (write_user_umem (user_addr va 0) (wrapping 8 (reg (live k1) rs .>> (8 * Z.of_nat 0))) k1) as [m1 ->].
    destruct (write_user_umem (user_addr va 0) (wrapping 8 (reg (live k2) rs .>> (8 * Z.of_nat 0))) k2) as [m2 ->].
    apply (sim_set_live O c (set_umem m1 k1) (set_umem m2 k2)); [destruct H; by split|].
    by apply (at_next c body j (Sb rs off base) (live k1) (live k2) (live k1) (live k2) A).
  - (* beqz *) rewrite (known_reg _ _ _ _ rs H) by done. destruct (reg (live k2) rs =? 0); [by eapply jump_sim|].
    apply (sim_set_live O c k1 k2 _ _ H). by apply (at_next c body j (Beqz rs n) (live k1) (live k2) (live k1) (live k2) A).
  - (* j *) by eapply jump_sim.
  - (* ecall *) bool_facts. exact (ecall_sim O c k1 k2 body j H A ltac:(assumption) ltac:(assumption) ltac:(assumption)).
Qed.

Lemma tick_sim O c k1 k2 : sim O c c k1 k2 ->
  rwp (tick (P := P1) rt1) (tick (P := sample_platform) sample_time) (fun _ _ => settled R UT O) (stopped R UT O) k1 k2.
Proof. intros H. by apply (handles_timer R UT O rt1 sample_time c c). Qed.

(** ** The recovery line *)

Definition ACK : list Z := Isolation.text "RECOVERY_APPLIED policy=" ++ Isolation.text "Kill".
Definition says_ack (out : list Z) : Prop := exists pre post, out = pre ++ ACK ++ post.

Lemma ack_says k t : Kernel.a7 (live k) = SYS_FAULT_ACK -> reg (live k) a1 = 2 -> active k = true ->
  tasks k !! current k = Some t -> length (ring k) = RING_LEN ->
  wp (trap_handler (P := P1) rt1 CAUSE_ECALL_FROM_U 0) (fun _ k' => says_ack (uart_out k')) (fun _ => False) k.
Proof.
  intros H7 H1 Ha Ht Hr.
  change (wp (f ← get live; modify (set_live (mkFrame (regs f) (wrapping_add 64 (sepc f) 4) (sstatus f))) ;;
    consumed ← on_syscall (P := P1) (Kernel.a7 f); if negb consumed then result ← dispatch (Kernel.a7 f); set_a0 result else mret tt)
    (fun _ k' => says_ack (uart_out k')) (fun _ => False) k).
  do 2 kstep. kstep. kstep. kstep. unfold on_syscall. do 2 kstep. rewrite Ha. cbn [negb]. do 2 kstep. rewrite H7.
  change (syscall_body (P := P1) SYS_FAULT_ACK) with (Some fault_ack). cbn iota. kstep. unfold fault_ack.
  do 2 kstep. kstep. apply (wp_task _ t); [ksimpl; exact Ht|]. kstep. apply wp_arg.
  match goal with |- context [reg (live ?k') 10] => change (reg (live k') 10) with (reg (live k) a1) end.
  rewrite H1. change (2 =? 2) with true. cbn iota zeta.
  kstep. apply Isolation.wp_put_str. do 4 (kstep; apply Isolation.wp_put_str).
  kstep. apply Isolation.wp_put_str. kstep. apply Isolation.wp_put_str. kstep. apply Isolation.wp_put_str.
  kstep. apply wp_ring_push_eq; [ksimpl; exact Hr|]. intros r h. kstep. kstep. cbn [negb]. kstep. ksimpl.
  match goal with |- says_ack (((?x ++ _) ++ _) ++ ?c) => exists x, c; generalize x end. intros x. unfold ACK. by rewrite <- !app_assoc.
Qed.

(** ** Exploration *)

Context (G T : nat) (timer : bool).

Definition is_ack (k : Kernel) : bool :=
  bool_decide (line_of k = Some Ecall) && (reg (live k) a7 =? SYS_FAULT_ACK) && (reg (live k) a1 =? 2).

Definition node_step (n : Node) (e : event) (ack : bool) (c : Ctl) : Node :=
  match e with
  | Instr => mkNode c (Nat.min G (S (n_gap n))) (n_ticks n) (n_acked n || ack)
  | Tick => mkNode c 0 (Nat.min T (S (n_ticks n))) (n_acked n)
  end.
(** Where a step leads: on, or to a halt; [None] if it leaves the model. *)
Definition finish (n : Node) (e : event) (ack : bool) (r : exec ()) : option (option stop_reason * Node) :=
  match r with
  | Ret _ k => if fits k then Some (None, node_step n e ack (ctl_of k)) else None
  | Stop s k => if fits k then Some (Some s, node_step n e false (ctl_of k)) else None
  | Crash => None
  end.
Definition step2 (n : Node) (e : event) : option (option stop_reason * Node) :=
  let k := embed (n_ctl n) in
  match e with
  | Instr => if step_ok k then finish n Instr (is_ack k) (instr2 k) else None
  | Tick => finish n Tick false (tick (P := sample_platform) sample_time k)
  end.
Definition enabled (n : Node) (e : event) : bool :=
  match e with Instr => true | Tick => timer && (G <=? n_gap n)%nat end.

Context (good : Node -> bool) (halt_ok : stop_reason -> Node -> bool).

Definition succ (n : Node) (e : event) : option (list Node) :=
  if enabled n e then
    match step2 n e with
    | Some (None, n') => Some [n']
    | Some (Some s, n') => if halt_ok s n' then Some [] else None
    | None => None
    end
  else Some [].
Fixpoint explore (fuel : nat) (todo seen : list Node) : option (list Node) :=
  match fuel, todo with
  | _, [] => Some seen
  | O, _ => None
  | S fuel, n :: todo =>
      if bool_decide (n ∈ seen) then explore fuel todo seen
      else if good n then
        match succ n Instr, succ n Tick with
        | Some a, Some b => explore fuel (a ++ b ++ todo) (n :: seen)
        | _, _ => None
        end
      else None
  end.

Definition covered (V W : list Node) : Prop := forall n, n ∈ V -> good n = true /\
  forall e, exists ns, succ n e = Some ns /\ forall n', n' ∈ ns -> n' ∈ W.

Lemma explore_sound fuel todo seen V : explore fuel todo seen = Some V -> covered seen (seen ++ todo) ->
  covered V V /\ forall n, n ∈ seen ++ todo -> n ∈ V.
Proof.
  clear Htables Hshort Hentry Hfeature Hsize P1 rt1 UT entry size.
  revert todo seen. induction fuel as [|fuel IH]; intros [|n todo] seen; cbn [explore]; try done.
  1,2: intros [= <-] H; rewrite app_nil_r in *; by split.
  case_bool_decide as Hn.
  - intros E H. destruct (IH todo seen E) as [H1 H2].
    { intros m Hm. destruct (H m Hm) as [Hg He]. split; [done|]. intros e. destruct (He e) as (ns & En & Hns).
      exists ns. split; [done|]. intros n' Hn'%Hns. set_solver. }
    split; [done|]. intros m Hm. apply H2. set_solver.
  - destruct (good n) eqn:Eg; [|done]. destruct (succ n Instr) as [a|] eqn:Ea; [|done].
    destruct (succ n Tick) as [b|] eqn:Eb; [|done]. intros E H. destruct (IH _ _ E) as [H1 H2].
    { intros m [-> |Hm]%elem_of_cons.
      - split; [done|]. intros []; [exists a|exists b]; (split; [done|]); intros; set_solver.
      - destruct (H m Hm) as [Hg He]. split; [done|]. intros e. destruct (He e) as (ns & En & Hns).
        exists ns. split; [done|]. intros n' Hn'%Hns. set_solver. }
    split; [done|]. intros m Hm. apply H2. set_solver.
Qed.

(** ** Every run is explored *)

Definition event1 (e : event) : M () := event_step size (P := P1) rt1 code1 (hw_view (P := P1)) e.

Context (O0 : list Z).
Definition track (gap ticks : nat) (k : Kernel) (n : Node) : Prop :=
  exists c O, sim O c c k (embed (n_ctl n)) /\ O0 `prefix_of` O /\ n_gap n = Nat.min G gap /\ n_ticks n = Nat.min T ticks /\
    (n_acked n = true -> says_ack O).
Definition halted (k : Kernel) (n : Node) : Prop :=
  exists o c O, sim O o c k (embed (n_ctl n)) /\ O0 `prefix_of` O /\ (n_acked n = true -> says_ack O).

Lemma sim_reout O o c k1 k2 : sim O o c k1 k2 -> sim (uart_out k1) o c k1 k2.
Proof. intros []. by split. Qed.

(** After the supervisor's call the line is in the output. *)
Lemma is_ack_says O c k1 k2 k' : sim O c c k1 k2 -> step_ok k2 = true -> is_ack k2 = true -> instr1 k1 = Ret tt k' ->
  says_ack (uart_out k').
Proof.
  intros H Hok Hack E. unfold is_ack in Hack. unfold step_ok in Hok. rewrite (sm_cur2 _ _ _ _ _ _ _ H) in Hok. bool_facts.
  match goal with El : line_of k2 = _ |- _ => destruct (instr_lines O c k1 k2 Ecall H) as (body & j & A & I1 & _); [done|exact El|] end.
  match goal with El : line_of k2 = _, Hm : match line_of k2 with _ => _ end = true |- _ => rewrite El in Hm; bool_facts end.
  assert (reg (live k1) a7 = reg (live k2) a7) as E7 by (by eapply known_reg).
  assert (reg (live k1) a1 = reg (live k2) a1) as E1.
  { eapply known_reg; [exact H|]. unfold is_known. apply bool_decide_eq_true. unfold UNKNOWN. lia. }
  destruct (tasks_sim_lookup _ _ _ (current k1) (sm_tasks _ _ _ _ _ _ _ H)) as [[N1 N2]|(t1 & t2 & Ht & _ & _)].
  { rewrite (sm_cur1 _ _ _ _ _ _ _ H) in N2. match goal with X : is_Some _ |- _ => destruct X as [? X]; congruence end. }
  pose proof (ack_says k1 t1) as W. unfold wp in W. rewrite E in I1. cbn [exec_line] in I1. rewrite <- I1 in W.
  apply W; [unfold Kernel.a7; change (reg (live k1) 16) with (reg (live k1) a7); congruence|congruence| |done|].
  - rewrite (sm_active _ _ _ _ _ _ _ H). done.
  - apply (sm_ring1 _ _ _ _ _ _ _ H).
Qed.

Lemma track_step gap ticks k n e ns : track gap ticks k n -> (e = Tick -> timer = true /\ (G <= gap)%nat) -> succ n e = Some ns ->
  match event1 e k with
  | Ret _ k' => exists n', n' ∈ ns /\ track (gap_step gap e) (ticks + tick_inc e) k' n'
  | Stop s k' => exists n', halt_ok s n' = true /\ halted k' n'
  | Crash => False
  end.
Proof.
  intros (c & O & H & HO & Hg & Ht & Ha) He. unfold succ.
  assert (enabled n e = true) as ->.
  { destruct e; [done|]. destruct (He eq_refl) as [Htm Hge]. cbn. rewrite Htm, Hg. apply Nat.leb_le. lia. }
  assert (forall ack m1 m2, rwp m1 m2 (fun _ _ => settled R UT O) (stopped R UT O) k (embed (n_ctl n)) ->
    (forall k', m1 k = Ret tt k' -> ack = true -> says_ack (uart_out k')) -> (e = Tick -> ack = false) ->
    match finish n e ack (m2 (embed (n_ctl n))) with
    | Some (None, n') => Some [n']
    | Some (Some s, n') => if halt_ok s n' then Some [] else None
    | None => None
    end = Some ns ->
    match m1 k with
    | Ret _ k' => exists n', n' ∈ ns /\ track (gap_step gap e) (ticks + tick_inc e) k' n'
    | Stop s k' => exists n', halt_ok s n' = true /\ halted k' n'
    | Crash => False
    end) as Hfin.
  { intros ack m1 m2 Hr Hack Htick. unfold rwp in Hr. unfold finish.
    destruct (m1 k) as [[] k1|s k1|] eqn:E1, (m2 (embed (n_ctl n))) as [[] k2|s' k2|]; try done.
    - destruct (fits k2) eqn:Ef; [|done]. intros [= <-]. destruct Hr as [c' Hs].
      exists (node_step n e ack (ctl_of k2)). split; [by left|]. exists c', (if ack then uart_out k1 else O).
      split; [|split; [|split; [|split]]].
      + apply sim_embed in Hs; [|done]. destruct e, ack; cbn; by try apply (sim_reout O).
      + destruct ack; [|done]. etrans; [exact HO|apply (sm_out _ _ _ _ _ _ _ Hs)].
      + destruct e; cbn; [rewrite Hg; lia|lia].
      + destruct e; cbn; rewrite Ht; [by rewrite Nat.add_0_r|lia].
      + destruct e, ack; cbn; rewrite ?orb_true_r, ?orb_false_r; auto.
    - destruct (fits k2) eqn:Ef; [|done]. destruct Hr as [-> (o & c' & Hs)].
      destruct (halt_ok s' _) eqn:Eh; [|done]. intros _. exists (node_step n e false (ctl_of k2)). split; [done|].
      apply sim_embed in Hs; [|done]. exists o, c', O.
      split; [by destruct e|]. split; [done|]. destruct e; cbn; by rewrite ?orb_false_r. }
  unfold step2. destruct e.
  - destruct (step_ok (embed (n_ctl n))) eqn:Eok; [|done]. apply (Hfin _ instr1 instr2); [by eapply instr_sim| |done].
    intros k' E Eack. by eapply is_ack_says.
  - apply (Hfin false); [by eapply tick_sim|done..].
Qed.

Lemma track_run V evs gap ticks k n : covered V V -> n ∈ V -> track gap ticks k n -> paced G timer gap evs = true ->
  match for_each event1 evs k with
  | Ret _ k' => exists n', n' ∈ V /\ track (gap_after gap evs) (ticks + tick_count evs) k' n'
  | Stop s k' => exists n', halt_ok s n' = true /\ halted k' n'
  | Crash => False
  end.
Proof.
  intros Hc. revert gap ticks k n. induction evs as [|e evs IH]; intros gap ticks k n Hn Htr Hp.
  { exists n. cbn. by rewrite Nat.add_0_r. }
  destruct (Hc n Hn) as [_ Hs]. destruct (Hs e) as (ns & Ens & Hns).
  pose proof (track_step gap ticks k n e ns Htr) as Hstep. cbn [for_each]. unfold mbind, M_bind.
  assert (e = Tick -> timer = true /\ (G <= gap)%nat) as He.
  { intros ->. cbn in Hp. bool_facts. split; [done|]. by apply Nat.leb_le. }
  assert (paced G timer (gap_step gap e) evs = true) as Hp' by (destruct e; cbn in *; [done|by bool_facts]).
  specialize (Hstep He Ens). destruct (event1 e k) as [[] k'|s k'|]; [|done|done].
  destruct Hstep as (n' & Hn' & Htr'). specialize (IH _ _ k' n' (Hns n' Hn') Htr' Hp').
  destruct (for_each event1 evs k'); [|done|done]. cbn. by rewrite <- Nat.add_assoc in IH.
Qed.

End step.

(** ** Boot *)

Section booting.
Context (P1 : Platform) (rt1 : Kernel -> Z) (size : line -> Z) (L : Layout) (ts : list DemoTask).
Hypothesis Hsize : size_ok size.
Hypothesis Himage : Fit.linker_fits (@linker P1).
Hypothesis Hfew : (length ts <= 8)%nat.
Hypothesis Hlayout : forall j, (j < length ts)%nat -> code_phys L j ∈ᵤ 55 /\ stack_phys L j ∈ᵤ 55.

Definition bodies_of : list (list line) := map dt_body ts.
Definition entry1 (j : nat) : Z := USER_CODE_VA + (code_phys L j .& 0xfff).
Abbreviation R := (R bodies_of size entry1).

Lemma entry1_range j : 0x10000 <= entry1 j < 0x11000.
Proof.
  clear Hlayout Hfew ts.
  unfold entry1, USER_CODE_VA. change 0xfff with (Z.ones 12). rewrite Z.land_ones by lia.
  pose proof (Z.mod_pos_bound (code_phys L j) (2 ^ 12)). lia.
Qed.

(** The result of a build depends only on the slot. *)
Lemma build_user_any TS j : TS !! j = Some fresh_tables -> (j < length ts)%nat -> exists uas TS',
  build_user_address_space linker TS j (code_phys L j) (stack_phys L j) = Val (uas, TS') /\
  entry_va uas = entry1 j /\ stack_top_va uas = 0x201000.
Proof.
  intros HT Hj. destruct (Hlayout j Hj) as [Hc Hs].
  destruct (Fit.user_space_fits linker Himage TS j _ _ HT ltac:(unfold MAX_USER_AS; lia) Hc Hs) as [[uas TS'] E].
  exists uas, TS'. split; [exact E|]. revert E. unfold build_user_address_space. case_decide; [|done].
  unfold mbind, outcome_bind. repeat case_match; try done. by intros [= <- <-].
Qed.

(** What was printed before the tasks are registered. *)
Context (O0 : list Z).

(** The control blocks of the computed machine at boot. *)
Definition tcb2 (j : nat) (t : DemoTask) : Tcb :=
  mkTcb Ready (dt_prio t) 0 (new_user (entry2 j) 0x201000) None (replicate CAPS_PER_TASK None) (dt_name t) 0 0.
Definition put2 (TL : list Tcb) (it : nat * DemoTask) : list Tcb := <[it.1 := tcb2 it.1 it.2]> TL.
Definition grant2 (TL : list Tcb) (g : nat * nat * Z * Z) : list Tcb :=
  let '(i, slot, id, r) := g in
  match TL !! i with
  | Some t => <[i := with_caps (<[slot := Some (mkCap OTYPE_ENDPOINT id r)]> (t_caps t)) t]> TL
  | None => TL
  end.

(** [m] tasks are registered, as in [TL]. *)
Record booting (m : nat) (TL : list Tcb) (k : Kernel) : Prop := {
  bo_tasks : length (tasks k) = length TL /\ forall j t1 t2, (j < m)%nat \/ (length ts <= j)%nat ->
    tasks k !! j = Some t1 -> TL !! j = Some t2 -> tsim R j t1 t2;
  bo_len : length (tasks k) = MAX_TASKS;
  bo_caps : forall j t, tasks k !! j = Some t -> length (t_caps t) = CAPS_PER_TASK;
  bo_watchdog : watchdog_miss k = 0;
  bo_endpoints : endpoints k = replicate NUM_ENDPOINTS EpIdle;
  bo_irq : irq_routes k = replicate 2 (mkRoute MAX_TASKS false);
  bo_kmsg : length (kmsg k) = Z.to_nat IPC_MSG_MAX;
  bo_ring : length (ring k) = RING_LEN;
  bo_out : O0 `prefix_of` uart_out k;
  bo_fresh : forall j, (m <= j < MAX_USER_AS)%nat -> user_tables k !! j = Some fresh_tables;
  bo_view : forall j va, (j < m)%nat -> va ∈ᵤ 39 ->
    Arena.translate (space_of linker (user_tables k) j) (mkVirt va) =
    Val (user_view linker (code_phys L j) (stack_phys L j) va)
}.

Lemma rsim_refl l : Forall2 rsim l l.
Proof. induction l; constructor; [by right|done]. Qed.

Lemma R_outside j p1 p2 : (length ts <= j)%nat -> R j p1 p2.
Proof. intros Hj. unfold DemoRun.R. by rewrite (proj2 (lookup_ge_None bodies_of j)) by (unfold bodies_of; by rewrite length_map). Qed.
Lemma R_entry j : R j (entry1 j) (entry2 j).
Proof.
  unfold DemoRun.R. case_match; [|done]. exists 0%nat. unfold offset. rewrite !take_0. cbn [foldr]. split; [lia|]. split; lia.
Qed.

Lemma boot_static um s : booting 0 (replicate MAX_TASKS EMPTY_TCB) (set_uart_out O0 (set_satp s (static_state um))).
Proof.
  split; ksimpl; cbn [static_state tasks watchdog_miss endpoints irq_routes kmsg ring user_tables]; rewrite ?length_replicate; try done.
  - split; [done|]. intros j t1 t2 [?|Hj] [-> _]%lookup_replicate_1 [-> _]%lookup_replicate_1; [lia|]. split; try done.
    split; [apply rsim_refl|]. by apply R_outside.
  - by intros j t [-> _]%lookup_replicate_1.
  - intros j [_ Hj]. by apply lookup_replicate_2.
  - lia.
Qed.

(** Outputs leave it alone. *)
Lemma booting_out m TL k o : booting m TL k -> booting m TL (set_uart_out (uart_out k ++ o) k).
Proof. intros []. split; try done. ksimpl. by apply prefix_app_r. Qed.

Lemma boot_task m TL k t : booting m TL k -> ts !! m = Some t ->
  wp (register_demo_task (P := P1) L (m, t)) (fun _ => booting (S m) (put2 TL (m, t))) (fun _ => False) k.
Proof.
  intros B Ht. pose proof (lookup_lt_Some _ _ _ Ht) as Hm. destruct (Hlayout m Hm) as [Hc Hst].
  assert (m < MAX_USER_AS)%nat as Hmax by (unfold MAX_USER_AS; lia).
  pose proof (bo_fresh _ _ _ B m ltac:(lia)) as Hf.
  destruct (build_user_any _ m Hf Hm) as (uas & TS' & E & Ee & Es).
  destruct (user_space_tr _ _ _ _ _ _ _ (Fit.lf_ok _ Himage) Hf Hc Hst E) as (ar & lvl & _ & _ & HTS & _ & _).
  unfold register_demo_task, build_user. cbn [fst snd]. do 3 kstep. kstep. eapply wp_lift; [exact E|]. do 2 kstep. kstep.
  unfold register_task, fresh_frame. do 4 kstep. kstep.
  pose proof (bo_len _ _ _ B) as Hlen. apply wp_put_task; [ksimpl; rewrite Hlen; unfold MAX_TASKS; lia|].
  do 2 (kstep; apply Isolation.wp_put_str). apply Isolation.wp_put_str.
  apply booting_out, booting_out, booting_out. cbn [fst snd]. rewrite Ee, Es. destruct B. split; try done; ksimpl.
  - destruct bo_tasks0 as [L0 H0]. unfold put2. cbn [fst snd]. rewrite !length_insert. split; [done|]. intros j t1 t2 Hj.
    intros [[-> ->]|[N1 H1]]%insert_lookup_cases [[? ->]|[? H2]]%insert_lookup_cases; try done.
    + split; try done. split; [apply rsim_refl|]. apply R_entry.
    + apply H0; [lia|done..].
  - by rewrite length_insert.
  - by intros j x [[_ ->]|[_ Hx%bo_caps0]]%insert_lookup_cases.
  - intros j Hj. subst TS'. rewrite list_lookup_insert_ne by lia. apply bo_fresh0. lia.
  - intros j va Hj Hva. destruct (decide (j = m)) as [-> |N].
    + eapply user_space_translates; eauto using Fit.lf_ok.
    + assert (space_of linker TS' j = space_of linker (user_tables k) j) as ->.
      { unfold space_of. subst TS'. by rewrite list_lookup_insert_ne by lia. }
      apply bo_view0; [lia|done].
Qed.

Lemma boot_tasks l m TL k : booting m TL k -> (m <= length ts)%nat -> drop m ts = l ->
  wp (for_each (register_demo_task (P := P1) L) (imap (fun i t => (m + i, t)%nat) l))
    (fun _ => booting (length ts) (foldl put2 TL (imap (fun i t => (m + i, t)%nat) l))) (fun _ => False) k.
Proof.
  revert m TL k. induction l as [|t l IH]; intros m TL k B Hm Hd.
  - apply (f_equal length) in Hd. rewrite length_drop in Hd. cbn [length] in Hd.
    assert (m = length ts) as -> by lia. exact B.
  - assert (ts !! m = Some t) as Ht by (rewrite <- (Nat.add_0_r m), <- lookup_drop, Hd; done).
    rewrite imap_cons. cbn [for_each foldl]. kstep. rewrite Nat.add_0_r. eapply wp_mono; [by apply boot_task| |done].
    intros [] k' B'. rewrite (imap_ext _ (fun i t => (S m + i, t)%nat)) by (intros; cbn; f_equal; lia).
    apply lookup_lt_Some in Ht as Hlt. apply IH; [done|lia|].
    rewrite <- (drop_drop _ 1 m) || idtac. apply (f_equal (drop 1)) in Hd. rewrite drop_drop in Hd. cbn in Hd.
    by rewrite Nat.add_1_r in Hd.
Qed.

Definition grant_ok (g : nat * nat * Z * Z) : bool :=
  bool_decide (g.1.1.1 < MAX_TASKS)%nat && bool_decide (g.1.1.2 < CAPS_PER_TASK)%nat.

Lemma boot_grant TL k g : booting (length ts) TL k -> grant_ok g = true ->
  wp (grant g) (fun _ => booting (length ts) (grant2 TL g)) (fun _ => False) k.
Proof.
  destruct g as [[[i slot] id] r]. unfold grant_ok. cbn [fst snd]. intros B Hg. bool_facts.
  pose proof (bo_len _ _ _ B) as Hlen. pose proof (bo_tasks _ _ _ B) as [HL HT].
  destruct (lookup_lt_is_Some_2 (tasks k) i) as [t Ht]; [lia|]. destruct (lookup_lt_is_Some_2 TL i) as [t2 Ht2]; [lia|].
  assert (tsim R i t t2) as T by (apply HT; [lia|done..]).
  pose proof (bo_caps _ _ _ B i t Ht) as Hcaps. unfold grant, set_endpoint_cap. kstep. apply (wp_task i t); [done|]. kstep.
  eapply wp_lift; [apply arr_set_lt; lia|]. apply wp_put_task; [lia|].
  unfold grant2. rewrite Ht2. destruct B. split; try done; ksimpl.
  - rewrite !length_insert. split; [done|]. intros j u1 u2 Hj.
    intros [[-> ->]|[N1 H1]]%insert_lookup_cases [[? ->]|[? H2]]%insert_lookup_cases; try done; [|by eapply HT].
    pose proof (ts_caps _ _ _ _ T) as Ec. destruct T. split; try done. cbn. by rewrite Ec.
  - by rewrite length_insert.
  - intros j u [[_ ->]|[_ Hu%bo_caps0]]%insert_lookup_cases; [cbn; by rewrite length_insert|done].
Qed.
Lemma boot_grants gs TL k : booting (length ts) TL k -> forallb grant_ok gs = true ->
  wp (for_each grant gs) (fun _ => booting (length ts) (foldl grant2 TL gs)) (fun _ => False) k.
Proof.
  revert TL k. induction gs as [|g gs IH]; intros TL k B Hg; [exact B|]. cbn [for_each foldl forallb] in *. bool_facts.
  kstep. eapply wp_mono; [by apply boot_grant| |done]. intros [] k' B'. by apply IH.
Qed.

(** The computed machine when user mode is entered. *)
Definition tasks2 (gs : list (nat * nat * Z * Z)) : list Tcb :=
  foldl grant2 (foldl put2 (replicate MAX_TASKS EMPTY_TCB) (imap pair ts)) gs.
Definition ctl2 (gs : list (nat * nat * Z * Z)) : Ctl :=
  let first := default EMPTY_TCB (tasks2 gs !! 0%nat) in
  mkCtl (<[0%nat := with_state Running first]> (tasks2 gs)) 0 0 (replicate NUM_ENDPOINTS EpIdle)
    (replicate 2 (mkRoute MAX_TASKS false))
    (mkFrame (<[1%nat := reg (t_frame first) 1]> (replicate 31 UNKNOWN)) (sepc (t_frame first)) 0).
Definition node2 (gs : list (nat * nat * Z * Z)) : Node := mkNode (ctl2 gs) 0 0 false.

(** What boot leaves: the relation to the computed machine, and tables that
    give each task its view. *)
Definition booted (gs : list (nat * nat * Z * Z)) (k : Kernel) : Prop :=
  sim R (user_tables k) O0 0 0 k (embed (ctl2 gs)) /\
  forall j va, (j < length ts)%nat -> va ∈ᵤ 39 ->
    Arena.translate (space_of linker (user_tables k) j) (mkVirt va) =
    Val (user_view linker (code_phys L j) (stack_phys L j) va).

Definition demo_run (gs : list (nat * nat * Z * Z)) (timer : bool) (left : list Z) (status : Z) : M () :=
  e ← demo_boot (P := P1) rt1 L ts gs timer; enter_user left status e.

Lemma demo_booted gs timer left status um s : forallb grant_ok gs = true -> (0 < length ts)%nat -> length left = 31%nat ->
  wp (demo_run gs timer left status) (fun _ => booted gs) (fun _ => False) (set_uart_out O0 (set_satp s (static_state um))).
Proof.
  intros Hg Hpos Hl. unfold demo_run, demo_boot. kstep. kstep.
  pose proof (boot_tasks ts 0 (replicate MAX_TASKS EMPTY_TCB) _ (boot_static um s) ltac:(lia) eq_refl) as H1.
  rewrite (imap_ext _ pair) in H1 by done. eapply wp_mono; [exact H1| |done]. intros [] k1 B1. kstep.
  eapply wp_mono; [by apply boot_grants| |done]. intros [] k2 B2. clear k1 B1 H1. kstep.
  assert (forall k3, booting (length ts) (tasks2 gs) k3 ->
    wp start (fun e => wp (enter_user left status e) (fun _ => booted gs) (fun _ => False)) (fun _ => False) k3) as Hstart.
  2: { destruct timer; [|by apply Hstart]. unfold arm_next. do 3 kstep. apply Hstart. destruct B2. by split. }
  clear k2 B2. intros k B. pose proof (bo_len _ _ _ B) as Hlen. pose proof (bo_tasks _ _ _ B) as [HL HT].
  assert (length (tasks k) = 16%nat) as Hlen' by done.
  destruct (lookup_lt_is_Some_2 (tasks k) 0) as [t Ht]; [lia|]. destruct (lookup_lt_is_Some_2 (tasks2 gs) 0) as [t2 Ht2]; [lia|].
  assert (tsim R 0 t t2) as T0 by (apply HT; [lia|done..]).
  unfold start. do 2 kstep. kstep. apply (wp_upd_task 0 t); [done|]. do 2 kstep. kstep.
  eapply wp_task; [ksimpl; by apply list_lookup_insert_eq; lia|]. unfold switch_to_user_space. do 3 kstep. unfold enter_user. kstep.
  split; [|by destruct B]. unfold ctl2. rewrite Ht2. cbn [default]. destruct T0 as [? ? ? ? [Hregs Hpc] ?]. destruct B.
  split; cbn [embed ctl2 c_tasks c_current c_miss c_eps c_irq c_live tasks current active watchdog_miss endpoints irq_routes kmsg ring live
              user_tables uart_out]; ksimpl; try done.
  - split; [by rewrite !length_insert|]. intros j u1 u2.
    intros [[-> ->]|[N1 H1]]%insert_lookup_cases [[? ->]|[? H2]]%insert_lookup_cases; try done; first [apply HT; [lia|done..]|by split].
  - split; [|done]. cbn [regs fst snd]. apply Forall2_insert.
    + apply Forall2_same_length_lookup. split; [by rewrite length_replicate|]. intros i x y _ [-> _]%lookup_replicate_1. by left.
    + cbn. unfold reg. destruct (regs (t_frame t2) !! 1%nat) as [y|] eqn:Ey.
      * by destruct (Forall2_lookup_r _ _ _ _ _ Hregs Ey) as (x & -> & Hx).
      * apply Forall2_length in Hregs. apply lookup_ge_None in Ey. right. by rewrite (proj2 (lookup_ge_None _ _)) by lia.
Qed.

End booting.

End DemoRun.
