(* ===== verification/DemoThms.v ===== *)
(** * What the demonstrations show

    The outcome of each demonstration, from [kernel_main] on, for every
    build (platform, link addresses, instruction sizes), every content of
    memory and registers, and every schedule of timer interrupts that leaves
    at least [G] instructions before each.  The proofs explore the computed
    machine of [DemoRun]. *)

From stdpp Require Import strings base decidable numbers option tactics list.
From S2P Require Import Prelude Bytes Caps Memory PageTable Sv39 Paging PagingHw Capacity Device Kernel Dispatch.
From S2P Require Import DispatchLogic Trap TrapSafe System IpcRt OsBoot Machine Demos DemoSim Isolation DemoRun.
Local Open Scope Z_scope.

Module DemoThms.
Import Machine Demos DemoSim DemoRun.

(** ** The demonstrations *)

Record Demo := mkDemo {
  de_choice : Choice; de_tasks : list DemoTask; de_grants : list (nat * nat * Z * Z); de_timer : bool
}.
Definition full : Demo := mkDemo CFull full_tasks full_grants true.
Definition supervised : Demo := mkDemo CSupervisor supervisor_tasks supervisor_grants true.
Definition watched : Demo := mkDemo CWatchdog watchdog_tasks [] true.
Definition preempted : Demo := mkDemo CPreempt preempt_tasks [] true.
Definition multitasked : Demo := mkDemo CMultitask multitask_tasks [] false.
Definition messaged : Demo := mkDemo CIpc ipc_tasks ipc_grants false.
Definition capable : Demo := mkDemo CCap cap_tasks cap_grants false.

Definition BANNER : list Z := Isolation.text ("AxiomRT kernel booted" +:+ nl).

(** The states of the first [m] tasks. *)
Definition states (m : nat) (k : Kernel) : list RtState := take m (map t_state (tasks k)).
Definition nstates (m : nat) (n : Node) : list RtState := take m (map t_state (c_tasks (n_ctl n))).

(** Not ended by a fault, an exit or a kill. *)
Definition alive (s : RtState) : bool := match s with Ready | Running | Blocked => true | _ => false end.
Definition task_alive (i : nat) (l : list RtState) : bool := match l !! i with Some s => alive s | None => false end.

(** ** What is checked of each state of the computed machine *)

Definition no_halt (_ : stop_reason) (_ : Node) : bool := false.
Definition halts_in (m : nat) (l : list RtState) (acked : bool) (s : stop_reason) (n : Node) : bool :=
  match s with IdleLoop => true | Shutdown => false end && bool_decide (nstates m n = l) && implb acked (n_acked n).

(** The four-task demonstration: the hog is faulted at the fifth interrupt;
    from then on the others settle within 16 instructions. *)
Definition full_good (n : Node) : bool :=
  let l := nstates 4 n in
  forallb (fun i => task_alive i l) [0; 1; 3]%nat &&
  (if (n_ticks n <? 5)%nat then task_alive 2 l else bool_decide (l !! 2%nat = Some Faulted)) &&
  (if (n_ticks n =? 5)%nat && (n_gap n =? 16)%nat then bool_decide (l = [Blocked; Blocked; Faulted; Running]) && n_acked n else true).
(** Without the critical task: all others end up blocked, and the kernel
    idles. *)
Definition supervised_good (n : Node) : bool :=
  let l := nstates 3 n in
  forallb (fun i => task_alive i l) [0; 1]%nat && negb ((n_ticks n =? 5)%nat && (n_gap n =? 16)%nat).
Definition watched_good (n : Node) : bool :=
  bool_decide (nstates 2 n = if (n_ticks n <? 5)%nat then [Running; Ready] else [Faulted; Running]).
(** The high-priority task has finished 24 instructions after the first
    interrupt. *)
Definition preempted_good (n : Node) : bool :=
  (n_ticks n <? 8)%nat &&
  (if (n_ticks n =? 0)%nat then bool_decide (nstates 2 n = [Running; Ready])
   else bool_decide (nstates 2 n = [Ready; Running]) || bool_decide (nstates 2 n = [Running; Killed])) &&
  (if (1 <=? n_ticks n)%nat && (n_gap n =? 24)%nat then bool_decide (nstates 2 n = [Running; Killed]) else true).
(** Cooperative demonstrations: done before instruction 40. *)
Definition short_good (n : Node) : bool := (n_gap n <? 40)%nat.

(** The exploration of a demonstration; 2,000 steps are enough for each. *)
Definition explored (d : Demo) (G T : nat) (good : Node -> bool) (halt_ok : stop_reason -> Node -> bool) (fuel : nat) : bool :=
  bool_decide (is_Some (explore (bodies_of (de_tasks d)) G T (de_timer d) good halt_ok fuel [node2 (de_tasks d) (de_grants d)] [])).

Lemma full_explored : explored full 16 5 full_good no_halt 2000 = true.
Proof. vm_compute. reflexivity. Qed.
Lemma supervised_explored : explored supervised 16 5 supervised_good (halts_in 3 [Blocked; Blocked; Faulted] true) 2000 = true.
Proof. vm_compute. reflexivity. Qed.
Lemma watched_explored : explored watched 16 5 watched_good no_halt 2000 = true.
Proof. vm_compute. reflexivity. Qed.
Lemma preempted_explored : explored preempted 24 8 preempted_good (halts_in 2 [Faulted; Killed] false) 2000 = true.
Proof. vm_compute. reflexivity. Qed.
Lemma multitasked_explored : explored multitasked 40 0 short_good (halts_in 2 [Killed; Killed] false) 2000 = true.
Proof. vm_compute. reflexivity. Qed.
Lemma messaged_explored : explored messaged 40 0 short_good (halts_in 2 [Killed; Killed] false) 2000 = true.
Proof. vm_compute. reflexivity. Qed.
Lemma capable_explored : explored capable 40 0 short_good (halts_in 3 [Killed; Killed; Killed] false) 2000 = true.
Proof. vm_compute. reflexivity. Qed.

Section demos.
Context (P1 : Platform) (rt1 : Kernel -> Z) (size : line -> Z) (L : Layout) (done_pc stack_top : Z) (OL : Boot.Layout) (f : Features).
Hypothesis Hsize : size_ok size.
Hypothesis Himage : Fit.linker_fits (@linker P1).
Hypothesis Hfeature : @os_boot P1 = f_os_boot f.
Hypothesis Hlayout : forall j, (j < 4)%nat -> code_phys L j ∈ᵤ 55 /\ stack_phys L j ∈ᵤ 55.

(** The demonstration chosen by the build: boot, then a schedule of
    instructions and timer interrupts. *)
Definition run_demo (d : Demo) (left : list Z) (status : Z) (evs : list event) : M () :=
  e ← kernel_main (P := P1) rt1 L done_pc stack_top OL f;
  enter_user left status e ;;
  for_each (event_step size (P := P1) rt1 (code1 (bodies_of (de_tasks d)) (entry1 L)) (hw_view (P := P1))) evs.

(** The build's features select the demonstration. *)
Definition selected (d : Demo) : Prop := hd_error (blocks f) = Some (de_choice d).

Lemma selected_no_os d : de_choice d <> COs -> selected d -> f_os_boot f = false.
Proof. unfold selected. intros H. destruct f as [[] [] [] [] [] [] [] []]; cbn; congruence. Qed.

Definition well_formed (d : Demo) : bool :=
  bool_decide (length (de_tasks d) <= 4)%nat && bool_decide (0 < length (de_tasks d))%nat &&
  forallb (fun t => bool_decide (length (dt_body t) <= 32)%nat) (de_tasks d) && forallb grant_ok (de_grants d).

Lemma kernel_main_boots d left status um : selected d -> well_formed d = true ->
  length left = 31%nat ->
  entry_of (P := P1) rt1 L done_pc stack_top OL (de_choice d) = demo_boot rt1 L (de_tasks d) (de_grants d) (de_timer d) ->
  exists O0, BANNER `prefix_of` O0 /\
  wp (e ← kernel_main (P := P1) rt1 L done_pc stack_top OL f; enter_user left status e)
    (fun _ => booted P1 size L (de_tasks d) O0 (de_grants d)) (fun _ => False) (static_state um).
Proof.
  intros Hb Hw Hl He. unfold well_formed in Hw. bool_facts. unfold selected in Hb. destruct (blocks f) as [|c rest] eqn:Ef; [done|].
  injection Hb as ->. destruct (Fit.kernel_paging_fits _ Himage) as [[s tbl] E].
  set (O0 := BANNER ++ Isolation.text ("arch=riscv64" +:+ nl) ++ Isolation.text ("phase=boot" +:+ nl) ++
             Isolation.text ("MMU status=enabled mode=sv39 scope=kernel" +:+ nl)).
  exists O0. split; [by apply prefix_app_r|].
  unfold kernel_main. rewrite Ef, He. kstep. do 3 (kstep; unfold put_line at 1; apply Isolation.wp_put_str).
  unfold enable_paging. kstep. kstep. eapply wp_lift; [exact E|]. kstep. kstep. apply Isolation.wp_put_str.
  pose proof (demo_booted P1 rt1 size L (de_tasks d) Himage ltac:(lia) ltac:(intros; apply Hlayout; lia) O0 (de_grants d)
    (de_timer d) left status um s ltac:(assumption) ltac:(assumption) Hl) as W.
  apply Boot.wp_bind_inv in W. match goal with |- wp _ _ _ ?k => assert (k = set_uart_out O0 (set_satp s (static_state um))) as -> end.
  { unfold O0. ksimpl. cbn [fst snd static_state uart_out app]. unfold BANNER. by rewrite <- !app_assoc. }
  exact W.
Qed.

(** What a state of the computed machine says about the kernel it stands
    for. *)
Definition agrees (k : Kernel) (n : Node) : Prop :=
  map t_state (tasks k) = map t_state (c_tasks (n_ctl n)) /\ BANNER `prefix_of` uart_out k /\
  (n_acked n = true -> says_ack (uart_out k)).

Lemma sim_agrees R UT O0 O o c k n : sim R UT O o c k (embed (n_ctl n)) -> BANNER `prefix_of` O0 -> O0 `prefix_of` O ->
  (n_acked n = true -> says_ack O) -> agrees k n.
Proof.
  intros H HB HO Ha. pose proof (sm_out _ _ _ _ _ _ _ H) as Hout. split; [|split].
  - apply list_eq. intros j. rewrite !list_lookup_fmap.
    destruct (tasks_sim_lookup _ _ _ j (sm_tasks _ _ _ _ _ _ _ H)) as [[E1 E2]|(t1 & t2 & E1 & E2 & T)];
      cbn [embed tasks] in E2; rewrite E1, E2; [done|]. cbn. by rewrite (ts_state _ _ _ _ T).
  - by do 2 etrans.
  - intros [pre [post ->]]%Ha. destruct Hout as [l ->]. exists pre, (post ++ l). by rewrite <- !app_assoc.
Qed.

Lemma views d k va O0 : booted P1 size L (de_tasks d) O0 (de_grants d) k -> forall k', user_tables k' = user_tables k ->
  (current k' < length (bodies_of (de_tasks d)))%nat ->
  (0x200000 <= va < 0x201000 -> hw_view (P := P1) k' va = Some user_rw) /\
  (0x10000 <= va < 0x12000 -> hw_view (P := P1) k' va = Some urx).
Proof.
  intros [_ V] k' E Hc. unfold bodies_of in Hc. rewrite length_map in Hc. unfold hw_view. rewrite E.
  split; intros Hva; rewrite V by (done || (unfold uint; lia)); unfold user_view.
  - by rewrite decide_True by (unfold in_span, USER_STACK_VA; lia).
  - rewrite decide_False by (unfold in_span, USER_STACK_VA; lia).
    by rewrite decide_True by (unfold in_span, USER_CODE_VA; lia).
Qed.

Lemma run_demo_from d left status evs k0 k : (e ← kernel_main (P := P1) rt1 L done_pc stack_top OL f; enter_user left status e) k0 = Ret tt k ->
  run_demo d left status evs k0 = for_each (event1 (bodies_of (de_tasks d)) P1 rt1 size (entry1 L)) evs k.
Proof.
  unfold run_demo. generalize (kernel_main (P := P1) rt1 L done_pc stack_top OL f). intros m. unfold mbind, M_bind.
  destruct (m k0) as [e k1|s k1|]; [|done..]. by intros ->.
Qed.

(** What holds in all states explored holds in every run: the run never
    leaves the model, and a halt is one that is allowed. *)
Lemma demo_runs d left status um G T good halt_ok fuel evs : selected d -> well_formed d = true -> de_choice d <> COs ->
  length left = 31%nat ->
  entry_of (P := P1) rt1 L done_pc stack_top OL (de_choice d) = demo_boot rt1 L (de_tasks d) (de_grants d) (de_timer d) ->
  explored d G T good halt_ok fuel = true -> paced G (de_timer d) 0 evs = true ->
  match run_demo d left status evs (static_state um) with
  | Ret _ k => exists n, good n = true /\ agrees k n /\ n_gap n = Nat.min G (gap_after 0 evs) /\
                         n_ticks n = Nat.min T (tick_count evs)
  | Stop s k => exists n, halt_ok s n = true /\ agrees k n
  | Crash => False
  end.
Proof.
  intros Hsel Hw Hno Hl He Hx Hp. destruct (kernel_main_boots d left status um Hsel Hw Hl He) as (O0 & HB & Hboot).
  destruct (Boot.wp_returns _ _ _ Hboot) as ([] & k & E & B). unfold explored in Hx. apply bool_decide_eq_true in Hx as [V EV].
  destruct (explore_sound _ _ _ _ _ _ _ _ _ _ EV) as [HC HV]; [intros n Hn; by apply not_elem_of_nil in Hn|].
  assert (forall body, body ∈ bodies_of (de_tasks d) -> (length body <= 32)%nat) as Hshort.
  { unfold well_formed in Hw. bool_facts. intros body (t & -> & Ht)%list_elem_of_fmap.
    match goal with X : forallb _ (de_tasks d) = true |- _ => rewrite forallb_forall in X; specialize (X t (proj1 (list_elem_of_In _ _) Ht)) end.
    by bool_facts. }
  pose proof (track_run (bodies_of (de_tasks d)) P1 rt1 size (entry1 L) (user_tables k) Hsize
    ltac:(by rewrite Hfeature; eapply selected_no_os) (entry1_range L) Hshort (fun k' va => views d k va O0 B k')
    G T (de_timer d) good halt_ok O0 V evs 0 0 k _ HC (HV _ ltac:(by left))) as Hrun.
  specialize (Hrun ltac:(exists 0%nat, O0; split; [apply B|]; rewrite !Nat.min_0_r; done) Hp).
  rewrite (run_demo_from d left status evs _ k E). clear Hboot EV.
  destruct (for_each _ evs k) as [[] k'|s k'|]; [| |done].
  - destruct Hrun as (n & Hn & c & O & S & HO & Hg & Ht & Ha). destruct (HC n Hn) as [Hgood _].
    exists n. split; [done|]. split; [by eapply sim_agrees|]. by split.
  - destruct Hrun as (n & Hn & o & c & O & S & HO & Ha). exists n. split; [done|]. by eapply sim_agrees.
Qed.

Lemma agrees_states m k n : agrees k n -> states m k = nstates m n.
Proof. unfold states, nstates. by intros [-> _]. Qed.

(** C15. The four-task demonstration, from [kernel_main] on.  Whatever the build
    and the schedule, as long as 16 instructions pass between interrupts, it
    runs on and never halts: the supervisor, the logger and the critical
    task stay alive, and the hog is alive before the fifth interrupt and
    faulted from it on.  16 instructions later the system is
    settled: the supervisor has applied its kill decision, supervisor and
    logger wait for the next event, and the critical task runs. *)
Theorem full_demo_contains left status um evs : selected full -> length left = 31%nat -> paced 16 true 0 evs = true ->
  exists k, run_demo full left status evs (static_state um) = Ret tt k /\ BANNER `prefix_of` uart_out k /\
    (forall i, i ∈ [0; 1; 3]%nat -> task_alive i (states 4 k) = true) /\
    ((tick_count evs < 5)%nat -> task_alive 2 (states 4 k) = true) /\
    ((5 <= tick_count evs)%nat -> states 4 k !! 2%nat = Some Faulted) /\
    ((5 <= tick_count evs)%nat -> (16 <= gap_after 0 evs)%nat ->
       states 4 k = [Blocked; Blocked; Faulted; Running] /\ says_ack (uart_out k)).
Proof.
  intros Hsel Hl Hp. pose proof (demo_runs full left status um 16 5 full_good no_halt 2000 evs Hsel eq_refl ltac:(done) Hl eq_refl
    full_explored Hp) as H. destruct (run_demo _ _ _ _ _) as [[] k|r k|]; [|by destruct H as (? & ? & _)|done].
  destruct H as (n & Hn & A & Hg & Ht). exists k. split; [done|]. pose proof (agrees_states 4 k n A) as ->.
  destruct A as (_ & HB & Ha). split; [done|]. unfold full_good in Hn. rewrite Hg, Ht in Hn.
  apply andb_true_iff in Hn as [[H1 H2]%andb_true_iff H3]. split; [|split; [|split]].
  - intros i Hi. rewrite forallb_forall in H1. apply H1. by apply list_elem_of_In.
  - intros Hlt. by rewrite (proj2 (Nat.ltb_lt _ _)) in H2 by lia.
  - intros Hge. rewrite (proj2 (Nat.ltb_ge _ _)) in H2 by lia. by bool_facts.
  - intros Hge Hgap. rewrite !(proj2 (Nat.eqb_eq _ _)) in H3 by lia. cbn [andb] in H3. bool_facts. auto.
Qed.

(** The supervisor demonstration halts only as it should: the hog faulted,
    the kill decision applied, and the supervisor and the logger waiting.
    Until then both are alive; it has halted 16 instructions after the fifth
    interrupt at the latest. *)
Theorem supervisor_demo_recovers left status um evs : selected supervised -> length left = 31%nat -> paced 16 true 0 evs = true ->
  match run_demo supervised left status evs (static_state um) with
  | Ret _ k => (forall i, i ∈ [0; 1]%nat -> task_alive i (states 3 k) = true) /\
               ~ ((5 <= tick_count evs)%nat /\ (16 <= gap_after 0 evs)%nat)
  | Stop r k => r = IdleLoop /\ states 3 k = [Blocked; Blocked; Faulted] /\ says_ack (uart_out k)
  | Crash => False
  end.
Proof.
  intros Hsel Hl Hp. pose proof (demo_runs supervised left status um 16 5 supervised_good _ 2000 evs Hsel eq_refl ltac:(done) Hl
    eq_refl supervised_explored Hp) as H. destruct (run_demo _ _ _ _ _) as [[] k|r k|]; [| |done].
  - destruct H as (n & Hn & A & Hg & Ht). rewrite (agrees_states 3 k n A). unfold supervised_good in Hn. rewrite Hg, Ht in Hn.
    apply andb_true_iff in Hn as [H1 H2]. split.
    + intros i Hi. rewrite forallb_forall in H1. apply H1. by apply list_elem_of_In.
    + intros [Hge Hgap]. by rewrite !(proj2 (Nat.eqb_eq _ _)) in H2 by lia.
  - destruct H as (n & Hn & A). rewrite (agrees_states 3 k n A). destruct A as (_ & _ & Ha). unfold halts_in in Hn.
    destruct r; [|done]. bool_facts. cbn [implb] in *. auto.
Qed.

(** A task that never checks in is faulted at the fifth interrupt exactly,
    and the critical task runs from then on. *)
Theorem watchdog_demo_contains left status um evs : selected watched -> length left = 31%nat -> paced 16 true 0 evs = true ->
  exists k, run_demo watched left status evs (static_state um) = Ret tt k /\
    states 2 k = if (tick_count evs <? 5)%nat then [Running; Ready] else [Faulted; Running].
Proof.
  intros Hsel Hl Hp. pose proof (demo_runs watched left status um 16 5 watched_good no_halt 2000 evs Hsel eq_refl ltac:(done) Hl eq_refl
    watched_explored Hp) as H. destruct (run_demo _ _ _ _ _) as [[] k|r k|]; [|by destruct H as (? & ? & _)|done].
  destruct H as (n & Hn & A & Hg & Ht). exists k. split; [done|]. rewrite (agrees_states 2 k n A). unfold watched_good in Hn.
  bool_facts. rewrite Hn, Ht. destruct (Nat.ltb_spec (Nat.min 5 (tick_count evs)) 5), (Nat.ltb_spec (tick_count evs) 5); done || lia.
Qed.

(** C17. A low-priority infinite loop does not starve the high-priority task.  In
    every schedule in which at least 24 instructions run before each
    interrupt (the timer leaves 100,000 cycles), the high-priority task takes
    over at the first interrupt and has exited 24 instructions later, and the
    loop is in the end faulted, before the eighth interrupt, with the kernel
    idle. *)
Theorem preempt_demo_serves left status um evs : selected preempted -> length left = 31%nat -> paced 24 true 0 evs = true ->
  match run_demo preempted left status evs (static_state um) with
  | Ret _ k => (tick_count evs < 8)%nat /\
      (tick_count evs = 0%nat -> states 2 k = [Running; Ready]) /\
      ((1 <= tick_count evs)%nat -> states 2 k = [Ready; Running] \/ states 2 k = [Running; Killed]) /\
      ((1 <= tick_count evs)%nat -> (24 <= gap_after 0 evs)%nat -> states 2 k = [Running; Killed])
  | Stop r k => r = IdleLoop /\ states 2 k = [Faulted; Killed]
  | Crash => False
  end.
Proof.
  intros Hsel Hl Hp. pose proof (demo_runs preempted left status um 24 8 preempted_good _ 2000 evs Hsel eq_refl ltac:(done) Hl
    eq_refl preempted_explored Hp) as H. destruct (run_demo _ _ _ _ _) as [[] k|r k|]; [| |done].
  - destruct H as (n & Hn & A & Hg & Ht). rewrite (agrees_states 2 k n A). unfold preempted_good in Hn. rewrite Hg, Ht in Hn.
    apply andb_true_iff in Hn as [[H1 H2]%andb_true_iff H3]. apply Nat.ltb_lt in H1. split; [lia|]. split; [|split].
    + intros H0. rewrite H0 in H2. cbn in H2. by bool_facts.
    + intros Hge. rewrite (proj2 (Nat.eqb_neq _ _)) in H2 by lia. apply orb_true_iff in H2 as [H2|H2]; bool_facts; auto.
    + intros Hge Hgap. rewrite (proj2 (Nat.leb_le _ _)), (proj2 (Nat.eqb_eq _ _)) in H3 by lia. cbn [andb] in H3. by bool_facts.
  - destruct H as (n & Hn & A). rewrite (agrees_states 2 k n A). unfold halts_in in Hn. destruct r; [|done]. by bool_facts.
Qed.

(** A cooperative demonstration ends: 40 instructions are enough for it to
    halt with every task exited. *)
Definition finishes (d : Demo) (left : list Z) (status : Z) (um : Z -> Z -> Z) (count : nat) : Prop :=
  exists k, run_demo d left status (replicate count Instr) (static_state um) = Stop IdleLoop k /\
    states (length (de_tasks d)) k = replicate (length (de_tasks d)) Killed.

Lemma paced_instrs G timer g count : paced G timer g (replicate count Instr) = true.
Proof. revert g. induction count as [|count IH]; intros g; [done|apply IH]. Qed.
Lemma gap_instrs g count : gap_after g (replicate count Instr) = (g + count)%nat.
Proof.
  revert g. induction count as [|count IH]; intros g; [by rewrite Nat.add_0_r|]. cbn [replicate gap_after foldl gap_step].
  rewrite <- Nat.add_succ_comm. apply IH.
Qed.

Lemma short_finishes d left status um count : selected d -> well_formed d = true -> de_choice d <> COs -> length left = 31%nat ->
  entry_of (P := P1) rt1 L done_pc stack_top OL (de_choice d) = demo_boot rt1 L (de_tasks d) (de_grants d) (de_timer d) ->
  explored d 40 0 short_good (halts_in (length (de_tasks d)) (replicate (length (de_tasks d)) Killed) false) 2000 = true ->
  (40 <= count)%nat -> finishes d left status um count.
Proof.
  intros Hsel Hw Hno Hl He Hx Hc. pose proof (demo_runs d left status um 40 0 short_good _ 2000 (replicate count Instr)
    Hsel Hw Hno Hl He Hx (paced_instrs _ _ _ _)) as H.
  unfold finishes. destruct (run_demo _ _ _ _ _) as [[] k|r k|]; [| |done].
  - destruct H as (n & Hn & _ & Hg & _). unfold short_good in Hn. rewrite Hg, gap_instrs in Hn. apply Nat.ltb_lt in Hn. lia.
  - destruct H as (n & Hn & A). exists k. rewrite (agrees_states _ k n A). unfold halts_in in Hn. destruct r; [|done].
    by bool_facts.
Qed.

(** C18. The cooperative demonstrations terminate: two tasks that yield to each
    other, a message between two tasks, and a task without the capability
    beside one that has it.  After 40 instructions at most every task has
    exited, none is left waiting, and the kernel idles. *)
Theorem cooperative_demos_finish d left status um count : d ∈ [multitasked; messaged; capable] -> selected d ->
  length left = 31%nat -> (40 <= count)%nat -> finishes d left status um count.
Proof.
  intros Hd Hsel Hl Hc. repeat (apply elem_of_cons in Hd as [-> |Hd]); [..|by apply elem_of_nil in Hd].
  - exact (short_finishes multitasked left status um count Hsel eq_refl ltac:(discriminate) Hl eq_refl multitasked_explored Hc).
  - exact (short_finishes messaged left status um count Hsel eq_refl ltac:(discriminate) Hl eq_refl messaged_explored Hc).
  - exact (short_finishes capable left status um count Hsel eq_refl ltac:(discriminate) Hl eq_refl capable_explored Hc).
Qed.

End demos.

(** ** A concrete build *)

Lemma sample_spaces j : (j < 4)%nat -> code_phys Isolation.sample_layout j ∈ᵤ 55 /\ stack_phys Isolation.sample_layout j ∈ᵤ 55.
Proof. intros Hj. unfold uint. change (2 ^ 55) with 36028797018963968. cbn. lia. Qed.

#[export] Instance Choice_eq_dec : EqDecision Choice.
Proof. solve_decision. Defined.
Definition only (c : Choice) : Features :=
  let on c' := bool_decide (c = c') in
  mkFeatures (on COs) (on CFull) (on CSupervisor) (on CCap) (on CIpc) (on CWatchdog) (on CPreempt) (on CMultitask).
Definition sample_run (c : Choice) : Demo -> list Z -> Z -> list event -> M () :=
  run_demo sample_platform sample_time Isolation.sample_size Isolation.sample_layout 0x80202000 0x80240000 Boot.sample_layout (only c).

(** A theorem about the demonstrations, at this build. *)
Abbreviation on_sample thm c :=
  (thm sample_platform sample_time Isolation.sample_size Isolation.sample_layout 0x80202000 0x80240000 Boot.sample_layout (only c)
     Isolation.sample_size_ok Fit.sample_linker_fits eq_refl sample_spaces) (only parsing).

(** Sixteen instructions before each of [n] interrupts, and after them. *)
Definition steady (n : nat) : list event := concat (replicate n (replicate 16 Instr ++ [Tick])) ++ replicate 16 Instr.

Lemma full_demo_contains_witness : exists k,
  sample_run CFull full (replicate 31 7) 0 (steady 6) (static_state blank) = Ret tt k /\
  states 4 k = [Blocked; Blocked; Faulted; Running] /\ says_ack (uart_out k).
Proof.
  destruct (on_sample full_demo_contains CFull
    (replicate 31 7) 0 blank (steady 6) eq_refl eq_refl eq_refl) as (k & E & _ & _ & _ & _ & H).
  exists k. split; [exact E|]. apply H; vm_compute; lia.
Defined.

Lemma watchdog_demo_contains_witness : exists k,
  sample_run CWatchdog watched (replicate 31 7) 0 (steady 7) (static_state blank) = Ret tt k /\ states 2 k = [Faulted; Running].
Proof.
  destruct (on_sample watchdog_demo_contains CWatchdog
    (replicate 31 7) 0 blank (steady 7) eq_refl eq_refl eq_refl) as (k & E & H).
  exists k. split; [exact E|exact H].
Defined.

Lemma supervisor_demo_recovers_witness :
  match sample_run CSupervisor supervised (replicate 31 7) 0 (steady 6) (static_state blank) with
  | Ret _ _ | Crash => False
  | Stop r k => r = IdleLoop /\ states 3 k = [Blocked; Blocked; Faulted] /\ says_ack (uart_out k)
  end.
Proof.
  pose proof (on_sample supervisor_demo_recovers CSupervisor
    (replicate 31 7) 0 blank (steady 6) eq_refl eq_refl eq_refl) as H.
  unfold sample_run. destruct (run_demo _ _ _ _ _ _ _ _ _ _ _ _ _) as [a k|r k|]; [|exact H|exact H].
  destruct H as [_ H]. apply H. vm_compute. lia.
Defined.

(** Twenty-four instructions around one interrupt. *)
Lemma preempt_demo_serves_witness :
  match sample_run CPreempt preempted (replicate 31 7) 0 (replicate 24 Instr ++ [Tick] ++ replicate 24 Instr) (static_state blank) with
  | Ret _ k => states 2 k = [Running; Killed]
  | Stop r k => r = IdleLoop /\ states 2 k = [Faulted; Killed]
  | Crash => False
  end.
Proof.
  pose proof (on_sample preempt_demo_serves CPreempt
    (replicate 31 7) 0 blank (replicate 24 Instr ++ [Tick] ++ replicate 24 Instr) eq_refl eq_refl eq_refl) as H.
  unfold sample_run. destruct (run_demo _ _ _ _ _ _ _ _ _ _ _ _ _) as [a k|r k|]; [|exact H|exact H].
  destruct H as (_ & _ & _ & H). apply H; vm_compute; lia.
Defined.

Lemma cooperative_demos_finish_witness : exists k,
  sample_run CIpc messaged (replicate 31 7) 0 (replicate 40 Instr) (static_state blank) = Stop IdleLoop k /\
  states 2 k = [Killed; Killed].
Proof.
  exact (on_sample cooperative_demos_finish CIpc
    messaged (replicate 31 7) 0 blank 40 ltac:(right; left) eq_refl eq_refl ltac:(lia)).
Defined.

End DemoThms.
